(* ===== verification/_CoqProject ===== *)
-Q . S2P
Prelude.v
GoStrings.v
Regexp.v
Float64.v
GoTime.v
Kube.v
CloudTaskApi.v
CloudTaskController.v
TaskJobController.v
MemKube.v
CloudTaskProofs.v
TaskJobProofs.v
Validators.v
Http.v
Auth.v
RateLimiter.v
RateReset.v
TaskHandler.v
TaskHandlerProofs.v
Router.v
RouterProofs.v
Module1Client.v
Module1Proofs.v
Scaling.v
Keda.v
MockScheduler.v
Scenario.v
Sql.v
Storage.v
StorageProofs.v
Logger.v
Metrics.v
Module1Clients.v
Module1ClientsProofs.v
ApiServer.v
GatewayProofs.v
PubSub.v
PubSubProofs.v
WorkQueue.v
Memory.v
DeepCopy.v
DeepCopyProofs.v
Flags.v
Process.v
Operators.v
OperatorsProofs.v
Programs.v
EndToEnd.v
System.v
