(* ===== verification/Prelude.v ===== *)
(** * CloudOS orchestrator: verification library

    ** The program

    CloudOS runs containers as Kubernetes resources.  Its Go code has these parts
    ([m2] stands for [src/module2-orchestrator]):

    - two operators.  The CloudTask operator ([m2/controllers], with the resource
      and its webhook in [m2/api/v1]) turns a CloudTask into a pod, follows the
      pod's phase, retries and cleans up.  The TaskJob operator
      ([src/internal/controller], [src/api/v1]) does the same for jobs with
      dependencies.  Their programs are [m2/cmd/operator] and [src/cmd], and the
      methods that copy their resources [zz_generated.deepcopy.go] of both APIs;
    - an API in two versions that share JWT and a rate limiter in Redis
      ([m2/pkg/auth]).  The router of [m2/pkg/api/router.go] serves handlers
      ([m2/pkg/api/handlers]) that create, list, read and delete the CloudTasks of
      the caller's tenant in Kubernetes.  The gateway program
      ([m2/cmd/api-gateway]) serves the handlers of [m2/pkg/api/handlers.go],
      which submit tasks to the scheduler;
    - gRPC clients of the scheduler service ([m2/pkg/grpc]), one with retries and
      a circuit breaker, one without, and a mock;
    - a mock of the scheduler service with its program and load scenarios
      ([m2/pkg/mock], [m2/cmd/mock-scheduler]);
    - autoscaling ([m2/pkg/scaling]): the replica calculations, a publisher of the
      queue depth, a metrics collector;
    - the history of executions in PostgreSQL ([m2/pkg/storage]), events over
      Redis and to subscribers in the process ([m2/pkg/pubsub]), structured logs
      ([m2/pkg/logger], [m2/pkg/utils]) and Prometheus metrics ([m2/pkg/metrics],
      [m2/pkg/middleware]).

    The router's handlers write CloudTasks to the Kubernetes API server, the
    webhook defaults and checks them on the way in, and the operator reacts to what
    is stored; the server is the only state the three share.  The gateway program
    calls the scheduler through the interface of the gRPC clients.

    ** The model

    The Go code is embedded shallowly.  A function that has no effect is a Rocq
    function; one that calls the outside runs in [GoM W], which threads an
    outside world [W] and ends in [Ret] or [Panic] ([outcome]).  Errors are values
    of [option] or sum types, as the code returns them.  Integers of a fixed width
    are [Z] with [wrap] where the code's arithmetic can leave the range; floats
    are IEEE binary64 ([Float64]); strings are byte strings; maps are [gmap].
    The bytes of JSON documents and the lines of the logrus loggers are not
    modelled.  Where pointers or slices are shared, the sharing is modelled: the
    statuses of the mock client and the scheduler live in heaps, the subscriber
    lists in backing arrays with a capacity, and the resources that are copied in
    the memory of [Memory], with pointers, slices and maps.  A [main] function runs
    in [Proc W], which goes on or ends the process with a status.

    Code outside the repository is a type class parameter: [K8sTypes], [Client],
    [Clock], [Recorder], [OwnerRefs] (Kubernetes), [Admission] (what the server
    does to a spec), [JwtLib], [Redis], [KedaRedis], [Grpc], [GatewayLib] (the
    JSON decoder, and a conversion the sources call but do not have), [Probes], [TimeFormat], [FloatConv], [SqlDb] (PostgreSQL),
    [Zap], [Prom] (Prometheus), [PubSubEnv] (Redis, channels and the growth of
    slices), [RedisPing], [Sprintf], [RequestFields] (fields the sources use but do
    not declare), [Manager] (controller-runtime), [Logrus], [FlagVars] (flags of
    other packages), [Host] (the network of the gateway), [GoTypes] and
    [ApiMachinery] (the Kubernetes types inside the resources and their own
    methods).  [Module1Client] is the program's own interface; the three
    clients are instances of it, and the gateway is proved against it.  Classes
    whose names end in [Laws] and the [Frame] classes state the documented behaviour that the
    proofs use.  [ClientLaws] takes the API server at its word: reads are current
    (the manager's read cache is not modelled) and a call that fails has no
    effect.  A created pod is stored as defaulting and built-in admission leave it
    ([pod_spec_admitted]); mutating webhooks of other parties that rewrite pods are
    excluded.  Histories are open to others: users submit, edit and delete tasks and
    jobs ([cluster_step], [job_step], [cluster_env], [task_env]), and tenants may
    write the status of CloudTasks, as their role in [m2/config/rbac] allows; where a
    theorem needs a bound on what they write, it says so ([retry_counter_bounded],
    [no_task_forgotten]).  The status of TaskJobs is the controller's alone, as the
    roles in [src/config/rbac] have it.  The theorems hold for every instance; each has a witness on a
    concrete one ([MemKube] is an API server in memory, and the other files have
    small instances of their own), which also shows the laws can hold together.

    ** Files

    - [Prelude]: integers, the monad [GoM] with its Hoare-style [triple] and
      [preserves], the hint database [go] and shared tactics.
    - [GoStrings], [Regexp], [Float64], [GoTime]: what the program uses of Go's
      [strings], [strconv], [regexp], [float64] and [time].
    - [Kube]: object types and the client interface with its laws.
    - [CloudTaskApi]: [cloudtask_types.go], [cloudtask_webhook.go].
    - [CloudTaskController], [CloudTaskProofs]: [cloudtask_controller.go] and
      [pkg/utils/quantity.go]; [Reconcile] is composed of [reconcileDelete],
      [reconcileLive], [reconcilePod], [handlePhase] and [ensurePod], the blocks
      of the Go function between its early returns.
    - [TaskJobController], [TaskJobProofs]: [taskjob_types.go],
      [taskjob_controller.go] ([tj_Reconcile] is its [Reconcile]).
    - [MemKube]: the API server in memory.
    - [Validators]: [pkg/api/types.go], [task_validator.go].
    - [Http]: requests and response writers of [net/http].
    - [Auth]: [jwt.go], [middleware.go].  [RateLimiter]: [ratelimiter.go];
      [RateReset] has the termination of its [ResetTenantLimit].
    - [TaskHandler], [TaskHandlerProofs]: [task_handler.go].
    - [Router], [RouterProofs]: [health_handler.go], [router.go].
    - [Module1Client], [Module1Proofs]: [module1_client.go] and the message types
      of [client.go].
    - [Scaling]: [hpa_calculator.go].  [Keda]: [keda_scaler.go].
    - [MockScheduler]: [scheduler_service.go].  [Scenario]: [scenario_runner.go],
      the RPC handlers and the configuration of [cmd/mock-scheduler/main.go].
    - [Sql]: the statements the store uses and what they do to a table, with the
      schema of [config/postgres/migrations].  [Storage], [StorageProofs]:
      [pkg/storage].
    - [Logger]: [pkg/logger].  [Metrics]: [pkg/metrics], [pkg/middleware] and
      [metrics.go], [scaler.go] of [pkg/scaling].
    - [Module1Clients], [Module1ClientsProofs]: the interface, [RealClient] of
      [client.go] and [mock_client.go].
    - [ApiServer], [GatewayProofs]: [handlers.go], [cmd/api-gateway/main.go];
      [gw_serve] is the whole chain of a request.
    - [PubSub], [PubSubProofs]: [pkg/pubsub].
    - [WorkQueue]: the registration of both controllers and the work queue that
      calls their [Reconcile] functions.
    - [Memory]: pointers, slices and maps, what data denotes and reaches, and the
      contract of a deep copy.  [DeepCopy], [DeepCopyProofs]: the methods of both
      [zz_generated.deepcopy.go].
    - [Flags]: Go's package [flag].  [Process]: programs that end with a status,
      and [pkg/utils/logger.go].
    - [Operators], [OperatorsProofs]: [cmd/operator/main.go], [src/cmd/main.go],
      [groupversion_info.go] of both APIs, [SetupWithManager] of both controllers
      and [SetupWebhookWithManager].
    - [Programs]: the rest of [cmd/api-gateway/main.go] (flags, the wait for a
      signal, shutdown) and of [cmd/mock-scheduler/main.go].
    - [EndToEnd], [System]: the router and the operator together, for one task and
      for any history of the system.

    ** What the theorems show

    - CloudTask operator: one call touches only its task and that task's pod
      ([Reconcile_confined]); starting, deleting and following a pod do what they
      should on every branch ([Reconcile_starts_pod], [Reconcile_deletes],
      [updateStatusFromPod_reflects]); the pod is the one the spec asks for
      ([constructPod_deadline], [constructPod_labels]); over every history of the
      cluster the retry counter stays in bounds, up to what tenants write to it
      ([retry_counter_bounded]); a retry
      never gets a pod while the failed one is there
      ([retry_blocked_by_failed_pod]).  [admitted_well_formed] is the webhook's
      invariant.
    - Work queues: although the CloudTask controller drops every event that leaves
      the generation alone, a stored task is always queued or settled, over every
      history with crashes and restarts in which nobody else reopens a finished task
      ([no_task_forgotten]; [reopened_task_forgotten] is what happens otherwise;
      [no_job_forgotten] for jobs).  Both are instances of [queue_covers].
    - From the request to the pod: a task that the router answered with 201 gets,
      in its tenant's namespace, a pod with the image, command and arguments of
      the request ([created_task_runs]); and over every history of requests,
      calls of [Reconcile] and changes by the cluster nothing appears outside the
      namespaces of tenants with a valid token and those in which others create
      objects without the gateway ([tenant_footprint]).
    - Programs: for every answer of the libraries the operators start their
      manager only when what it needs was set up, and the status says how they
      ended ([operator_start_up], [manager_start_up]); the servers of the TaskJob
      operator are guarded unless the command line says otherwise
      ([manager_servers_guarded]); [gateway_main_served] and
      [mock_shutdown_terminates] are about the end of the other two programs.
    - Copies: a copied CloudTask shares exactly what its volume mounts point to
      ([CloudTask_DeepCopy_independent], [mount_propagation_aliased]); a copied
      list of jobs shares nothing ([TaskJobList_DeepCopy_independent]).
    - TaskJob operator: [dependencies_complete_first], [finished_job_is_final],
      [dependency_cycle_never_starts] are about histories in which users submit, edit
      and delete jobs;
      [syncStatus_reflects_pod] and [tj_Reconcile_panics_only_on_quantities]
      describe one call.
    - Gateway: tenants are isolated, from the handlers
      ([handlers_isolate_tenants]) to the whole router
      ([gateway_isolates_tenants]); tokens are sound and round-trip
      ([ValidateToken_sound], [GenerateToken_ValidateToken]); the limiter bounds
      and separates tenants ([minute_limit_enforced], [Allow_isolates_tenants])
      but the router never applies it ([rate_limit_never_applied]); creation,
      pagination and the accepted strings are characterised exactly
      ([CreateTask_stores_task], [paginate_exact], [ValidateTaskID_ok_iff] and its
      siblings, [gateway_webhook_agree]); [health_routes_panic],
      [missing_task_panics] and [unnamed_tasks_collide] describe failures;
      [ResetTenantLimit_terminates] is total correctness of a reset.
    - Gateway program: what reaches the scheduler is authorised and limited
      ([gateway_submits_authorised], [gateway_rate_limit]), and every answer of the
      create endpoint is characterised ([HandleCreateTask_answers]), for every
      implementation of the client interface;
      [submission_for_other_tenant] shows that the tenant of the body is free.
    - Storage: [GetTaskHistory_refines] relates the statement that is built to an
      abstract query; [store_rows_well_formed] is the invariant of the table;
      [RecordTaskCompletion_exact], [NewPostgresStore_attempts] and
      [GetRecentFailures_fails] describe single calls.
    - Publish/subscribe: [subscribers_refine] (arrays refine lists),
      [publish_delivers] (who gets an event, also when a context ends or a channel is
      closed half-way, [partial_delivery]), [queue_depth_roundtrip], and what an interleaved
      [Unsubscribe] does to a publication
      ([unsubscribe_race_skips_subscriber]).
    - Logging and metrics: [RequestLoggingMiddleware_spec],
      [log_writer_transparent], [metrics_writer_transparent],
      [MetricsHandler_spec], [RecoveryMiddleware_recovers],
      [panicking_request_not_counted]; the metrics are made once and given the
      labels they were declared with ([NewGatewayMetrics_once],
      [record_functions_return]).
    - Scheduler client: the breaker under every interleaving of its critical
      sections ([circuit_opens_only_after_failures],
      [half_open_tolerates_failures]), the attempts of one call
      ([call_attempts]), and their interplay
      ([refused_cancellations_open_circuit]).
    - Autoscaling: [CalculateDesiredReplicas_exact], [hpa_keda_agree],
      [MakeScalingDecision_sound]; the life cycle of the publisher
      ([keda_at_most_one_loop], [keda_stops_once], [publish_tick_mirrors_queue]).
    - Mock scheduler: [queue_depth_counts_goroutines] and, with cancellations,
      [cancelled_task_completes]; over it, [scenario_only_submits] and
      [stop_does_not_stop].

    ** Fuel and termination

    All functions are total.  [duration_loop] carries fuel; [duration_loop_fuel]
    proves that the length of the string is enough.  [connect_loop], [retry_loop]
    and [open_loop] recurse on the number of attempts, [deliver_loop] on the length
    of the slice it ranges over.  [reset_loop] of [ResetTenantLimit] follows Redis'
    scan cursor and carries fuel; [ResetTenantLimit_terminates] proves that some
    amount is enough for every state of the server, from the documented end of a
    scan ([ScanLaws]), and that more changes nothing.  Goroutines and loops that
    run for ever are step relations ([cluster_step], [job_step], [sched_step],
    [keda_step], [breaker_run], [store_step], [scenario_step], [loop_step],
    [sys_run], [mock_step]), one step per critical section or event.  [flag_parse] recurses on
    the arguments.

    ** Not modelled

    Generated protobuf messages and stubs; the read cache of the manager and the
    scheduling of its queue beyond [loop_step]; that a second signal ends an operator
    at once; the lines of the legacy loggers; the
    sizes of the connection pool; the redirects of [http.ServeMux] for paths that
    are not clean; [ServeMetrics] and the getters of the metrics collector; test
    utilities; the
    Python gateway under [src/gateway]. *)

From stdpp Require Export base tactics numbers list gmap sets strings pretty.
From stdpp Require Export relations fin_maps.
From Stdlib Require Export ZArith Lia.

Open Scope Z_scope.

(** ** Go integers of a fixed width

    A Go value of type [intW] is a [Z] in the signed range of width [W];
    arithmetic is done in [Z] and brought back with [wrap W]. *)

Definition wrap (w z : Z) : Z := (z + 2 ^ (w - 1)) mod 2 ^ w - 2 ^ (w - 1).

Abbreviation int32 := (wrap 32).
Abbreviation int64 := (wrap 64).

Definition in_width (w z : Z) : Prop := - 2 ^ (w - 1) <= z < 2 ^ (w - 1).

Abbreviation is_int32 := (in_width 32).
Abbreviation is_int64 := (in_width 64).

#[export] Instance in_width_dec w z : Decision (in_width w z).
Proof. unfold in_width. apply _. Defined.

Lemma wrap_in_width w z : 0 < w -> in_width w (wrap w z).
Proof.
  intros Hw. unfold in_width, wrap.
  assert (2 ^ w = 2 * 2 ^ (w - 1)) as E
    by (rewrite <- Z.pow_succ_r by lia; f_equal; lia).
  assert (0 < 2 ^ (w - 1)) by (apply Z.pow_pos_nonneg; lia).
  pose proof (Z.mod_pos_bound (z + 2 ^ (w - 1)) (2 ^ w)). lia.
Qed.

Lemma wrap_id w z : 0 < w -> in_width w z -> wrap w z = z.
Proof.
  intros Hw [H1 H2]. unfold wrap.
  assert (2 ^ w = 2 * 2 ^ (w - 1)) as E
    by (rewrite <- Z.pow_succ_r by lia; f_equal; lia).
  rewrite Z.mod_small; lia.
Qed.

Lemma wrap_idemp w z : 0 < w -> wrap w (wrap w z) = wrap w z.
Proof. intros. apply wrap_id; [done|]. by apply wrap_in_width. Qed.

(** Go's [/] on integers truncates towards zero and panics on a zero divisor;
    the panic is in [go_div] below. *)

(** ** Outcomes: a Go call returns or panics *)

Inductive outcome (A : Type) : Type :=
| Ret (a : A)
| Panic (msg : string).
Arguments Ret {A} a.
Arguments Panic {A} msg.

Definition go_div (w a b : Z) : outcome Z :=
  if decide (b = 0) then Panic "runtime error: integer divide by zero"
  else Ret (wrap w (Z.quot a b)).

(** ** The state-and-panic monad the effectful components are written in

    [GoM W A] is a computation over the outside world [W] (the API server, a
    Redis server, a clock ...) that returns an [A] or panics.  Go's multiple
    results [(x, err)] are ordinary values of [A]. *)

Definition GoM (W A : Type) : Type := W -> outcome A * W.

#[export] Instance GoM_ret W : MRet (GoM W) := fun A a w => (Ret a, w).
#[export] Instance GoM_bind W : MBind (GoM W) := fun A B k m w =>
  match m w with
  | (Ret a, w') => k a w'
  | (Panic e, w') => (Panic e, w')
  end.

Definition go_panic {W A} (msg : string) : GoM W A := fun w => (Panic msg, w).

Lemma GoM_bind_ret {W A B} (m : GoM W A) (k : A -> GoM W B) w a w' :
  m w = (Ret a, w') -> (m ≫= k) w = k a w'.
Proof. intros E. unfold mbind, GoM_bind. by rewrite E. Qed.

Lemma GoM_bind_panic {W A B} (m : GoM W A) (k : A -> GoM W B) w e w' :
  m w = (Panic e, w') -> (m ≫= k) w = (Panic e, w').
Proof. intros E. unfold mbind, GoM_bind. by rewrite E. Qed.

Lemma GoM_ret_run {W A} (a : A) (w : W) : (mret a : GoM W A) w = (Ret a, w).
Proof. done. Qed.

Lemma GoM_mret_bind {W A B} (a : A) (k : A -> GoM W B) w : (mret a ≫= k) w = k a w.
Proof. done. Qed.

(** Hoare triples for [GoM]: from a world satisfying [P], a computation that
    returns does so in a world (and with a value) satisfying [Q], and one that
    panics leaves a world satisfying [R]. *)

Definition triple {W A} (P : W -> Prop) (m : GoM W A) (Q : A -> W -> Prop)
    (R : string -> W -> Prop) : Prop :=
  forall w, P w ->
    match m w with
    | (Ret a, w') => Q a w'
    | (Panic e, w') => R e w'
    end.

Lemma triple_ret {W A} (P : W -> Prop) (a : A) (Q : A -> W -> Prop) R :
  (forall w, P w -> Q a w) -> triple P (mret a) Q R.
Proof. intros H w Hw. by apply H. Qed.

Lemma triple_bind {W A B} P (m : GoM W A) (k : A -> GoM W B) Q Q' R :
  triple P m Q R -> (forall a, triple (Q a) (k a) Q' R) ->
  triple P (m ≫= k) Q' R.
Proof.
  intros Hm Hk w Hw. specialize (Hm w Hw).
  unfold mbind, GoM_bind. destruct (m w) as [[a|e] w']; [|done].
  by apply (Hk a w').
Qed.

Lemma triple_conseq {W A} (P P' : W -> Prop) (m : GoM W A) (Q Q' : A -> W -> Prop)
    (R R' : string -> W -> Prop) :
  triple P' m Q' R' -> (forall w, P w -> P' w) ->
  (forall a w, Q' a w -> Q a w) -> (forall e w, R' e w -> R e w) ->
  triple P m Q R.
Proof.
  intros Ht HP HQ HR w Hw. specialize (Ht w (HP w Hw)).
  destruct (m w) as [[a|e] w']; eauto.
Qed.

(** A computation that keeps an invariant of the world, whatever it returns. *)

Definition preserves {W A} (I : W -> Prop) (m : GoM W A) : Prop :=
  triple I m (fun _ => I) (fun _ => I).

Lemma preserves_ret {W A} (I : W -> Prop) (a : A) : preserves I (mret a).
Proof. by intros w Hw. Qed.

Lemma preserves_panic {W A} (I : W -> Prop) msg :
  preserves I (go_panic (A := A) msg).
Proof. by intros w Hw. Qed.

Lemma preserves_bind {W A B} (I : W -> Prop) (m : GoM W A) (k : A -> GoM W B) :
  preserves I m -> (forall a, preserves I (k a)) -> preserves I (m ≫= k).
Proof. intros Hm Hk. eapply triple_bind; eauto. Qed.

(** ** Automation *)

Create HintDb go.
#[export] Hint Resolve preserves_ret preserves_panic preserves_bind : go.

(** Step through a [GoM] program: split binds, cases and returns. *)
Ltac preserves_step :=
  match goal with
  | |- preserves _ (mret _) => apply preserves_ret
  | |- preserves _ (go_panic _) => apply preserves_panic
  | |- preserves _ (_ ≫= _) => apply preserves_bind; [|intros ?]
  | |- preserves _ (match ?x with _ => _ end) => destruct x eqn:?
  | |- preserves _ (let '_ := _ in _) => cbn zeta
  end.
Ltac preserves_auto := repeat first [progress preserves_step | solve [eauto with go]].

(** Decide every [if decide] in the goal and close what is inconsistent. *)
Ltac case_decides := repeat (case_decide; simplify_eq/=); try done.

(** ** Options and booleans *)

Lemma bool_decide_if {A} (P : Prop) `{!Decision P} (x y : A) :
  (if bool_decide P then x else y) = (if decide P then x else y).
Proof. destruct (decide P); by case_bool_decide. Qed.
