(* ===== verification/GoStrings.v ===== *)
(** * The parts of Go's [strings], [strconv] and [fmt] packages the program uses

    Strings are byte strings.  [fmt.Sprintf] with [%d] is stdpp's [pretty] on
    [Z]; [%s] is concatenation.  The lemmas at the end are the ones the
    components share: which characters a decimal rendering contains, and that a
    colon-separated key determines its fields. *)

From Stdlib Require Import Ascii.
From S2P Require Import Prelude.

Definition str_len (s : string) : Z := Z.of_nat (String.length s).

(** ** [strings.TrimPrefix], [strings.Split], [strings.SplitN] *)

Fixpoint strip_prefix (p s : string) : option string :=
  match p, s with
  | EmptyString, _ => Some s
  | String a p', String b s' =>
      if decide (a = b) then strip_prefix p' s' else None
  | _, _ => None
  end.

Definition trim_prefix (p s : string) : string := default s (strip_prefix p s).

(** [split c s]: the pieces of [s] between the bytes [c]; never empty. *)
Fixpoint split (c : ascii) (s : string) : list string :=
  match s with
  | EmptyString => [""]
  | String a s' =>
      if decide (a = c) then "" :: split c s'
      else match split c s' with
           | [] => [String a ""]
           | p :: ps => String a p :: ps
           end
  end.

(** [split2 c s] is [strings.SplitN(s, c, 2)]: one piece when [c] is absent,
    otherwise the text before the first [c] and all the text after it. *)
Fixpoint split2 (c : ascii) (s : string) : string * option string :=
  match s with
  | EmptyString => ("", None)
  | String a s' =>
      if decide (a = c) then ("", Some s')
      else let '(p, r) := split2 c s' in (String a p, r)
  end.

(** ** [strings.ToLower] on ASCII letters *)

Definition lower_ascii (a : ascii) : ascii :=
  let n := nat_of_ascii a in
  if (65 <=? n)%nat && (n <=? 90)%nat then ascii_of_nat (n + 32) else a.

Fixpoint to_lower (s : string) : string :=
  match s with
  | EmptyString => EmptyString
  | String a s' => String (lower_ascii a) (to_lower s')
  end.

(** ** Character classes *)

Definition in_range (lo hi a : ascii) : bool :=
  ((nat_of_ascii lo <=? nat_of_ascii a) && (nat_of_ascii a <=? nat_of_ascii hi))%nat.

Definition is_digit (a : ascii) : bool := in_range "0" "9" a.
Definition is_lower (a : ascii) : bool := in_range "a" "z" a.
Definition is_upper (a : ascii) : bool := in_range "A" "Z" a.

Fixpoint str_forall (p : ascii -> bool) (s : string) : bool :=
  match s with
  | EmptyString => true
  | String a s' => p a && str_forall p s'
  end.

(** ** [strconv.ParseInt(s, 10, bits)] and [strconv.Atoi] *)

Definition digit_val (a : ascii) : Z := Z.of_nat (nat_of_ascii a) - 48.

Fixpoint digits_val (acc : Z) (s : string) : Z :=
  match s with
  | EmptyString => acc
  | String a s' => digits_val (10 * acc + digit_val a) s'
  end.

(** An unsigned decimal: at least one byte, digits only. *)
Definition parse_digits (s : string) : option Z :=
  match s with
  | EmptyString => None
  | _ => if str_forall is_digit s then Some (digits_val 0 s) else None
  end.

Definition parse_int (bits : Z) (s : string) : option Z :=
  let '(neg, body) :=
    match s with
    | String a s' =>
        if decide (a = "-"%char) then (true, s')
        else if decide (a = "+"%char) then (false, s')
        else (false, s)
    | EmptyString => (false, s)
    end in
  match parse_digits body with
  | Some n =>
      let z := if neg : bool then - n else n in
      if decide (in_width bits z) then Some z else None
  | None => None
  end.

Abbreviation atoi := (parse_int 64).

(** ** Lemmas *)

Lemma append_cons a s t : String a s +:+ t = String a (s +:+ t).
Proof. done. Qed.

Lemma append_nil_l t : "" +:+ t = t.
Proof. done. Qed.

Lemma append_nil_r s : s +:+ "" = s.
Proof. induction s as [|a s IH]; [done|]. by rewrite append_cons, IH. Qed.

Lemma append_assoc s t u : (s +:+ t) +:+ u = s +:+ (t +:+ u).
Proof. induction s as [|a s IH]; [done|]. by rewrite !append_cons, IH. Qed.

Lemma length_append s t : String.length (s +:+ t) = (String.length s + String.length t)%nat.
Proof. induction s as [|a s IH]; [done|]. rewrite append_cons. simpl. by rewrite IH. Qed.

Lemma append_inj_l s t u : s +:+ t = s +:+ u -> t = u.
Proof. induction s as [|a s IH]; [done|]. rewrite !append_cons. intros [= H]. auto. Qed.

Lemma append_ne_nil_r s a t : s +:+ String a t <> "".
Proof. destruct s; done. Qed.

Create Rewrite HintDb gostr.
#[export] Hint Rewrite append_cons append_nil_l append_nil_r append_assoc
  length_append : gostr.

Lemma str_forall_app p s t : str_forall p (s +:+ t) = str_forall p s && str_forall p t.
Proof.
  induction s as [|a s IH]; [done|]. rewrite append_cons. simpl.
  by rewrite IH, andb_assoc.
Qed.

Lemma str_forall_ext (p q : ascii -> bool) s :
  (forall a, p a = q a) -> str_forall p s = str_forall q s.
Proof. intros H. induction s as [|a s IH]; simpl; [done|]. by rewrite H, IH. Qed.

Lemma str_forall_impl (p q : ascii -> bool) s :
  (forall a, p a = true -> q a = true) -> str_forall p s = true -> str_forall q s = true.
Proof.
  intros Hpq. induction s as [|a s IH]; [done|]. simpl.
  rewrite !andb_true_iff. intros [??]. auto.
Qed.

Lemma strip_prefix_app p s : strip_prefix p (p +:+ s) = Some s.
Proof.
  induction p as [|a p IH]; [done|]. rewrite append_cons. simpl.
  by rewrite decide_True.
Qed.

Lemma strip_prefix_Some p s t : strip_prefix p s = Some t -> s = p +:+ t.
Proof.
  revert s. induction p as [|a p IH]; intros s; simpl; [naive_solver|].
  destruct s as [|b s]; [done|]. case_decide; [|done]. subst. intros H.
  rewrite append_cons. f_equal. auto.
Qed.

(** Splitting on [c] a string that starts with a [c]-free piece. *)
Lemma split_head c s t :
  str_forall (fun a => negb (bool_decide (a = c))) s = true ->
  split c (s +:+ String c t) = s :: split c t.
Proof.
  induction s as [|a s IH]; intros H; simpl in H.
  - rewrite append_nil_l. simpl. by rewrite decide_True.
  - apply andb_true_iff in H as [Ha Hs]. apply negb_true_iff, bool_decide_eq_false in Ha.
    rewrite append_cons. simpl. rewrite decide_False by done. by rewrite IH.
Qed.

Lemma split_no_sep c s :
  str_forall (fun a => negb (bool_decide (a = c))) s = true -> split c s = [s].
Proof.
  induction s as [|a s IH]; intros H; simpl in H; [done|].
  apply andb_true_iff in H as [Ha Hs]. apply negb_true_iff, bool_decide_eq_false in Ha.
  simpl. rewrite decide_False by done. by rewrite IH.
Qed.

(** *** Decimal renderings *)

Lemma pretty_N_char_digit n : is_digit (pretty_N_char n) = true.
Proof. unfold pretty_N_char. by repeat case_match. Qed.

Lemma pretty_N_go_digits n s :
  str_forall is_digit s = true -> str_forall is_digit (pretty_N_go n s) = true.
Proof.
  revert s. induction (N.lt_wf_0 n) as [n _ IH]; intros s Hs.
  destruct (decide (n = 0)%N) as [->|Hn]; [by rewrite pretty_N_go_0|].
  rewrite pretty_N_go_step by lia. apply IH; [by apply N.div_lt; lia|].
  simpl. by rewrite pretty_N_char_digit.
Qed.

Lemma pretty_N_digits (n : N) : str_forall is_digit (pretty n) = true.
Proof.
  unfold pretty, pretty_N. case_decide; [done|]. by apply pretty_N_go_digits.
Qed.

Lemma pretty_Z_no_colon (z : Z) :
  str_forall (fun a => negb (bool_decide (a = ":"%char))) (pretty z) = true.
Proof.
  assert (forall a, is_digit a = true -> negb (bool_decide (a = ":"%char)) = true) as Hd.
  { intros a Ha. apply negb_true_iff, bool_decide_eq_false. by intros ->. }
  destruct z as [|p|p]; [done| |].
  - eapply str_forall_impl; [apply Hd|]. apply (pretty_N_digits (Npos p)).
  - change (pretty (Z.neg p)) with ("-" +:+ pretty (Npos p)).
    rewrite str_forall_app. apply andb_true_iff; split; [done|].
    eapply str_forall_impl; [apply Hd|]. apply (pretty_N_digits (Npos p)).
Qed.

(** *** Keys with a last field that has no separator *)

Lemma last_field_inj c s1 s2 t1 t2 :
  str_forall (fun a => negb (bool_decide (a = c))) t1 = true ->
  str_forall (fun a => negb (bool_decide (a = c))) t2 = true ->
  s1 +:+ String c t1 = s2 +:+ String c t2 -> s1 = s2 /\ t1 = t2.
Proof.
  assert (forall s t, str_forall (fun a => negb (bool_decide (a = c))) (s +:+ String c t) = false)
    as Hno.
  { intros s t. rewrite str_forall_app. simpl. rewrite bool_decide_true by done.
    simpl. by rewrite andb_false_r. }
  revert s2. induction s1 as [|a s1 IH]; intros [|b s2] H1 H2; rewrite ?append_cons, ?append_nil_l.
  - by intros [= ->].
  - intros [= -> E]. subst t1. by rewrite Hno in H1.
  - intros [= -> E]. subst t2. by rewrite Hno in H2.
  - intros [= -> E]. destruct (IH s2 H1 H2 E) as [-> ->]. done.
Qed.
