(* ===== verification/Regexp.v ===== *)
(** * Regular expressions (Go's [regexp] package on the anchored patterns used here)

    Every pattern of the program is anchored at both ends and uses character
    classes, grouping, alternation, [*], [+], [?] and a bounded repetition.
    [rx_match] is an executable matcher by derivatives; [rx_lang] is the usual
    language of a pattern, and [rx_match_spec] says the matcher decides it. *)

From Stdlib Require Import Ascii.
From S2P Require Import Prelude GoStrings.

Inductive regexp : Type :=
| RVoid
| REps
| RClass (p : ascii -> bool)
| RSeq (r1 r2 : regexp)
| RAlt (r1 r2 : regexp)
| RStar (r : regexp).

(** [r+], [r?] and [r{0,n}]. *)
Definition RPlus (r : regexp) : regexp := RSeq r (RStar r).
Definition ROpt (r : regexp) : regexp := RAlt REps r.
Fixpoint RUpTo (n : nat) (r : regexp) : regexp :=
  match n with
  | O => REps
  | S n' => RAlt REps (RSeq r (RUpTo n' r))
  end.

(** A literal string. *)
Fixpoint RLit (s : string) : regexp :=
  match s with
  | EmptyString => REps
  | String a s' => RSeq (RClass (fun b => bool_decide (b = a))) (RLit s')
  end.

(** ** The language of a pattern *)

Inductive rx_lang : regexp -> string -> Prop :=
| lang_eps : rx_lang REps ""
| lang_class p a : p a = true -> rx_lang (RClass p) (String a "")
| lang_seq r1 r2 s1 s2 :
    rx_lang r1 s1 -> rx_lang r2 s2 -> rx_lang (RSeq r1 r2) (s1 +:+ s2)
| lang_alt_l r1 r2 s : rx_lang r1 s -> rx_lang (RAlt r1 r2) s
| lang_alt_r r1 r2 s : rx_lang r2 s -> rx_lang (RAlt r1 r2) s
| lang_star_nil r : rx_lang (RStar r) ""
| lang_star_cons r s1 s2 :
    rx_lang r s1 -> rx_lang (RStar r) s2 -> rx_lang (RStar r) (s1 +:+ s2).

Create HintDb rx.
#[export] Hint Constructors rx_lang : rx.

(** ** The matcher *)

Definition mk_seq (r1 r2 : regexp) : regexp :=
  match r1, r2 with
  | RVoid, _ => RVoid
  | _, RVoid => RVoid
  | REps, _ => r2
  | _, REps => r1
  | _, _ => RSeq r1 r2
  end.

Definition mk_alt (r1 r2 : regexp) : regexp :=
  match r1, r2 with
  | RVoid, _ => r2
  | _, RVoid => r1
  | _, _ => RAlt r1 r2
  end.

Fixpoint nullable (r : regexp) : bool :=
  match r with
  | RVoid | RClass _ => false
  | REps | RStar _ => true
  | RSeq r1 r2 => nullable r1 && nullable r2
  | RAlt r1 r2 => nullable r1 || nullable r2
  end.

Fixpoint deriv (a : ascii) (r : regexp) : regexp :=
  match r with
  | RVoid | REps => RVoid
  | RClass p => if p a then REps else RVoid
  | RSeq r1 r2 =>
      if nullable r1 then mk_alt (mk_seq (deriv a r1) r2) (deriv a r2)
      else mk_seq (deriv a r1) r2
  | RAlt r1 r2 => mk_alt (deriv a r1) (deriv a r2)
  | RStar r1 => mk_seq (deriv a r1) (RStar r1)
  end.

Fixpoint rx_match (r : regexp) (s : string) : bool :=
  match s with
  | EmptyString => nullable r
  | String a s' => rx_match (deriv a r) s'
  end.

(** ** Inversion lemmas *)

Lemma lang_void_inv s : ~ rx_lang RVoid s.
Proof. inversion 1. Qed.

Lemma lang_eps_iff s : rx_lang REps s <-> s = "".
Proof. split; [by inversion 1 | intros ->; auto with rx]. Qed.

Lemma lang_class_iff p s : rx_lang (RClass p) s <-> exists a, s = String a "" /\ p a = true.
Proof. split; [inversion 1; eauto | intros (a & -> & ?); auto with rx]. Qed.

Lemma lang_seq_iff r1 r2 s :
  rx_lang (RSeq r1 r2) s <-> exists s1 s2, s = s1 +:+ s2 /\ rx_lang r1 s1 /\ rx_lang r2 s2.
Proof. split; [inversion 1; eauto | intros (s1 & s2 & -> & ? & ?); auto with rx]. Qed.

Lemma lang_alt_iff r1 r2 s : rx_lang (RAlt r1 r2) s <-> rx_lang r1 s \/ rx_lang r2 s.
Proof. split; [inversion 1; eauto | intros [?|?]; auto with rx]. Qed.

(** A nonempty word of [r*] starts with a nonempty word of [r]. *)
Lemma lang_star_cons_inv r a s :
  rx_lang (RStar r) (String a s) ->
  exists s1 s2, s = s1 +:+ s2 /\ rx_lang r (String a s1) /\ rx_lang (RStar r) s2.
Proof.
  intros H. remember (RStar r) as R eqn:ER. remember (String a s) as w eqn:Ew.
  revert r a s ER Ew. induction H as [| | | | | |r' s1 s2 H1 IH1 H2 IH2];
    intros r0 a0 s0 ER Ew; simplify_eq.
  destruct s1 as [|b s1].
  - rewrite append_nil_l in Ew. by eapply IH2.
  - rewrite append_cons in Ew. simplify_eq. eauto.
Qed.

Lemma lang_seq_cons_iff r1 r2 a s :
  rx_lang (RSeq r1 r2) (String a s) <->
    (exists s1 s2, s = s1 +:+ s2 /\ rx_lang r1 (String a s1) /\ rx_lang r2 s2) \/
    (rx_lang r1 "" /\ rx_lang r2 (String a s)).
Proof.
  rewrite lang_seq_iff. split.
  - intros ([|b s1] & s2 & E & H1 & H2).
    + rewrite append_nil_l in E. subst s2. auto.
    + rewrite append_cons in E. simplify_eq. left; eauto.
  - intros [(s1 & s2 & -> & H1 & H2)|[H1 H2]].
    + exists (String a s1), s2. by rewrite append_cons.
    + by exists "", (String a s).
Qed.

(** ** Correctness of the matcher *)

Lemma mk_seq_lang r1 r2 s : rx_lang (mk_seq r1 r2) s <-> rx_lang (RSeq r1 r2) s.
Proof.
  assert (forall r s, rx_lang (RSeq r REps) s <-> rx_lang r s) as Hr.
  { intros r t. rewrite lang_seq_iff. setoid_rewrite lang_eps_iff. split.
    - intros (s1 & s2 & -> & H & ->). by rewrite append_nil_r.
    - intros H. exists t, "". by rewrite append_nil_r. }
  assert (forall r s, rx_lang (RSeq REps r) s <-> rx_lang r s) as Hl.
  { intros r t. rewrite lang_seq_iff. setoid_rewrite lang_eps_iff. naive_solver. }
  assert (forall r s, ~ rx_lang (RSeq RVoid r) s) as Hv1.
  { intros r t. rewrite lang_seq_iff. intros (? & ? & _ & []%lang_void_inv & _). }
  assert (forall r s, ~ rx_lang (RSeq r RVoid) s) as Hv2.
  { intros r t. rewrite lang_seq_iff. intros (? & ? & _ & _ & []%lang_void_inv). }
  pose proof lang_void_inv.
  destruct r1, r2; simpl; first [done | by rewrite Hr | by rewrite Hl | naive_solver].
Qed.

Lemma mk_alt_lang r1 r2 s : rx_lang (mk_alt r1 r2) s <-> rx_lang (RAlt r1 r2) s.
Proof.
  rewrite lang_alt_iff. pose proof (lang_void_inv s).
  destruct r1, r2; simpl; rewrite ?lang_alt_iff; naive_solver.
Qed.

Lemma nullable_lang r : nullable r = true <-> rx_lang r "".
Proof.
  induction r; simpl.
  - split; [done|]. by intros []%lang_void_inv.
  - split; auto with rx.
  - split; [done|]. rewrite lang_class_iff. naive_solver.
  - rewrite andb_true_iff, IHr1, IHr2, lang_seq_iff. split.
    + intros [??]. by exists "", "".
    + intros ([|] & [|] & E & ? & ?); done.
  - rewrite orb_true_iff, IHr1, IHr2. by rewrite lang_alt_iff.
  - split; auto with rx.
Qed.

Lemma deriv_lang a r s : rx_lang (deriv a r) s <-> rx_lang r (String a s).
Proof.
  revert s. induction r as [| |p|r1 IH1 r2 IH2|r1 IH1 r2 IH2|r IH]; intros s; simpl.
  - split; intros []%lang_void_inv.
  - rewrite lang_eps_iff. split; [intros []%lang_void_inv|done].
  - rewrite lang_class_iff. destruct (p a) eqn:Hp.
    + rewrite lang_eps_iff. split; [intros ->; eauto | by intros (b & [= <- ->] & _)].
    + split; [intros []%lang_void_inv | intros (b & [= <- ->] & Hb); congruence].
  - assert (rx_lang (mk_seq (deriv a r1) r2) s <->
      exists s1 s2, s = s1 +:+ s2 /\ rx_lang r1 (String a s1) /\ rx_lang r2 s2) as Hs.
    { rewrite mk_seq_lang, lang_seq_iff. by setoid_rewrite IH1. }
    rewrite lang_seq_cons_iff. destruct (nullable r1) eqn:En.
    + apply nullable_lang in En. rewrite mk_alt_lang, lang_alt_iff, Hs, IH2. naive_solver.
    + rewrite Hs. split; [auto|]. intros [?|[H _]]; [done|].
      apply nullable_lang in H. congruence.
  - rewrite mk_alt_lang, !lang_alt_iff. by rewrite IH1, IH2.
  - rewrite mk_seq_lang, lang_seq_iff. setoid_rewrite IH. split.
    + intros (s1 & s2 & -> & ? & ?). change (String a (s1 +:+ s2)) with (String a s1 +:+ s2).
      auto with rx.
    + apply lang_star_cons_inv.
Qed.

Lemma rx_match_spec r s : rx_match r s = true <-> rx_lang r s.
Proof.
  revert r. induction s as [|a s IH]; intros r; simpl.
  - apply nullable_lang.
  - by rewrite IH, deriv_lang.
Qed.

(** ** Languages of the shapes the patterns are built from *)

Lemma lang_star_class p s : rx_lang (RStar (RClass p)) s <-> str_forall p s = true.
Proof.
  split.
  - intros H. remember (RStar (RClass p)) as R eqn:ER. revert ER.
    induction H as [| | | | |r|r s1 s2 H1 _ H2 IH]; intros ER; simplify_eq; [done|].
    apply lang_class_iff in H1 as (a & -> & Ha). simpl.
    apply andb_true_iff; auto.
  - induction s as [|a s IH]; simpl; [auto with rx|].
    intros [Ha Hs]%andb_true_iff.
    change (String a s) with (String a "" +:+ s). auto with rx.
Qed.

Lemma lang_plus_class p s :
  rx_lang (RPlus (RClass p)) s <-> s <> "" /\ str_forall p s = true.
Proof.
  unfold RPlus. rewrite lang_seq_iff. setoid_rewrite lang_star_class.
  setoid_rewrite lang_class_iff. split.
  - intros (? & s2 & -> & (a & -> & Ha) & H). split; [done|]. simpl. by rewrite Ha.
  - destruct s as [|a s]; [naive_solver|]. intros [_ [Ha Hs]%andb_true_iff].
    exists (String a ""), s. eauto.
Qed.

Lemma lang_alt_class p q s :
  rx_lang (RAlt (RClass p) (RClass q)) s <-> rx_lang (RClass (fun a => p a || q a)) s.
Proof.
  rewrite lang_alt_iff, !lang_class_iff. setoid_rewrite orb_true_iff. naive_solver.
Qed.

Lemma lang_star_mono r r' s :
  (forall t, rx_lang r t -> rx_lang r' t) -> rx_lang (RStar r) s -> rx_lang (RStar r') s.
Proof.
  intros Hr H. remember (RStar r) as R eqn:ER. revert ER.
  induction H as [| | | | |r0|r0 s1 s2 H1 _ H2 IH]; intros ER; simplify_eq; auto with rx.
Qed.

Lemma lang_star_iff r r' :
  (forall t, rx_lang r t <-> rx_lang r' t) ->
  forall s, rx_lang (RStar r) s <-> rx_lang (RStar r') s.
Proof. intros Hr s. split; apply lang_star_mono; naive_solver. Qed.

Lemma lang_opt r s : rx_lang (ROpt r) s <-> s = "" \/ rx_lang r s.
Proof. unfold ROpt. by rewrite lang_alt_iff, lang_eps_iff. Qed.

Lemma lang_lit t s : rx_lang (RLit t) s <-> s = t.
Proof.
  revert s. induction t as [|a t IH]; intros s; simpl; [by rewrite lang_eps_iff|].
  rewrite lang_seq_iff. setoid_rewrite IH. setoid_rewrite lang_class_iff. split.
  - intros (? & ? & -> & (b & -> & Hb) & ->). apply bool_decide_eq_true in Hb. by subst.
  - intros ->. exists (String a ""), t. split; [done|]. split; [|done].
    exists a. by rewrite bool_decide_true.
Qed.

Lemma lang_upto_class n p s :
  rx_lang (RUpTo n (RClass p)) s <-> str_forall p s = true /\ (String.length s <= n)%nat.
Proof.
  revert s. induction n as [|n IH]; intros s; simpl.
  - rewrite lang_eps_iff. destruct s; simpl; split; [done|done|done|lia].
  - rewrite lang_alt_iff, lang_eps_iff, lang_seq_iff. setoid_rewrite IH.
    setoid_rewrite lang_class_iff. split.
    + intros [->|(? & s2 & -> & (a & -> & Ha) & H & Hl)].
      * simpl. split; [done|lia].
      * rewrite append_cons, append_nil_l. simpl. rewrite Ha. split; [done|lia].
    + destruct s as [|a s]; [auto|]. simpl. intros [[Ha Hs]%andb_true_iff Hl].
      right. exists (String a ""), s. split; [done|]. split; [eauto|]. split; [done|lia].
Qed.

(** A string of [p], with first and last byte in [q]: the shape
    [q(p*q)?] of the name patterns. *)
Fixpoint last_is (q : ascii -> bool) (s : string) : bool :=
  match s with
  | EmptyString => false
  | String a EmptyString => q a
  | String _ s' => last_is q s'
  end.

Definition first_is (q : ascii -> bool) (s : string) : bool :=
  match s with EmptyString => false | String a _ => q a end.

Lemma last_is_snoc q s a : last_is q (s +:+ String a "") = q a.
Proof.
  induction s as [|b s IH]; [done|]. rewrite append_cons. simpl.
  destruct (s +:+ String a "") eqn:E; [by apply append_ne_nil_r in E|done].
Qed.

Lemma string_snoc_inv s : s <> "" -> exists s' a, s = s' +:+ String a "".
Proof.
  induction s as [|b s IH]; [done|]. intros _.
  destruct (decide (s = "")) as [->|Hs]; [by exists "", b|].
  destruct (IH Hs) as (s' & a & ->). by exists (String b s'), a.
Qed.

Definition RName (p q : ascii -> bool) : regexp :=
  RSeq (RClass q) (ROpt (RSeq (RStar (RClass p)) (RClass q))).

Lemma lang_name (p q : ascii -> bool) s :
  (forall a, q a = true -> p a = true) ->
  rx_lang (RName p q) s <->
    str_forall p s = true /\ first_is q s = true /\ last_is q s = true.
Proof.
  intros Hqp. unfold RName. rewrite lang_seq_iff. setoid_rewrite lang_opt.
  setoid_rewrite lang_seq_iff. setoid_rewrite lang_star_class. setoid_rewrite lang_class_iff.
  split.
  - intros (? & t & -> & (a & -> & Ha) & [->|(m & ? & -> & Hm & (b & -> & Hb))]).
    + rewrite append_nil_r. simpl. by rewrite (Hqp a).
    + rewrite append_cons, append_nil_l. simpl first_is. simpl str_forall.
      rewrite str_forall_app. simpl. rewrite Hm, (Hqp a), (Hqp b) by done.
      split; [done|]. split; [done|].
      exact (eq_trans (last_is_snoc q (String a m) b) Hb).
  - destruct s as [|a s]; [naive_solver|]. simpl str_forall. simpl first_is.
    intros ([Ha Hs]%andb_true_iff & Hq & Hl).
    exists (String a ""), s. split; [done|]. split; [eauto|].
    destruct (decide (s = "")) as [->|Hne]; [auto|]. right.
    destruct (string_snoc_inv s Hne) as (m & b & ->).
    change (String a (m +:+ String b "")) with (String a m +:+ String b "") in Hl.
    rewrite last_is_snoc in Hl. rewrite str_forall_app in Hs.
    apply andb_true_iff in Hs as [Hm _]. exists m, (String b ""). eauto.
Qed.
