(* ===== verification/Float64.v ===== *)
(** * Go's [float64]: IEEE-754 binary64, from the Standard Library's [SpecFloat]

    The operations are exact models of the IEEE ones (53 bits of precision,
    round to nearest even), so they compute on concrete inputs.  The one lemma
    about rounding that the development needs is [f_trunc_of_Z]: an integer of
    at most 53 bits survives the conversion to [float64] and back. *)

From Stdlib Require Import Floats.SpecFloat.
From S2P Require Import Prelude.

Abbreviation float64 := spec_float.

Definition f_add : float64 -> float64 -> float64 := SFadd 53 1024.
Definition f_mul : float64 -> float64 -> float64 := SFmul 53 1024.
Definition f_div : float64 -> float64 -> float64 := SFdiv 53 1024.
Definition f_lt : float64 -> float64 -> bool := SFltb.
Definition f_eq : float64 -> float64 -> bool := SFeqb.

(** [float64(z)] of an integer. *)
Definition f_of_Z (z : Z) : float64 := binary_normalize 53 1024 z 0 false.

(** The constant [m * 10^-k] of the source, correctly rounded. *)
Definition f_dec (m : Z) (k : Z) : float64 := f_div (f_of_Z m) (f_of_Z (10 ^ k)).

(** Truncation towards zero of a finite float, [None] for NaN and infinities. *)
Definition f_trunc (x : float64) : option Z :=
  match x with
  | S754_zero _ => Some 0
  | S754_finite s m e =>
      let a := if decide (0 <= e) then Z.pos m * 2 ^ e else Z.pos m / 2 ^ (- e) in
      Some (if s then - a else a)
  | _ => None
  end.

(** ** Conversion of integers of at most 53 bits is exact *)

Lemma digits2_pos_pow p : 2 ^ (Z.pos (digits2_pos p) - 1) <= Z.pos p < 2 ^ Z.pos (digits2_pos p).
Proof.
  induction p as [p IH|p IH|]; simpl digits2_pos; [| |done].
  all: rewrite Pos2Z.inj_succ.
  all: replace (Z.succ (Z.pos (digits2_pos p)) - 1)
    with (Z.succ (Z.pos (digits2_pos p) - 1)) by lia.
  all: rewrite !Z.pow_succ_r by lia; lia.
Qed.

Lemma digits2_pos_bound p k : 0 <= k -> Z.pos p < 2 ^ k -> Z.pos (digits2_pos p) <= k.
Proof.
  intros Hk Hp. destruct (digits2_pos_pow p) as [H _].
  destruct (Z.le_gt_cases (Z.pos (digits2_pos p)) k); [done|]. exfalso.
  assert (2 ^ k <= 2 ^ (Z.pos (digits2_pos p) - 1)) by (apply Z.pow_le_mono_r; lia). lia.
Qed.

Lemma iter_xO_spec p d :
  Z.pos (Pos.iter xO p d) = Z.pos p * 2 ^ Z.pos d /\
  Z.pos (digits2_pos (Pos.iter xO p d)) = Z.pos (digits2_pos p) + Z.pos d.
Proof.
  induction d as [|d IH] using Pos.peano_ind; [simpl; lia|].
  rewrite Pos.iter_succ, (Pos2Z.inj_succ d), Z.pow_succ_r by lia.
  rewrite Pos2Z.inj_xO. simpl digits2_pos. rewrite Pos2Z.inj_succ. lia.
Qed.

(** The float of a positive integer of at most 53 bits. *)
Lemma f_of_pos_shape s p :
  Z.pos p < 2 ^ 53 ->
  exists m e, binary_round 53 1024 s p 0 = S754_finite s m e /\ -52 <= e <= 0 /\
    Z.pos m = Z.pos p * 2 ^ (- e).
Proof.
  intros Hp. pose proof (digits2_pos_bound p 53 ltac:(lia) Hp) as Hd.
  set (d := Z.pos (digits2_pos p)) in *.
  assert (1 <= d) by (unfold d; lia).
  assert (forall k, 1 <= k -> fexp 53 1024 k = k - 53) as Hf by (intros; unfold fexp, emin; lia).
  assert (exists m e, shl_align p 0 (d - 53) = (m, e) /\ e = d - 53 /\
    Z.pos m = Z.pos p * 2 ^ (- e) /\ Z.pos (digits2_pos m) = 53) as (m & e & Hs & He & Hm & Hdm).
  { unfold shl_align. destruct (d - 53 - 0) as [|q|q] eqn:E.
    - exists p, 0. split; [done|]. simpl (2 ^ _). fold d. lia.
    - lia.
    - destruct (iter_xO_spec p q) as [H1 H2]. exists (Pos.iter xO p q), (d - 53).
      split; [done|]. replace (- (d - 53)) with (Z.pos q) by lia. fold d in H2. lia. }
  exists m, e. split; [|lia].
  unfold binary_round. fold d. rewrite Z.add_0_r, Hf, Hs by lia.
  unfold binary_round_aux, shr_fexp, Zdigits2. rewrite Hdm, Hf by lia.
  replace (53 + e - 53 - e) with 0 by lia. simpl shr. cbn iota.
  change (shr_m (shr_record_of_loc (Z.pos m) loc_Exact)) with (Z.pos m).
  change (round_nearest_even _ _) with (Z.pos m). cbn iota.
  rewrite Hdm, Hf by lia. replace (53 + e - 53 - e) with 0 by lia.
  simpl shr. cbn. destruct (Z.leb_spec e (1024 - 53)); [done|lia].
Qed.

Lemma f_trunc_round s p :
  Z.pos p < 2 ^ 53 ->
  f_trunc (binary_round 53 1024 s p 0) = Some (if s then Z.neg p else Z.pos p).
Proof.
  intros Hp. destruct (f_of_pos_shape s p Hp) as (m & e & -> & He & Hm).
  unfold f_trunc. rewrite Hm.
  assert ((if decide (0 <= e) then Z.pos p * 2 ^ (- e) * 2 ^ e
           else Z.pos p * 2 ^ (- e) / 2 ^ (- e)) = Z.pos p) as ->; [|by destruct s].
  case_decide.
  - replace e with 0 by lia. simpl. lia.
  - apply Z.div_mul, Z.pow_nonzero; lia.
Qed.

Lemma f_trunc_of_Z z : Z.abs z < 2 ^ 53 -> f_trunc (f_of_Z z) = Some z.
Proof.
  intros Hz. destruct z as [|p|p]; [done|..]; unfold f_of_Z, binary_normalize;
    by apply f_trunc_round.
Qed.

(** [x + 0.0 / y] is [x] when [x] is the image of a nonnegative integer. *)
Lemma f_add_zero z : 0 <= z < 2 ^ 53 -> f_add (f_of_Z z) (S754_zero false) = f_of_Z z.
Proof.
  intros Hz. destruct z as [|p|p]; [done| |lia].
  unfold f_of_Z, binary_normalize. destruct (f_of_pos_shape false p ltac:(lia)) as (m & e & -> & _).
  done.
Qed.
