(* ===== verification/GoTime.v ===== *)
(** * Go's [time.Duration]: [ParseDuration] and [Seconds]

    A duration is a signed 64-bit count of nanoseconds.  [parse_duration] is a
    transcription of [time.ParseDuration]: an optional sign and then one or more
    groups of decimal number and unit, with every overflow check.  The group
    loop carries fuel; [duration_loop_fuel] shows that the length of the string
    is enough, because every group consumes at least one byte.

    The lemma the components use is [deadline_of_whole_seconds]: a duration that
    is a whole number of seconds is reported exactly by [int64(d.Seconds())]. *)

From Stdlib Require Import Ascii Floats.SpecFloat.
From S2P Require Import Prelude GoStrings Float64.

Definition Nanosecond : Z := 1.
Definition Microsecond : Z := 1000 * Nanosecond.
Definition Millisecond : Z := 1000 * Microsecond.
Definition Second : Z := 1000 * Millisecond.
Definition Minute : Z := 60 * Second.
Definition Hour : Z := 60 * Minute.

(** [Duration.Seconds]: the whole seconds plus the fraction, as a float. *)
Definition duration_seconds (d : Z) : float64 :=
  f_add (f_of_Z (Z.quot d Second))
        (f_div (f_of_Z (Z.rem d Second)) (f_of_Z 1000000000)).

(** [int64(d.Seconds())]: a 64-bit duration has fewer than 2^34 seconds, so the
    conversion is in range. *)
Definition duration_int_seconds (d : Z) : Z := default 0 (f_trunc (duration_seconds d)).

(** ** [time.ParseDuration] *)

Definition unit_map (u : string) : option Z :=
  if decide (u = "ns") then Some Nanosecond
  else if decide (u = "us") then Some Microsecond
  else if decide (u = String "194" (String "181" "s")) then Some Microsecond
  else if decide (u = String "206" (String "188" "s")) then Some Microsecond
  else if decide (u = "ms") then Some Millisecond
  else if decide (u = "s") then Some Second
  else if decide (u = "m") then Some Minute
  else if decide (u = "h") then Some Hour
  else None.

(** The longest prefix of bytes satisfying [p], and the rest. *)
Fixpoint span (p : ascii -> bool) (s : string) : string * string :=
  match s with
  | EmptyString => ("", "")
  | String a s' =>
      if p a then let '(x, y) := span p s' in (String a x, y) else ("", s)
  end.

(** [leadingInt]: the value of a run of digits, [None] on overflow. *)
Fixpoint leading_int (x : Z) (ds : string) : option Z :=
  match ds with
  | EmptyString => Some x
  | String a ds' =>
      if decide (x > 2 ^ 63 / 10) then None
      else let x' := x * 10 + digit_val a in
           if decide (x' > 2 ^ 63) then None else leading_int x' ds'
  end.

(** [leadingFraction]: digits after the point are dropped once they overflow. *)
Fixpoint leading_fraction (x : Z) (scale : float64) (overflow : bool) (ds : string)
    : Z * float64 :=
  match ds with
  | EmptyString => (x, scale)
  | String a ds' =>
      if overflow then leading_fraction x scale true ds'
      else if decide (x > (2 ^ 63 - 1) / 10) then leading_fraction x scale true ds'
      else let y := x * 10 + digit_val a in
           if decide (y > 2 ^ 63) then leading_fraction x scale true ds'
           else leading_fraction y (f_mul scale (f_of_Z 10)) false ds'
  end.

Definition unit_char (a : ascii) : bool := negb (bool_decide (a = "."%char) || is_digit a).

(** One group: number, optional fraction, unit.  Gives the nanoseconds of the
    group and the rest of the string. *)
Definition duration_group (s : string) : option (Z * string) :=
  let '(ds, s1) := span is_digit s in
  match leading_int 0 ds with
  | None => None
  | Some v =>
      let '(f, scale, post, s2) :=
        match s1 with
        | String a s1' =>
            if decide (a = "."%char) then
              let '(fs, s2) := span is_digit s1' in
              let '(f, scale) := leading_fraction 0 (f_of_Z 1) false fs in
              (f, scale, bool_decide (fs <> ""), s2)
            else (0, f_of_Z 1, false, s1)
        | EmptyString => (0, f_of_Z 1, false, s1)
        end in
      if decide (ds = "" /\ post = false) then None
      else
        let '(u, s3) := span unit_char s2 in
        match (if decide (u = "") then None else unit_map u) with
        | None => None
        | Some unit =>
            if decide (v > 2 ^ 63 / unit) then None
            else
              let v1 := v * unit in
              let v2 :=
                if decide (f > 0) then
                  v1 + default 0 (f_trunc (f_mul (f_of_Z f) (f_div (f_of_Z unit) scale)))
                else v1 in
              if decide (f > 0 /\ v2 > 2 ^ 63) then None else Some (v2, s3)
        end
  end.

Fixpoint duration_loop (fuel : nat) (d : Z) (s : string) : option Z :=
  match s with
  | EmptyString => Some d
  | _ =>
      match fuel with
      | O => None
      | S fuel' =>
          match duration_group s with
          | None => None
          | Some (v, s') =>
              let d' := d + v in
              if decide (d' > 2 ^ 63) then None else duration_loop fuel' d' s'
          end
      end
  end.

Definition parse_duration (s : string) : option Z :=
  let '(neg, body) :=
    match s with
    | String a s' =>
        if decide (a = "-"%char) then (true, s')
        else if decide (a = "+"%char) then (false, s')
        else (false, s)
    | EmptyString => (false, s)
    end in
  if decide (body = "0") then Some 0
  else if decide (body = "") then None
  else
    match duration_loop (String.length body) 0 body with
    | None => None
    | Some d =>
        if neg : bool then Some (wrap 64 (- d))
        else if decide (d > 2 ^ 63 - 1) then None else Some d
    end.

(** ** Every group consumes a byte, so the fuel is enough *)

Lemma span_app p s x y : span p s = (x, y) -> s = x +:+ y /\ str_forall p x = true.
Proof.
  revert x y. induction s as [|a s IH]; simpl; intros x y; [naive_solver|].
  destruct (p a) eqn:Hp; [|naive_solver].
  destruct (span p s) as [x' y']. intros [= <- <-].
  destruct (IH x' y' eq_refl) as [-> H]. simpl. by rewrite Hp.
Qed.

Lemma span_length p s x y :
  span p s = (x, y) -> String.length s = (String.length x + String.length y)%nat.
Proof. intros [-> _]%span_app. by rewrite length_append. Qed.

Lemma duration_group_shorter s v s' :
  duration_group s = Some (v, s') -> (String.length s' < String.length s)%nat.
Proof.
  unfold duration_group. destruct (span is_digit s) as [ds s1] eqn:E1.
  apply span_length in E1. destruct (leading_int 0 ds); [|done].
  set (t := match s1 with String _ _ => _ | _ => _ end).
  assert (exists f sc post s2, t = (f, sc, post, s2) /\
    (String.length s2 <= String.length s1)%nat) as (f & sc & post & s2 & -> & Hl).
  { unfold t. destruct s1 as [|a s1']; [naive_solver|]. case_decide; [|naive_solver].
    destruct (span is_digit s1') as [fs s2] eqn:E2. apply span_length in E2.
    destruct (leading_fraction _ _ _ _). do 4 eexists. split; [done|]. simpl. lia. }
  case_decide; [done|]. destruct (span unit_char s2) as [u s3] eqn:E3.
  apply span_length in E3. case_decide as Hu; [done|].
  destruct (unit_map u); [|done]. repeat case_decide; intros; simplify_eq.
  all: destruct u; [done|]; simpl in E3; lia.
Qed.

Lemma duration_loop_fuel n m d s :
  (String.length s <= n)%nat -> (String.length s <= m)%nat ->
  duration_loop n d s = duration_loop m d s.
Proof.
  revert m d s. induction n as [|n IH]; intros [|m] d [|a s] Hn Hm; simpl in Hn, Hm;
    try done; try lia. simpl duration_loop.
  destruct (duration_group (String a s)) as [[v s']|] eqn:E; [|done].
  apply duration_group_shorter in E. simpl in E. case_decide; [done|]. apply IH; lia.
Qed.

(** ** Durations of one group, a number and a unit *)

Lemma span_all p s a t :
  str_forall p s = true -> p a = false ->
  span p (s +:+ String a t) = (s, String a t).
Proof.
  intros Hs Ha. induction s as [|b s IH].
  - rewrite append_nil_l. simpl. by rewrite Ha.
  - simpl in Hs. apply andb_true_iff in Hs as [Hb Hs].
    rewrite append_cons. simpl. by rewrite Hb, (IH Hs).
Qed.

Lemma digit_val_bounds a : is_digit a = true -> 0 <= digit_val a <= 9.
Proof.
  unfold is_digit, in_range, digit_val.
  change (nat_of_ascii "0") with 48%nat. change (nat_of_ascii "9") with 57%nat.
  rewrite andb_true_iff, !Nat.leb_le. lia.
Qed.

Lemma digits_val_ge ds acc :
  0 <= acc -> str_forall is_digit ds = true -> acc <= digits_val acc ds.
Proof.
  revert acc. induction ds as [|a ds IH]; intros acc Hacc Hd; simpl in *; [lia|].
  apply andb_true_iff in Hd as [Ha Hd]. pose proof (digit_val_bounds a Ha).
  etrans; [|apply IH; [lia|done]]. lia.
Qed.

Lemma leading_int_val ds acc :
  0 <= acc <= 2 ^ 63 -> str_forall is_digit ds = true ->
  leading_int acc ds =
    if decide (digits_val acc ds <= 2 ^ 63) then Some (digits_val acc ds) else None.
Proof.
  revert acc. induction ds as [|a ds IH]; intros acc Hacc Hd; simpl in Hd |- *.
  { by rewrite decide_True by lia. }
  apply andb_true_iff in Hd as [Ha Hd]. pose proof (digit_val_bounds a Ha) as Hb.
  pose proof (digits_val_ge ds (10 * acc + digit_val a) ltac:(lia) Hd) as Hg.
  assert (2 ^ 63 / 10 = 922337203685477580) as Ek by reflexivity.
  assert (2 ^ 63 = 9223372036854775808) as E63 by reflexivity.
  replace (acc * 10 + digit_val a) with (10 * acc + digit_val a) by lia.
  case_decide; [by rewrite decide_False by lia|].
  case_decide; [by rewrite decide_False by lia|].
  apply IH; [lia|done].
Qed.

(** A run of digits followed by one of the units [s], [m], [h]. *)
Lemma duration_group_simple ds u unit :
  ds <> "" -> str_forall is_digit ds = true ->
  u = "s"%char \/ u = "m"%char \/ u = "h"%char ->
  unit_map (String u "") = Some unit -> 0 < unit ->
  duration_group (ds +:+ String u "") =
    if decide (digits_val 0 ds > 2 ^ 63 / unit) then None
    else Some (digits_val 0 ds * unit, "").
Proof.
  intros Hne Hd Hu Hunit Hpos. unfold duration_group.
  assert (is_digit u = false /\ u <> "."%char /\ unit_char u = true) as (Hud & Hdot & Huc)
    by (destruct Hu as [->|[->| ->]]; done).
  rewrite span_all by done. rewrite leading_int_val by (done || lia).
  case_decide as Hv; cycle 1.
  { pose proof (Z.div_le_upper_bound (2 ^ 63) unit (2 ^ 63)). by rewrite decide_True by nia. }
  rewrite (decide_False (P := u = "."%char)) by done.
  rewrite decide_False by naive_solver.
  simpl span. rewrite Huc. cbn iota beta.
  rewrite decide_False by done. rewrite Hunit. case_decide; [done|].
  rewrite (decide_False (P := 0 > 0)) by lia.
  rewrite decide_False by lia. done.
Qed.

Lemma parse_duration_simple ds u unit :
  ds <> "" -> str_forall is_digit ds = true ->
  u = "s"%char \/ u = "m"%char \/ u = "h"%char ->
  unit_map (String u "") = Some unit -> 0 < unit ->
  parse_duration (ds +:+ String u "") =
    if decide (digits_val 0 ds * unit < 2 ^ 63) then Some (digits_val 0 ds * unit) else None.
Proof.
  intros Hne Hd Hu Hunit Hpos. unfold parse_duration.
  destruct ds as [|a ds]; [done|].
  assert (a <> "-"%char /\ a <> "+"%char) as [Hm Hp].
  { simpl in Hd. apply andb_true_iff in Hd as [Ha _]. by split; intros ->. }
  rewrite append_cons. rewrite (decide_False (P := a = "-"%char)), (decide_False (P := a = "+"%char)) by done.
  rewrite <- append_cons.
  rewrite decide_False.
  2: { intros E. apply (f_equal String.length) in E. rewrite length_append in E. simpl in E. lia. }
  rewrite decide_False by done.
  assert (forall d, duration_loop (String.length (String a ds +:+ String u "")) d
     (String a ds +:+ String u "") =
     match duration_group (String a ds +:+ String u "") with
     | Some (v, s') => if decide (d + v > 2 ^ 63) then None
                       else duration_loop (String.length (ds +:+ String u "")) (d + v) s'
     | None => None end) as Hloop by (intros d; reflexivity).
  rewrite Hloop, (duration_group_simple (String a ds) u unit) by done.
  set (n := digits_val 0 (String a ds)) in *.
  assert (0 <= n) by (apply digits_val_ge; [lia|done]).
  assert (2 ^ 63 / unit * unit <= 2 ^ 63 < (2 ^ 63 / unit + 1) * unit) as [Hlo Hhi].
  { pose proof (Z.div_mod (2 ^ 63) unit ltac:(lia)).
    pose proof (Z.mod_pos_bound (2 ^ 63) unit Hpos). lia. }
  case_decide as Hbig.
  - rewrite decide_False by nia. done.
  - rewrite Z.add_0_l, decide_False by nia. simpl duration_loop.
    destruct (String.length (ds +:+ String u "")).
    all: simpl; destruct (decide (n * unit < 2 ^ 63)).
    all: by rewrite ?decide_True, ?decide_False by lia.
Qed.

(** Whole seconds survive the trip through [float64]. *)
Lemma deadline_of_whole_seconds k :
  0 <= k < 2 ^ 53 -> duration_int_seconds (k * Second) = k.
Proof.
  intros Hk. unfold duration_int_seconds, duration_seconds.
  rewrite Z.quot_mul, Z.rem_mul by done.
  change (f_div (f_of_Z 0) (f_of_Z 1000000000)) with (S754_zero false).
  rewrite f_add_zero by done. by rewrite f_trunc_of_Z by lia.
Qed.

Example parse_duration_ex1 : parse_duration "5m" = Some (300 * Second).
Proof. vm_compute. reflexivity. Qed.
Example parse_duration_ex2 : parse_duration "-1.5h" = Some (- 5400 * Second).
Proof. vm_compute. reflexivity. Qed.
Example parse_duration_ex3 : parse_duration "1h15m30.918s" = Some (4530918 * Millisecond).
Proof. vm_compute. reflexivity. Qed.
Example parse_duration_ex4 : parse_duration "3000000h" = None.
Proof. vm_compute. reflexivity. Qed.
