(* ===== verification/Kube.v ===== *)
(** * The Kubernetes side: object types, the client interface and its laws

    The API server and the controller-runtime client are not part of the
    repository.  They enter the model as type classes:
    - [K8sTypes]: the library types the program only passes around,
      [resource.ParseQuantity] and the text of an API error;
    - [Client W T]: the five calls of [client.Client] on objects of kind [T],
      over an outside world [W] (any failure may depend on [W]);
    - [ClientLaws W T]: the documented behaviour of those calls, stated on the
      abstract store of the kind (reads see the current object, a create of an
      existing name does not succeed, a status update changes the status only,
      a failed call changes nothing).  Two things are assumed that a deployment
      only approximates: reads are up to date, although the manager's client
      reads from a cache, and a call that reports an error was not carried out.
      A pod is not stored as it was submitted: [pod_spec_admitted] says what the
      server's defaulting and its admission plugins (service-account mounts,
      LimitRange, AlwaysPullImages) may add and what they keep.  A cluster whose
      own mutating webhooks rewrite images or commands is outside the laws;
    - [Clock] and [Recorder]: [time.Now] and the event recorder.
    [MemKube] is a concrete in-memory server that satisfies the laws; the
    witnesses run against it. *)

From S2P Require Import Prelude GoStrings.

(** ** Errors of the API, as [apierrors] classifies them *)

Inductive api_error : Type :=
| NotFound
| AlreadyExists
| OtherError (msg : string).

#[export] Instance api_error_eq_dec : EqDecision api_error.
Proof. solve_decision. Defined.

Class K8sTypes := {
  Quantity : Type;
  ParseQuantity : string -> option Quantity;
  zeroQuantity : Quantity;
  (** how the server stores a quantity: rounded up to three decimals *)
  storedQuantity : Quantity -> Quantity;
  VolumeMount : Type;
  EnvVarSource : Type;
  Condition : Type;
  err_text : api_error -> string
}.

(** ** [metav1] and [corev1] data, with the fields the program reads or writes *)

Abbreviation NamespacedName := (string * string)%type.

Record OwnerReference := {
  or_APIVersion : string;
  or_Kind : string;
  or_Name : string;
  or_Controller : bool
}.

Record ObjectMeta := {
  om_Name : string;
  om_Namespace : string;
  om_Labels : gmap string string;
  om_Annotations : gmap string string;
  om_Finalizers : list string;
  om_DeletionTimestamp : option Z;
  om_CreationTimestamp : Z;
  om_Owner : option OwnerReference
}.

Definition meta_key (m : ObjectMeta) : NamespacedName := (om_Namespace m, om_Name m).

Definition meta_set_finalizers (fs : list string) (m : ObjectMeta) : ObjectMeta :=
  {| om_Name := om_Name m; om_Namespace := om_Namespace m; om_Labels := om_Labels m;
     om_Annotations := om_Annotations m; om_Finalizers := fs;
     om_DeletionTimestamp := om_DeletionTimestamp m;
     om_CreationTimestamp := om_CreationTimestamp m; om_Owner := om_Owner m |}.

Definition meta_set_owner (o : OwnerReference) (m : ObjectMeta) : ObjectMeta :=
  {| om_Name := om_Name m; om_Namespace := om_Namespace m; om_Labels := om_Labels m;
     om_Annotations := om_Annotations m; om_Finalizers := om_Finalizers m;
     om_DeletionTimestamp := om_DeletionTimestamp m;
     om_CreationTimestamp := om_CreationTimestamp m; om_Owner := Some o |}.

Definition new_meta (name ns : string) (labels annots : gmap string string) : ObjectMeta :=
  {| om_Name := name; om_Namespace := ns; om_Labels := labels; om_Annotations := annots;
     om_Finalizers := []; om_DeletionTimestamp := None; om_CreationTimestamp := 0;
     om_Owner := None |}.

Section CoreV1.
Context {K : K8sTypes}.

Record EnvVar := {
  env_Name : string;
  env_Value : string;
  env_ValueFrom : option EnvVarSource
}.

Record CoreResources := {
  rr_Requests : gmap string Quantity;
  rr_Limits : gmap string Quantity
}.

Record Container := {
  ct_Name : string;
  ct_Image : string;
  ct_Command : list string;
  ct_Args : list string;
  ct_Env : list EnvVar;
  ct_VolumeMounts : list VolumeMount;
  ct_ImagePullPolicy : string;
  ct_Resources : CoreResources
}.

Record PodSpec := {
  ps_RestartPolicy : string;
  ps_Containers : list Container;
  ps_ActiveDeadlineSeconds : option Z;
  ps_TerminationGracePeriodSeconds : option Z
}.

(** [ContainerStatus.State.Terminated]: the reason, when terminated. *)
Record ContainerStatus := { cs_Terminated : option string }.

Record PodStatus := {
  pst_Phase : string;
  pst_Reason : string;
  pst_ContainerStatuses : list ContainerStatus
}.

Record Pod := {
  pod_Meta : ObjectMeta;
  pod_Spec : PodSpec;
  pod_Status : PodStatus
}.

Definition pod_key (p : Pod) : NamespacedName := meta_key (pod_Meta p).
Definition pod_Name (p : Pod) : string := om_Name (pod_Meta p).
Definition emptyPodStatus : PodStatus :=
  {| pst_Phase := ""; pst_Reason := ""; pst_ContainerStatuses := [] |}.
End CoreV1.

(** Pod phases of [corev1]. *)
Definition PodPending : string := "Pending".
Definition PodRunning : string := "Running".
Definition PodSucceeded : string := "Succeeded".
Definition PodFailed : string := "Failed".

(** [ctrl.Result]: a requeue delay in nanoseconds, 0 for none. *)
Record Result := { RequeueAfter : Z }.

(** ** The client interface *)

Class Client (W T : Type) := {
  c_get : NamespacedName -> W -> (api_error + T) * W;
  c_create : T -> W -> (api_error + T) * W;
  c_update : T -> W -> (api_error + T) * W;
  c_update_status : T -> W -> (api_error + T) * W;
  c_delete : T -> W -> option api_error * W;
  c_list : string -> gmap string string -> option Z -> W -> (api_error + list T) * W
}.

Class Clock (W : Type) := clock_now : W -> Z * W.

(** [Recorder.Event(obj, type, reason, message)]. *)
Class Recorder (W : Type) := record_event : string -> string -> string -> W -> W.

(** Client calls as programs. *)
Definition lift {W A} (op : W -> A * W) : GoM W A :=
  fun w => let '(a, w') := op w in (Ret a, w').

Definition lift_unit {W} (op : W -> W) : GoM W unit := fun w => (Ret tt, op w).

Lemma lift_bind {W A B} (op : W -> A * W) (k : A -> GoM W B) w :
  (lift op ≫= k) w = let '(a, w') := op w in k a w'.
Proof. unfold lift, mbind, GoM_bind. by destruct (op w). Qed.

Lemma lift_unit_bind {W B} (op : W -> W) (k : unit -> GoM W B) w :
  (lift_unit op ≫= k) w = k tt (op w).
Proof. done. Qed.

(** Run a program in a hypothesis or in the goal: unfold the monad and split on
    every call and test, innermost first. *)
Ltac go_split x :=
  lazymatch x with
  | context [match _ with _ => _ end] => fail
  | _ => destruct x eqn:?
  end.
Ltac go_run_in H :=
  unfold mbind, GoM_bind, mret, GoM_ret, lift, lift_unit in H;
  repeat (simplify_eq/=;
    match type of H with context [match ?x with _ => _ end] => go_split x end);
  simplify_eq/=.
Ltac go_run :=
  unfold mbind, GoM_bind, mret, GoM_ret, lift, lift_unit;
  repeat (simplify_eq/=;
    match goal with |- context [match ?x with _ => _ end] => go_split x end);
  simplify_eq/=.

(** What a kind of object is, to the server. *)
Class Kind (T : Type) := {
  obj_key : T -> NamespacedName;
  obj_labels : T -> gmap string string;
  obj_created : T -> T -> Prop;
  obj_updated : T -> T -> T -> Prop;
  obj_status_updated : T -> T -> T -> Prop;
  obj_terminating : T -> Prop;
  obj_gone : T -> bool
}.

(** [m] carries all the labels of the selector. *)
Definition selects (sel m : gmap string string) : Prop :=
  map_Forall (fun k v => m !! k = Some v) sel.

Class ClientLaws (W T : Type) `{!Client W T, !Kind T} := {
  c_store : W -> gmap NamespacedName T;
  c_store_key w k o : c_store w !! k = Some o -> obj_key o = k;
  c_get_spec k w r w' :
    c_get k w = (r, w') ->
    c_store w' = c_store w /\
    match r with
    | inr o => c_store w !! k = Some o
    | inl NotFound => c_store w !! k = None
    | inl _ => True
    end;
  c_create_spec o w r w' :
    c_create o w = (r, w') ->
    match r with
    | inr o' => c_store w !! obj_key o = None /\ obj_created o o' /\
        obj_key o' = obj_key o /\ c_store w' = <[obj_key o := o']> (c_store w)
    | inl AlreadyExists => is_Some (c_store w !! obj_key o) /\ c_store w' = c_store w
    | inl _ => c_store w' = c_store w
    end;
  c_update_spec o w r w' :
    c_update o w = (r, w') ->
    match r with
    | inr o' => exists old, c_store w !! obj_key o = Some old /\ obj_updated old o o' /\
        obj_key o' = obj_key o /\
        c_store w' = if obj_gone o' then delete (obj_key o) (c_store w)
                     else <[obj_key o := o']> (c_store w)
    | inl _ => c_store w' = c_store w
    end;
  c_update_status_spec o w r w' :
    c_update_status o w = (r, w') ->
    match r with
    | inr o' => exists old, c_store w !! obj_key o = Some old /\
        obj_status_updated old o o' /\ obj_key o' = obj_key o /\
        c_store w' = <[obj_key o := o']> (c_store w)
    | inl _ => c_store w' = c_store w
    end;
  (** a delete removes the object or marks it for deletion, with its key kept *)
  c_delete_spec o w r w' :
    c_delete o w = (r, w') ->
    match r with
    | None => c_store w' = delete (obj_key o) (c_store w) \/
        exists o', obj_key o' = obj_key o /\ obj_terminating o' /\
          c_store w' = <[obj_key o := o']> (c_store w)
    | Some _ => c_store w' = c_store w
    end;
  c_list_spec ns sel lim w r w' :
    c_list ns sel lim w = (r, w') ->
    c_store w' = c_store w /\
    match r with
    | inr os =>
        (forall o, o ∈ os -> c_store w !! obj_key o = Some o /\
           (obj_key o).1 = ns /\ selects sel (obj_labels o)) /\
        (os = [] -> (forall n, lim = Some n -> 0 < n) ->
           forall k o, c_store w !! k = Some o -> k.1 = ns -> ~ selects sel (obj_labels o))
    | inl _ => True
    end
}.

(** Calls on kind [T] leave the store of kind [U] alone. *)
Class ClientFrame (W T U : Type) `{!Client W T} (st : W -> gmap NamespacedName U) := {
  frame_get k w : st (c_get k w).2 = st w;
  frame_create (o : T) w : st (c_create o w).2 = st w;
  frame_update (o : T) w : st (c_update o w).2 = st w;
  frame_update_status (o : T) w : st (c_update_status o w).2 = st w;
  frame_delete (o : T) w : st (c_delete o w).2 = st w;
  frame_list ns sel lim w : st (c_list (T := T) ns sel lim w).2 = st w
}.

(** Reading the clock and recording an event leave a store alone. *)
Class EnvFrame (W U : Type) `{!Clock W, !Recorder W} (st : W -> gmap NamespacedName U) := {
  frame_clock w : st (clock_now w).2 = st w;
  frame_event t r m w : st (record_event t r m w) = st w
}.

(** ** Pods as a kind *)

Section PodKind.
Context {K : K8sTypes}.

(** What the API server's defaulting and admission leave of a submitted pod:
    fields that were set are kept, absent ones may be filled in.
    - the source of an environment variable may get defaults, its name and value
      are kept;
    - a resource that was asked for is stored (rounded), a LimitRange may add
      others;
    - service-account mounts come after the submitted ones;
    - an empty pull policy is filled in, and AlwaysPullImages may override it. *)
Definition env_admitted (e e' : EnvVar) : Prop :=
  env_Name e' = env_Name e /\ env_Value e' = env_Value e /\
  (env_ValueFrom e' = None <-> env_ValueFrom e = None).

Definition quantities_admitted (m m' : gmap string Quantity) : Prop :=
  map_Forall (fun r q => m' !! r = Some (storedQuantity q)) m.

Record container_admitted (c c' : Container) : Prop := {
  ca_Name : ct_Name c' = ct_Name c;
  ca_Image : ct_Image c' = ct_Image c;
  ca_Command : ct_Command c' = ct_Command c;
  ca_Args : ct_Args c' = ct_Args c;
  ca_Env : Forall2 env_admitted (ct_Env c) (ct_Env c');
  ca_VolumeMounts : ct_VolumeMounts c `prefix_of` ct_VolumeMounts c';
  ca_ImagePullPolicy : ct_ImagePullPolicy c <> "" ->
    ct_ImagePullPolicy c' = ct_ImagePullPolicy c \/ ct_ImagePullPolicy c' = "Always";
  ca_Requests : quantities_admitted (rr_Requests (ct_Resources c)) (rr_Requests (ct_Resources c'));
  ca_Limits : quantities_admitted (rr_Limits (ct_Resources c)) (rr_Limits (ct_Resources c'))
}.

Record pod_spec_admitted (s s' : PodSpec) : Prop := {
  pa_RestartPolicy : ps_RestartPolicy s <> "" -> ps_RestartPolicy s' = ps_RestartPolicy s;
  pa_Containers : Forall2 container_admitted (ps_Containers s) (ps_Containers s');
  pa_ActiveDeadlineSeconds : ps_ActiveDeadlineSeconds s' = ps_ActiveDeadlineSeconds s;
  pa_TerminationGracePeriodSeconds :
    is_Some (ps_TerminationGracePeriodSeconds s) ->
    ps_TerminationGracePeriodSeconds s' = ps_TerminationGracePeriodSeconds s
}.

#[export] Instance pod_kind : Kind Pod := {
  obj_key := pod_key;
  obj_labels p := om_Labels (pod_Meta p);
  obj_created p p' :=
    om_Labels (pod_Meta p') = om_Labels (pod_Meta p) /\
    om_Owner (pod_Meta p') = om_Owner (pod_Meta p) /\
    pod_spec_admitted (pod_Spec p) (pod_Spec p');
  obj_updated old p p' := pod_Status p' = pod_Status old;
  obj_status_updated old p p' := pod_Spec p' = pod_Spec old /\ pod_Status p' = pod_Status p;
  obj_terminating p := is_Some (om_DeletionTimestamp (pod_Meta p));
  obj_gone p := bool_decide (is_Some (om_DeletionTimestamp (pod_Meta p))) &&
                bool_decide (om_Finalizers (pod_Meta p) = [])
}.
End PodKind.

(** [controllerutil.SetControllerReference] for an owner of kind [T]; it only
    fills in the owner. *)
Class OwnerRefs {K : K8sTypes} (T : Type) :=
  SetControllerReference : T -> Pod -> api_error + Pod.

Definition owner_refs_ok {K : K8sTypes} (T : Type) `{!OwnerRefs T} : Prop :=
  forall (t : T) p p', SetControllerReference t p = inr p' ->
    pod_key p' = pod_key p /\ om_Labels (pod_Meta p') = om_Labels (pod_Meta p) /\
    pod_Spec p' = pod_Spec p.

(** ** Derived facts about client calls *)

Section LawFacts.
Context {W T : Type} `{!Client W T, !Kind T, !ClientLaws W T}.

Lemma c_get_store k w : c_store (c_get (T := T) k w).2 = c_store (T := T) w.
Proof. destruct (c_get k w) as [r w'] eqn:E. by destruct (c_get_spec _ _ _ _ E). Qed.

Lemma c_list_store ns sel lim w :
  c_store (c_list (T := T) ns sel lim w).2 = c_store (T := T) w.
Proof.
  destruct (c_list ns sel lim w) as [r w'] eqn:E. by destruct (c_list_spec _ _ _ _ _ _ E).
Qed.

(** Creating an object whose name is taken fails and changes nothing. *)
Lemma c_create_taken (o o0 : T) w :
  c_store w !! obj_key o = Some o0 ->
  exists e w', c_create o w = (inl e, w') /\ c_store w' = c_store w.
Proof.
  intros Ho. destruct (c_create o w) as [[e|o'] w'] eqn:E;
    pose proof (c_create_spec _ _ _ _ E) as H.
  - exists e, w'. split; [done|]. destruct e; [done| |done]. by destruct H.
  - destruct H as [H _]. congruence.
Qed.
End LawFacts.
