(* ===== verification/CloudTaskApi.v ===== *)
(** * The CloudTask resource and its admission webhook

    Models [module2-orchestrator/api/v1/cloudtask_types.go] and
    [cloudtask_webhook.go].  The theorems describe every CloudTask that the
    mutating and validating webhooks let into the cluster: [admitted] is the
    set of objects reachable by admitted creates and updates. *)

From S2P Require Import Prelude GoStrings Kube.

(** ** Types *)

Definition CloudTaskFinalizer : string := "tasks.orchestrator.dev/finalizer".

(** [CloudTaskPhase] is a Go string; these are its constants.  A new object has
    the empty phase. *)
Abbreviation CloudTaskPhase := string (only parsing).
Definition PhasePending : CloudTaskPhase := "Pending".
Definition PhaseRunning : CloudTaskPhase := "Running".
Definition PhaseCompleted : CloudTaskPhase := "Completed".
Definition PhaseFailed : CloudTaskPhase := "Failed".

Record ResourceList := { rl_CPU : string; rl_Memory : string }.

Record ResourceRequirements := {
  res_Requests : option ResourceList;
  res_Limits : option ResourceList
}.

Section Types.
Context {K : K8sTypes}.

Record CloudTaskSpec := {
  spec_Image : string;
  spec_Command : list string;
  spec_Args : list string;
  spec_Resources : option ResourceRequirements;
  spec_Retries : Z;
  spec_Timeout : string;
  spec_TenantID : string;
  spec_Priority : Z;
  spec_Env : list EnvVar;
  spec_VolumeMounts : list VolumeMount;
  spec_Labels : gmap string string;
  spec_Annotations : gmap string string
}.

Record CloudTaskStatus := {
  st_Phase : CloudTaskPhase;
  st_PodName : string;
  st_StartTime : option Z;
  st_CompletionTime : option Z;
  st_RetryCount : Z;
  st_Message : string;
  st_LastUpdateTime : option Z;
  st_Conditions : list Condition
}.

Record CloudTask := {
  task_Meta : ObjectMeta;
  task_Spec : CloudTaskSpec;
  task_Status : CloudTaskStatus
}.

Definition task_key (t : CloudTask) : NamespacedName := meta_key (task_Meta t).
Definition task_Name (t : CloudTask) : string := om_Name (task_Meta t).
Definition task_Namespace (t : CloudTask) : string := om_Namespace (task_Meta t).

Definition set_meta (m : ObjectMeta) (t : CloudTask) : CloudTask :=
  {| task_Meta := m; task_Spec := task_Spec t; task_Status := task_Status t |}.
Definition set_status (s : CloudTaskStatus) (t : CloudTask) : CloudTask :=
  {| task_Meta := task_Meta t; task_Spec := task_Spec t; task_Status := s |}.
Definition set_spec (s : CloudTaskSpec) (t : CloudTask) : CloudTask :=
  {| task_Meta := task_Meta t; task_Spec := s; task_Status := task_Status t |}.

Definition emptyStatus : CloudTaskStatus :=
  {| st_Phase := ""; st_PodName := ""; st_StartTime := None; st_CompletionTime := None;
     st_RetryCount := 0; st_Message := ""; st_LastUpdateTime := None; st_Conditions := [] |}.

(** ** [Default]: the mutating webhook *)

Definition default_spec (s : CloudTaskSpec) : CloudTaskSpec :=
  {| spec_Image := spec_Image s; spec_Command := spec_Command s; spec_Args := spec_Args s;
     spec_Resources := spec_Resources s;
     spec_Retries := if decide (spec_Retries s = 0) then 3 else spec_Retries s;
     spec_Timeout := if decide (spec_Timeout s = "") then "5m" else spec_Timeout s;
     spec_TenantID := spec_TenantID s;
     spec_Priority := if decide (spec_Priority s = 0) then 50 else spec_Priority s;
     spec_Env := spec_Env s; spec_VolumeMounts := spec_VolumeMounts s;
     spec_Labels := spec_Labels s; spec_Annotations := spec_Annotations s |}.

Definition Default (r : CloudTask) : CloudTask := set_spec (default_spec (task_Spec r)) r.

(** ** The validating webhook: warnings and an error *)

Definition retries_msg : string := "retries must be between 0 and 10".
Definition priority_msg : string := "priority must be between 0 and 100".

Definition range_warnings (s : CloudTaskSpec) : list string :=
  (if decide (spec_Retries s < 0 \/ spec_Retries s > 10) then [retries_msg] else []) ++
  (if decide (spec_Priority s < 0 \/ spec_Priority s > 100) then [priority_msg] else []).

Definition validation_result (allErr : list string) : list string * option string :=
  if decide (0 < length allErr)%nat then (allErr, Some "cloudtask validation failed")
  else ([], None).

Definition ValidateCreate (r : CloudTask) : list string * option string :=
  let s := task_Spec r in
  validation_result
    ((if decide (spec_Image s = "") then ["image is required"] else []) ++
     (if decide (spec_TenantID s = "") then ["tenantID is required"] else []) ++
     range_warnings s).

Definition ValidateUpdate (r old : CloudTask) : list string * option string :=
  let s := task_Spec r in
  let o := task_Spec old in
  validation_result
    ((if decide (spec_Image s <> spec_Image o)
      then ["image cannot be changed after creation"] else []) ++
     (if decide (spec_TenantID s <> spec_TenantID o)
      then ["tenantID cannot be changed"] else []) ++
     range_warnings s).

Definition ValidateDelete (r : CloudTask) : list string * option string := ([], None).

(** ** Lemmas *)

Definition spec_in_range (s : CloudTaskSpec) : Prop :=
  0 <= spec_Retries s <= 10 /\ 0 <= spec_Priority s <= 100.

Lemma validation_result_ok l : (validation_result l).2 = None <-> l = [].
Proof.
  unfold validation_result. case_decide; destruct l; simpl in *; split; intros;
    try done; lia.
Qed.

Lemma range_warnings_nil s : range_warnings s = [] <-> spec_in_range s.
Proof.
  unfold range_warnings, spec_in_range.
  repeat case_decide; simpl; split; intros; try done; lia.
Qed.

Lemma if_warning_nil (P : Prop) `{!Decision P} (m : string) :
  (if decide P then [m] else []) = [] <-> ~ P.
Proof. case_decide; split; done. Qed.

Lemma ValidateCreate_ok_iff r :
  (ValidateCreate r).2 = None <->
    spec_Image (task_Spec r) <> "" /\ spec_TenantID (task_Spec r) <> "" /\
    spec_in_range (task_Spec r).
Proof.
  unfold ValidateCreate. rewrite validation_result_ok, !app_nil, !if_warning_nil,
    range_warnings_nil. naive_solver.
Qed.

Lemma ValidateUpdate_ok_iff r old :
  (ValidateUpdate r old).2 = None <->
    spec_Image (task_Spec r) = spec_Image (task_Spec old) /\
    spec_TenantID (task_Spec r) = spec_TenantID (task_Spec old) /\
    spec_in_range (task_Spec r).
Proof.
  unfold ValidateUpdate. rewrite validation_result_ok, !app_nil, !if_warning_nil,
    range_warnings_nil.
  destruct (decide (spec_Image (task_Spec r) = spec_Image (task_Spec old))),
    (decide (spec_TenantID (task_Spec r) = spec_TenantID (task_Spec old))); naive_solver.
Qed.

(** ** Admission histories *)

(** [admitted t0 t]: [t] is what the cluster holds after a create of [t0]'s
    object and any number of updates, each defaulted and then validated. *)
Inductive admitted : CloudTask -> CloudTask -> Prop :=
| admitted_create r :
    (ValidateCreate (Default r)).2 = None -> admitted (Default r) (Default r)
| admitted_update t0 old r :
    admitted t0 old -> (ValidateUpdate (Default r) old).2 = None ->
    admitted t0 (Default r).

Lemma default_spec_fields r :
  spec_Retries (task_Spec (Default r)) <> 0 /\ spec_Priority (task_Spec (Default r)) <> 0 /\
  spec_Timeout (task_Spec (Default r)) <> "".
Proof. simpl. repeat split; case_decide; done. Qed.

(** C26: whatever sequence of creates and updates the webhooks admit, the
    object in the cluster has between 1 and 10 retries, a priority between 1
    and 100, a timeout, and the image and tenant it was created with. *)
Theorem admitted_well_formed t0 t :
  admitted t0 t ->
  1 <= spec_Retries (task_Spec t) <= 10 /\ 1 <= spec_Priority (task_Spec t) <= 100 /\
  spec_Timeout (task_Spec t) <> "" /\
  spec_Image (task_Spec t) = spec_Image (task_Spec t0) /\ spec_Image (task_Spec t) <> "" /\
  spec_TenantID (task_Spec t) = spec_TenantID (task_Spec t0) /\
  spec_TenantID (task_Spec t) <> "".
Proof.
  induction 1 as [r Hv|t0 old r Hold IH Hv].
  - apply ValidateCreate_ok_iff in Hv as (Hi & Ht & [Hr Hp]).
    destruct (default_spec_fields r) as (Hr0 & Hp0 & Hto). repeat split; try done; lia.
  - apply ValidateUpdate_ok_iff in Hv as (Hi & Ht & [Hr Hp]).
    destruct (default_spec_fields r) as (Hr0 & Hp0 & Hto).
    destruct IH as (_ & _ & _ & Ei & Hi' & Et & Ht'). rewrite Hi, Ht.
    repeat split; try done; lia.
Qed.

Lemma Default_idempotent r : Default (Default r) = Default r.
Proof.
  unfold Default, set_spec. simpl. f_equal. unfold default_spec. simpl.
  f_equal; repeat case_decide; done.
Qed.
End Types.
