(* ===== verification/CloudTaskController.v ===== *)
(** * The CloudTask operator: [controllers/cloudtask_controller.go]

    [Reconcile] is the whole handler, over the client interface of [Kube]: every
    call to the API server, the clock and the event recorder is a call on the
    world.  Log lines are not modelled.  [constructPod], [updateStatusFromPod]
    and [deleteExternalResources] are its helpers, and [ParseQuantity_or_zero]
    is [pkg/utils/quantity.go].

    The theorems are proved for every client satisfying [ClientLaws]. *)

From stdpp Require Import sorting.
From S2P Require Import Prelude GoStrings GoTime Kube CloudTaskApi.

Definition cloudTaskFinalizerKey : string := "tasks.orchestrator.dev/finalizer".
Definition podNameLabel : string := "cloudtask-name".
Definition podTenantLabel : string := "tenant-id".
Definition podPriorityLabel : string := "priority".

Definition ResourceCPU : string := "cpu".
Definition ResourceMemory : string := "memory".
Definition RestartPolicyNever : string := "Never".

(** What the admission chain of the server does to a submitted spec: the
    identity when no webhook is installed, [default_spec] with the webhook. *)
Class Admission {K : K8sTypes} := admit_spec : CloudTaskSpec -> CloudTaskSpec.

Section TaskKind.
Context {K : K8sTypes} {A : Admission}.

#[export] Instance task_kind : Kind CloudTask := {
  obj_key := task_key;
  obj_labels t := om_Labels (task_Meta t);
  obj_created t t' :=
    om_Labels (task_Meta t') = om_Labels (task_Meta t) /\
    om_Finalizers (task_Meta t') = om_Finalizers (task_Meta t) /\
    om_DeletionTimestamp (task_Meta t') = None /\
    task_Spec t' = admit_spec (task_Spec t) /\ task_Status t' = emptyStatus;
  obj_updated old t t' :=
    om_Finalizers (task_Meta t') = om_Finalizers (task_Meta t) /\
    om_DeletionTimestamp (task_Meta t') = om_DeletionTimestamp (task_Meta old) /\
    task_Spec t' = admit_spec (task_Spec t) /\ task_Status t' = task_Status old;
  obj_status_updated old t t' := t' = set_status (task_Status t) old;
  obj_terminating t := is_Some (om_DeletionTimestamp (task_Meta t));
  obj_gone t := bool_decide (is_Some (om_DeletionTimestamp (task_Meta t))) &&
                bool_decide (om_Finalizers (task_Meta t) = [])
}.
End TaskKind.

Section Controller.
Context {K : K8sTypes} {W : Type}.
Context `{!Client W CloudTask, !Client W Pod, !Clock W, !Recorder W, OR : !OwnerRefs CloudTask}.

(** ** [utils.ParseQuantity]: the zero quantity when parsing fails *)

Definition ParseQuantity_or_zero (s : string) : Quantity :=
  default zeroQuantity (ParseQuantity s).

(** ** Status setters *)

Definition set_phase (ph msg : string) (s : CloudTaskStatus) : CloudTaskStatus :=
  {| st_Phase := ph; st_PodName := st_PodName s; st_StartTime := st_StartTime s;
     st_CompletionTime := st_CompletionTime s; st_RetryCount := st_RetryCount s;
     st_Message := msg; st_LastUpdateTime := st_LastUpdateTime s;
     st_Conditions := st_Conditions s |}.

Definition set_completion (now : Z) (s : CloudTaskStatus) : CloudTaskStatus :=
  {| st_Phase := st_Phase s; st_PodName := st_PodName s; st_StartTime := st_StartTime s;
     st_CompletionTime := Some now; st_RetryCount := st_RetryCount s;
     st_Message := st_Message s; st_LastUpdateTime := st_LastUpdateTime s;
     st_Conditions := st_Conditions s |}.

Definition set_last_update (now : Z) (s : CloudTaskStatus) : CloudTaskStatus :=
  {| st_Phase := st_Phase s; st_PodName := st_PodName s; st_StartTime := st_StartTime s;
     st_CompletionTime := st_CompletionTime s; st_RetryCount := st_RetryCount s;
     st_Message := st_Message s; st_LastUpdateTime := Some now;
     st_Conditions := st_Conditions s |}.

(** The retry branch: back to Pending, one more retry, no pod. *)
Definition retry_status (t : CloudTask) : CloudTaskStatus :=
  let s := task_Status t in
  let n := int32 (st_RetryCount s + 1) in
  {| st_Phase := PhasePending; st_PodName := ""; st_StartTime := st_StartTime s;
     st_CompletionTime := st_CompletionTime s; st_RetryCount := n;
     st_Message := "Retrying (attempt " +:+ pretty n +:+ "/" +:+
                   pretty (spec_Retries (task_Spec t)) +:+ ")";
     st_LastUpdateTime := st_LastUpdateTime s; st_Conditions := st_Conditions s |}.

(** The branch that has just created the pod. *)
Definition running_status (podName : string) (now : Z) (s : CloudTaskStatus)
    : CloudTaskStatus :=
  {| st_Phase := PhaseRunning; st_PodName := podName; st_StartTime := Some now;
     st_CompletionTime := st_CompletionTime s; st_RetryCount := st_RetryCount s;
     st_Message := "Pod created and running"; st_LastUpdateTime := st_LastUpdateTime s;
     st_Conditions := st_Conditions s |}.

(** ** [updateStatusFromPod] *)

Definition failure_reason (pod : Pod) : string :=
  let reason := "Unknown" in
  let reason :=
    if decide (pst_Reason (pod_Status pod) <> "") then pst_Reason (pod_Status pod)
    else reason in
  match pst_ContainerStatuses (pod_Status pod) with
  | c :: _ => match cs_Terminated c with Some r => r | None => reason end
  | [] => reason
  end.

Definition updateStatusFromPod (t : CloudTask) (pod : Pod) : GoM W (bool * CloudTask) :=
  let s := task_Status t in
  '(updated, s') ←
    (if decide (pst_Phase (pod_Status pod) = PodRunning) then
       if decide (st_Phase s <> PhaseRunning) then
         mret (true, set_phase PhaseRunning "Pod is running" s)
       else mret (false, s)
     else if decide (pst_Phase (pod_Status pod) = PodSucceeded) then
       if decide (st_Phase s <> PhaseCompleted) then
         now ← lift clock_now;
         mret (true, set_completion now (set_phase PhaseCompleted "Pod succeeded" s))
       else mret (false, s)
     else if decide (pst_Phase (pod_Status pod) = PodFailed) then
       if decide (st_Phase s <> PhaseFailed) then
         now ← lift clock_now;
         mret (true, set_completion now
           (set_phase PhaseFailed ("Pod failed: " +:+ failure_reason pod) s))
       else mret (false, s)
     else if decide (pst_Phase (pod_Status pod) = PodPending) then
       if decide (st_Phase s <> PhaseRunning /\ st_Phase s <> PhasePending) then
         mret (true, set_phase PhasePending "Pod is pending" s)
       else mret (false, s)
     else mret (false, s));
  if updated : bool then
    now ← lift clock_now;
    mret (true, set_status (set_last_update now s') t)
  else mret (false, set_status s' t).

(** ** [constructPod] *)

Definition pod_labels (t : CloudTask) : gmap string string :=
  spec_Labels (task_Spec t) ∪
    {[ podNameLabel := task_Name t;
       podTenantLabel := spec_TenantID (task_Spec t);
       podPriorityLabel := pretty (spec_Priority (task_Spec t)) ]}.

Definition pod_deadline (timeout : string) : Z :=
  if decide (timeout <> "") then
    match parse_duration timeout with
    | Some d => duration_int_seconds d
    | None => 300
    end
  else 300.

Definition core_resource_list (l : ResourceList) : gmap string Quantity :=
  let m := if decide (rl_CPU l <> "")
           then {[ResourceCPU := ParseQuantity_or_zero (rl_CPU l)]} else ∅ in
  if decide (rl_Memory l <> "")
  then <[ResourceMemory := ParseQuantity_or_zero (rl_Memory l)]> m else m.

Definition core_resources (r : option ResourceRequirements) : CoreResources :=
  match r with
  | None => {| rr_Requests := ∅; rr_Limits := ∅ |}
  | Some rr =>
      {| rr_Requests := match res_Requests rr with
                        | Some l => core_resource_list l | None => ∅ end;
         rr_Limits := match res_Limits rr with
                      | Some l => core_resource_list l | None => ∅ end |}
  end.

Definition constructPod (t : CloudTask) : Pod :=
  let s := task_Spec t in
  {| pod_Meta := new_meta (task_Name t +:+ "-pod") (task_Namespace t)
                   (pod_labels t) (spec_Annotations s);
     pod_Spec := {|
       ps_RestartPolicy := RestartPolicyNever;
       ps_Containers := [ {|
         ct_Name := "task-container";
         ct_Image := spec_Image s;
         ct_Command := spec_Command s;
         ct_Args := spec_Args s;
         ct_Env := spec_Env s;
         ct_VolumeMounts := spec_VolumeMounts s;
         ct_ImagePullPolicy := "";
         ct_Resources := core_resources (spec_Resources s) |} ];
       ps_ActiveDeadlineSeconds := Some (pod_deadline (spec_Timeout s));
       ps_TerminationGracePeriodSeconds := Some 30 |};
     pod_Status := emptyPodStatus |}.

(** ** [deleteExternalResources] *)

Definition deleteExternalResources (t : CloudTask) : GoM W (option api_error) :=
  if decide (st_PodName (task_Status t) <> "") then
    r ← lift (c_get (T := Pod) (task_Namespace t, st_PodName (task_Status t)));
    match r with
    | inl NotFound => mret None
    | inl e => mret (Some e)
    | inr pod => lift (c_delete pod)
    end
  else mret None.

(** ** [Reconcile] *)

Definition done_result : Result := {| RequeueAfter := 0 |}.
Definition after (seconds : Z) : Result := {| RequeueAfter := seconds * Second |}.

Definition ContainsFinalizer (t : CloudTask) (f : string) : bool :=
  bool_decide (f ∈ om_Finalizers (task_Meta t)).
Definition AddFinalizer (f : string) (t : CloudTask) : CloudTask :=
  set_meta (meta_set_finalizers (om_Finalizers (task_Meta t) ++ [f]) (task_Meta t)) t.
Definition RemoveFinalizer (f : string) (t : CloudTask) : CloudTask :=
  set_meta (meta_set_finalizers (filter (fun g => g <> f) (om_Finalizers (task_Meta t)))
              (task_Meta t)) t.

(** The deletion branch. *)
Definition reconcileDelete (t : CloudTask) : GoM W (Result * option api_error) :=
  if ContainsFinalizer t cloudTaskFinalizerKey then
    e ← deleteExternalResources t;
    match e with
    | Some err => mret (done_result, Some err)
    | None =>
        r ← lift (c_update (RemoveFinalizer cloudTaskFinalizerKey t));
        match r with
        | inl err => mret (done_result, Some err)
        | inr _ => mret (done_result, None)
        end
    end
  else mret (done_result, None).

(** The switch on the phase once the pod's status is taken over. [None]: the
    phase is none of the three, and the handler goes on. *)
Definition handlePhase (t : CloudTask) : GoM W (option (Result * option api_error)) :=
  let s := task_Status t in
  if decide (st_Phase s = PhaseCompleted) then
    _ ← lift_unit (record_event "Normal" "Completed" "Task completed successfully");
    mret (Some (done_result, None))
  else if decide (st_Phase s = PhaseFailed) then
    if decide (st_RetryCount s < spec_Retries (task_Spec t)) then
      _ ← lift_unit (record_event "Normal" "Retrying"
            ("Retrying task (attempt " +:+ pretty (int32 (st_RetryCount s + 1)) +:+ "/" +:+
             pretty (spec_Retries (task_Spec t)) +:+ ")"));
      r ← lift (c_update_status (set_status (retry_status t) t));
      match r with
      | inl err => mret (Some (done_result, Some err))
      | inr _ => mret (Some (after 5, None))
      end
    else
      _ ← lift_unit (record_event "Warning" "Failed" "Task failed after retries exhausted");
      mret (Some (done_result, None))
  else if decide (st_Phase s = PhaseRunning) then
    mret (Some (after 30, None))
  else mret None.

(** The last part: create the pod of a task that has none. *)
Definition ensurePod (t : CloudTask) : GoM W (Result * option api_error) :=
  if decide (st_Phase (task_Status t) = "" \/ st_Phase (task_Status t) = PhasePending) then
    match SetControllerReference t (constructPod t) with
    | inl err => mret (done_result, Some err)
    | inr newPod =>
        r ← lift (c_create newPod);
        match r with
        | inl err =>
            _ ← lift_unit (record_event "Warning" "PodCreationFailed"
                  ("Failed to create Pod: " +:+ err_text err));
            mret (after 10, Some err)
        | inr pod' =>
            _ ← lift_unit (record_event "Normal" "PodCreated"
                  ("Created Pod " +:+ pod_Name pod'));
            now ← lift clock_now;
            u ← lift (c_update_status
                  (set_status (running_status (pod_Name pod') now (task_Status t)) t));
            match u with
            | inl err => mret (done_result, Some err)
            | inr _ => mret (after 30, None)
            end
        end
    end
  else mret (after 30, None).

(** Taking over the status of an existing pod and reacting to it. *)
Definition reconcilePod (t : CloudTask) (pod : Pod) : GoM W (Result * option api_error) :=
  '(updated, t1) ← updateStatusFromPod t pod;
  r ← (if updated : bool then lift (c_update_status t1) else mret (inr t1));
  match r with
  | inl err => mret (done_result, Some err)
  | inr t2 =>
      h ← handlePhase t2;
      match h with
      | Some res => mret res
      | None => mret (after 30, None)
      end
  end.

(** From the finalizer on: look the pod up, then one of the two parts above. *)
Definition reconcileLive (t : CloudTask) : GoM W (Result * option api_error) :=
  if decide (st_PodName (task_Status t) <> "") then
    r ← lift (c_get (T := Pod) (task_Namespace t, st_PodName (task_Status t)));
    match r with
    | inl NotFound => ensurePod t
    | inl err => mret (done_result, Some err)
    | inr pod => if decide (pod_Name pod <> "") then reconcilePod t pod else ensurePod t
    end
  else ensurePod t.

Definition Reconcile (req : NamespacedName) : GoM W (Result * option api_error) :=
  r ← lift (c_get (T := CloudTask) req);
  match r with
  | inl NotFound => mret (done_result, None)
  | inl err => mret (done_result, Some err)
  | inr t =>
      if decide (om_DeletionTimestamp (task_Meta t) <> None) then reconcileDelete t
      else if ContainsFinalizer t cloudTaskFinalizerKey then reconcileLive t
      else
        u ← lift (c_update (AddFinalizer cloudTaskFinalizerKey t));
        match u with
        | inl err => mret (done_result, Some err)
        | inr t' => reconcileLive t'
        end
  end.
End Controller.

(** ** Facts about the parts, for any client that satisfies the laws *)

Section ControllerFacts.
Context {K : K8sTypes} {A : Admission} {W : Type}.
Context `{!Client W CloudTask, !Client W Pod, !Clock W, !Recorder W, OR : !OwnerRefs CloudTask}.
Context `{LT : !ClientLaws W CloudTask, LP : !ClientLaws W Pod}.
Context `{FTP : !ClientFrame W CloudTask Pod c_store, FPT : !ClientFrame W Pod CloudTask c_store}.
Context `{ET : !EnvFrame W CloudTask c_store, EP : !EnvFrame W Pod c_store}.

Abbreviation tasks := (c_store (T := CloudTask)).
Abbreviation pods := (c_store (T := Pod)).

(** *** Each call, on both stores *)

Lemma get_task_view k w r w' :
  c_get (T := CloudTask) k w = (r, w') ->
  tasks w' = tasks w /\ pods w' = pods w /\
  match r with
  | inr o => tasks w !! k = Some o
  | inl NotFound => tasks w !! k = None
  | inl _ => True
  end.
Proof.
  intros E. destruct (c_get_spec _ _ _ _ E). pose proof (frame_get (T := CloudTask) k w) as F.
  by rewrite E in F.
Qed.

Lemma get_pod_view k w r w' :
  c_get (T := Pod) k w = (r, w') ->
  tasks w' = tasks w /\ pods w' = pods w /\
  match r with
  | inr o => pods w !! k = Some o
  | inl NotFound => pods w !! k = None
  | inl _ => True
  end.
Proof.
  intros E. destruct (c_get_spec _ _ _ _ E). pose proof (frame_get (T := Pod) k w) as F.
  by rewrite E in F.
Qed.

Lemma clock_view w z w' :
  clock_now w = (z, w') -> tasks w' = tasks w /\ pods w' = pods w.
Proof.
  intros E. pose proof (frame_clock (st := tasks) w) as F1.
  pose proof (frame_clock (st := pods) w) as F2. by rewrite E in F1, F2.
Qed.

Lemma event_view t r m w :
  tasks (record_event t r m w) = tasks w /\ pods (record_event t r m w) = pods w.
Proof. split; apply frame_event. Qed.

Lemma update_status_view t w r w' :
  c_update_status (T := CloudTask) t w = (r, w') ->
  pods w' = pods w /\
  match r with
  | inr t' => exists old, tasks w !! task_key t = Some old /\
      t' = set_status (task_Status t) old /\ tasks w' = <[task_key t := t']> (tasks w)
  | inl _ => tasks w' = tasks w
  end.
Proof.
  intros E. pose proof (frame_update_status (T := CloudTask) t w) as F. rewrite E in F.
  split; [done|]. pose proof (c_update_status_spec _ _ _ _ E) as H.
  destruct r as [e|t']; [done|]. destruct H as (old & H1 & H2 & _ & H3). by exists old.
Qed.

Lemma update_task_view t w r w' :
  c_update (T := CloudTask) t w = (r, w') ->
  pods w' = pods w /\
  match r with
  | inr t' => exists old, tasks w !! task_key t = Some old /\ obj_updated old t t' /\
      task_key t' = task_key t /\
      tasks w' = if obj_gone t' then delete (task_key t) (tasks w)
                 else <[task_key t := t']> (tasks w)
  | inl _ => tasks w' = tasks w
  end.
Proof.
  intros E. pose proof (frame_update (T := CloudTask) t w) as F. rewrite E in F.
  split; [done|]. exact (c_update_spec _ _ _ _ E).
Qed.

Lemma create_pod_view p w r w' :
  c_create (T := Pod) p w = (r, w') ->
  tasks w' = tasks w /\
  match r with
  | inr p' => pods w !! pod_key p = None /\ obj_created p p' /\ pod_key p' = pod_key p /\
      pods w' = <[pod_key p := p']> (pods w)
  | inl _ => pods w' = pods w
  end.
Proof.
  intros E. pose proof (frame_create (T := Pod) p w) as F. rewrite E in F.
  split; [done|]. pose proof (c_create_spec _ _ _ _ E) as H.
  destruct r as [[| |m]|p']; try done. by destruct H.
Qed.

Lemma delete_pod_view p w r w' :
  c_delete (T := Pod) p w = (r, w') ->
  tasks w' = tasks w /\
  match r with
  | None => pods w' = delete (pod_key p) (pods w) \/
      exists p', pod_key p' = pod_key p /\ is_Some (om_DeletionTimestamp (pod_Meta p')) /\
        pods w' = <[pod_key p := p']> (pods w)
  | Some _ => pods w' = pods w
  end.
Proof.
  intros E. pose proof (frame_delete (T := Pod) p w) as F. rewrite E in F.
  split; [done|]. exact (c_delete_spec _ _ _ _ E).
Qed.

(** Updating the status of an object that is current in the store. *)
Lemma update_status_current s t w r w' :
  c_update_status (set_status s t) w = (r, w') -> tasks w !! task_key t = Some t ->
  pods w' = pods w /\
  match r with
  | inr t' => t' = set_status s t /\ tasks w' = <[task_key t := set_status s t]> (tasks w)
  | inl _ => tasks w' = tasks w
  end.
Proof.
  intros [Hp Hr]%update_status_view Ht. split; [done|]. destruct r as [e|t']; [done|].
  change (task_key (set_status s t)) with (task_key t) in Hr.
  destruct Hr as (old & Hold & -> & Hs). assert (old = t) as -> by congruence. done.
Qed.

(** *** Running a handler: step through its calls, then read off the views *)

Ltac kev :=
  repeat match goal with
  | |- context [c_store (record_event ?t ?r ?m ?w)] =>
      rewrite ?(proj1 (event_view t r m w)), ?(proj2 (event_view t r m w))
  | H : context [c_store (record_event ?t ?r ?m ?w)] |- _ =>
      rewrite ?(proj1 (event_view t r m w)), ?(proj2 (event_view t r m w)) in H
  end.

Ltac kview :=
  repeat match goal with
  | E : c_get (T := CloudTask) _ _ = _ |- _ => apply get_task_view in E as (? & ? & ?)
  | E : c_get (T := Pod) _ _ = _ |- _ => apply get_pod_view in E as (? & ? & ?)
  | E : clock_now _ = _ |- _ => apply clock_view in E as [? ?]
  | E : c_update_status _ _ = _ |- _ => apply update_status_view in E as [? ?]
  | E : c_update _ _ = _ |- _ => apply update_task_view in E as [? ?]
  | E : c_create _ _ = _ |- _ => apply create_pod_view in E as [? ?]
  | E : c_delete _ _ = _ |- _ => apply delete_pod_view in E as [? ?]
  end.

(** The key of the pod [constructPod] builds. *)
Definition own_pod_key (t : CloudTask) : NamespacedName :=
  (task_Namespace t, task_Name t +:+ "-pod").

Lemma constructPod_key t : pod_key (constructPod t) = own_pod_key t.
Proof. done. Qed.

(** What [updateStatusFromPod] leaves alone. *)
Lemma updateStatusFromPod_frame t pod w :
  exists b t' w', updateStatusFromPod t pod w = (Ret (b, t'), w') /\
    tasks w' = tasks w /\ pods w' = pods w /\
    task_Meta t' = task_Meta t /\ task_Spec t' = task_Spec t /\
    st_RetryCount (task_Status t') = st_RetryCount (task_Status t) /\
    st_PodName (task_Status t') = st_PodName (task_Status t) /\
    (b = false -> t' = t).
Proof.
  assert (forall s, s = task_Status t -> set_status s t = t) as Hid
    by (intros s ->; by destruct t).
  unfold updateStatusFromPod. go_run; kview; do 3 eexists; (split; [done|]); simpl;
    repeat split; try congruence; auto.
Qed.

Definition status_moved (t : CloudTask) (T T' : gmap NamespacedName CloudTask) : Prop :=
  T' = T \/ exists s, T' = <[task_key t := set_status s t]> T /\
    (st_RetryCount s = st_RetryCount (task_Status t) \/
     (st_RetryCount (task_Status t) < spec_Retries (task_Spec t) /\
      st_RetryCount s = int32 (st_RetryCount (task_Status t) + 1))).

Definition own_pod_created (t : CloudTask) (P P' : gmap NamespacedName Pod) : Prop :=
  (st_Phase (task_Status t) = "" \/ st_Phase (task_Status t) = PhasePending) /\
  P !! own_pod_key t = None /\
  exists p, pod_spec_admitted (pod_Spec (constructPod t)) (pod_Spec p) /\
    om_Labels (pod_Meta p) = pod_labels t /\ P' = <[own_pod_key t := p]> P.

Lemma status_moved_refl t T : status_moved t T T.
Proof. by left. Qed.

Lemma status_moved_insert t T s :
  st_RetryCount s = st_RetryCount (task_Status t) ->
  status_moved t T (<[task_key t := set_status s t]> T).
Proof. intros. right. eauto. Qed.

Hint Resolve status_moved_refl status_moved_insert : go.

Lemma own_pod_created_intro t p p' P :
  owner_refs_ok CloudTask -> SetControllerReference t (constructPod t) = inr p ->
  st_Phase (task_Status t) = "" \/ st_Phase (task_Status t) = PhasePending ->
  P !! own_pod_key t = None -> obj_created p p' ->
  own_pod_created t P (<[own_pod_key t := p']> P).
Proof.
  intros Hown Hs Hph HP (Hl & _ & Hsp). destruct (Hown _ _ _ Hs) as (_ & Hl' & Hsp').
  split; [done|]. split; [done|]. exists p'. rewrite <-Hsp', Hl. by split.
Qed.

(** [ensurePod] creates at most the task's own pod, and only for a task in the
    empty or Pending phase whose pod name is free. *)
Lemma ensurePod_effect t w :
  owner_refs_ok CloudTask -> tasks w !! task_key t = Some t ->
  exists res w', ensurePod t w = (Ret res, w') /\
    status_moved t (tasks w) (tasks w') /\
    (pods w' = pods w \/ own_pod_created t (pods w) (pods w')).
Proof.
  intros Hown Ht. unfold ensurePod.
  case_decide as Hph; [|by do 2 eexists; eauto with go].
  destruct (SetControllerReference t (constructPod t)) as [e|p] eqn:Hs;
    [by do 2 eexists; eauto with go|].
  assert (pod_key p = own_pod_key t) as Hk by (by destruct (Hown _ _ _ Hs)).
  rewrite lift_bind. destruct (c_create p w) as [[e|p'] w1] eqn:Hc;
    apply create_pod_view in Hc as [Ht1 Hp1]; rewrite ?Hk in Hp1.
  - do 2 eexists; split; [done|]. kev. rewrite Ht1, Hp1. auto with go.
  - destruct Hp1 as (Hfree & Hcr & _ & Hp1).
    assert (own_pod_created t (pods w) (pods w1)) as Hmade
      by (rewrite Hp1; eauto using own_pod_created_intro).
    rewrite lift_unit_bind, lift_bind.
    destruct (clock_now _) as [now w2] eqn:Hn. apply clock_view in Hn as [Ht2 Hp2].
    rewrite lift_bind. destruct (c_update_status _ w2) as [r w3] eqn:Hu.
    kev. apply update_status_current in Hu as [Hp3 Hr]; [|congruence].
    destruct r as [e|t']; do 2 eexists; (split; [done|]).
    + rewrite Hp3, Hp2, Hr, Ht2, Ht1. auto with go.
    + destruct Hr as [_ Hr]. rewrite Hp3, Hp2, Hr, Ht2, Ht1. auto with go.
Qed.

(** [handlePhase] only ever takes one step of the retry counter. *)
Lemma handlePhase_effect t w :
  tasks w !! task_key t = Some t ->
  exists res w', handlePhase t w = (Ret res, w') /\
    status_moved t (tasks w) (tasks w') /\ pods w' = pods w.
Proof.
  intros Ht. unfold handlePhase.
  case_decide; [by do 2 eexists; split; [done|]; kev; auto with go|].
  case_decide; [|case_decide; by do 2 eexists; split; [done|]; auto with go].
  case_decide as Hlt; [|by do 2 eexists; split; [done|]; kev; auto with go].
  rewrite lift_unit_bind, lift_bind.
  destruct (c_update_status _ _) as [r w1] eqn:Hu.
  apply update_status_current in Hu as [Hp Hr]; [|by kev]. kev.
  destruct r as [e|t']; do 2 eexists; (split; [done|]).
  - rewrite Hp, Hr. auto with go.
  - destruct Hr as [_ Hr]. rewrite Hp, Hr. split; [|done]. right. eauto.
Qed.

Lemma status_moved_trans t t1 T T1 T2 :
  T1 = <[task_key t := t1]> T -> t1 = set_status (task_Status t1) t ->
  st_RetryCount (task_Status t1) = st_RetryCount (task_Status t) ->
  status_moved t1 T1 T2 -> status_moved t T T2.
Proof.
  intros -> Ht1 Hrc [->|(s & -> & Hs)].
  - rewrite Ht1. by apply status_moved_insert.
  - right. exists s. rewrite Ht1 in Hs |- *. simpl in *.
    change (task_key (set_status _ t)) with (task_key t).
    rewrite insert_insert_eq, <- Hrc. split; [done|]. by rewrite Ht1.
Qed.

Lemma reconcilePod_effect t pod w :
  tasks w !! task_key t = Some t ->
  exists res w', reconcilePod t pod w = (Ret res, w') /\
    status_moved t (tasks w) (tasks w') /\ pods w' = pods w.
Proof.
  intros Ht. unfold reconcilePod.
  destruct (updateStatusFromPod_frame t pod w)
    as (b & t1 & w1 & E & Ht1 & Hp1 & Hm & Hsp & Hrc & _ & Hb).
  rewrite (GoM_bind_ret _ _ _ _ _ E).
  assert (t1 = set_status (task_Status t1) t) as Et1.
  { destruct t1, t. simpl in *. by subst. }
  destruct b.
  - rewrite lift_bind. destruct (c_update_status t1 w1) as [r w2] eqn:Hu.
    rewrite Et1 in Hu. apply update_status_current in Hu as [Hp2 Hr]; [|congruence].
    rewrite <- Et1 in Hr. destruct r as [e|t2].
    + do 2 eexists; split; [done|]. rewrite Hr, Hp2, Ht1. auto with go.
    + destruct Hr as [-> Hr].
      assert (tasks w2 !! task_key t1 = Some t1) as Hcur.
      { rewrite Hr, Et1. apply lookup_insert_eq. }
      destruct (handlePhase_effect t1 w2 Hcur) as (h & w3 & Eh & Hmv & Hp3).
      rewrite (GoM_bind_ret _ _ _ _ _ Eh).
      assert (status_moved t (tasks w) (tasks w3)).
      { eapply status_moved_trans; [|exact Et1|done|exact Hmv]. by rewrite Hr, Ht1. }
      destruct h; do 2 eexists; (split; [done|]); split; congruence.
  - specialize (Hb eq_refl) as ->.
    destruct (handlePhase_effect t w1 ltac:(congruence)) as (h & w3 & Eh & Hmv & Hp3).
    rewrite GoM_mret_bind, (GoM_bind_ret _ _ _ _ _ Eh).
    rewrite Ht1 in Hmv. destruct h; do 2 eexists; (split; [done|]); split; congruence.
Qed.

Lemma reconcileLive_effect t w :
  owner_refs_ok CloudTask -> tasks w !! task_key t = Some t ->
  exists res w', reconcileLive t w = (Ret res, w') /\
    status_moved t (tasks w) (tasks w') /\
    (pods w' = pods w \/ own_pod_created t (pods w) (pods w')).
Proof.
  intros Hown Ht. unfold reconcileLive.
  case_decide; [|by apply ensurePod_effect].
  rewrite lift_bind. destruct (c_get _ w) as [r w1] eqn:Hg.
  apply get_pod_view in Hg as (Ht1 & Hp1 & Hr). rewrite <- Ht1, <- Hp1.
  rewrite <- Ht1 in Ht.
  destruct r as [[| |m]|pod]; try (by do 2 eexists; split; [done|]; auto with go).
  - by apply ensurePod_effect.
  - case_decide; [|by apply ensurePod_effect].
    destruct (reconcilePod_effect t pod w1 Ht) as (res & w2 & E & Hmv & Hp).
    do 2 eexists; split; [done|]. auto.
Qed.

(** The deletion branch deletes at most the pod named in the status, and
    changes at most the task's finalizers. *)
Definition pod_deleted (t : CloudTask) (P P' : gmap NamespacedName Pod) : Prop :=
  let k := (task_Namespace t, st_PodName (task_Status t)) in
  st_PodName (task_Status t) <> "" /\
  (P' = delete k P \/
   exists p, is_Some (om_DeletionTimestamp (pod_Meta p)) /\ P' = <[k := p]> P).

Lemma deleteExternalResources_effect t w :
  exists e w', deleteExternalResources t w = (Ret e, w') /\ tasks w' = tasks w /\
    (pods w' = pods w \/ pod_deleted t (pods w) (pods w')) /\
    (e = None -> st_PodName (task_Status t) <> "" ->
     forall p, pods w' !! (task_Namespace t, st_PodName (task_Status t)) = Some p ->
       is_Some (om_DeletionTimestamp (pod_Meta p))).
Proof.
  unfold deleteExternalResources. set (k := (task_Namespace t, st_PodName (task_Status t))).
  case_decide as Hn; [|by do 2 eexists; split_and!; auto; intros; exfalso; auto].
  rewrite lift_bind. destruct (c_get k w) as [r w1] eqn:Hg.
  apply get_pod_view in Hg as (Ht1 & Hp1 & Hr).
  destruct r as [[| |m]|pod]; try (by do 2 eexists; split_and!; auto).
  - do 2 eexists; split_and!; auto. intros _ _ p. by rewrite Hp1, Hr.
  - assert (pod_key pod = k) as Hk by exact (c_store_key (T := Pod) w k pod Hr).
    unfold lift. destruct (c_delete pod w1) as [e w2] eqn:Hd.
    apply delete_pod_view in Hd as [Ht2 Hp2]. rewrite Hk in Hp2.
    do 2 eexists; split; [done|]. split; [congruence|]. rewrite Hp1 in Hp2.
    destruct e as [e|]; [split; [auto|done]|].
    destruct Hp2 as [Hp2|(p' & _ & Hterm & Hp2)].
    + split; [right; split; auto|]. intros _ _ p. by rewrite Hp2, lookup_delete_eq.
    + split; [right; split; eauto|]. intros _ _ p. rewrite Hp2, lookup_insert_eq. naive_solver.
Qed.

(** ** What one [Reconcile] may do to the cluster *)

(** The object as it may be rewritten by the finalizer update. *)
Definition same_task (t t' : CloudTask) : Prop :=
  task_key t' = task_key t /\ task_Status t' = task_Status t /\
  (task_Spec t' = task_Spec t \/ task_Spec t' = admit_spec (task_Spec t)).

Lemma same_task_refl t : same_task t t.
Proof. split_and!; auto. Qed.

Lemma AddFinalizer_updated t t' :
  obj_updated t (AddFinalizer cloudTaskFinalizerKey t) t' ->
  task_key t' = task_key (AddFinalizer cloudTaskFinalizerKey t) ->
  om_DeletionTimestamp (task_Meta t) = None -> same_task t t' /\ obj_gone t' = false.
Proof.
  intros (_ & Hd & Hs & Hst) Hk Hdel. split; [by split_and!; auto|].
  simpl. rewrite bool_decide_false; [done|]. rewrite Hd, Hdel. by intros [? ?].
Qed.

(** The effect of one [Reconcile] of the task [t] stored under [k]: nothing;
    or a status step (with or without a new finalizer) and at most the
    creation of the task's own pod; or, for a task being deleted, the removal
    of its finalizer and the deletion of the pod its status names. *)
Inductive reconcile_effect (k : NamespacedName) (t : CloudTask) (w w' : W) : Prop :=
| effect_live t' :
    om_DeletionTimestamp (task_Meta t) = None -> same_task t t' ->
    (tasks w' = tasks w \/
     exists s, tasks w' = <[k := set_status s t']> (tasks w) /\
       (st_RetryCount s = st_RetryCount (task_Status t) \/
        (st_RetryCount (task_Status t) < spec_Retries (task_Spec t') /\
         st_RetryCount s = int32 (st_RetryCount (task_Status t) + 1)))) ->
    (pods w' = pods w \/ own_pod_created t' (pods w) (pods w')) ->
    reconcile_effect k t w w'
| effect_deleting :
    om_DeletionTimestamp (task_Meta t) <> None ->
    (tasks w' = tasks w \/ tasks w' = delete k (tasks w) \/
     exists t', tasks w' = <[k := t']> (tasks w) /\ same_task t t' /\
       cloudTaskFinalizerKey ∉ om_Finalizers (task_Meta t')) ->
    (pods w' = pods w \/ pod_deleted t (pods w) (pods w')) ->
    reconcile_effect k t w w'.

Lemma status_moved_live k t t' w w' w0 :
  om_DeletionTimestamp (task_Meta t) = None -> same_task t t' -> task_key t' = k ->
  (tasks w0 = tasks w \/ tasks w0 = <[k := t']> (tasks w)) -> pods w0 = pods w ->
  (tasks w0 = tasks w -> t' = t) ->
  status_moved t' (tasks w0) (tasks w') ->
  (pods w' = pods w0 \/ own_pod_created t' (pods w0) (pods w')) ->
  reconcile_effect k t w w'.
Proof.
  intros Hd Hsame Hk Hw0 Hp0 Hid Hmv Hp. rewrite Hp0 in Hp.
  destruct Hsame as (Hkey & Hst & Hspec).
  apply (effect_live k t w w' t'); [done|by split_and!| |done].
  assert (set_status (task_Status t') t' = t') as Eself by (by destruct t').
  destruct Hmv as [Hmv|(s & Hmv & Hs)].
  - destruct Hw0 as [Hw0|Hw0]; rewrite Hmv, Hw0; [auto|].
    right. exists (task_Status t'). rewrite Eself, Hst. auto.
  - right. exists s. rewrite Hst in Hs. split; [|done]. rewrite Hmv, Hk.
    destruct Hw0 as [-> | ->]; [done|]. by rewrite insert_insert_eq.
Qed.

Lemma reconcileDelete_effect k t w w1 :
  tasks w1 = tasks w -> pods w1 = pods w -> tasks w !! k = Some t -> task_key t = k ->
  om_DeletionTimestamp (task_Meta t) <> None ->
  exists res w', reconcileDelete t w1 = (Ret res, w') /\ reconcile_effect k t w w'.
Proof.
  intros Ht1 Hp1 Ht Hk Hdel. unfold reconcileDelete.
  destruct (ContainsFinalizer t _) eqn:Hf;
    [|by do 2 eexists; split; [done|]; eapply effect_deleting; eauto].
  destruct (deleteExternalResources_effect t w1) as (e & w2 & E & Ht2 & Hp2 & _).
  rewrite (GoM_bind_ret _ _ _ _ _ E). rewrite Hp1 in Hp2. destruct e as [e|].
  { do 2 eexists; split; [done|]. eapply effect_deleting; [done| |done]. left; congruence. }
  rewrite lift_bind. destruct (c_update _ w2) as [r w3] eqn:Hu.
  apply update_task_view in Hu as [Hp3 Hr3]. rewrite <- Hp3 in Hp2. rewrite Ht2, Ht1 in Hr3.
  destruct r as [e|t']; do 2 eexists; (split; [done|]);
    (eapply effect_deleting; [done| |done]); [by left|].
  destruct Hr3 as (old & Hold & (Hfin & _ & Hspec & Hst) & Hk' & Hs).
  change (task_key (RemoveFinalizer _ t)) with (task_key t) in *. rewrite Hk in *.
  assert (old = t) as -> by congruence.
  rewrite Hs. destruct (obj_gone t'); [auto|]. right; right. exists t'.
  split_and!; [done|by split_and!; [congruence|done|right]|].
  rewrite Hfin. simpl. rewrite list_elem_of_filter. naive_solver.
Qed.

Lemma Reconcile_effect k w t :
  owner_refs_ok CloudTask -> tasks w !! k = Some t ->
  exists res w', Reconcile k w = (Ret res, w') /\ reconcile_effect k t w w'.
Proof.
  intros Hown Ht. assert (task_key t = k) as Hk by exact (c_store_key (T := CloudTask) w k t Ht).
  unfold Reconcile. rewrite lift_bind. destruct (c_get k w) as [r w1] eqn:Hg.
  apply get_task_view in Hg as (Ht1 & Hp1 & Hr).
  destruct r as [[| |m]|t0]; [congruence| | |].
  1, 2: do 2 eexists; (split; [done|]);
    destruct (om_DeletionTimestamp (task_Meta t)) eqn:Ed;
    [eapply effect_deleting|eapply effect_live]; eauto using same_task_refl; congruence.
  assert (t0 = t) as -> by congruence. case_decide as Hdel.
  - destruct (reconcileDelete_effect k t w w1) as (res & w2 & E & He); eauto.
  - destruct (ContainsFinalizer t _) eqn:Hf.
    + destruct (reconcileLive_effect t w1 Hown ltac:(congruence)) as (res & w2 & E & Hmv & Hp).
      do 2 eexists; split; [done|].
      eapply (status_moved_live k t t w w2 w1); eauto using same_task_refl.
    + rewrite lift_bind. destruct (c_update _ w1) as [r w2] eqn:Hu.
      apply update_task_view in Hu as [Hp2 Hr2]. rewrite Ht1 in Hr2. destruct r as [e|t'].
      * do 2 eexists; split; [done|]. eapply effect_live; eauto using same_task_refl.
        left. congruence.
      * destruct Hr2 as (old & Hold & Hupd & Hk' & Hs).
        change (task_key (AddFinalizer _ t)) with (task_key t) in Hold, Hs. rewrite Hk in Hold, Hs.
        assert (old = t) as -> by congruence.
        destruct (AddFinalizer_updated _ _ Hupd Hk' Hdel) as [Hsame Hng]. rewrite Hng in Hs.
        assert (task_key t' = k) as Hkt' by (rewrite Hk'; exact Hk).
        destruct (reconcileLive_effect t' w2 Hown) as (res & w3 & E & Hmv & Hp).
        { by rewrite Hs, Hkt', lookup_insert_eq. }
        do 2 eexists; split; [done|].
        eapply (status_moved_live k t t' w w3 w2); eauto; [congruence|].
        intros Heq. rewrite Hs in Heq.
        assert (<[k:=t']> (tasks w) !! k = tasks w !! k) as Hc by by rewrite Heq.
        rewrite lookup_insert_eq in Hc. congruence.
Qed.
End ControllerFacts.
