(* ===== verification/TaskJobController.v ===== *)
(** * The TaskJob operator: [api/v1/taskjob_types.go] and
      [internal/controller/taskjob_controller.go]

    [tj_Reconcile] is the whole handler, with [checkDependencies], [findPod],
    [buildPod] and [syncStatus].  [buildPod] can panic: [resource.MustParse]
    does when a quantity does not parse. *)

From S2P Require Import Prelude GoStrings GoTime Kube.

(** ** Types *)

Definition PriorityCritical : string := "critical".
Definition PriorityHigh : string := "high".
Definition PriorityMedium : string := "medium".
Definition PriorityLow : string := "low".

Definition AlgoMLFQ : string := "mlfq".
Definition AlgoRR : string := "rr".
Definition AlgoSJF : string := "sjf".
Definition AlgoFIFO : string := "fifo".

Definition JobQueued : string := "Queued".
Definition JobRunning : string := "Running".
Definition JobCompleted : string := "Completed".
Definition JobFailed : string := "Failed".

Record JobEnvVar := { je_Name : string; je_Value : string }.

(** [time.Now().Format(time.RFC3339)]: the rendering depends on the machine's
    time zone, so it is a parameter. *)
Class TimeFormat := format_rfc3339 : Z -> string.

Section Types.
Context {K : K8sTypes}.

Record TaskJobSpec := {
  js_Name : string;
  js_Image : string;
  js_Command : list string;
  js_Args : list string;
  js_Priority : string;
  js_Algorithm : string;
  js_EstimatedDurationSec : Z;
  js_CPURequest : string;
  js_MemoryRequest : string;
  js_DependsOn : list string;
  js_Schedule : string;
  js_Env : list JobEnvVar
}.

Record TaskJobStatus := {
  jst_Phase : string;
  jst_PodName : string;
  jst_StartTime : string;
  jst_EndTime : string;
  jst_ExitCode : Z;
  jst_Message : string;
  jst_Conditions : list Condition
}.

Record TaskJob := {
  job_Meta : ObjectMeta;
  job_Spec : TaskJobSpec;
  job_Status : TaskJobStatus
}.

Definition job_key (j : TaskJob) : NamespacedName := meta_key (job_Meta j).
Definition job_Name (j : TaskJob) : string := om_Name (job_Meta j).
Definition job_Namespace (j : TaskJob) : string := om_Namespace (job_Meta j).
Definition job_phase (j : TaskJob) : string := jst_Phase (job_Status j).

Definition set_job_status (s : TaskJobStatus) (j : TaskJob) : TaskJob :=
  {| job_Meta := job_Meta j; job_Spec := job_Spec j; job_Status := s |}.

(** The status subresource: a status update keeps metadata and spec. *)
#[export] Instance job_kind : Kind TaskJob := {
  obj_key := job_key;
  obj_labels j := om_Labels (job_Meta j);
  obj_created j j' := job_Spec j' = job_Spec j;
  obj_updated old j j' := job_Spec j' = job_Spec j /\ job_Status j' = job_Status old;
  obj_status_updated old j j' := j' = set_job_status (job_Status j) old;
  obj_terminating j := is_Some (om_DeletionTimestamp (job_Meta j));
  obj_gone j := bool_decide (is_Some (om_DeletionTimestamp (job_Meta j))) &&
                bool_decide (om_Finalizers (job_Meta j) = [])
}.
End Types.

Section Controller.
Context {K : K8sTypes} {TF : TimeFormat} {W : Type}.
Context `{!Client W TaskJob, !Client W Pod, !Clock W, OR : !OwnerRefs TaskJob}.

(** ** Status setters *)

Definition job_set_phase (ph msg : string) (s : TaskJobStatus) : TaskJobStatus :=
  {| jst_Phase := ph; jst_PodName := jst_PodName s; jst_StartTime := jst_StartTime s;
     jst_EndTime := jst_EndTime s; jst_ExitCode := jst_ExitCode s; jst_Message := msg;
     jst_Conditions := jst_Conditions s |}.
Definition job_set_started (podName : string) (s : TaskJobStatus) : TaskJobStatus :=
  {| jst_Phase := JobRunning; jst_PodName := podName; jst_StartTime := jst_StartTime s;
     jst_EndTime := jst_EndTime s; jst_ExitCode := jst_ExitCode s;
     jst_Message := jst_Message s; jst_Conditions := jst_Conditions s |}.
Definition job_set_start (t : string) (s : TaskJobStatus) : TaskJobStatus :=
  {| jst_Phase := jst_Phase s; jst_PodName := jst_PodName s; jst_StartTime := t;
     jst_EndTime := jst_EndTime s; jst_ExitCode := jst_ExitCode s;
     jst_Message := jst_Message s; jst_Conditions := jst_Conditions s |}.
Definition job_set_end (t : string) (s : TaskJobStatus) : TaskJobStatus :=
  {| jst_Phase := jst_Phase s; jst_PodName := jst_PodName s;
     jst_StartTime := jst_StartTime s; jst_EndTime := t; jst_ExitCode := jst_ExitCode s;
     jst_Message := jst_Message s; jst_Conditions := jst_Conditions s |}.
Definition job_set_exit (c : Z) (s : TaskJobStatus) : TaskJobStatus :=
  {| jst_Phase := jst_Phase s; jst_PodName := jst_PodName s;
     jst_StartTime := jst_StartTime s; jst_EndTime := jst_EndTime s; jst_ExitCode := c;
     jst_Message := jst_Message s; jst_Conditions := jst_Conditions s |}.

(** ** [checkDependencies]: the first dependency that cannot be read gives an
    error, the first that is not Completed gives false *)

Fixpoint checkDependencies (ns : string) (deps : list string) : GoM W (bool * option api_error) :=
  match deps with
  | [] => mret (true, None)
  | d :: ds =>
      r ← lift (c_get (T := TaskJob) (ns, d));
      match r with
      | inl err => mret (false, Some err)
      | inr dep =>
          if decide (job_phase dep <> JobCompleted) then mret (false, None)
          else checkDependencies ns ds
      end
  end.

(** ** [findPod]: the first pod of the namespace that carries the task label *)

Definition task_id_label : string := "cloudos.io/task-id".

Definition findPod (j : TaskJob) : GoM W (api_error + option Pod) :=
  r ← lift (c_list (T := Pod) (job_Namespace j) {[task_id_label := job_Name j]} None);
  match r with
  | inl err => mret (inl err)
  | inr [] => mret (inr None)
  | inr (p :: _) => mret (inr (Some p))
  end.

(** ** [buildPod] *)

Definition MustParse (s : string) : outcome Quantity :=
  match ParseQuantity s with
  | Some q => Ret q
  | None => Panic ("cannot parse '" +:+ s +:+ "'")
  end.

Definition job_env (j : TaskJob) : list EnvVar :=
  let ev n v := {| env_Name := n; env_Value := v; env_ValueFrom := None |} in
  [ ev "CLOUDOS_TASK_ID" (job_Name j);
    ev "CLOUDOS_NAMESPACE" (job_Namespace j);
    ev "CLOUDOS_PRIORITY" (js_Priority (job_Spec j));
    ev "CLOUDOS_ALGORITHM" (js_Algorithm (job_Spec j));
    ev "REDIS_URL" "redis://redis-svc:6379" ] ++
  ((fun e => ev (je_Name e) (je_Value e)) <$> js_Env (job_Spec j)).

Definition job_labels (j : TaskJob) : gmap string string :=
  {[ task_id_label := job_Name j;
     "cloudos.io/priority" := js_Priority (job_Spec j);
     "app" := "cloudos-worker" ]}.

Definition job_pod_name (j : TaskJob) : string := "taskjob-" +:+ job_Name j.

Definition build_pod_with (j : TaskJob) (cpu mem : Quantity) : Pod :=
  let resources : gmap string Quantity := {[ "cpu" := cpu; "memory" := mem ]} in
  {| pod_Meta := new_meta (job_pod_name j) (job_Namespace j) (job_labels j) ∅;
     pod_Spec := {|
       ps_RestartPolicy := "Never";
       ps_Containers := [ {|
         ct_Name := "task-runner";
         ct_Image := js_Image (job_Spec j);
         ct_Command := js_Command (job_Spec j);
         ct_Args := js_Args (job_Spec j);
         ct_Env := job_env j;
         ct_VolumeMounts := [];
         ct_ImagePullPolicy := "IfNotPresent";
         ct_Resources := {| rr_Requests := resources; rr_Limits := resources |} |} ];
       ps_ActiveDeadlineSeconds := None;
       ps_TerminationGracePeriodSeconds := None |};
     pod_Status := emptyPodStatus |}.

Definition cpu_request (j : TaskJob) : string :=
  if decide (js_CPURequest (job_Spec j) = "") then "500m" else js_CPURequest (job_Spec j).
Definition mem_request (j : TaskJob) : string :=
  if decide (js_MemoryRequest (job_Spec j) = "") then "256Mi"
  else js_MemoryRequest (job_Spec j).

Definition buildPod (j : TaskJob) : outcome Pod :=
  match MustParse (cpu_request j) with
  | Panic e => Panic e
  | Ret cpu =>
      match MustParse (mem_request j) with
      | Panic e => Panic e
      | Ret mem =>
          let pod := build_pod_with j cpu mem in
          match SetControllerReference j pod with
          | inl _ => Ret pod
          | inr pod' => Ret pod'
          end
      end
  end.

(** ** [syncStatus] *)

Definition no_requeue : Result := {| RequeueAfter := 0 |}.
Definition requeue (seconds : Z) : Result := {| RequeueAfter := seconds * Second |}.

(** [r.Status().Update] and the result on success. *)
Definition finish (j : TaskJob) (ok : Result) : GoM W (Result * option api_error) :=
  r ← lift (c_update_status j);
  match r with
  | inl err => mret (no_requeue, Some err)
  | inr _ => mret (ok, None)
  end.

Definition now_string : GoM W string := t ← lift clock_now; mret (format_rfc3339 t).

Definition syncStatus (j : TaskJob) (pod : Pod) : GoM W (Result * option api_error) :=
  let s := job_Status j in
  let ph := pst_Phase (pod_Status pod) in
  if decide (ph = PodRunning) then
    let s1 := job_set_phase JobRunning "Pod is running" s in
    s2 ← (if decide (jst_StartTime s1 = "") then
            t ← now_string; mret (job_set_start t s1)
          else mret s1);
    finish (set_job_status s2 j) (requeue 5)
  else if decide (ph = PodSucceeded) then
    t ← now_string;
    finish (set_job_status
      (job_set_exit 0 (job_set_end t
        (job_set_phase JobCompleted "Task completed successfully" s))) j) no_requeue
  else if decide (ph = PodFailed) then
    t ← now_string;
    finish (set_job_status (job_set_end t (job_set_phase JobFailed "Pod failed" s)) j)
      no_requeue
  else if decide (ph = PodPending) then
    finish (set_job_status (job_set_phase JobQueued "Pod pending scheduling" s) j) (requeue 5)
  else mret (requeue 10, None).

(** ** [Reconcile] *)

(** The part that starts a task with no pod. *)
Definition startPod (j : TaskJob) : GoM W (Result * option api_error) :=
  if decide (js_Image (job_Spec j) = "") then
    finish (set_job_status (job_set_phase JobFailed "No image specified" (job_Status j)) j)
      no_requeue
  else
    match buildPod j with
    | Panic e => go_panic e
    | Ret pod =>
        r ← lift (c_create pod);
        match r with
        | inl err =>
            u ← lift (c_update_status (set_job_status
                  (job_set_phase JobFailed ("Pod creation failed: " +:+ err_text err)
                     (job_Status j)) j));
            match u with
            | inl err2 => mret (no_requeue, Some err2)
            | inr _ => mret (no_requeue, Some err)
            end
        | inr pod' =>
            finish (set_job_status (job_set_started (pod_Name pod') (job_Status j)) j)
              (requeue 5)
        end
    end.

Definition tj_Reconcile (req : NamespacedName) : GoM W (Result * option api_error) :=
  r ← lift (c_get (T := TaskJob) req);
  match r with
  | inl NotFound => mret (no_requeue, None)
  | inl err => mret (no_requeue, Some err)
  | inr j =>
      if decide (job_phase j = JobCompleted \/ job_phase j = JobFailed) then
        mret (no_requeue, None)
      else
        '(depsOk, derr) ← checkDependencies (job_Namespace j) (js_DependsOn (job_Spec j));
        match derr with
        | Some err => mret (no_requeue, Some err)
        | None =>
            if depsOk : bool then
              f ← findPod j;
              match f with
              | inl err => mret (no_requeue, Some err)
              | inr None => startPod j
              | inr (Some pod) => syncStatus j pod
              end
            else
              finish (set_job_status
                (job_set_phase JobQueued "Waiting for dependencies" (job_Status j)) j)
                (requeue 10)
        end
  end.
End Controller.

(** ** Facts about the parts, for any client that satisfies the laws *)

Section ControllerFacts.
Context {K : K8sTypes} {TF : TimeFormat} {W : Type}.
Context `{!Client W TaskJob, !Client W Pod, !Clock W, !Recorder W, OR : !OwnerRefs TaskJob}.
Context `{LJ : !ClientLaws W TaskJob, LP : !ClientLaws W Pod}.
Context `{FJP : !ClientFrame W TaskJob Pod c_store, FPJ : !ClientFrame W Pod TaskJob c_store}.
Context `{EJ : !EnvFrame W TaskJob c_store, EP : !EnvFrame W Pod c_store}.

Abbreviation jobs := (c_store (T := TaskJob)).
Abbreviation pods := (c_store (T := Pod)).

(** The two stores agree. *)
Definition same_stores (w w' : W) : Prop := jobs w' = jobs w /\ pods w' = pods w.

Lemma same_stores_refl w : same_stores w w.
Proof. done. Qed.

Lemma same_stores_trans w1 w2 w3 :
  same_stores w1 w2 -> same_stores w2 w3 -> same_stores w1 w3.
Proof. intros [] []. split; congruence. Qed.

Hint Resolve same_stores_refl same_stores_trans : go.

Lemma get_job_view k w r w' :
  c_get (T := TaskJob) k w = (r, w') ->
  same_stores w w' /\
  match r with
  | inr j => jobs w !! k = Some j
  | inl NotFound => jobs w !! k = None
  | inl _ => True
  end.
Proof.
  intros E. destruct (c_get_spec _ _ _ _ E). pose proof (frame_get (T := TaskJob) k w) as F.
  by rewrite E in F.
Qed.

Lemma job_clock_view w z w' : clock_now w = (z, w') -> same_stores w w'.
Proof.
  intros E. pose proof (frame_clock (st := jobs) w) as F1.
  pose proof (frame_clock (st := pods) w) as F2. by rewrite E in F1, F2.
Qed.

(** All dependencies of [ds] are Completed in the store [J]. *)
Definition deps_completed (J : gmap NamespacedName TaskJob) (ns : string) (ds : list string)
    : Prop :=
  Forall (fun d => exists dep, J !! (ns, d) = Some dep /\ job_phase dep = JobCompleted) ds.

Lemma checkDependencies_spec ns ds w :
  exists b e w', checkDependencies ns ds w = (Ret (b, e), w') /\ same_stores w w' /\
    (b = true -> e = None /\ deps_completed (jobs w) ns ds) /\
    (deps_completed (jobs w) ns ds -> e = None -> b = true).
Proof.
  revert w. induction ds as [|d ds IH]; intros w; simpl checkDependencies.
  - do 3 eexists. split_and!; eauto with go. intros _. split; [done|by constructor].
  - rewrite lift_bind. destruct (c_get (ns, d) w) as [r w1] eqn:Hg.
    apply get_job_view in Hg as [Hs Hr]. destruct r as [err|dep].
    + do 3 eexists. split_and!; eauto; done.
    + case_decide as Hph.
      { do 3 eexists. split_and!; eauto; [done|].
        intros Hd _. apply Forall_cons in Hd as [(dep' & E & ?) _]. congruence. }
      destruct (IH w1) as (b & e & w2 & E & Hs2 & Hb & Hc).
      rewrite E. do 3 eexists. split; [done|]. pose proof Hs as [Hj Hp]. rewrite Hj in Hb, Hc.
      split_and!; eauto with go.
      * intros [He Hds]%Hb. split; [done|]. constructor; [|done]. eauto.
      * intros [_ Hds]%Forall_cons. auto.
Qed.

Lemma findPod_spec j w :
  exists r w', findPod j w = (Ret r, w') /\ same_stores w w' /\
    match r with
    | inr (Some p) => pods w !! pod_key p = Some p /\ (pod_key p).1 = job_Namespace j /\
        om_Labels (pod_Meta p) !! task_id_label = Some (job_Name j)
    | inr None => forall k p, pods w !! k = Some p -> k.1 = job_Namespace j ->
        om_Labels (pod_Meta p) !! task_id_label <> Some (job_Name j)
    | inl _ => True
    end.
Proof.
  assert (forall m : gmap string string,
    selects {[task_id_label := job_Name j]} m <-> m !! task_id_label = Some (job_Name j)) as Hsel.
  { intros m. unfold selects. by rewrite map_Forall_singleton. }
  unfold findPod. rewrite lift_bind. destruct (c_list _ _ _ w) as [r w1] eqn:Hl.
  pose proof (frame_list (T := Pod) (st := jobs) (job_Namespace j)
    {[task_id_label := job_Name j]} None w) as F. rewrite Hl in F.
  apply c_list_spec in Hl as [Hp Hr]. assert (same_stores w w1) by (split; [exact F|exact Hp]).
  destruct r as [e|[|p ps]]; do 2 eexists; (split; [done|]); (split; [done|]); [done| |].
  - simpl. intros k p Hk Hns. rewrite <- Hsel. by eapply (proj2 Hr).
  - destruct Hr as [Hr _]. destruct (Hr p ltac:(left)) as (H1 & H2 & H3).
    split; [exact H1|split; [exact H2|exact (proj1 (Hsel _) H3)]].
Qed.

Lemma update_job_status s j w r w' :
  c_update_status (set_job_status s j) w = (r, w') -> jobs w !! job_key j = Some j ->
  pods w' = pods w /\
  match r with
  | inr _ => jobs w' = <[job_key j := set_job_status s j]> (jobs w)
  | inl _ => jobs w' = jobs w
  end.
Proof.
  intros E Hj. pose proof (frame_update_status (T := TaskJob) (set_job_status s j) w) as F.
  rewrite E in F. split; [done|]. apply c_update_status_spec in E.
  destruct r as [e|j']; [done|]. destruct E as (old & Hold & -> & _ & E).
  change (obj_key (set_job_status s j)) with (job_key j) in *.
  assert (old = j) as -> by congruence. done.
Qed.

(** [j]'s status may become [s]; only [j]'s status. *)
Definition job_moved (j : TaskJob) (ok : TaskJobStatus -> Prop)
    (J J' : gmap NamespacedName TaskJob) : Prop :=
  J' = J \/ exists s, ok s /\ J' = <[job_key j := set_job_status s j]> J.

Lemma finish_effect s j ok w (P : TaskJobStatus -> Prop) :
  jobs w !! job_key j = Some j -> P s ->
  exists res w', finish (set_job_status s j) ok w = (Ret res, w') /\
    job_moved j P (jobs w) (jobs w') /\ pods w' = pods w.
Proof.
  intros Hj Hs. unfold finish. rewrite lift_bind.
  destruct (c_update_status _ w) as [r w1] eqn:Hu.
  apply update_job_status in Hu as [Hp Hr]; [|done].
  destruct r; do 2 eexists; (split; [done|]); split; try done; [by left|]. right; eauto.
Qed.

(** The phase a pod phase is reported as; [None]: the status is left alone. *)
Definition phase_of_pod (ph : string) : option string :=
  if decide (ph = PodRunning) then Some JobRunning
  else if decide (ph = PodSucceeded) then Some JobCompleted
  else if decide (ph = PodFailed) then Some JobFailed
  else if decide (ph = PodPending) then Some JobQueued
  else None.

Lemma now_string_run w :
  exists t w', now_string w = (Ret t, w') /\ same_stores w w'.
Proof.
  unfold now_string. rewrite lift_bind. destruct (clock_now w) as [z w'] eqn:E.
  apply job_clock_view in E. by do 2 eexists.
Qed.

Lemma syncStatus_effect j pod w :
  jobs w !! job_key j = Some j ->
  exists res w', syncStatus j pod w = (Ret res, w') /\ pods w' = pods w /\
    job_moved j (fun s => phase_of_pod (pst_Phase (pod_Status pod)) = Some (jst_Phase s) /\
      (jst_StartTime (job_Status j) <> "" -> jst_StartTime s = jst_StartTime (job_Status j)))
      (jobs w) (jobs w').
Proof.
  intros Hj. unfold syncStatus, phase_of_pod. destruct (now_string_run w) as (t & w1 & Et & Hs).
  pose proof Hs as [Hs1 Hs2]. repeat case_decide; try done.
  - rewrite (GoM_bind_ret _ _ w (job_set_start t (job_set_phase JobRunning "Pod is running"
      (job_Status j))) w1) by (by rewrite (GoM_bind_ret _ _ _ _ _ Et)).
    rewrite <- Hs1, <- Hs2. edestruct finish_effect as (res & w' & E & Hm & Hp);
      [by rewrite Hs1| |do 2 eexists; split; [exact E|split; [done|exact Hm]]].
    done.
  - rewrite GoM_mret_bind. edestruct finish_effect as (res & w' & E & Hm & Hp);
      [done| |do 2 eexists; split; [exact E|split; [done|exact Hm]]]. done.
  - rewrite (GoM_bind_ret _ _ _ _ _ Et), <- Hs1, <- Hs2.
    edestruct finish_effect as (res & w' & E & Hm & Hp);
      [by rewrite Hs1| |do 2 eexists; split; [exact E|split; [done|exact Hm]]]. done.
  - rewrite (GoM_bind_ret _ _ _ _ _ Et), <- Hs1, <- Hs2.
    edestruct finish_effect as (res & w' & E & Hm & Hp);
      [by rewrite Hs1| |do 2 eexists; split; [exact E|split; [done|exact Hm]]]. done.
  - edestruct finish_effect as (res & w' & E & Hm & Hp);
      [done| |do 2 eexists; split; [exact E|split; [done|exact Hm]]]. done.
  - do 2 eexists; split; [done|]. split; [done|]. by left.
Qed.

Definition job_pod_key (j : TaskJob) : NamespacedName := (job_Namespace j, job_pod_name j).

Definition job_pod_created (j : TaskJob) (P P' : gmap NamespacedName Pod) : Prop :=
  P !! job_pod_key j = None /\
  exists p cpu mem, ParseQuantity (cpu_request j) = Some cpu /\
    ParseQuantity (mem_request j) = Some mem /\
    pod_spec_admitted (pod_Spec (build_pod_with j cpu mem)) (pod_Spec p) /\
    om_Labels (pod_Meta p) = job_labels j /\ P' = <[job_pod_key j := p]> P.

(** [buildPod] panics exactly when a quantity does not parse. *)
Lemma buildPod_cases j :
  owner_refs_ok TaskJob ->
  match buildPod j with
  | Ret p => exists cpu mem, ParseQuantity (cpu_request j) = Some cpu /\
      ParseQuantity (mem_request j) = Some mem /\ pod_key p = job_pod_key j /\
      om_Labels (pod_Meta p) = job_labels j /\
      pod_Spec p = pod_Spec (build_pod_with j cpu mem)
  | Panic _ => ParseQuantity (cpu_request j) = None \/ ParseQuantity (mem_request j) = None
  end.
Proof.
  intros Hown. unfold buildPod, MustParse.
  destruct (ParseQuantity (cpu_request j)) as [cpu|]; [|by left].
  destruct (ParseQuantity (mem_request j)) as [mem|]; [|by right].
  destruct (SetControllerReference j _) as [e|p] eqn:Hs.
  - by exists cpu, mem.
  - destruct (Hown _ _ _ Hs) as (? & ? & ?). by exists cpu, mem.
Qed.

Lemma startPod_effect j w o w' :
  owner_refs_ok TaskJob -> jobs w !! job_key j = Some j -> startPod j w = (o, w') ->
  job_moved j (fun s => jst_Phase s = JobFailed \/ jst_Phase s = JobRunning)
    (jobs w) (jobs w') /\
  (pods w' = pods w \/ job_pod_created j (pods w) (pods w')).
Proof.
  intros Hown Hj. unfold startPod. case_decide.
  { edestruct (finish_effect (job_set_phase JobFailed "No image specified" (job_Status j)) j
      no_requeue w (fun s => jst_Phase s = JobFailed \/ jst_Phase s = JobRunning))
      as (res & w1 & E & Hm & Hp); [done|by left|].
    rewrite E. intros [= <- <-]. auto. }
  pose proof (buildPod_cases j Hown) as Hb. destruct (buildPod j) as [pod|e].
  2: { intros [= <- <-]. split; [by left|auto]. }
  destruct Hb as (cpu & mem & Hcpu & Hmem & Hk & Hl & Hsp).
  rewrite lift_bind. destruct (c_create pod w) as [r w1] eqn:Hc.
  pose proof (frame_create (T := Pod) (st := jobs) pod w) as F. rewrite Hc in F. simpl in F.
  apply c_create_spec in Hc. rewrite <- F in Hj |- *. destruct r as [err|pod'].
  - assert (pods w1 = pods w) as Hp by (destruct err; [done|by destruct Hc|done]).
    rewrite lift_bind. destruct (c_update_status _ w1) as [r w2] eqn:Hu.
    apply update_job_status in Hu as [Hp2 Hr]; [|done].
    destruct r; intros [= <- <-]; (split; [|left; congruence]); [by left|].
    right. eexists; split; [|exact Hr]. by left.
  - destruct Hc as (Hfree & (Hl' & _ & Hsp') & _ & Hp).
    change (obj_key pod) with (pod_key pod) in *. rewrite Hk in *.
    edestruct (finish_effect (job_set_started (pod_Name pod') (job_Status j)) j
      (requeue 5) w1 (fun s => jst_Phase s = JobFailed \/ jst_Phase s = JobRunning))
      as (res & w2 & E & Hm & Hp2); [done|by right|].
    rewrite E. intros [= <- <-]. split; [done|]. right. split; [done|].
    exists pod', cpu, mem. rewrite Hp2. split_and!; congruence.
Qed.

(** The effect of one [tj_Reconcile] of the job [j]. *)
Inductive job_effect (j : TaskJob) (w w' : W) : Prop :=
| job_idle : same_stores w w' -> job_effect j w w'
| job_waiting :
    job_phase j <> JobCompleted -> job_phase j <> JobFailed ->
    ~ deps_completed (jobs w) (job_Namespace j) (js_DependsOn (job_Spec j)) ->
    job_moved j (fun s => jst_Phase s = JobQueued) (jobs w) (jobs w') ->
    pods w' = pods w -> job_effect j w w'
| job_active :
    job_phase j <> JobCompleted -> job_phase j <> JobFailed ->
    deps_completed (jobs w) (job_Namespace j) (js_DependsOn (job_Spec j)) ->
    job_moved j (fun _ => True) (jobs w) (jobs w') ->
    (pods w' = pods w \/ job_pod_created j (pods w) (pods w')) -> job_effect j w w'.

Lemma job_moved_weaken j (P Q : TaskJobStatus -> Prop) J J' :
  (forall s, P s -> Q s) -> job_moved j P J J' -> job_moved j Q J J'.
Proof. intros HPQ [->|(s & Hs & ->)]; [by left|right; eauto]. Qed.

Lemma tj_Reconcile_absent k w o w' :
  jobs w !! k = None -> tj_Reconcile k w = (o, w') -> same_stores w w'.
Proof.
  intros Hk. unfold tj_Reconcile. rewrite lift_bind. destruct (c_get k w) as [r w1] eqn:Hg.
  apply get_job_view in Hg as [Hs Hr].
  destruct r as [[| |m]|j]; [intros [= <- <-]; done..|congruence].
Qed.

Lemma tj_Reconcile_effect k w j o w' :
  owner_refs_ok TaskJob -> jobs w !! k = Some j -> tj_Reconcile k w = (o, w') ->
  job_effect j w w'.
Proof.
  intros Hown Hk. assert (job_key j = k) as Ek by exact (c_store_key (T := TaskJob) w k j Hk).
  unfold tj_Reconcile. rewrite lift_bind. destruct (c_get k w) as [r w1] eqn:Hg.
  apply get_job_view in Hg as [Hs Hr].
  destruct r as [[| |m]|j']; [congruence|intros [= <- <-]; by apply job_idle..|].
  assert (j' = j) as -> by congruence. case_decide as Hterm.
  { intros [= <- <-]. by apply job_idle. }
  assert (job_phase j <> JobCompleted /\ job_phase j <> JobFailed) as [Hnc Hnf] by naive_solver.
  destruct (checkDependencies_spec (job_Namespace j) (js_DependsOn (job_Spec j)) w1)
    as (b & e & w2 & Ed & Hs2 & Hb & Hnb).
  rewrite (GoM_bind_ret _ _ _ _ _ Ed).
  assert (same_stores w w2) as [Hj2 Hp2] by eauto with go.
  pose proof Hs as [Hj1 Hp1]. rewrite Hj1 in Hb, Hnb.
  assert (jobs w2 !! job_key j = Some j) as Hcur by congruence.
  destruct e as [err|].
  { intros [= <- <-]. by apply job_idle. }
  destruct b.
  - destruct (Hb eq_refl) as [_ Hdeps].
    destruct (findPod_spec j w2) as (r & w3 & Ef & [Hj3 Hp3] & Hr3).
    rewrite (GoM_bind_ret _ _ _ _ _ Ef).
    assert (same_stores w w3) as Hs3 by (split; congruence).
    destruct r as [err|[pod|]].
    + intros [= <- <-]. by apply job_idle.
    + destruct (syncStatus_effect j pod w3 ltac:(congruence)) as (res & w4 & E & Hp4 & Hm).
      rewrite E. intros [= <- <-]. apply job_active; [done..| |left; congruence].
      rewrite Hj3, Hj2 in Hm. by eapply job_moved_weaken.
    + intros E. destruct (startPod_effect j w3 o w' Hown ltac:(congruence) E) as [Hm Hp].
      destruct Hs3 as [Hj' Hp']. rewrite Hj', Hp' in *. apply job_active; try done.
      by eapply job_moved_weaken.
  - edestruct (finish_effect (job_set_phase JobQueued "Waiting for dependencies" (job_Status j))
      j (requeue 10) w2 (fun s => jst_Phase s = JobQueued)) as (res & w3 & E & Hm & Hp3);
      [done|done|].
    rewrite E. intros [= <- <-]. rewrite Hj2 in Hm.
    apply job_waiting; [done..| |done|congruence]. intros Hd.
    by specialize (Hnb Hd eq_refl).
Qed.
End ControllerFacts.
