(* ===== verification/MemKube.v ===== *)
(** * A concrete API server in memory

    An executable instance of the [Client] interface that satisfies
    [ClientLaws], [ClientFrame] and [EnvFrame] for CloudTasks, TaskJobs and
    Pods.  It shows the laws can hold together, and the witnesses of the
    controllers' and handlers' theorems run on it.  A store is a list of
    objects, newest first; the map it denotes has each object under its own
    key. *)

From S2P Require Import Prelude GoStrings Kube CloudTaskApi CloudTaskController TaskJobController.

(** How this server fills in an object on create, update and delete. *)
Class MemKind (T : Type) `{!Kind T} := {
  mk_created : T -> T;
  mk_updated : T -> T -> T;
  mk_status_updated : T -> T -> T;
  mk_deleted : T -> option T;
  mk_created_ok o : obj_created o (mk_created o) /\ obj_key (mk_created o) = obj_key o;
  mk_updated_ok old o : obj_key old = obj_key o ->
    obj_updated old o (mk_updated old o) /\ obj_key (mk_updated old o) = obj_key o;
  mk_status_updated_ok old o : obj_key old = obj_key o ->
    obj_status_updated old o (mk_status_updated old o) /\
    obj_key (mk_status_updated old o) = obj_key o;
  mk_deleted_ok o o' : mk_deleted o = Some o' -> obj_key o' = obj_key o /\ obj_terminating o'
}.

(** A field of the world. *)
Class Lens (W T : Type) := {
  l_get : W -> list T;
  l_set : list T -> W -> W;
  l_get_set l w : l_get (l_set l w) = l
}.

Section MemClient.
Context {W T : Type} `{!Kind T, !MemKind T, !Lens W T}.

Definition smap (l : list T) : gmap NamespacedName T :=
  list_to_map ((fun o => (obj_key o, o)) <$> l).

Lemma smap_cons o l : smap (o :: l) = <[obj_key o := o]> (smap l).
Proof. done. Qed.

Lemma smap_key l k o : smap l !! k = Some o -> obj_key o = k.
Proof.
  induction l as [|x l IH]; [done|]. rewrite smap_cons, lookup_insert.
  case_decide; naive_solver.
Qed.

Definition sdel (k : NamespacedName) (l : list T) : list T := filter (fun o => obj_key o <> k) l.

Lemma smap_del k l : smap (sdel k l) = delete k (smap l).
Proof.
  induction l as [|x l IH]; [symmetry; apply delete_empty|].
  unfold sdel in *. rewrite filter_cons, smap_cons. case_decide as Hx.
  - rewrite smap_cons, IH. by rewrite delete_insert_ne by done.
  - by rewrite IH, Hx, delete_insert_eq.
Qed.

Definition sput (o : T) (l : list T) : list T := o :: sdel (obj_key o) l.

Lemma smap_put o l : smap (sput o l) = <[obj_key o := o]> (smap l).
Proof. unfold sput. by rewrite smap_cons, smap_del, insert_delete_eq. Qed.

#[export] Instance selects_dec sel m : Decision (selects sel m).
Proof. unfold selects. apply _. Defined.

Definition slist (ns : string) (sel : gmap string string) (l : list T) : list T :=
  filter (fun o => (obj_key o).1 = ns /\ selects sel (obj_labels o))
    ((map_to_list (smap l)).*2).

#[export] Instance mem_client : Client W T := {
  c_get k w := (match smap (l_get w) !! k with Some o => inr o | None => inl NotFound end, w);
  c_create o w :=
    match smap (l_get w) !! obj_key o with
    | Some _ => (inl AlreadyExists, w)
    | None => (inr (mk_created o), l_set (sput (mk_created o) (l_get w)) w)
    end;
  c_update o w :=
    match smap (l_get w) !! obj_key o with
    | Some old =>
        let o' := mk_updated old o in
        (inr o', if obj_gone o' then l_set (sdel (obj_key o) (l_get w)) w
                 else l_set (sput o' (l_get w)) w)
    | None => (inl NotFound, w)
    end;
  c_update_status o w :=
    match smap (l_get w) !! obj_key o with
    | Some old =>
        let o' := mk_status_updated old o in (inr o', l_set (sput o' (l_get w)) w)
    | None => (inl NotFound, w)
    end;
  c_delete o w :=
    match smap (l_get w) !! obj_key o with
    | Some old =>
        match mk_deleted old with
        | Some o' => (None, l_set (sput o' (l_get w)) w)
        | None => (None, l_set (sdel (obj_key o) (l_get w)) w)
        end
    | None => (Some NotFound, w)
    end;
  c_list ns sel lim w :=
    let xs := slist ns sel (l_get w) in
    (inr (match lim with Some n => take (Z.to_nat n) xs | None => xs end), w)
}.

Lemma slist_spec ns sel l o :
  o ∈ slist ns sel l <->
    smap l !! obj_key o = Some o /\ (obj_key o).1 = ns /\ selects sel (obj_labels o).
Proof.
  unfold slist. rewrite list_elem_of_filter, list_elem_of_fmap. split.
  - intros [Hs ([k o'] & -> & Hin)]. apply elem_of_map_to_list in Hin.
    pose proof (smap_key _ _ _ Hin) as <-. done.
  - intros (Hl & Hs). split; [done|]. exists (obj_key o, o). split; [done|].
    by apply elem_of_map_to_list.
Qed.

#[export] Program Instance mem_laws : ClientLaws W T := {
  c_store w := smap (l_get w)
}.
Next Obligation. intros w k o. apply smap_key. Qed.
Next Obligation.
  intros k w r w' [= <- <-]. split; [done|]. by destruct (smap (l_get w) !! k).
Qed.
Next Obligation.
  intros o w r w'. simpl. destruct (smap (l_get w) !! obj_key o) eqn:E; intros [= <- <-].
  - split; [by eexists|done].
  - destruct (mk_created_ok o) as [Hc Hk].
    split_and!; [done..|]. by rewrite l_get_set, smap_put, Hk.
Qed.
Next Obligation.
  intros o w r w'. simpl. destruct (smap (l_get w) !! obj_key o) as [old|] eqn:E;
    intros [= <- <-]; [|done].
  destruct (mk_updated_ok old o (smap_key _ _ _ E)) as [Hu Hk].
  exists old. split_and!; [done..|].
  destruct (obj_gone _); by rewrite l_get_set, ?smap_put, ?smap_del, ?Hk.
Qed.
Next Obligation.
  intros o w r w'. simpl. destruct (smap (l_get w) !! obj_key o) as [old|] eqn:E;
    intros [= <- <-]; [|done].
  destruct (mk_status_updated_ok old o (smap_key _ _ _ E)) as [Hu Hk].
  exists old. split_and!; [done..|]. by rewrite l_get_set, smap_put, Hk.
Qed.
Next Obligation.
  intros o w r w'. simpl. destruct (smap (l_get w) !! obj_key o) as [old|] eqn:E;
    [|by intros [= <- <-]].
  destruct (mk_deleted old) as [o'|] eqn:Ed; intros [= <- <-].
  - right. destruct (mk_deleted_ok _ _ Ed) as [Hk Ht]. rewrite (smap_key _ _ _ E) in Hk.
    exists o'. by rewrite l_get_set, smap_put, Hk.
  - left. by rewrite l_get_set, smap_del.
Qed.
Next Obligation.
  intros ns sel lim w r w' [= <- <-]. split; [done|]. split.
  - intros o Ho. apply slist_spec. destruct lim as [n|]; [|done].
    by apply subseteq_take in Ho.
  - intros Hnil Hlim k o Hk Hns Hsel.
    assert (slist ns sel (l_get w) = []) as Hx.
    { destruct lim as [n|]; [|done]. specialize (Hlim n eq_refl).
      destruct (slist ns sel (l_get w)); [done|].
      destruct (Z.to_nat n) eqn:En; [lia|done]. }
    assert (o ∈ slist ns sel (l_get w)) as Hin.
    { apply slist_spec. rewrite (smap_key _ _ _ Hk). done. }
    rewrite Hx in Hin. by apply not_elem_of_nil in Hin.
Qed.
End MemClient.

(** ** The world of the examples: three stores, a clock and the recorded events *)

Section World.
Context {K : K8sTypes} {A : Admission}.

Record MemWorld := {
  mw_tasks : list CloudTask;
  mw_jobs : list TaskJob;
  mw_pods : list Pod;
  mw_clock : Z;
  mw_events : list (string * string * string)
}.

#[export] Program Instance lens_tasks : Lens MemWorld CloudTask := {
  l_get := mw_tasks;
  l_set l w := {| mw_tasks := l; mw_jobs := mw_jobs w; mw_pods := mw_pods w;
                  mw_clock := mw_clock w; mw_events := mw_events w |}
}.
Next Obligation. done. Qed.
#[export] Program Instance lens_jobs : Lens MemWorld TaskJob := {
  l_get := mw_jobs;
  l_set l w := {| mw_tasks := mw_tasks w; mw_jobs := l; mw_pods := mw_pods w;
                  mw_clock := mw_clock w; mw_events := mw_events w |}
}.
Next Obligation. done. Qed.
#[export] Program Instance lens_pods : Lens MemWorld Pod := {
  l_get := mw_pods;
  l_set l w := {| mw_tasks := mw_tasks w; mw_jobs := mw_jobs w; mw_pods := l;
                  mw_clock := mw_clock w; mw_events := mw_events w |}
}.
Next Obligation. done. Qed.

#[export] Instance mem_clock : Clock MemWorld := fun w =>
  (mw_clock w, {| mw_tasks := mw_tasks w; mw_jobs := mw_jobs w; mw_pods := mw_pods w;
                  mw_clock := mw_clock w + 1; mw_events := mw_events w |}).
#[export] Instance mem_recorder : Recorder MemWorld := fun t r m w =>
  {| mw_tasks := mw_tasks w; mw_jobs := mw_jobs w; mw_pods := mw_pods w;
     mw_clock := mw_clock w; mw_events := (t, r, m) :: mw_events w |}.

Definition meta_mark_deleted (m : ObjectMeta) : ObjectMeta :=
  {| om_Name := om_Name m; om_Namespace := om_Namespace m; om_Labels := om_Labels m;
     om_Annotations := om_Annotations m; om_Finalizers := om_Finalizers m;
     om_DeletionTimestamp := Some 1; om_CreationTimestamp := om_CreationTimestamp m;
     om_Owner := om_Owner m |}.
Definition meta_set_deletion (d : option Z) (m : ObjectMeta) : ObjectMeta :=
  {| om_Name := om_Name m; om_Namespace := om_Namespace m; om_Labels := om_Labels m;
     om_Annotations := om_Annotations m; om_Finalizers := om_Finalizers m;
     om_DeletionTimestamp := d; om_CreationTimestamp := om_CreationTimestamp m;
     om_Owner := om_Owner m |}.

#[export] Program Instance mem_task_kind : MemKind CloudTask := {
  mk_created t := {| task_Meta := meta_set_deletion None (task_Meta t);
                     task_Spec := admit_spec (task_Spec t); task_Status := emptyStatus |};
  mk_updated old t :=
    {| task_Meta := meta_set_deletion (om_DeletionTimestamp (task_Meta old)) (task_Meta t);
       task_Spec := admit_spec (task_Spec t); task_Status := task_Status old |};
  mk_status_updated old t := set_status (task_Status t) old;
  mk_deleted t := if decide (om_Finalizers (task_Meta t) = []) then None
                  else Some (set_meta (meta_mark_deleted (task_Meta t)) t)
}.
Next Obligation. done. Qed.
Next Obligation. intros old t Hk. done. Qed.
Next Obligation. intros old t Hk. by split. Qed.
Next Obligation.
  simpl. intros t t'. destruct (decide _); intros [= <-]. split; [done|by eexists].
Qed.

#[export] Program Instance mem_job_kind : MemKind TaskJob := {
  mk_created j := j;
  mk_updated old j := {| job_Meta := job_Meta j; job_Spec := job_Spec j;
                         job_Status := job_Status old |};
  mk_status_updated old j := set_job_status (job_Status j) old;
  mk_deleted j := None
}.
Next Obligation. done. Qed.
Next Obligation. intros old j Hk. done. Qed.
Next Obligation. intros old j Hk. by split. Qed.
Next Obligation. done. Qed.

(** This server defaults the pull policy, the restart policy and the grace period
    of a pod, as the API server does, rounds its quantities and sets a cpu limit,
    as a LimitRange would, on a container that has none. *)
Definition mem_quantities (m : gmap string Quantity) : gmap string Quantity :=
  storedQuantity <$> m.

Definition mem_admit_container (c : Container) : Container :=
  {| ct_Name := ct_Name c; ct_Image := ct_Image c; ct_Command := ct_Command c;
     ct_Args := ct_Args c; ct_Env := ct_Env c; ct_VolumeMounts := ct_VolumeMounts c;
     ct_ImagePullPolicy := if decide (ct_ImagePullPolicy c = "") then "IfNotPresent"
                           else ct_ImagePullPolicy c;
     ct_Resources := {|
       rr_Requests := mem_quantities (rr_Requests (ct_Resources c));
       rr_Limits := mem_quantities (rr_Limits (ct_Resources c)) ∪ {["cpu" := zeroQuantity]} |} |}.

Definition mem_admit_spec (s : PodSpec) : PodSpec :=
  {| ps_RestartPolicy := if decide (ps_RestartPolicy s = "") then "Always"
                         else ps_RestartPolicy s;
     ps_Containers := mem_admit_container <$> ps_Containers s;
     ps_ActiveDeadlineSeconds := ps_ActiveDeadlineSeconds s;
     ps_TerminationGracePeriodSeconds :=
       Some (default 30 (ps_TerminationGracePeriodSeconds s)) |}.

Lemma mem_admit_container_ok c : container_admitted c (mem_admit_container c).
Proof.
  split; simpl; try done.
  - by apply Forall_Forall2_diag, Forall_true.
  - intros Hne. rewrite decide_False by done. by left.
  - intros r q Hq. unfold mem_quantities. by rewrite lookup_fmap, Hq.
  - intros r q Hq. unfold mem_quantities.
    by rewrite (lookup_union_Some_l _ _ _ (storedQuantity q)) by (by rewrite lookup_fmap, Hq).
Qed.

Lemma mem_admit_spec_ok s : pod_spec_admitted s (mem_admit_spec s).
Proof.
  split; simpl; [| |done|].
  - intros Hne. by rewrite decide_False.
  - apply Forall2_fmap_r, Forall_Forall2_diag, Forall_true, mem_admit_container_ok.
  - by intros [n ->].
Qed.

#[export] Program Instance mem_pod_kind : MemKind Pod := {
  mk_created p := {| pod_Meta := pod_Meta p; pod_Spec := mem_admit_spec (pod_Spec p);
                     pod_Status := pod_Status p |};
  mk_updated old p := {| pod_Meta := pod_Meta p; pod_Spec := pod_Spec p;
                         pod_Status := pod_Status old |};
  mk_status_updated old p := {| pod_Meta := pod_Meta old; pod_Spec := pod_Spec old;
                                pod_Status := pod_Status p |};
  mk_deleted p := None
}.
Next Obligation. intros p. split; [|done]. split_and!; [done..|]. apply mem_admit_spec_ok. Qed.
Next Obligation. intros old p Hk. done. Qed.
Next Obligation. intros old p Hk. done. Qed.
Next Obligation. done. Qed.

(** Calls on one kind leave the list of another kind alone. *)
Ltac frame_solver :=
  split; intros; simpl; repeat (simpl; case_match); simplify_eq/=; reflexivity.

#[export] Instance frame_task_pod : ClientFrame MemWorld CloudTask Pod c_store.
Proof. frame_solver. Qed.
#[export] Instance frame_pod_task : ClientFrame MemWorld Pod CloudTask c_store.
Proof. frame_solver. Qed.
#[export] Instance frame_job_pod : ClientFrame MemWorld TaskJob Pod c_store.
Proof. frame_solver. Qed.
#[export] Instance frame_pod_job : ClientFrame MemWorld Pod TaskJob c_store.
Proof. frame_solver. Qed.
#[export] Instance frame_env_task : EnvFrame MemWorld CloudTask c_store.
Proof. split; reflexivity. Qed.
#[export] Instance frame_env_job : EnvFrame MemWorld TaskJob c_store.
Proof. split; reflexivity. Qed.
#[export] Instance frame_env_pod : EnvFrame MemWorld Pod c_store.
Proof. split; reflexivity. Qed.

#[export] Instance mem_owner_task : OwnerRefs CloudTask := fun t p =>
  inr {| pod_Meta := meta_set_owner {| or_APIVersion := "tasks.orchestrator.dev/v1";
                   or_Kind := "CloudTask"; or_Name := task_Name t; or_Controller := true |} (pod_Meta p);
         pod_Spec := pod_Spec p; pod_Status := pod_Status p |}.
#[export] Instance mem_owner_job : OwnerRefs TaskJob := fun j p =>
  inr {| pod_Meta := meta_set_owner {| or_APIVersion := "scheduler.cloudos.io/v1";
                   or_Kind := "TaskJob"; or_Name := job_Name j; or_Controller := true |} (pod_Meta p);
         pod_Spec := pod_Spec p; pod_Status := pod_Status p |}.

Lemma mem_owner_task_ok : owner_refs_ok CloudTask.
Proof. by intros t p p' [= <-]. Qed.
Lemma mem_owner_job_ok : owner_refs_ok TaskJob.
Proof. by intros t p p' [= <-]. Qed.
End World.

(** Library types for the examples: quantities that start with a digit parse. *)
#[export] Instance simple_k8s : K8sTypes := {
  Quantity := string;
  ParseQuantity s := match s with
                     | String a _ => if is_digit a then Some s else None
                     | EmptyString => None
                     end;
  zeroQuantity := "0";
  storedQuantity q := q;
  VolumeMount := unit;
  EnvVarSource := unit;
  Condition := unit;
  err_text e := match e with
                | NotFound => "not found"
                | AlreadyExists => "already exists"
                | OtherError m => m
                end
}.

#[export] Instance simple_time_format : TimeFormat := fun t => pretty t.

Definition empty_world {A : Admission} : MemWorld :=
  {| mw_tasks := []; mw_jobs := []; mw_pods := []; mw_clock := 1000; mw_events := [] |}.

(** Objects for the examples. *)
Definition ex_spec (tenant : string) (retries : Z) (timeout : string) : CloudTaskSpec :=
  {| spec_Image := "busybox:latest"; spec_Command := ["sleep"; "1"]; spec_Args := [];
     spec_Resources := None; spec_Retries := retries; spec_Timeout := timeout;
     spec_TenantID := tenant; spec_Priority := 50; spec_Env := []; spec_VolumeMounts := [];
     spec_Labels := ∅; spec_Annotations := ∅ |}.

Definition ex_status (phase podName : string) (retryCount : Z) : CloudTaskStatus :=
  {| st_Phase := phase; st_PodName := podName; st_StartTime := None;
     st_CompletionTime := None; st_RetryCount := retryCount; st_Message := "";
     st_LastUpdateTime := None; st_Conditions := [] |}.

Definition ex_meta (name ns : string) : ObjectMeta :=
  meta_set_finalizers [cloudTaskFinalizerKey] (new_meta name ns ∅ ∅).

Definition ex_pod (name ns phase : string) (labels : gmap string string) : Pod :=
  {| pod_Meta := new_meta name ns labels ∅;
     pod_Spec := {| ps_RestartPolicy := "Never"; ps_Containers := [];
                    ps_ActiveDeadlineSeconds := None;
                    ps_TerminationGracePeriodSeconds := None |};
     pod_Status := {| pst_Phase := phase; pst_Reason := ""; pst_ContainerStatuses := [] |} |}.
