(* ===== verification/CloudTaskProofs.v ===== *)
(** * What the CloudTask operator guarantees

    The theorems on [Reconcile] of [CloudTaskController], for every API server
    that satisfies [ClientLaws]: which objects one call may touch, what a
    successful call achieves on each branch, the bound on the retry counter over
    whole histories of the cluster, and the branch in which a retry never gets a
    pod.  The witnesses run on the server of [MemKube]. *)

From Stdlib Require Import Ascii.
From S2P Require Import Prelude GoStrings GoTime Kube CloudTaskApi CloudTaskController MemKube.

(** Admission with the webhook of [cloudtask_webhook.go] installed. *)
Definition webhook_admission {K : K8sTypes} : Admission := default_spec.

Section Theorems.
Context {K : K8sTypes} {A : Admission} {W : Type}.
Context `{!Client W CloudTask, !Client W Pod, !Clock W, !Recorder W, OR : !OwnerRefs CloudTask}.
Context `{LT : !ClientLaws W CloudTask, LP : !ClientLaws W Pod}.
Context `{FTP : !ClientFrame W CloudTask Pod c_store, FPT : !ClientFrame W Pod CloudTask c_store}.
Context `{ET : !EnvFrame W CloudTask c_store, EP : !EnvFrame W Pod c_store}.

Abbreviation tasks := (c_store (T := CloudTask)).
Abbreviation pods := (c_store (T := Pod)).

(** ** One call *)

(** The pod [p] is the one the controller builds for [t], with [t]'s spec as
    stored or as admission rewrites it, and with what the server's defaulting and
    admission of pods add to it. *)
Definition built_for (t : CloudTask) (p : Pod) : Prop :=
  exists s, (s = task_Spec t \/ s = admit_spec (task_Spec t)) /\
    pod_spec_admitted (pod_Spec (constructPod (set_spec s t))) (pod_Spec p) /\
    om_Labels (pod_Meta p) = pod_labels (set_spec s t).

Lemma own_pod_created_built t t' P P' kp :
  same_task t t' -> own_pod_created t' P P' -> P' !! kp <> P !! kp ->
  kp = own_pod_key t /\ P !! kp = None /\
  (st_Phase (task_Status t) = "" \/ st_Phase (task_Status t) = PhasePending) /\
  exists p, P' !! kp = Some p /\ built_for t p.
Proof.
  intros (Hk & Hst & Hsp) (Hph & Hfree & p & Hps & Hpl & ->) Hne.
  assert (own_pod_key t' = own_pod_key t) as Ek.
  { unfold own_pod_key, task_Namespace, task_Name. unfold task_key, meta_key in Hk.
    by injection Hk as -> ->. }
  assert (task_Name t' = task_Name t) as En by (by injection Hk).
  destruct (decide (kp = own_pod_key t')) as [->|Hkp];
    [|by rewrite lookup_insert_ne in Hne].
  rewrite lookup_insert_eq, Hst in *. split_and!; [done..|]. exists p. split; [done|].
  exists (task_Spec t'). split; [done|]. split; [done|]. rewrite Hpl. unfold pod_labels.
  simpl. by rewrite En.
Qed.

(** C1: a call to [Reconcile] for a stored task always returns, and touches
    nothing but that task and its pod: every other CloudTask is unchanged, and
    a pod that differs afterwards is either the task's own pod, created where
    there was none for a live task in the empty or Pending phase and built from
    its spec (as the server's defaulting and admission of pods leave it), or the pod its status names, deleted with a task that is being
    deleted. *)
Theorem Reconcile_confined k w t :
  owner_refs_ok CloudTask -> tasks w !! k = Some t ->
  exists res w', Reconcile k w = (Ret res, w') /\
    (forall k', k' <> k -> tasks w' !! k' = tasks w !! k') /\
    (forall kp, pods w' !! kp <> pods w !! kp ->
      (om_DeletionTimestamp (task_Meta t) = None /\ kp = own_pod_key t /\
       pods w !! kp = None /\
       (st_Phase (task_Status t) = "" \/ st_Phase (task_Status t) = PhasePending) /\
       exists p, pods w' !! kp = Some p /\ built_for t p) \/
      (om_DeletionTimestamp (task_Meta t) <> None /\
       kp = (task_Namespace t, st_PodName (task_Status t)) /\
       forall p, pods w' !! kp = Some p -> is_Some (om_DeletionTimestamp (pod_Meta p)))).
Proof.
  intros Hown Ht. destruct (Reconcile_effect k w t Hown Ht) as (res & w' & E & He).
  exists res, w'. split; [done|].
  destruct He as [t' Hd Hsame HT HP|Hd HT HP]; split.
  - intros k' Hk'. destruct HT as [->|(s & -> & _)]; [done|]. by rewrite lookup_insert_ne.
  - intros kp Hne. left. split; [done|]. destruct HP as [HP|HP]; [by rewrite HP in Hne|].
    eauto using own_pod_created_built.
  - intros k' Hk'. destruct HT as [->|[->|(t' & -> & _)]]; [done|..].
    + by rewrite lookup_delete_ne.
    + by rewrite lookup_insert_ne.
  - intros kp Hne. right. split; [done|].
    destruct HP as [HP|(_ & [HP|(p & Hp & HP)])]; [by rewrite HP in Hne|..];
      rewrite HP in Hne |- *;
      destruct (decide (kp = (task_Namespace t, st_PodName (task_Status t)))) as [->|Hkp].
    + split; [done|]. intros p. by rewrite lookup_delete_eq.
    + by rewrite lookup_delete_ne in Hne.
    + split; [done|]. intros p'. rewrite lookup_insert_eq. naive_solver.
    + by rewrite lookup_insert_ne in Hne.
Qed.

(** ** Running a live task *)

(** For a live task, [Reconcile] fails before doing anything, or runs
    [reconcileLive] on the task as stored (or as the finalizer update has just
    stored it). *)
Lemma Reconcile_live k w t o w' :
  tasks w !! k = Some t -> om_DeletionTimestamp (task_Meta t) = None ->
  Reconcile k w = (o, w') ->
  (exists e, o = Ret (done_result, Some e)) /\ tasks w' = tasks w /\ pods w' = pods w \/
  exists t1 w1, same_task t t1 /\ tasks w1 = <[k := t1]> (tasks w) /\ pods w1 = pods w /\
    om_DeletionTimestamp (task_Meta t1) = None /\
    cloudTaskFinalizerKey ∈ om_Finalizers (task_Meta t1) /\
    reconcileLive t1 w1 = (o, w').
Proof.
  intros Ht Hd. assert (task_key t = k) as Hk by exact (c_store_key (T := CloudTask) w k t Ht).
  unfold Reconcile. rewrite lift_bind. destruct (c_get k w) as [r w1] eqn:Hg.
  apply get_task_view in Hg as (Ht1 & Hp1 & Hr).
  destruct r as [[| |m]|t0]; [congruence|intros [= <- <-]; left; split; [by eexists|done]..|].
  assert (t0 = t) as -> by congruence. rewrite decide_False by congruence.
  destruct (ContainsFinalizer t _) eqn:Hf.
  - intros E. right. exists t, w1. rewrite insert_id by done.
    split_and!; auto using same_task_refl. by apply bool_decide_eq_true in Hf.
  - rewrite lift_bind. destruct (c_update _ w1) as [[e|t1] w2] eqn:Hu;
      apply update_task_view in Hu as [Hp2 Hr2]; intros E.
    { injection E as <- <-. left. split; [by eexists|]. split; congruence. }
    right. destruct Hr2 as (old & Hold & Hupd & Hk1 & Hs).
    change (task_key (AddFinalizer _ t)) with (task_key t) in Hold, Hs.
    rewrite Hk in Hold, Hs. assert (old = t) as -> by congruence.
    destruct (AddFinalizer_updated _ _ Hupd Hk1 Hd) as [Hsame Hng]. rewrite Hng, Ht1 in Hs.
    exists t1, w2. destruct Hupd as (Hfin & Hdel & _).
    split_and!; [done|done|congruence|congruence| |done].
    rewrite Hfin. simpl. rewrite elem_of_app. right. by apply list_elem_of_singleton.
Qed.

(** A call to [ensurePod] that reports no error has created the pod and
    recorded it. *)
Lemma ensurePod_started t w res w' :
  owner_refs_ok CloudTask -> tasks w !! task_key t = Some t ->
  st_Phase (task_Status t) = "" \/ st_Phase (task_Status t) = PhasePending ->
  ensurePod t w = (Ret (res, None), w') ->
  res = after 30 /\ own_pod_created t (pods w) (pods w') /\
  exists now, tasks w' = <[task_key t :=
    set_status (running_status (task_Name t +:+ "-pod") now (task_Status t)) t]> (tasks w).
Proof.
  intros Hown Ht Hph. unfold ensurePod. rewrite decide_True by done.
  destruct (SetControllerReference t (constructPod t)) as [e|p] eqn:Hs; [done|].
  assert (pod_key p = own_pod_key t) as Hk by (by destruct (Hown _ _ _ Hs)).
  rewrite lift_bind. destruct (c_create p w) as [[e|p'] w1] eqn:Hc; [done|].
  apply create_pod_view in Hc as [Ht1 Hp1]. rewrite Hk in Hp1.
  destruct Hp1 as (Hfree & Hcr & Hk' & Hp1). rewrite lift_unit_bind, lift_bind.
  destruct (clock_now _) as [now w2] eqn:Hn. apply clock_view in Hn as [Ht2 Hp2].
  rewrite (proj1 (event_view _ _ _ _)) in Ht2. rewrite (proj2 (event_view _ _ _ _)) in Hp2.
  rewrite lift_bind. destruct (c_update_status _ w2) as [r w3] eqn:Hu.
  apply update_status_current in Hu as [Hp3 Hr]; [|congruence].
  destruct r as [e|t']; [done|]. intros [= <- <-]. destruct Hr as [_ Hr].
  split; [done|]. rewrite Hp3, Hp2, Hp1, Hr, Ht2, Ht1. split.
  - eauto using own_pod_created_intro.
  - exists now. assert (pod_Name p' = task_Name t +:+ "-pod") as -> by (by injection Hk').
    done.
Qed.

Lemma same_task_key k w t t' :
  tasks w !! k = Some t -> same_task t t' -> task_key t' = k.
Proof. intros Ht (Hk & _). rewrite Hk. exact (c_store_key (T := CloudTask) w k t Ht). Qed.

(** A call without an error on a task that has no pod. *)
Lemma Reconcile_new_task k w t res w' :
  owner_refs_ok CloudTask -> tasks w !! k = Some t ->
  om_DeletionTimestamp (task_Meta t) = None ->
  st_Phase (task_Status t) = "" \/ st_Phase (task_Status t) = PhasePending ->
  st_PodName (task_Status t) = "" ->
  Reconcile k w = (Ret (res, None), w') ->
  res = after 30 /\ pods w !! own_pod_key t = None /\
  (exists p, pods w' !! own_pod_key t = Some p /\ built_for t p) /\
  exists t', tasks w' !! k = Some t' /\
    st_Phase (task_Status t') = PhaseRunning /\
    st_PodName (task_Status t') = task_Name t +:+ "-pod" /\
    st_RetryCount (task_Status t') = st_RetryCount (task_Status t) /\
    cloudTaskFinalizerKey ∈ om_Finalizers (task_Meta t').
Proof.
  intros Hown Ht Hd Hph Hpn E.
  destruct (Reconcile_live _ _ _ _ _ Ht Hd E)
    as [([e [=]] & _)|(t1 & w1 & Hsame & Hw1 & Hp1 & Hd1 & Hf1 & E1)].
  assert (task_key t1 = k) as Hk1 by eauto using same_task_key.
  pose proof Hsame as (Hk & Hst & _). rewrite <- Hst in Hph, Hpn.
  unfold reconcileLive in E1. rewrite decide_False in E1 by (rewrite Hpn; auto).
  apply ensurePod_started in E1 as (-> & Hmade & now & Hw'); [|done|
    by rewrite Hw1, Hk1, lookup_insert_eq|done].
  assert (own_pod_key t1 = own_pod_key t /\ task_Name t1 = task_Name t) as [Ek En].
  { unfold own_pod_key, task_Namespace, task_Name. unfold task_key, meta_key in Hk.
    by injection Hk as -> ->. }
  assert (pods w' !! own_pod_key t1 <> pods w1 !! own_pod_key t1) as Hne.
  { destruct Hmade as (_ & Hfree & p & _ & _ & ->). by rewrite Hfree, lookup_insert_eq. }
  rewrite Ek in Hne. destruct (own_pod_created_built t t1 _ _ _ Hsame Hmade Hne)
    as (_ & Hfree & _ & Hp). rewrite Hp1 in Hfree. split_and!; [done..|].
  eexists. rewrite Hw', Hk1, lookup_insert_eq. split; [done|]. simpl.
  rewrite En, Hst. done.
Qed.

(** C2: a call that reports no error for a live task in the empty or Pending
    phase with no pod name leaves it Running under the name of a pod that did
    not exist before and now does, built from the task's spec (as the server's
    defaulting and admission of pods leave it); the task's retry counter is kept and it is looked at again in 30 seconds. *)
Theorem Reconcile_starts_pod k w t res w' :
  owner_refs_ok CloudTask -> tasks w !! k = Some t ->
  om_DeletionTimestamp (task_Meta t) = None ->
  st_Phase (task_Status t) = "" \/ st_Phase (task_Status t) = PhasePending ->
  st_PodName (task_Status t) = "" ->
  Reconcile k w = (Ret (res, None), w') ->
  res = after 30 /\ pods w !! own_pod_key t = None /\
  (exists p, pods w' !! own_pod_key t = Some p /\ built_for t p) /\
  exists t', tasks w' !! k = Some t' /\
    st_Phase (task_Status t') = PhaseRunning /\
    st_PodName (task_Status t') = task_Name t +:+ "-pod" /\
    st_RetryCount (task_Status t') = st_RetryCount (task_Status t) /\
    cloudTaskFinalizerKey ∈ om_Finalizers (task_Meta t').
Proof. apply Reconcile_new_task. Qed.

(** ** Deleting a task *)

(** C3: for a task marked for deletion that still has the controller's
    finalizer, [Reconcile] returns; when it reports no error the task is gone or
    has lost the finalizer, and the pod its status names is gone or marked for
    deletion; when it reports an error the task is kept as it was, with the
    finalizer, so the cleanup is run again. *)
Theorem Reconcile_deletes k w t :
  tasks w !! k = Some t -> om_DeletionTimestamp (task_Meta t) <> None ->
  cloudTaskFinalizerKey ∈ om_Finalizers (task_Meta t) ->
  exists res e w', Reconcile k w = (Ret (res, e), w') /\
    match e with
    | None =>
        (forall t', tasks w' !! k = Some t' ->
           cloudTaskFinalizerKey ∉ om_Finalizers (task_Meta t')) /\
        (st_PodName (task_Status t) <> "" ->
         forall p, pods w' !! (task_Namespace t, st_PodName (task_Status t)) = Some p ->
           is_Some (om_DeletionTimestamp (pod_Meta p)))
    | Some _ => tasks w' = tasks w
    end.
Proof.
  intros Ht Hd Hf. assert (task_key t = k) as Hk by exact (c_store_key (T := CloudTask) w k t Ht).
  unfold Reconcile. rewrite lift_bind. destruct (c_get k w) as [r w1] eqn:Hg.
  apply get_task_view in Hg as (Ht1 & Hp1 & Hr).
  destruct r as [[| |m]|t0]; [congruence|by do 3 eexists..|].
  assert (t0 = t) as -> by congruence. rewrite decide_True by done.
  unfold reconcileDelete, ContainsFinalizer. rewrite bool_decide_true by done.
  destruct (deleteExternalResources_effect t w1) as (e & w2 & E & Ht2 & _ & Hgone).
  rewrite (GoM_bind_ret _ _ _ _ _ E). destruct e as [e|].
  { do 3 eexists; split; [done|]. congruence. }
  rewrite lift_bind. destruct (c_update _ w2) as [[e|t'] w3] eqn:Hu;
    apply update_task_view in Hu as [Hp3 Hr3]; do 3 eexists; (split; [done|]); [congruence|].
  rewrite Hp3. split; [|by apply Hgone].
  destruct Hr3 as (old & _ & (Hfin & _) & _ & Hs).
  change (task_key (RemoveFinalizer _ t)) with (task_key t) in Hs. rewrite Hk in Hs.
  intros t2. rewrite Hs. destruct (obj_gone t'); [by rewrite lookup_delete_eq|].
  rewrite lookup_insert_eq. intros [= <-]. rewrite Hfin. simpl.
  rewrite list_elem_of_filter. naive_solver.
Qed.

(** ** Retrying a failed task *)

Lemma handlePhase_retry t w w' :
  tasks w !! task_key t = Some t ->
  handlePhase t w = (Ret (Some (after 5, None)), w') ->
  st_RetryCount (task_Status t) < spec_Retries (task_Spec t) /\
  tasks w' = <[task_key t := set_status (retry_status t) t]> (tasks w) /\ pods w' = pods w.
Proof.
  intros Ht. unfold handlePhase. case_decide; [done|]. case_decide; [|by case_decide].
  case_decide as Hlt; [|done]. rewrite lift_unit_bind, lift_bind.
  destruct (c_update_status _ _) as [[e|t'] w1] eqn:Hu; [done|].
  apply update_status_current in Hu as [Hp [_ Hr]]; [|by rewrite (proj1 (event_view _ _ _ _))].
  rewrite (proj1 (event_view _ _ _ _)) in Hr. rewrite (proj2 (event_view _ _ _ _)) in Hp.
  intros [= <-]. done.
Qed.

(** [t] back in the Pending phase with no pod name. *)
Definition reset_for_retry (t t' : CloudTask) : Prop :=
  task_Meta t' = task_Meta t /\ task_Spec t' = task_Spec t /\
  st_Phase (task_Status t') = PhasePending /\ st_PodName (task_Status t') = "" /\
  st_RetryCount (task_Status t) < spec_Retries (task_Spec t) /\
  st_RetryCount (task_Status t') = int32 (st_RetryCount (task_Status t) + 1).

Lemma reconcilePod_retry t pod w w' :
  tasks w !! task_key t = Some t ->
  reconcilePod t pod w = (Ret (after 5, None), w') ->
  pods w' = pods w /\
  exists t', reset_for_retry t t' /\ tasks w' = <[task_key t := t']> (tasks w).
Proof.
  intros Ht. unfold reconcilePod.
  destruct (updateStatusFromPod_frame t pod w)
    as (b & t1 & w1 & E & Ht1 & Hp1 & Hm & Hsp & Hrc & _ & Hb).
  rewrite (GoM_bind_ret _ _ _ _ _ E).
  assert (task_key t1 = task_key t) as Hk by (unfold task_key; by rewrite Hm).
  assert (forall w2, (tasks w2 = tasks w \/ tasks w2 = <[task_key t := t1]> (tasks w)) ->
    pods w2 = pods w -> tasks w2 !! task_key t1 = Some t1 ->
    (h ← handlePhase t1; match h with Some r => mret r | None => mret (after 30, None) end) w2
      = (Ret (after 5, None), w') ->
    pods w' = pods w /\
    exists t', reset_for_retry t t' /\ tasks w' = <[task_key t := t']> (tasks w)) as Hgo.
  { intros w2 Hw2 Hp2 Hcur. destruct (handlePhase_effect t1 w2 Hcur) as (h & w3 & Eh & _ & _).
    rewrite (GoM_bind_ret _ _ _ _ _ Eh). destruct h as [h|]; [|done]. intros [= -> <-].
    apply handlePhase_retry in Eh as (Hlt & Ht3 & Hp3); [|done].
    split; [congruence|]. eexists. split; cycle 1.
    { rewrite Ht3, Hk. by destruct Hw2 as [-> | ->]; rewrite ?insert_insert_eq. }
    unfold reset_for_retry. simpl. rewrite <- Hsp, <- Hrc. done. }
  destruct b.
  - assert (t1 = set_status (task_Status t1) t) as Et1 by (destruct t1, t; simpl in *; by subst).
    rewrite lift_bind. destruct (c_update_status t1 w1) as [[e|t2] w2] eqn:Hu; [done|].
    rewrite Et1 in Hu. apply update_status_current in Hu as [Hp2 [-> Hr]]; [|congruence].
    rewrite <- Et1 in Hr |- *. apply Hgo; [right; congruence|congruence|].
    by rewrite Hr, Hk, lookup_insert_eq.
  - specialize (Hb eq_refl) as ->. rewrite GoM_mret_bind. apply Hgo; [by left|congruence..].
Qed.

Lemma ensurePod_not_retry t w w' : ensurePod t w <> (Ret (after 5, None), w').
Proof. unfold ensurePod. go_run; try done; congruence. Qed.

Lemma Reconcile_retry k w t w' :
  tasks w !! k = Some t -> om_DeletionTimestamp (task_Meta t) = None ->
  Reconcile k w = (Ret (after 5, None), w') ->
  is_Some (pods w !! (task_Namespace t, st_PodName (task_Status t))) /\ pods w' = pods w /\
  exists t1 t', same_task t t1 /\ om_DeletionTimestamp (task_Meta t1) = None /\
    reset_for_retry t1 t' /\ tasks w' = <[k := t']> (tasks w).
Proof.
  intros Ht Hd E.
  destruct (Reconcile_live _ _ _ _ _ Ht Hd E)
    as [([e [=]] & _)|(t1 & w1 & Hsame & Hw1 & Hp1 & Hd1 & _ & E1)].
  assert (task_key t1 = k) as Hk1 by eauto using same_task_key.
  pose proof Hsame as (Hk & Hst & _).
  assert (task_Namespace t1 = task_Namespace t) as Hns by (by injection Hk).
  unfold reconcileLive in E1. case_decide; [|by apply ensurePod_not_retry in E1].
  rewrite lift_bind in E1. destruct (c_get _ w1) as [r w2] eqn:Hg.
  apply get_pod_view in Hg as (Ht2 & Hp2 & Hr).
  destruct r as [[| |m]|pod]; [by apply ensurePod_not_retry in E1|done|done|].
  case_decide; [|by apply ensurePod_not_retry in E1].
  apply reconcilePod_retry in E1 as (Hp & t' & Hreset & Hw');
    [|by rewrite Ht2, Hw1, Hk1, lookup_insert_eq].
  rewrite <- Hst, <- Hns, <- Hp1, Hr. split; [done|]. split; [congruence|].
  exists t1, t'. split_and!; [done..|]. by rewrite Hw', Ht2, Hw1, Hk1, insert_insert_eq.
Qed.

(** A task waiting to be started whose pod name is taken. *)
Definition blocked (k : NamespacedName) (w : W) : Prop :=
  exists t p, tasks w !! k = Some t /\ om_DeletionTimestamp (task_Meta t) = None /\
    st_Phase (task_Status t) = PhasePending /\ st_PodName (task_Status t) = "" /\
    pods w !! own_pod_key t = Some p.

Lemma ensurePod_taken t p w o w' :
  owner_refs_ok CloudTask -> pods w !! own_pod_key t = Some p ->
  st_Phase (task_Status t) = PhasePending -> ensurePod t w = (o, w') ->
  (exists res e, o = Ret (res, Some e)) /\ tasks w' = tasks w /\ pods w' = pods w.
Proof.
  intros Hown Hp Hph. unfold ensurePod. rewrite decide_True by auto.
  destruct (SetControllerReference t (constructPod t)) as [e|q] eqn:Hs.
  { intros [= <- <-]. eauto. }
  assert (pod_key q = own_pod_key t) as Hk by (by destruct (Hown _ _ _ Hs)).
  destruct (c_create_taken (T := Pod) q p w) as (e & w1 & Hc & Hp1).
  { by rewrite <- Hp, <- Hk. }
  rewrite lift_bind, Hc, lift_unit_bind. apply create_pod_view in Hc as [Ht1 _].
  intros [= <- <-]. rewrite (proj1 (event_view _ _ _ _)), (proj2 (event_view _ _ _ _)).
  eauto.
Qed.

Lemma blocked_step k w o w' :
  owner_refs_ok CloudTask -> blocked k w -> Reconcile k w = (o, w') ->
  (exists res e, o = Ret (res, Some e)) /\ blocked k w' /\ pods w' = pods w.
Proof.
  intros Hown (t & p & Ht & Hd & Hph & Hpn & Hp) E.
  destruct (Reconcile_live _ _ _ _ _ Ht Hd E)
    as [([e ->] & Hw' & Hp')|(t1 & w1 & Hsame & Hw1 & Hp1 & Hd1 & _ & E1)].
  { split; [eauto|]. split; [|done]. exists t, p. split_and!; congruence. }
  assert (task_key t1 = k) as Hk1 by eauto using same_task_key.
  pose proof Hsame as (Hk & Hst & _). rewrite <- Hst in Hph, Hpn.
  assert (own_pod_key t1 = own_pod_key t) as Ek.
  { unfold own_pod_key, task_Namespace, task_Name. unfold task_key, meta_key in Hk.
    by injection Hk as -> ->. }
  unfold reconcileLive in E1. rewrite decide_False in E1 by (rewrite Hpn; auto).
  apply (ensurePod_taken t1 p) in E1 as (He & Ht' & Hp'); [|done|congruence|done].
  split; [done|]. split; [|congruence]. exists t1, p.
  rewrite Ht', Hw1, lookup_insert_eq, Hp', Hp1, Ek. done.
Qed.

(** Calls of [Reconcile] for one task, one after the other. *)
Definition reconciled (k : NamespacedName) (w w' : W) : Prop :=
  exists o, Reconcile k w = (o, w').

(** C38: the retry of a failed task never starts.  When a call grants a retry
    (the requeue after 5 seconds) to a task whose pod has the name the
    controller gives it, the failed pod is left in place and the next attempt
    would take the same name: however often the task is reconciled, the call
    reports an error, no pod is created or removed, and the task stays
    Pending. *)
Theorem retry_blocked_by_failed_pod k w t w1 w2 :
  owner_refs_ok CloudTask -> tasks w !! k = Some t ->
  om_DeletionTimestamp (task_Meta t) = None ->
  st_PodName (task_Status t) = task_Name t +:+ "-pod" ->
  Reconcile k w = (Ret (after 5, None), w1) ->
  rtc (reconciled k) w1 w2 ->
  pods w2 = pods w /\
  (exists t2, tasks w2 !! k = Some t2 /\ st_Phase (task_Status t2) = PhasePending /\
    st_PodName (task_Status t2) = "") /\
  exists res e w3, Reconcile k w2 = (Ret (res, Some e), w3).
Proof.
  intros Hown Ht Hd Hpn E Hrun.
  destruct (Reconcile_retry _ _ _ _ Ht Hd E)
    as ([p Hp] & Hp1 & t1 & t' & Hsame & Hd1 & Hreset & Hw1).
  destruct Hreset as (Hm & _ & Hph' & Hpn' & _).
  assert (blocked k w1) as Hb.
  { exists t', p. rewrite Hw1, lookup_insert_eq, Hp1, Hm. split_and!; try done.
    destruct Hsame as (Hk & _). unfold own_pod_key, task_Namespace, task_Name.
    rewrite Hm. unfold task_key, meta_key in Hk. injection Hk as -> ->.
    rewrite <- Hp, Hpn. done. }
  assert (blocked k w2 /\ pods w2 = pods w1) as [Hb2 Hp2].
  { clear -Hrun Hb Hown LT LP FTP FPT ET EP. induction Hrun as [|x y z [o Ho] _ IH]; [done|].
    destruct (blocked_step _ _ _ _ Hown Hb Ho) as (_ & Hb' & Hp).
    destruct (IH Hb') as [? ?]. split; congruence. }
  split; [congruence|]. destruct (Reconcile k w2) as [o w3] eqn:E3.
  destruct (blocked_step _ _ _ _ Hown Hb2 E3) as ((res & e & ->) & _ & _).
  destruct Hb2 as (t2 & p2 & Ht2 & _ & ? & ? & _). eauto 10.
Qed.
End Theorems.

(** ** The pod built for a task *)

Section PodOfTask.
Context {K : K8sTypes}.

(** The seconds of the units a task's timeout may use. *)
Definition timeout_unit (u : ascii) : option Z :=
  if decide (u = "s"%char) then Some 1
  else if decide (u = "m"%char) then Some 60
  else if decide (u = "h"%char) then Some 3600
  else None.

Lemma timeout_unit_cases u k :
  timeout_unit u = Some k ->
  (u = "s"%char \/ u = "m"%char \/ u = "h"%char) /\
  unit_map (String u "") = Some (k * Second) /\ 0 < k <= 3600.
Proof.
  unfold timeout_unit. repeat case_decide; intros [= <-]; subst; split_and!; auto; lia.
Qed.

(** C34: for a timeout of digits and one of the units [s], [m] and [h], the
    only form the API accepts, the pod's deadline is exactly that number of
    seconds as long as it fits a [time.Duration] (about 292 years), and the 300
    second default otherwise. *)
Theorem constructPod_deadline t ds u k :
  ds <> "" -> str_forall is_digit ds = true -> timeout_unit u = Some k ->
  spec_Timeout (task_Spec t) = ds +:+ String u "" ->
  ps_ActiveDeadlineSeconds (pod_Spec (constructPod t)) =
    Some (if decide (digits_val 0 ds * k * Second < 2 ^ 63) then digits_val 0 ds * k else 300).
Proof.
  intros Hne Hd Hu Ht. apply timeout_unit_cases in Hu as (Hu & Hunit & Hk).
  simpl. f_equal. rewrite Ht. unfold pod_deadline.
  rewrite decide_True by (by destruct ds).
  rewrite (parse_duration_simple ds u (k * Second)); [|done..|change Second with 1000000000; lia].
  rewrite Z.mul_assoc. case_decide as Hlt; [|done].
  pose proof (digits_val_ge ds 0 ltac:(lia) Hd). apply deadline_of_whole_seconds.
  change Second with 1000000000 in Hlt. change (2 ^ 63) with 9223372036854775808 in Hlt.
  change (2 ^ 53) with 9007199254740992. split; [nia|lia].
Qed.

(** the pod of a task runs the task's image with its command and
    environment in one container that is never restarted, under a name made of
    the task's, and every label the task
    asks for is on the pod; the controller's own labels are those of the task
    unless the task's labels define the same key, so that a task may give its
    pod another tenant's [tenant-id]. *)
Theorem constructPod_labels t key :
  let pod := constructPod t in
  pod_key pod = (task_Namespace t, task_Name t +:+ "-pod") /\
  ps_RestartPolicy (pod_Spec pod) = "Never" /\
  (exists c, ps_Containers (pod_Spec pod) = [c] /\ ct_Image c = spec_Image (task_Spec t) /\
    ct_Command c = spec_Command (task_Spec t) /\ ct_Env c = spec_Env (task_Spec t)) /\
  om_Labels (pod_Meta pod) !! key =
    match spec_Labels (task_Spec t) !! key with
    | Some v => Some v
    | None =>
        if decide (key = "cloudtask-name") then Some (task_Name t)
        else if decide (key = "tenant-id") then Some (spec_TenantID (task_Spec t))
        else if decide (key = "priority") then Some (pretty (spec_Priority (task_Spec t)))
        else None
    end.
Proof.
  simpl. split_and!; [done..|by eexists|]. unfold pod_labels. rewrite lookup_union.
  assert (({[podNameLabel := task_Name t; podTenantLabel := spec_TenantID (task_Spec t);
    podPriorityLabel := pretty (spec_Priority (task_Spec t))]} : gmap string string) !! key =
    if decide (key = "cloudtask-name") then Some (task_Name t)
    else if decide (key = "tenant-id") then Some (spec_TenantID (task_Spec t))
    else if decide (key = "priority") then Some (pretty (spec_Priority (task_Spec t)))
    else None) as ->.
  { rewrite !lookup_insert, lookup_singleton.
    unfold podNameLabel, podTenantLabel, podPriorityLabel. repeat case_decide; congruence. }
  destruct (spec_Labels (task_Spec t) !! key); [|by rewrite option_union_left_id].
  by repeat case_decide.
Qed.
End PodOfTask.

(** ** Taking over the status of the pod *)

Section StatusOfPod.
Context {K : K8sTypes} {W : Type} `{!Clock W}.

(** The phase of a task in phase [cur] whose pod is in phase [ph]. *)
Definition reflected_phase (ph cur : string) : string :=
  if decide (ph = PodRunning) then PhaseRunning
  else if decide (ph = PodSucceeded) then PhaseCompleted
  else if decide (ph = PodFailed) then PhaseFailed
  else if decide (ph = PodPending /\ cur <> PhaseRunning) then PhasePending
  else cur.

Lemma reflected_phase_idemp ph cur :
  reflected_phase ph (reflected_phase ph cur) = reflected_phase ph cur.
Proof. unfold reflected_phase. repeat case_decide; naive_solver. Qed.

(** Nothing to do when the phase already reflects the pod. *)
Lemma updateStatusFromPod_settled (t : CloudTask) (pod : Pod) (w : W) :
  reflected_phase (pst_Phase (pod_Status pod)) (st_Phase (task_Status t)) =
    st_Phase (task_Status t) ->
  updateStatusFromPod t pod w = (Ret (false, t), w).
Proof.
  assert (set_status (task_Status t) t = t) as Hid by (by destruct t).
  unfold updateStatusFromPod, reflected_phase. intros Hph.
  repeat case_decide; try (by rewrite GoM_mret_bind, Hid); exfalso; naive_solver.
Qed.
Lemma updateStatusFromPod_moved (t : CloudTask) (pod : Pod) (w : W) :
  reflected_phase (pst_Phase (pod_Status pod)) (st_Phase (task_Status t)) <>
    st_Phase (task_Status t) ->
  exists s w', updateStatusFromPod t pod w = (Ret (true, set_status s t), w') /\
    st_Phase s = reflected_phase (pst_Phase (pod_Status pod)) (st_Phase (task_Status t)) /\
    st_RetryCount s = st_RetryCount (task_Status t) /\
    st_PodName s = st_PodName (task_Status t).
Proof.
  unfold updateStatusFromPod, reflected_phase. intros Hph.
  repeat (case_decide; try congruence);
    try (go_run; do 2 eexists; by split_and!); exfalso; naive_solver.
Qed.
(** [updateStatusFromPod] always returns, sets the task's phase to the one
    the pod's phase stands for, reports a change exactly when the phase changes
    and never otherwise touches the status, keeps the pod name and the retry
    counter, and doing it again changes nothing. *)
Theorem updateStatusFromPod_reflects (t : CloudTask) (pod : Pod) (w : W) :
  exists b t' w', updateStatusFromPod t pod w = (Ret (b, t'), w') /\
    st_Phase (task_Status t') =
      reflected_phase (pst_Phase (pod_Status pod)) (st_Phase (task_Status t)) /\
    (b = true <-> st_Phase (task_Status t') <> st_Phase (task_Status t)) /\
    (b = false -> t' = t) /\
    st_RetryCount (task_Status t') = st_RetryCount (task_Status t) /\
    st_PodName (task_Status t') = st_PodName (task_Status t) /\
    (forall w2, updateStatusFromPod t' pod w2 = (Ret (false, t'), w2)).
Proof.
  destruct (decide (reflected_phase (pst_Phase (pod_Status pod)) (st_Phase (task_Status t)) =
    st_Phase (task_Status t))) as [E|E].
  - exists false, t, w. split_and!; auto using updateStatusFromPod_settled. by split.
  - destruct (updateStatusFromPod_moved t pod w E) as (s & w' & Er & Hph & Hrc & Hpn).
    exists true, (set_status s t), w'. split_and!; simpl; try done; [by rewrite Hph|].
    intros w2. apply updateStatusFromPod_settled. simpl.
    by rewrite Hph, reflected_phase_idemp.
Qed.
End StatusOfPod.

(** ** Histories of a cluster with the webhook installed *)

Section Histories.
Context {K : K8sTypes} {W : Type}.
#[local] Existing Instance webhook_admission.
Context `{!Client W CloudTask, !Client W Pod, !Clock W, !Recorder W, OR : !OwnerRefs CloudTask}.
Context `{LT : !ClientLaws W CloudTask, LP : !ClientLaws W Pod}.
Context `{FTP : !ClientFrame W CloudTask Pod c_store, FPT : !ClientFrame W Pod CloudTask c_store}.
Context `{ET : !EnvFrame W CloudTask c_store, EP : !EnvFrame W Pod c_store}.

Abbreviation tasks := (c_store (T := CloudTask)).

(** The tenants' role lets them write the status of their tasks, and the CRD puts no
    bound on the retry counter: the counters that others than the operator write are
    assumed to lie between [lo] and [hi], which may be the whole 32-bit range. *)
Variables lo hi : Z.

(** One event of the cluster: a call of the controller for any name, a user's
    create or update that the webhooks admit, a status written by somebody else, a
    deletion (at once, or a mark that keeps spec and status), or anything that leaves
    the tasks alone: the scheduler, the kubelet, other controllers. *)
Inductive cluster_step (w w' : W) : Prop :=
| step_reconcile k o : Reconcile k w = (o, w') -> cluster_step w w'
| step_create t t' :
    (ValidateCreate (Default t)).2 = None -> c_create t w = (inr t', w') -> cluster_step w w'
| step_update old t t' :
    tasks w !! task_key t = Some old -> (ValidateUpdate (Default t) old).2 = None ->
    c_update t w = (inr t', w') -> cluster_step w w'
| step_status k t s :
    tasks w !! k = Some t -> lo <= st_RetryCount s <= hi ->
    tasks w' = <[k := set_status s t]> (tasks w) -> cluster_step w w'
| step_delete k : tasks w' = delete k (tasks w) -> cluster_step w w'
| step_mark_deleted k t m :
    tasks w !! k = Some t -> meta_key m = task_key t ->
    tasks w' = <[k := set_meta m t]> (tasks w) -> cluster_step w w'
| step_other : tasks w' = tasks w -> cluster_step w w'.

Definition task_bounded (t : CloudTask) : Prop :=
  spec_in_range (task_Spec t) /\ lo <= st_RetryCount (task_Status t) <= hi.

Hypothesis lo_range : - 2 ^ 31 <= lo <= 0.
Hypothesis hi_range : 10 <= hi < 2 ^ 31.

Definition tasks_bounded (w : W) : Prop := map_Forall (fun _ => task_bounded) (tasks w).

Lemma default_spec_in_range s : spec_in_range s -> spec_in_range (default_spec s).
Proof. unfold spec_in_range. simpl. repeat case_decide; lia. Qed.

Lemma same_task_in_range t t' :
  same_task t t' -> spec_in_range (task_Spec t) -> spec_in_range (task_Spec t').
Proof.
  intros (_ & _ & [-> | ->]) H; [done|]. by apply default_spec_in_range.
Qed.

Lemma int32_succ z : lo <= z < 10 -> int32 (z + 1) = z + 1.
Proof. intros. apply wrap_id; [lia|]. unfold in_width. lia. Qed.

Lemma Reconcile_absent k w o w' :
  tasks w !! k = None -> Reconcile k w = (o, w') -> tasks w' = tasks w.
Proof.
  intros Hk. unfold Reconcile. rewrite lift_bind. destruct (c_get k w) as [r w1] eqn:Hg.
  apply get_task_view in Hg as (Ht1 & _ & Hr).
  destruct r as [[| |m]|t]; [intros [= <- <-]; done..|congruence].
Qed.

Lemma Reconcile_bounded k w o w' :
  owner_refs_ok CloudTask -> tasks_bounded w -> Reconcile k w = (o, w') -> tasks_bounded w'.
Proof.
  intros Hown Hb E. unfold tasks_bounded in *.
  destruct (tasks w !! k) as [t|] eqn:Ht;
    [|by rewrite (Reconcile_absent _ _ _ _ Ht E)].
  assert (task_bounded t) as [Hr Hc] by by eapply Hb.
  destruct (Reconcile_effect k w t Hown Ht) as (res & w2 & E' & He).
  rewrite E' in E. injection E as _ ->.
  destruct He as [t' Hd Hsame HT _|Hd HT _].
  - destruct HT as [->|(s & -> & Hs)]; [done|]. apply map_Forall_insert_2; [|done].
    assert (spec_in_range (task_Spec t')) as Hr' by eauto using same_task_in_range.
    split; [done|]. simpl. destruct Hs as [->|[Hlt ->]]; [done|].
    destruct Hr' as [Hr' _]. rewrite int32_succ; lia.
  - destruct HT as [->|[->|(t' & -> & Hsame & _)]]; [done|by apply map_Forall_delete|].
    apply map_Forall_insert_2; [|done]. split; [by eauto using same_task_in_range|].
    by destruct Hsame as (_ & -> & _).
Qed.

Lemma cluster_step_bounded w w' :
  owner_refs_ok CloudTask -> tasks_bounded w -> cluster_step w w' -> tasks_bounded w'.
Proof.
  intros Hown Hb Hstep. unfold tasks_bounded in *.
  destruct Hstep as [k o E|t t' Hv E|old t t' Hold Hv E|k t s Ht Hs E|k E|k t m Ht _ E|E].
  - by eapply Reconcile_bounded.
  - apply c_create_spec in E as (_ & (_ & _ & _ & Hsp & Hst) & _ & ->).
    apply map_Forall_insert_2; [|done]. apply ValidateCreate_ok_iff in Hv as (_ & _ & Hr).
    split; [by rewrite Hsp|]. rewrite Hst. simpl. lia.
  - apply c_update_spec in E as (old' & Hold' & (_ & _ & Hsp & Hst) & _ & ->).
    destruct (obj_gone t'); [by apply map_Forall_delete|].
    apply map_Forall_insert_2; [|done]. apply ValidateUpdate_ok_iff in Hv as (_ & _ & Hr).
    split; [by rewrite Hsp|]. rewrite Hst. by eapply Hb.
  - rewrite E. apply map_Forall_insert_2; [|done]. split; [|done]. by destruct (Hb k t Ht).
  - rewrite E. by apply map_Forall_delete.
  - rewrite E. apply map_Forall_insert_2; [|done]. exact (Hb k t Ht).
  - by rewrite E.
Qed.

(** A call keeps the counter of its task, or counts one retry, below 10 and without
    wrapping. *)
Lemma Reconcile_counts k w t o w' t' :
  owner_refs_ok CloudTask -> tasks_bounded w -> tasks w !! k = Some t ->
  Reconcile k w = (o, w') -> tasks w' !! k = Some t' ->
  st_RetryCount (task_Status t') = st_RetryCount (task_Status t) \/
  (st_RetryCount (task_Status t) < 10 /\
   st_RetryCount (task_Status t') = st_RetryCount (task_Status t) + 1).
Proof.
  intros Hown Hb Ht E Ht'. destruct (Hb k t Ht) as [Hr Hc].
  destruct (Reconcile_effect k w t Hown Ht) as (res & w2 & E' & He).
  rewrite E' in E. injection E as _ ->. destruct He as [t1 _ Hsame HT _|_ HT _].
  - assert (spec_in_range (task_Spec t1)) as [Hr1 _] by eauto using same_task_in_range.
    destruct HT as [E1|(s & E1 & Hs)]; rewrite E1 in Ht'; [left; congruence|].
    rewrite lookup_insert_eq in Ht'. injection Ht' as <-. simpl.
    destruct Hs as [?|[Hlt Hs]]; [by left|]. right. rewrite Hs, int32_succ; lia.
  - left. destruct HT as [E1|[E1|(t1 & E1 & (_ & Hst & _) & _)]]; rewrite E1 in Ht'.
    + congruence.
    + by rewrite lookup_delete_eq in Ht'.
    + rewrite lookup_insert_eq in Ht'. injection Ht' as <-. by rewrite Hst.
Qed.

(** C7: in every history of a cluster that starts without tasks and whose
    admission webhook is installed, in which others (tenants may write the status of
    their tasks) write retry counters between [lo] and [hi] only, with [lo] at most 0
    and [hi] at least 10, every task has a retry budget of at most 10 and a counter
    between [lo] and [hi]: between 0 and 10 when nobody writes another one.  Whatever
    others write, a call of the controller keeps the counter or raises it by one from
    below 10, so the 32-bit counter never wraps. *)
Theorem retry_counter_bounded w0 w :
  owner_refs_ok CloudTask -> tasks w0 = ∅ -> rtc cluster_step w0 w ->
  forall k t, tasks w !! k = Some t ->
    lo <= st_RetryCount (task_Status t) <= hi /\
    0 <= spec_Retries (task_Spec t) <= 10 /\
    forall o w' t', Reconcile k w = (o, w') -> tasks w' !! k = Some t' ->
      st_RetryCount (task_Status t') = st_RetryCount (task_Status t) \/
      (st_RetryCount (task_Status t) < 10 /\
       st_RetryCount (task_Status t') = st_RetryCount (task_Status t) + 1).
Proof.
  intros Hown H0 Hrun.
  assert (tasks_bounded w) as Hb.
  { assert (tasks_bounded w0) as Hb0 by (unfold tasks_bounded; rewrite H0; apply map_Forall_empty).
    clear H0. induction Hrun as [|x y z Hs _ IH]; [done|]. eauto using cluster_step_bounded. }
  intros k t Ht. destruct (Hb k t Ht) as [[Hr _] Hc]. split_and!; try lia.
  intros o w' t' E Ht'. by eapply Reconcile_counts.
Qed.
End Histories.

(** ** The theorems at work on the in-memory server *)

Section Witnesses.
#[local] Existing Instance webhook_admission.

Definition ex_key : NamespacedName := ("ns", "t1").

Definition ex_task (s : CloudTaskStatus) : CloudTask :=
  {| task_Meta := ex_meta "t1" "ns"; task_Spec := ex_spec "acme" 3 "5m"; task_Status := s |}.

Definition ex_world (ts : list CloudTask) (ps : list Pod) : MemWorld :=
  {| mw_tasks := ts; mw_jobs := []; mw_pods := ps; mw_clock := 1000; mw_events := [] |}.

(** A task just submitted; one whose pod has failed; one being deleted. *)
Definition w_new : MemWorld := ex_world [ex_task emptyStatus] [].
Definition t_failed : CloudTask := ex_task (ex_status PhaseRunning "t1-pod" 0).
Definition w_failed : MemWorld := ex_world [t_failed] [ex_pod "t1-pod" "ns" PodFailed ∅].
Definition t_deleted : CloudTask :=
  set_meta (meta_mark_deleted (ex_meta "t1" "ns")) (ex_task (ex_status PhaseRunning "t1-pod" 0)).
Definition w_deleted : MemWorld := ex_world [t_deleted] [ex_pod "t1-pod" "ns" PodRunning ∅].

Lemma Reconcile_confined_witness :
  c_store w_new !! ex_key = Some (ex_task emptyStatus) /\
  exists res w', Reconcile ex_key w_new = (Ret res, w').
Proof.
  split; [reflexivity|].
  destruct (Reconcile_confined ex_key w_new (ex_task emptyStatus) mem_owner_task_ok)
    as (res & w' & E & _); [reflexivity|]. exists res, w'. exact E.
Defined.

Lemma Reconcile_starts_pod_witness :
  exists w', Reconcile ex_key w_new = (Ret (after 30, None), w') /\
    c_store (T := Pod) w_new !! ("ns", "t1-pod") = None.
Proof.
  destruct (Reconcile ex_key w_new) as [o w'] eqn:E.
  assert (o = Ret (after 30, None)) as ->
    by (apply (f_equal fst) in E; vm_compute in E; rewrite <- E; reflexivity).
  exists w'. split; [reflexivity|].
  eapply (Reconcile_starts_pod ex_key w_new (ex_task emptyStatus) (after 30) w');
    [exact mem_owner_task_ok|reflexivity|reflexivity|left; reflexivity|reflexivity|exact E].
Defined.

Lemma Reconcile_deletes_witness :
  exists res e w', Reconcile ex_key w_deleted = (Ret (res, e), w').
Proof.
  destruct (Reconcile_deletes ex_key w_deleted t_deleted) as (res & e & w' & E & _);
    [reflexivity|done|left|]. exists res, e, w'. exact E.
Defined.

Lemma retry_blocked_by_failed_pod_witness :
  exists w1 res e w3, Reconcile ex_key w_failed = (Ret (after 5, None), w1) /\
    Reconcile ex_key w1 = (Ret (res, Some e), w3).
Proof.
  destruct (Reconcile ex_key w_failed) as [o w1] eqn:E.
  assert (o = Ret (after 5, None)) as ->
    by (apply (f_equal fst) in E; vm_compute in E; rewrite <- E; reflexivity).
  destruct (retry_blocked_by_failed_pod ex_key w_failed t_failed w1 w1 mem_owner_task_ok)
    as (_ & _ & res & e & w3 & E3);
    [reflexivity|reflexivity|reflexivity|exact E|apply rtc_refl|].
  by exists w1, res, e, w3.
Defined.

(** A task is created and its tenant sets the counter to 20. *)
Definition t_counter : CloudTask :=
  set_status (ex_status PhasePending "" 20) (mk_created (ex_task emptyStatus)).

Lemma retry_counter_bounded_witness :
  rtc (cluster_step (- 5) 20) (ex_world [] []) (ex_world [t_counter] []) /\
  - 5 <= st_RetryCount (task_Status t_counter) <= 20 /\
  0 <= spec_Retries (task_Spec t_counter) <= 10.
Proof.
  assert (rtc (cluster_step (- 5) 20) (ex_world [] []) (ex_world [t_counter] [])) as Hrun.
  { apply (rtc_l _ _ (c_create (ex_task emptyStatus) (ex_world [] [])).2); [|apply rtc_once].
    - eapply (step_create _ _ _ _ (ex_task emptyStatus)); reflexivity.
    - apply (step_status _ _ _ _ ex_key (mk_created (ex_task emptyStatus))
        (ex_status PhasePending "" 20)); [reflexivity|simpl; lia|reflexivity]. }
  split; [exact Hrun|].
  destruct (retry_counter_bounded (- 5) 20 ltac:(lia) ltac:(lia) (ex_world [] [])
    (ex_world [t_counter] []) mem_owner_task_ok) with (k := ex_key) (t := t_counter)
    as (H1 & H2 & _); [reflexivity|exact Hrun|reflexivity|]. exact (conj H1 H2).
Defined.

Lemma constructPod_deadline_witness :
  ps_ActiveDeadlineSeconds (pod_Spec (constructPod (ex_task emptyStatus))) = Some 300.
Proof.
  etrans; [apply (constructPod_deadline (ex_task emptyStatus) "5" "m" 60); done|].
  reflexivity.
Defined.

(** A task created without retries and then updated to 7 retries. *)
Lemma admitted_well_formed_witness :
  let t0 := Default (set_spec (ex_spec "acme" 0 "") (ex_task emptyStatus)) in
  let t := Default (set_spec (ex_spec "acme" 7 "2h") (ex_task emptyStatus)) in
  admitted t0 t /\ 1 <= spec_Retries (task_Spec t) <= 10.
Proof.
  intros t0 t.
  assert (admitted t0 t) as H by (eapply admitted_update; [apply admitted_create|]; reflexivity).
  split; [exact H|]. apply (admitted_well_formed t0 t H).
Defined.
End Witnesses.
