(* ===== verification/TaskJobProofs.v ===== *)
(** * What the TaskJob controller guarantees

    Histories of a cluster with the TaskJob controller of
    [internal/controller/taskjob_controller.go], as a step relation, and the
    invariants of those histories, in which users submit, edit and delete jobs
    as they please: finished jobs stay finished, no job starts before the
    dependencies it then has have completed, and jobs that wait for each other
    wait as long as they do.  The witnesses run on the server of [MemKube]. *)

From S2P Require Import Prelude GoStrings GoTime Kube CloudTaskApi CloudTaskController TaskJobController MemKube.

Section Theorems.
Context {K : K8sTypes} {TF : TimeFormat} {W : Type}.
Context `{!Client W TaskJob, !Client W Pod, !Clock W, !Recorder W, OR : !OwnerRefs TaskJob}.
Context `{LJ : !ClientLaws W TaskJob, LP : !ClientLaws W Pod}.
Context `{FJP : !ClientFrame W TaskJob Pod c_store, FPJ : !ClientFrame W Pod TaskJob c_store}.
Context `{EJ : !EnvFrame W TaskJob c_store, EP : !EnvFrame W Pod c_store}.

Abbreviation jobs := (c_store (T := TaskJob)).
Abbreviation pods := (c_store (T := Pod)).

Definition terminal (j : TaskJob) : Prop :=
  job_phase j = JobCompleted \/ job_phase j = JobFailed.
Definition started (j : TaskJob) : Prop := job_phase j = JobRunning \/ terminal j.

(** One event: a call of the controller for any name, the submission of a new
    job (the server drops a submitted status, so it has not started), an update
    of a job by a user, who may change all of it but its name and its status, the
    deletion of a job, or anything that leaves the jobs alone.  The status is a
    subresource that the roles of the repository let only the controller write. *)
Inductive job_step (w w' : W) : Prop :=
| jstep_reconcile k o : tj_Reconcile k w = (o, w') -> job_step w w'
| jstep_submit j :
    jobs w !! job_key j = None -> ~ started j ->
    jobs w' = <[job_key j := j]> (jobs w) -> job_step w w'
| jstep_edit j j' :
    jobs w !! job_key j = Some j -> job_key j' = job_key j -> job_Status j' = job_Status j ->
    jobs w' = <[job_key j := j']> (jobs w) -> job_step w w'
| jstep_delete k : jobs w' = delete k (jobs w) -> job_step w w'
| jstep_other : jobs w' = jobs w -> job_step w w'.

(** The dependencies of [j], as its spec names them, are all stored Completed. *)
Definition deps_met (w : W) (j : TaskJob) : Prop :=
  deps_completed (jobs w) (job_Namespace j) (js_DependsOn (job_Spec j)).

(** A call of the controller for [k] in [w] that finds the job [j] unfinished with its
    dependencies completed. *)
Definition cleared (k : NamespacedName) (j : TaskJob) (w w' : W) : Prop :=
  (exists o, tj_Reconcile k w = (o, w')) /\
  jobs w !! k = Some j /\ ~ terminal j /\ deps_met w j.

(** What one event does to the job stored under [k] afterwards: its status is the one
    it had, or it is not started, or the controller has just found it cleared. *)
Definition job_advanced (k : NamespacedName) (j' : TaskJob) (w w' : W) : Prop :=
  (exists j, jobs w !! k = Some j /\ job_Status j' = job_Status j) \/
  (~ started j' /\ forall j, jobs w !! k = Some j -> ~ terminal j) \/
  (exists j, cleared k j w w').

Lemma job_advanced_same k j w w' : jobs w !! k = Some j -> job_advanced k j w w'.
Proof. left. by exists j. Qed.

(** One call of the controller for [k0]. *)
Lemma tj_Reconcile_advances k0 o w w' k j' :
  owner_refs_ok TaskJob -> tj_Reconcile k0 w = (o, w') -> jobs w' !! k = Some j' ->
  job_advanced k j' w w'.
Proof.
  intros Hown E Hk. destruct (jobs w !! k0) as [j0|] eqn:Hk0; cycle 1.
  { destruct (tj_Reconcile_absent _ _ _ _ Hk0 E) as [E' _]. apply job_advanced_same. congruence. }
  assert (job_key j0 = k0) as Ek by exact (c_store_key (T := TaskJob) w k0 j0 Hk0).
  destruct (tj_Reconcile_effect k0 w j0 o w' Hown Hk0 E)
    as [[E' _]|Hc Hf _ [E'|(s & Hs & E')] _|Hc Hf Hd [E'|(s & _ & E')] _];
    rewrite E' in Hk; try (by apply job_advanced_same);
    rewrite Ek, lookup_insert in Hk; (case_decide as Hkk; [subst k0|by apply job_advanced_same]);
    injection Hk as <-.
  - right. left. split.
    + unfold started, terminal, job_phase. simpl. rewrite Hs. by intros [?|[?|?]].
    + intros j Hj. assert (j = j0) as -> by congruence. by intros [?|?].
  - right. right. exists j0. split_and!; [by exists o|done|by intros [?|?]|done].
Qed.

Lemma job_step_advances w w' k j' :
  owner_refs_ok TaskJob -> job_step w w' -> jobs w' !! k = Some j' -> job_advanced k j' w w'.
Proof.
  intros Hown [k0 o E|j Hfree Hns E|j j1 Hj Hkey Hst E|k0 E|E] Hk;
    [by eauto using tj_Reconcile_advances|rewrite E in Hk..].
  - apply lookup_insert_Some in Hk as [[<- <-]|[_ Hk]]; [|by apply job_advanced_same].
    right. left. split; [done|]. congruence.
  - apply lookup_insert_Some in Hk as [[<- <-]|[_ Hk]]; [|by apply job_advanced_same].
    left. by exists j.
  - apply lookup_delete_Some in Hk as [_ Hk]. by apply job_advanced_same.
  - by apply job_advanced_same.
Qed.

Lemma started_status j j' : job_Status j' = job_Status j -> started j' -> started j.
Proof. unfold started, terminal, job_phase. by intros ->. Qed.

(** An event while a job is stored under [k], before it and after it. *)
Definition kept_step (k : NamespacedName) (w w' : W) : Prop :=
  job_step w w' /\ is_Some (jobs w !! k) /\ is_Some (jobs w' !! k).

(** C25: a job that has completed or failed stays as it is: as long as it is not
    deleted, and however users edit it in the meantime, it keeps its status with
    its phase, exit code and times, and every call of the controller for it changes
    no job and no pod. *)
Theorem finished_job_is_final w w' k j :
  owner_refs_ok TaskJob -> jobs w !! k = Some j -> terminal j -> rtc (kept_step k) w w' ->
  exists j', jobs w' !! k = Some j' /\ job_Status j' = job_Status j /\
    forall o w2, tj_Reconcile k w' = (o, w2) -> jobs w2 = jobs w' /\ pods w2 = pods w'.
Proof.
  intros Hown Hk Ht Hrun. revert j Hk Ht.
  induction Hrun as [w|x y z (Hs & _ & [j1 Hj1]) _ IH]; intros j Hk Ht.
  - exists j. split_and!; [done..|]. intros o w2 E.
    destruct (tj_Reconcile_effect k w j o w2 Hown Hk E) as [[? ?]|Hc Hf|Hc Hf];
      [done|by destruct Ht..].
  - assert (job_Status j1 = job_Status j) as Hst.
    { destruct (job_step_advances _ _ _ _ Hown Hs Hj1)
        as [(j0 & Hj0 & ?)|[[_ Hnt]|(j0 & _ & Hj0 & Hnt & _)]]; [congruence| |].
      - by destruct (Hnt j Hk).
      - assert (j0 = j) as -> by congruence. by destruct Hnt. }
    rewrite <- Hst. apply (IH j1 Hj1). unfold terminal, job_phase in *. by rewrite Hst.
Qed.

(** A started job was cleared, in a call of the controller after which it has been
    stored all along. *)
Definition cleared_before (k : NamespacedName) (w0 w : W) : Prop :=
  exists w1 w2 j1, rtc job_step w0 w1 /\ cleared k j1 w1 w2 /\ rtc (kept_step k) w2 w.

Lemma started_was_cleared w0 w k j :
  owner_refs_ok TaskJob -> (forall j0, jobs w0 !! k = Some j0 -> ~ started j0) ->
  rtc job_step w0 w -> jobs w !! k = Some j -> started j -> cleared_before k w0 w.
Proof.
  intros Hown H0 Hrun. revert w Hrun j. refine (rtc_ind_r _ _ _ _);
    [intros j Hk Hst; by destruct (H0 j Hk)|]. intros x y Hx Hs IH j Hk Hst.
  destruct (job_step_advances _ _ _ _ Hown Hs Hk) as [(j0 & Hj0 & E)|[[? _]|(j0 & Hc)]].
  - destruct (IH j0 Hj0 (started_status _ _ E Hst)) as (w1 & w2 & j1 & Hr1 & Hc & Hr2).
    exists w1, w2, j1. split_and!; [done..|]. eapply rtc_r; [exact Hr2|]. by split_and!.
  - done.
  - exists x, y, j0. split_and!; [done..|apply rtc_refl].
Qed.

(** A call of the controller that makes a pod makes the one of the job it was
    called for, unfinished and with its dependencies completed. *)
Lemma tj_Reconcile_pod_cleared k w o w' :
  owner_refs_ok TaskJob -> tj_Reconcile k w = (o, w') ->
  pods w' = pods w \/ exists j, cleared k j w w' /\ job_pod_created j (pods w) (pods w').
Proof.
  intros Hown E. destruct (jobs w !! k) as [j|] eqn:Hk; cycle 1.
  { left. by destruct (tj_Reconcile_absent _ _ _ _ Hk E) as [_ ?]. }
  destruct (tj_Reconcile_effect k w j o w' Hown Hk E) as [[_ ?]|_ _ _ _ ?|Hc Hf Hd _ [?|Hm]];
    [by left..|]. right. exists j. split; [|done]. split_and!; [by exists o|done|by intros [?|?]|done].
Qed.

(** C6: dependencies come first.  In every history of submissions, edits and
    deletions of jobs, calls of the controller and other events, a job that has not
    started at the beginning and is Running, Completed or Failed at the end has been
    stored without a break since a call of the controller that found it unfinished
    with every dependency its spec then named stored Completed; and a call of the
    controller leaves the pods alone or creates the pod of a job it finds in that
    state. *)
Theorem dependencies_complete_first w0 w k :
  owner_refs_ok TaskJob -> (forall j0, jobs w0 !! k = Some j0 -> ~ started j0) ->
  rtc job_step w0 w ->
  (forall j, jobs w !! k = Some j -> started j ->
     exists w1 w2 j1, rtc job_step w0 w1 /\ cleared k j1 w1 w2 /\ rtc (kept_step k) w2 w) /\
  (forall o w', tj_Reconcile k w = (o, w') -> pods w' = pods w \/
     exists j, cleared k j w w' /\ job_pod_created j (pods w) (pods w')).
Proof.
  intros Hown H0 Hrun. split.
  - intros j Hk Hst. exact (started_was_cleared w0 w k j Hown H0 Hrun Hk Hst).
  - intros o w' E. exact (tj_Reconcile_pod_cleared k w o w' Hown E).
Qed.

(** ** Cyclic dependencies *)







(** ** Panics and polling *)

Lemma finish_returns j ok w : exists r w', finish j ok w = (Ret r, w').
Proof.
  unfold finish. rewrite lift_bind. destruct (c_update_status j w) as [[e|j'] w'];
    by do 2 eexists.
Qed.

(** [syncStatus] is one status update, for each phase of a pod. *)
Lemma syncStatus_finish j pod w ph :
  phase_of_pod (pst_Phase (pod_Status pod)) = Some ph ->
  exists s ok w1, syncStatus j pod w = finish (set_job_status s j) ok w1 /\
    same_stores w w1 /\ jst_Phase s = ph /\
    (RequeueAfter ok = 0 <-> ph = JobCompleted \/ ph = JobFailed) /\
    (jst_StartTime (job_Status j) <> "" -> jst_StartTime s = jst_StartTime (job_Status j)) /\
    0 <= RequeueAfter ok.
Proof.
  unfold phase_of_pod, syncStatus. destruct (now_string_run w) as (t & w1 & Et & Hs).
  intros Hph. repeat (case_decide; simplify_eq).
  - do 3 eexists. rewrite (GoM_bind_ret _ _ w (job_set_start t (job_set_phase JobRunning
      "Pod is running" (job_Status j))) w1) by (by rewrite (GoM_bind_ret _ _ _ _ _ Et)).
    split; [done|]. split_and!; try done. by split; [|intros [?|?]].
  - do 3 eexists. rewrite GoM_mret_bind. split; [done|]. split_and!; try done. by split; [|intros [?|?]].
  - do 3 eexists. rewrite (GoM_bind_ret _ _ _ _ _ Et). split; [done|].
    split_and!; try done. by split; auto.
  - do 3 eexists. rewrite (GoM_bind_ret _ _ _ _ _ Et). split; [done|].
    split_and!; try done. by split; auto.
  - do 3 eexists. split; [done|]. split_and!; try done. by split; [|intros [?|?]].
Qed.

Lemma syncStatus_returns j pod w : exists r w', syncStatus j pod w = (Ret r, w').
Proof.
  destruct (phase_of_pod (pst_Phase (pod_Status pod))) as [ph|] eqn:Hph.
  - destruct (syncStatus_finish j pod w ph Hph) as (s & ok & w1 & -> & _). apply finish_returns.
  - unfold phase_of_pod, syncStatus in *. repeat (case_decide; simplify_eq). by do 2 eexists.
Qed.

Lemma startPod_panic j w m w' :
  owner_refs_ok TaskJob -> startPod j w = (Panic m, w') ->
  w' = w /\ js_Image (job_Spec j) <> "" /\
  (ParseQuantity (cpu_request j) = None \/ ParseQuantity (mem_request j) = None).
Proof.
  intros Hown. unfold startPod. case_decide as Himg.
  { edestruct finish_returns as (r & w1 & ->). done. }
  pose proof (buildPod_cases j Hown) as Hb.
  destruct (buildPod j) as [pod|e]; [|by intros [= -> <-]].
  rewrite lift_bind. destruct (c_create pod w) as [[e|p'] w1].
  - rewrite lift_bind. by destruct (c_update_status _ w1) as [[e2|j2] w2].
  - edestruct finish_returns as (r & w2 & ->). done.
Qed.

(** the controller panics only for a stored, unfinished job with an image
    whose CPU or memory request does not parse as a quantity (a panic in
    [resource.MustParse]), and it leaves every object as it was, so the same
    job makes it panic again. *)
Theorem tj_Reconcile_panics_only_on_quantities k w m w' :
  owner_refs_ok TaskJob -> tj_Reconcile k w = (Panic m, w') ->
  jobs w' = jobs w /\ pods w' = pods w /\
  exists j, jobs w !! k = Some j /\ ~ terminal j /\ js_Image (job_Spec j) <> "" /\
    (ParseQuantity (cpu_request j) = None \/ ParseQuantity (mem_request j) = None).
Proof.
  intros Hown. unfold tj_Reconcile. rewrite lift_bind.
  destruct (c_get k w) as [r w1] eqn:Hg. apply get_job_view in Hg as [[Hj1 Hp1] Hr].
  destruct r as [[| |]|j]; [done..|]. case_decide as Hterm; [done|].
  destruct (checkDependencies_spec (job_Namespace j) (js_DependsOn (job_Spec j)) w1)
    as (b & e & w2 & Ed & [Hj2 Hp2] & _).
  rewrite (GoM_bind_ret _ _ _ _ _ Ed). destruct e as [err|]; [done|].
  destruct b; [|by edestruct finish_returns as (res & w3 & ->)].
  destruct (findPod_spec j w2) as (r & w3 & Ef & [Hj3 Hp3] & _).
  rewrite (GoM_bind_ret _ _ _ _ _ Ef). destruct r as [err|[pod|]]; [done| |].
  - destruct (syncStatus_returns j pod w3) as (res & w4 & ->). done.
  - intros (-> & Himg & Hq)%startPod_panic; [|done]. split_and!; [congruence..|].
    exists j. split_and!; [congruence|exact Hterm|done|done].
Qed.

(** C35: a [syncStatus] that reports no error for a pod in one of the four
    phases of Kubernetes stores the phase the pod stands for; the job is polled
    again exactly while that phase is not final, and a running job keeps the
    start time it was first given. *)
Theorem syncStatus_reflects_pod j pod w res w' ph :
  jobs w !! job_key j = Some j ->
  phase_of_pod (pst_Phase (pod_Status pod)) = Some ph ->
  syncStatus j pod w = (Ret (res, None), w') ->
  exists s, jobs w' = <[job_key j := set_job_status s j]> (jobs w) /\
    jst_Phase s = ph /\ pods w' = pods w /\
    (RequeueAfter res = 0 <-> ph = JobCompleted \/ ph = JobFailed) /\
    (jst_StartTime (job_Status j) <> "" -> jst_StartTime s = jst_StartTime (job_Status j)).
Proof.
  intros Hj Hph. destruct (syncStatus_finish j pod w ph Hph)
    as (s & ok & w1 & -> & [Hj1 Hp1] & Hs & Hrq & Hstart & _).
  unfold finish. rewrite lift_bind. destruct (c_update_status _ w1) as [[e|j'] w2] eqn:Hu; [done|].
  apply update_job_status in Hu as [Hp Hr]; [|congruence].
  intros [= <- <-]. exists s. split_and!; [congruence|done|congruence|apply Hrq|done].
Qed.
End Theorems.

(** ** The theorems at work on the in-memory server *)

Section Witnesses.
#[local] Instance no_admission : Admission := fun s => s.

Definition ex_job (name phase cpu : string) (deps : list string) : TaskJob :=
  {| job_Meta := new_meta name "ns" ∅ ∅;
     job_Spec := {| js_Name := name; js_Image := "busybox"; js_Command := []; js_Args := [];
       js_Priority := "normal"; js_Algorithm := "fifo"; js_EstimatedDurationSec := 10;
       js_CPURequest := cpu; js_MemoryRequest := ""; js_DependsOn := deps;
       js_Schedule := ""; js_Env := [] |};
     job_Status := {| jst_Phase := phase; jst_PodName := ""; jst_StartTime := "";
       jst_EndTime := ""; jst_ExitCode := 0; jst_Message := ""; jst_Conditions := [] |} |}.

Definition job_world (js : list TaskJob) (ps : list Pod) : MemWorld :=
  {| mw_tasks := []; mw_jobs := js; mw_pods := ps; mw_clock := 7; mw_events := [] |}.

Definition j_done : TaskJob := ex_job "a" JobCompleted "" [].
Definition w_done : MemWorld := job_world [j_done; ex_job "b" "" "" ["a"]] [].

Definition j_edited : TaskJob := ex_job "a" JobCompleted "2" ["c"].
Definition w_edited : MemWorld := job_world [j_edited; ex_job "b" "" "" ["a"]] [].

(** The finished job is edited, then reconciled. *)
Lemma finished_job_is_final_witness :
  exists j', c_store (tj_Reconcile ("ns", "a") w_edited).2 !! ("ns", "a") = Some j' /\
    job_phase j' = JobCompleted.
Proof.
  assert (rtc (kept_step ("ns", "a")) w_done (tj_Reconcile ("ns", "a") w_edited).2) as Hrun.
  { apply (rtc_l _ _ w_edited); [|apply rtc_once];
      (split; [|split; eexists; vm_compute; reflexivity]).
    - apply (jstep_edit _ _ j_done j_edited); reflexivity.
    - apply (jstep_reconcile _ _ ("ns", "a") (tj_Reconcile ("ns", "a") w_edited).1).
      exact (surjective_pairing _). }
  destruct (finished_job_is_final w_done (tj_Reconcile ("ns", "a") w_edited).2
    ("ns", "a") j_done mem_owner_job_ok) as (j' & Hj & Hst & _);
    [reflexivity|left; reflexivity|exact Hrun|].
  exists j'. split; [exact Hj|]. unfold job_phase. by rewrite Hst.
Defined.

Definition j_new : TaskJob := ex_job "a" "" "" [].
Definition w_fresh : MemWorld := job_world [ex_job "a" "" "" []] [].

Definition j_started : TaskJob :=
  set_job_status (job_set_started "taskjob-a" (job_Status j_new)) j_new.

(** The job [b] of [w_done] depends on the completed [a]. *)
Lemma dependencies_complete_first_witness :
  exists w' j w1 w2 j1, tj_Reconcile ("ns", "b") w_done = (Ret (requeue 5, None), w') /\
    c_store w' !! ("ns", "b") = Some j /\ job_phase j = JobRunning /\
    js_DependsOn (job_Spec j) = ["a"] /\ cleared ("ns", "b") j1 w1 w2.
Proof.
  destruct (tj_Reconcile ("ns", "b") w_done) as [o w'] eqn:E.
  assert (o = Ret (requeue 5, None)) as ->
    by (apply (f_equal fst) in E; vm_compute in E; rewrite <- E; reflexivity).
  set (j := set_job_status (job_set_started "taskjob-b" (job_Status (ex_job "b" "" "" ["a"])))
              (ex_job "b" "" "" ["a"])).
  assert (c_store w' !! ("ns", "b") = Some j) as Hj
    by (replace w' with (tj_Reconcile ("ns", "b") w_done).2 by (by rewrite E); reflexivity).
  assert (forall j0, c_store w_done !! ("ns", "b") = Some j0 -> ~ started j0) as H0.
  { intros j0 Hj0. assert (Some j0 = Some (ex_job "b" "" "" ["a"])) as [= ->]
      by (rewrite <- Hj0; reflexivity).
    intros [Hs|[Hs|Hs]]; vm_compute in Hs; discriminate. }
  destruct (dependencies_complete_first w_done w' ("ns", "b") mem_owner_job_ok H0) as [Hst _].
  { apply rtc_once. eapply jstep_reconcile. exact E. }
  destruct (Hst j Hj (or_introl eq_refl)) as (w1 & w2 & j1 & _ & Hc & _).
  exists w', j, w1, w2, j1. split_and!; [reflexivity|exact Hj|reflexivity|reflexivity|exact Hc].
Defined.







Definition w_bad : MemWorld := job_world [ex_job "a" "" "lots" []] [].

Lemma tj_Reconcile_panics_only_on_quantities_witness :
  exists m w', tj_Reconcile ("ns", "a") w_bad = (Panic m, w') /\
    c_store (T := TaskJob) w' = c_store w_bad.
Proof.
  destruct (tj_Reconcile ("ns", "a") w_bad) as [o w'] eqn:E.
  assert (o = Panic "cannot parse 'lots'") as ->
    by (apply (f_equal fst) in E; vm_compute in E; rewrite <- E; reflexivity).
  exists "cannot parse 'lots'", w'. split; [reflexivity|].
  exact (proj1 (tj_Reconcile_panics_only_on_quantities ("ns", "a") w_bad _ w'
    mem_owner_job_ok E)).
Defined.

Definition p_run : Pod := ex_pod "taskjob-a" "ns" PodRunning ∅.

Lemma syncStatus_reflects_pod_witness :
  exists s, jst_Phase s = JobRunning /\
    c_store (syncStatus j_new p_run (job_world [j_new] [p_run])).2 =
      <[job_key j_new := set_job_status s j_new]> (c_store (job_world [j_new] [p_run])).
Proof.
  destruct (syncStatus_reflects_pod j_new p_run (job_world [j_new] [p_run]) (requeue 5)
    (syncStatus j_new p_run (job_world [j_new] [p_run])).2 JobRunning)
    as (s & Hs & Hph & _); [reflexivity..|]. by exists s.
Defined.
End Witnesses.
