(* ===== verification/Validators.v ===== *)
(** * Request validation of the API gateway

    Models [pkg/api/types.go] (the request types) and
    [pkg/api/validators/task_validator.go].  A validator returns [None] for
    [nil] and the message otherwise.  The patterns are the program's, as terms of
    [Regexp]; the theorems characterise the strings they accept without
    mentioning patterns, and relate the gateway's checks to the webhook's. *)

From Stdlib Require Import Ascii.
From S2P Require Import Prelude GoStrings Regexp Kube CloudTaskApi.

(** ** Request types *)

Record ResourceListReq := { rlq_CPU : string; rlq_Memory : string }.

Record ResourceRequirementsReq := {
  rrq_Requests : option ResourceListReq;
  rrq_Limits : option ResourceListReq
}.

Record CreateCloudTaskRequest := {
  req_Name : string;
  req_Image : string;
  req_Command : list string;
  req_Args : list string;
  req_TenantID : string;
  req_Resources : option ResourceRequirementsReq;
  req_Retries : Z;
  req_Timeout : string;
  req_Priority : Z
}.

Record ValidationError := { ve_Field : string; ve_Message : string }.

(** [ValidationErrors.Error] *)
Definition ValidationErrors_Error (ve : list ValidationError) : string :=
  match ve with
  | [] => "no validation errors"
  | _ => String.concat "; " ((fun e => ve_Field e +:+ ": " +:+ ve_Message e) <$> ve)
  end.

(** ** Patterns *)

Definition is_alnum (a : ascii) : bool := is_lower a || is_upper a || is_digit a.
Definition is_lower_alnum (a : ascii) : bool := is_lower a || is_digit a.
Definition char_is (c a : ascii) : bool := bool_decide (a = c).

(** [(?:[a-z0-9]|[._-])] *)
Definition image_char (a : ascii) : bool :=
  is_lower_alnum a || char_is "." a || char_is "_" a || char_is "-" a.
(** [[a-zA-Z0-9_]] and [[a-zA-Z0-9_.-]] *)
Definition tag_first (a : ascii) : bool := is_alnum a || char_is "_" a.
Definition tag_char (a : ascii) : bool := tag_first a || char_is "." a || char_is "-" a.

Definition image_name_rx : regexp := RPlus (RAlt (RClass is_lower_alnum)
  (RClass (fun a => char_is "." a || char_is "_" a || char_is "-" a))).
Definition image_tag_rx : regexp :=
  ROpt (RSeq (RLit ":") (RSeq (RClass tag_first) (RUpTo 127 (RClass tag_char)))).
Definition image_port_rx : regexp := ROpt (RSeq (RLit ":") (RPlus (RClass is_digit))).

Definition imageRegex : regexp :=
  RAlt (RSeq image_name_rx (RSeq image_port_rx (RSeq (RLit "/") (RSeq image_name_rx image_tag_rx))))
       (RSeq image_name_rx image_tag_rx).

(** [^\d+(\.\d+)?m?$] *)
Definition cpuRegex : regexp :=
  RSeq (RPlus (RClass is_digit))
    (RSeq (ROpt (RSeq (RLit ".") (RPlus (RClass is_digit)))) (ROpt (RLit "m"))).

(** [^\d+(Ki|Mi|Gi|Ti|Pi)$] *)
Definition memRegex : regexp :=
  RSeq (RPlus (RClass is_digit))
    (RAlt (RLit "Ki") (RAlt (RLit "Mi") (RAlt (RLit "Gi") (RAlt (RLit "Ti") (RLit "Pi"))))).

Definition is_unit_char (a : ascii) : bool := char_is "s" a || char_is "m" a || char_is "h" a.

(** [^(\d+)([smh])$] *)
Definition timeoutRegex : regexp := RSeq (RPlus (RClass is_digit)) (RClass is_unit_char).

Definition tenant_char (a : ascii) : bool := is_alnum a || char_is "-" a.
Definition id_char (a : ascii) : bool := char_is "-" a || is_lower_alnum a.

(** [^[a-zA-Z0-9]([a-zA-Z0-9-]*[a-zA-Z0-9])?$] *)
Definition tenantIDRegex : regexp := RName tenant_char is_alnum.
(** [^[a-z0-9]([-a-z0-9]*[a-z0-9])?$] *)
Definition idRegex : regexp := RName id_char is_lower_alnum.

(** ** Field validators *)

Definition validateImage (image : string) : option string :=
  if decide (image = "") then Some "required"
  else if rx_match imageRegex image then None
  else Some "invalid docker image format".

Definition validateCommand (command : list string) : option string :=
  if decide (length command = 0%nat) then Some "required, must have at least one element"
  else if decide ("" ∈ command) then Some "command elements cannot be empty"
  else None.

Definition validateQuantity (quantityType value : string) : option string :=
  if decide (value = "") then None
  else if decide (quantityType = "cpu") then
    if rx_match cpuRegex value then None
    else Some "invalid CPU format (use: 100m, 1, 0.5)"
  else if decide (quantityType = "memory") then
    if rx_match memRegex value then None
    else Some "invalid memory format (use: 128Mi, 256Mi, 1Gi)"
  else None.

(** A field error, if the validator gives one. *)
Definition field_error (field : string) (e : option string) : list ValidationError :=
  match e with
  | Some m => [{| ve_Field := field; ve_Message := m |}]
  | None => []
  end.

Definition validate_resource_list (prefix : string) (l : option ResourceListReq)
    : list ValidationError :=
  match l with
  | None => []
  | Some l =>
      (if decide (rlq_CPU l <> "")
       then field_error (prefix +:+ ".cpu") (validateQuantity "cpu" (rlq_CPU l)) else []) ++
      (if decide (rlq_Memory l <> "")
       then field_error (prefix +:+ ".memory") (validateQuantity "memory" (rlq_Memory l))
       else [])
  end.

Definition validateResources (r : ResourceRequirementsReq) : list ValidationError :=
  validate_resource_list "resources.requests" (rrq_Requests r) ++
  validate_resource_list "resources.limits" (rrq_Limits r).

Definition validatePriority (priority : Z) : option string :=
  if decide (priority < 0 \/ priority > 100) then Some "must be between 0 and 100" else None.

(** The first capture group of [timeoutRegex]: all but the last byte. *)
Definition timeout_number (timeout : string) : string :=
  String.substring 0 (String.length timeout - 1) timeout.

Definition validateTimeout (timeout : string) : option string :=
  if decide (timeout = "") then None
  else if rx_match timeoutRegex timeout then
    match parse_int 32 (timeout_number timeout) with
    | Some num => if decide (num <= 0) then Some "timeout must be positive" else None
    | None => Some "timeout must be positive"
    end
  else Some "invalid format (use: 5s, 30m, 1h)".

Definition ValidateTenantID (tenantID : string) : option string :=
  if decide (tenantID = "") then Some "tenant ID required"
  else if rx_match tenantIDRegex tenantID then
    if decide (str_len tenantID > 63) then Some "must be 63 characters or less" else None
  else Some "invalid format: must be alphanumeric with hyphens (no leading/trailing hyphens)".

Definition ValidateTaskID (taskID : string) : option string :=
  if decide (taskID = "") then Some "task ID required"
  else if rx_match idRegex taskID then
    if decide (str_len taskID > 63) then Some "must be 63 characters or less" else None
  else Some "invalid format: must match Kubernetes naming rules [a-z0-9-]".

Definition ValidateStatus (status : string) : option string :=
  if decide (status = "") then None
  else if decide (status ∈ ["Pending"; "Running"; "Completed"; "Failed"]) then None
  else Some "invalid status: must be one of Pending, Running, Completed, Failed".

(** ** The request *)

Definition ValidateCreateTaskRequest (req : CreateCloudTaskRequest) : list ValidationError :=
  field_error "image" (validateImage (req_Image req)) ++
  field_error "command" (validateCommand (req_Command req)) ++
  match req_Resources req with Some r => validateResources r | None => [] end ++
  field_error "priority" (validatePriority (req_Priority req)) ++
  (if decide (req_Timeout req <> "")
   then field_error "timeout" (validateTimeout (req_Timeout req)) else []) ++
  (if decide (req_Retries req > 10)
   then [{| ve_Field := "retries"; ve_Message := "must be between 0 and 10" |}] else []).

(** ** Lemmas *)

Lemma field_error_nil f e : field_error f e = [] <-> e = None.
Proof. by destruct e. Qed.

Lemma rx_match_false r s : rx_match r s = false <-> ~ rx_lang r s.
Proof. rewrite <- rx_match_spec. by destruct (rx_match r s). Qed.

(** A check that tests for the empty string, a pattern and a maximal length. *)
Lemma ValidateTaskID_lang s :
  ValidateTaskID s = None <-> s <> "" /\ rx_lang idRegex s /\ str_len s <= 63.
Proof.
  unfold ValidateTaskID. rewrite <- rx_match_spec. destruct (rx_match idRegex s);
    repeat case_decide; split; naive_solver lia.
Qed.

Lemma ValidateTenantID_lang s :
  ValidateTenantID s = None <-> s <> "" /\ rx_lang tenantIDRegex s /\ str_len s <= 63.
Proof.
  unfold ValidateTenantID. rewrite <- rx_match_spec. destruct (rx_match tenantIDRegex s);
    repeat case_decide; split; naive_solver lia.
Qed.

(** C37: the task names the gateway accepts are exactly the nonempty strings of
    at most 63 bytes over lower-case letters, digits and hyphens that start and
    end with a letter or digit, the DNS labels of Kubernetes.  (The comment in the code
    speaks of DNS-1123 subdomains, which may also have dots and up to 253 characters.) *)
Theorem ValidateTaskID_ok_iff s :
  ValidateTaskID s = None <->
    str_forall id_char s = true /\ first_is is_lower_alnum s = true /\
    last_is is_lower_alnum s = true /\ str_len s <= 63.
Proof.
  rewrite ValidateTaskID_lang. unfold idRegex. rewrite lang_name.
  - destruct s; naive_solver.
  - intros a Ha. unfold id_char. by rewrite Ha, orb_true_r.
Qed.

Lemma ValidateTenantID_chars s :
  ValidateTenantID s = None <->
    str_forall tenant_char s = true /\ first_is is_alnum s = true /\
    last_is is_alnum s = true /\ str_len s <= 63.
Proof.
  rewrite ValidateTenantID_lang. unfold tenantIDRegex. rewrite lang_name.
  - destruct s; naive_solver.
  - intros a Ha. unfold tenant_char. by rewrite Ha.
Qed.

(** ** Timeouts *)

Lemma timeout_number_snoc ds u : timeout_number (ds +:+ String u "") = ds.
Proof.
  unfold timeout_number. rewrite length_append. simpl.
  replace (String.length ds + 1 - 1)%nat with (String.length ds) by lia.
  induction ds as [|a ds IH]; [done|]. rewrite append_cons. simpl. by rewrite IH.
Qed.

Lemma parse_int_digits bits ds :
  ds <> "" -> str_forall is_digit ds = true ->
  parse_int bits ds =
    if decide (in_width bits (digits_val 0 ds)) then Some (digits_val 0 ds) else None.
Proof.
  intros Hne Hd. destruct ds as [|a ds]; [done|]. unfold parse_int.
  assert (a <> "-"%char /\ a <> "+"%char) as [Hm Hp].
  { simpl in Hd. apply andb_true_iff in Hd as [Ha _]. by split; intros ->. }
  rewrite (decide_False (P := a = "-"%char)), (decide_False (P := a = "+"%char)) by done.
  unfold parse_digits. by rewrite Hd.
Qed.

(** the timeouts the gateway accepts are the empty one and the strings of
    digits followed by one of [s], [m], [h] whose number is positive and fits a
    32-bit integer. *)
Theorem validateTimeout_ok_iff s :
  validateTimeout s = None <->
    s = "" \/ exists ds u, s = ds +:+ String u "" /\ is_unit_char u = true /\
      str_forall is_digit ds = true /\ 0 < digits_val 0 ds < 2 ^ 31.
Proof.
  unfold validateTimeout. case_decide as Hs; [naive_solver|].
  destruct (rx_match timeoutRegex s) eqn:Hm.
  - apply rx_match_spec in Hm. unfold timeoutRegex in Hm.
    apply lang_seq_iff in Hm as (ds & ? & -> & Hds & (u & -> & Hu)%lang_class_iff).
    apply lang_plus_class in Hds as [Hne Hd]. rewrite timeout_number_snoc.
    rewrite parse_int_digits by done. unfold in_width.
    split.
    + intros H. right. exists ds, u. repeat case_decide; simplify_eq; split_and!; auto; lia.
    + intros [?|(ds' & u' & E & _ & _ & Hv)]; [done|].
      assert (ds' = ds) as -> by (rewrite <- (timeout_number_snoc ds u), E; symmetry;
        apply timeout_number_snoc).
      rewrite decide_True by lia. by rewrite decide_False by lia.
  - apply rx_match_false in Hm. split; [done|].
    intros [?|(ds & u & -> & Hu & Hd & Hv)]; [done|]. exfalso. apply Hm.
    apply lang_seq_iff. exists ds, (String u ""). split; [done|].
    rewrite lang_plus_class, lang_class_iff. split; [|eauto]. split; [|done].
    intros ->. simpl in Hv. lia.
Qed.

(** ** Images *)

Lemma image_name_lang s :
  rx_lang image_name_rx s <-> s <> "" /\ str_forall image_char s = true.
Proof.
  unfold image_name_rx, RPlus. rewrite lang_seq_iff.
  setoid_rewrite lang_alt_class. setoid_rewrite (lang_star_iff _ _ (lang_alt_class _ _)).
  rewrite <- lang_seq_iff. change (RSeq ?r (RStar ?r)) with (RPlus r).
  rewrite lang_plus_class.
  rewrite (str_forall_ext _ image_char); [done|].
  intros a. unfold image_char. by rewrite <- !orb_assoc.
Qed.

Lemma image_tag_lang s :
  rx_lang image_tag_rx s <->
    s = "" \/ exists a t, s = String ":" (String a t) /\ tag_first a = true /\
      str_forall tag_char t = true /\ (String.length t <= 127)%nat.
Proof.
  unfold image_tag_rx. rewrite lang_opt, lang_seq_iff. setoid_rewrite lang_lit.
  setoid_rewrite lang_seq_iff. setoid_rewrite lang_class_iff. setoid_rewrite lang_upto_class.
  split.
  - intros [->|(? & ? & -> & -> & ? & t & -> & (a & -> & Ha) & Ht)]; [by left|].
    right. exists a, t. done.
  - intros [->|(a & t & -> & Ha & Ht)]; [by left|]. right.
    exists ":", (String a t). split; [done|]. split; [done|].
    exists (String a ""), t. eauto.
Qed.

Lemma image_port_lang s :
  rx_lang image_port_rx s <->
    s = "" \/ exists ds, s = String ":" ds /\ ds <> "" /\ str_forall is_digit ds = true.
Proof.
  unfold image_port_rx. rewrite lang_opt, lang_seq_iff. setoid_rewrite lang_lit.
  setoid_rewrite lang_plus_class. split.
  - intros [->|(? & ds & -> & -> & Hds)]; [by left|]. right. exists ds. done.
  - intros [->|(ds & -> & Hds)]; [by left|]. right. exists ":", ds. done.
Qed.

(** An image name with an optional tag. *)
Definition name_and_tag (s : string) : Prop :=
  exists name tag, s = name +:+ tag /\ name <> "" /\ str_forall image_char name = true /\
    (tag = "" \/ exists a t, tag = String ":" (String a t) /\ tag_first a = true /\
       str_forall tag_char t = true /\ (String.length t <= 127)%nat).

(** an accepted image is a name over lower-case letters, digits and [._-]
    with an optional tag of at most 128 bytes, after at most one registry
    component (with an optional numeric port): images with a longer path, such as
    [gcr.io/project/app:1.0], and digests are refused. *)
Theorem validateImage_ok_iff s :
  validateImage s = None <->
    name_and_tag s \/
    exists host port rest, s = host +:+ port +:+ "/" +:+ rest /\
      host <> "" /\ str_forall image_char host = true /\
      (port = "" \/ exists ds, port = String ":" ds /\ ds <> "" /\
         str_forall is_digit ds = true) /\
      name_and_tag rest.
Proof.
  assert (forall t, rx_lang (RSeq image_name_rx image_tag_rx) t <-> name_and_tag t) as Hnt.
  { intros t. rewrite lang_seq_iff. setoid_rewrite image_name_lang.
    setoid_rewrite image_tag_lang. unfold name_and_tag. naive_solver. }
  assert (validateImage s = None <-> s <> "" /\ rx_lang imageRegex s) as ->.
  { unfold validateImage. rewrite <- rx_match_spec. destruct (rx_match imageRegex s);
      case_decide; naive_solver. }
  unfold imageRegex. rewrite lang_alt_iff, Hnt, lang_seq_iff.
  setoid_rewrite image_name_lang. setoid_rewrite (lang_seq_iff image_port_rx).
  setoid_rewrite (lang_seq_iff (RLit "/")). setoid_rewrite Hnt. setoid_rewrite lang_lit.
  setoid_rewrite image_port_lang. split.
  - intros [_ [(h & ? & -> & [Hh Hh'] & p & ? & -> & Hp & ? & r & -> & -> & Hr)|H]]; [|by left].
    right. exists h, p, r. done.
  - intros [H|(h & p & r & -> & Hh & Hh' & Hp & Hr)].
    + split; [|by right]. destruct H as (name & tag & -> & Hne & _). by destruct name.
    + split; [by destruct h|]. left. exists h, (p +:+ "/" +:+ r). split; [done|]. split; [done|].
      exists p, ("/" +:+ r). split; [done|]. split; [done|]. exists "/", r. done.
Qed.
