(* ===== verification/Http.v ===== *)
(** * HTTP requests, response writers and handlers ([net/http])

    A handler runs over the outside world paired with the state of its response
    writer.  The body of a response is a list of chunks of a type [B]: what is
    handed to the JSON encoder or printed, not its bytes.  As in [net/http], the
    first status written is the one sent, a write without a status sends 200, and
    header changes after that have no effect. *)

From S2P Require Import Prelude GoStrings.

(** [auth.Claims] with the registered claims the program sets. *)
Record Claims := {
  cl_TenantID : string;
  cl_UserID : string;
  cl_Email : string;
  cl_Roles : list string;
  cl_ExpiresAt : option Z;
  cl_IssuedAt : option Z;
  cl_NotBefore : option Z;
  cl_Issuer : string;
  cl_Subject : string
}.

(** The values the program stores in a request's context: the claims of the
    authentication middleware, the router's request id, and the strings the
    logger stores under its own keys. *)
Record Ctx := {
  ctx_claims : option Claims;
  ctx_request_id : option string;
  ctx_log : gmap string string
}.

Definition ctx_with_claims (c : Claims) (x : Ctx) : Ctx :=
  {| ctx_claims := Some c; ctx_request_id := ctx_request_id x; ctx_log := ctx_log x |}.
Definition ctx_with_request_id (s : string) (x : Ctx) : Ctx :=
  {| ctx_claims := ctx_claims x; ctx_request_id := Some s; ctx_log := ctx_log x |}.
Definition ctx_with_log (k v : string) (x : Ctx) : Ctx :=
  {| ctx_claims := ctx_claims x; ctx_request_id := ctx_request_id x;
     ctx_log := <[k := v]> (ctx_log x) |}.

Record Request := {
  rq_Method : string;
  rq_Path : string;
  rq_RequestURI : string;
  rq_RemoteAddr : string;
  rq_Query : gmap string string;
  rq_Headers : gmap string string;
  rq_Body : string + string;
  rq_Ctx : Ctx
}.

Definition with_ctx (x : Ctx) (r : Request) : Request :=
  {| rq_Method := rq_Method r; rq_Path := rq_Path r;
     rq_RequestURI := rq_RequestURI r; rq_RemoteAddr := rq_RemoteAddr r; rq_Query := rq_Query r;
     rq_Headers := rq_Headers r; rq_Body := rq_Body r; rq_Ctx := x |}.

(** [r.Header.Get(k)] and [r.URL.Query().Get(k)]: empty when absent. *)
Definition header_get (r : Request) (k : string) : string := default "" (rq_Headers r !! k).
Definition query_get (r : Request) (k : string) : string := default "" (rq_Query r !! k).

Definition StatusOK : Z := 200.
Definition StatusCreated : Z := 201.
Definition StatusAccepted : Z := 202.
Definition StatusNoContent : Z := 204.
Definition StatusBadRequest : Z := 400.
Definition StatusUnauthorized : Z := 401.
Definition StatusForbidden : Z := 403.
Definition StatusNotFound : Z := 404.
Definition StatusMethodNotAllowed : Z := 405.
Definition StatusConflict : Z := 409.
Definition StatusTooManyRequests : Z := 429.
Definition StatusInternalServerError : Z := 500.
Definition StatusServiceUnavailable : Z := 503.

Record ResponseWriter (B : Type) := {
  rw_headers : gmap string string;
  rw_code : option Z;
  rw_body : list B
}.
Arguments rw_headers {B} _.
Arguments rw_code {B} _.
Arguments rw_body {B} _.

Definition fresh_response {B} : ResponseWriter B :=
  {| rw_headers := ∅; rw_code := None; rw_body := [] |}.

Section Handlers.
Context {W B : Type}.

(** The state of a running handler. *)
Definition HState : Type := W * ResponseWriter B.
Definition Handler : Type := Request -> GoM HState unit.

Definition on_world {A} (m : GoM W A) : GoM HState A := fun st =>
  let '(o, w') := m st.1 in (o, (w', st.2)).

Definition rw_update (f : ResponseWriter B -> ResponseWriter B) : GoM HState unit :=
  fun st => (Ret tt, (st.1, f st.2)).

Definition set_header (k v : string) : GoM HState unit := rw_update (fun r =>
  match rw_code r with
  | Some _ => r
  | None => {| rw_headers := <[k := v]> (rw_headers r); rw_code := None; rw_body := rw_body r |}
  end).

Definition write_header (code : Z) : GoM HState unit := rw_update (fun r =>
  match rw_code r with
  | Some _ => r
  | None => {| rw_headers := rw_headers r; rw_code := Some code; rw_body := rw_body r |}
  end).

Definition write_body (b : B) : GoM HState unit := rw_update (fun r =>
  {| rw_headers := rw_headers r;
     rw_code := Some (default StatusOK (rw_code r)); rw_body := rw_body r ++ [b] |}).

Lemma on_world_bind {A C} (m : GoM W A) (k : A -> GoM HState C) w r :
  (on_world m ≫= k) (w, r) =
    match m w with
    | (Ret a, w') => k a (w', r)
    | (Panic e, w') => (Panic e, (w', r))
    end.
Proof. unfold mbind, GoM_bind, on_world. simpl. by destruct (m w) as [[a|e] w']. Qed.

Lemma rw_update_bind {C} f (k : unit -> GoM HState C) w r :
  (rw_update f ≫= k) (w, r) = k tt (w, f r).
Proof. done. Qed.

(** A response helper does not touch the world. *)
Definition response_only {A} (m : GoM HState A) : Prop := forall st, (m st).2.1 = st.1.

Lemma response_only_ret {A} (a : A) : response_only (mret a).
Proof. done. Qed.
Lemma response_only_panic {A} msg : response_only (go_panic (A := A) msg).
Proof. done. Qed.
Lemma response_only_update f : response_only (rw_update f).
Proof. done. Qed.
Lemma response_only_bind {A C} (m : GoM HState A) (k : A -> GoM HState C) :
  response_only m -> (forall a, response_only (k a)) -> response_only (m ≫= k).
Proof.
  intros Hm Hk st. specialize (Hm st). unfold mbind, GoM_bind.
  destruct (m st) as [[a|e] st']; [|done]. by rewrite Hk, <- Hm.
Qed.
End Handlers.

#[export] Hint Resolve response_only_ret response_only_panic response_only_update
  response_only_bind : go.
