(* ===== verification/Auth.v ===== *)
(** * Tokens and the authentication middleware

    Models [pkg/auth/jwt.go] and [pkg/auth/middleware.go].  The JWT library and
    RSA are not part of the repository: [JwtLib] has the calls the program makes,
    and [JwtLaws] what the library documents of a successful parse: the key came
    from the caller's key function for the token's own signing method, the
    signature verifies under that key, and the token has not expired. *)

From Stdlib Require Import Ascii.
From S2P Require Import Prelude GoStrings GoTime Kube Http.

(** ** Errors: sentinels and errors that wrap them ([%w]) *)

Inductive auth_error : Type :=
| ErrTokenExpired
| ErrTokenInvalid
| ErrTokenMissing
| ErrKeyNotFound
| ErrAlgorithmType
| Wrapped (msg : string) (inner : auth_error)
| WrappedBoth (e1 e2 : auth_error)
| LibError (msg : string).

#[export] Instance auth_error_eq_dec : EqDecision auth_error.
Proof. solve_decision. Defined.

(** [errors.Is(err, target)] *)
Fixpoint errors_Is (err target : auth_error) : bool :=
  bool_decide (err = target) ||
  match err with
  | Wrapped _ inner => errors_Is inner target
  | WrappedBoth e1 e2 => errors_Is e1 target || errors_Is e2 target
  | _ => false
  end.

(** ** The JWT library *)

(** The types the code's type assertion tells apart: HS256, HS384 and HS512 are all
    [*jwt.SigningMethodHMAC], RS256, RS384 and RS512 all [*jwt.SigningMethodRSA]. *)
Inductive SigningMethod : Type := SigningMethodHMAC | SigningMethodRSA | OtherMethod (alg : string).

Class JwtLib := {
  RsaPublicKey : Type;
  ParseRSAPublicKeyFromPEM : string -> auth_error + RsaPublicKey;
  SigningKey : Type := (string + RsaPublicKey)%type;
  (** header and claims of a token, and signature verification *)
  jwt_decode : string -> option (SigningMethod * Claims);
  jwt_verify : SigningMethod -> SigningKey -> string -> bool;
  jwt_sign_hs256 : Claims -> string -> auth_error + string;
  (** [ParseWithClaims] at a given time: claims and the token's [Valid] flag;
      [inl (true, e)] is an error that [errors.Is] an expired token *)
  ParseWithClaims :
    string -> (SigningMethod -> auth_error + SigningKey) -> Z -> (bool * auth_error) + (Claims * bool);
  ParseUnverified : string -> option Claims
}.

Class JwtLaws `{!JwtLib} : Prop := {
  parse_sound s kf now c :
    ParseWithClaims s kf now = inr (c, true) ->
    exists m k, jwt_decode s = Some (m, c) /\ kf m = inr k /\ jwt_verify m k s = true /\
      forall e, cl_ExpiresAt c = Some e -> now < e;
  sign_verifies c k s :
    jwt_sign_hs256 c k = inr s ->
    jwt_decode s = Some (SigningMethodHMAC, c) /\ jwt_verify SigningMethodHMAC (inl k) s = true;
  parse_complete s kf now m k c :
    jwt_decode s = Some (m, c) -> kf m = inr k -> jwt_verify m k s = true ->
    (forall e, cl_ExpiresAt c = Some e -> now < e) ->
    (forall b, cl_NotBefore c = Some b -> b <= now) ->
    ParseWithClaims s kf now = inr (c, true)
}.

Section JWT.
Context `{!JwtLib} {W : Type} `{!Clock W}.

Record JWTManager := {
  jm_secretKey : string;
  jm_publicKey : option RsaPublicKey;
  jm_algorithm : string
}.

(** ** [NewJWTManager], over the process environment *)

Definition NewJWTManager (getenv : string -> string) (algorithm : string)
    : auth_error + JWTManager :=
  let algorithm := if decide (algorithm = "") then "HS256" else algorithm in
  if decide (algorithm = "HS256") then
    let secret := getenv "JWT_SECRET" in
    if decide (secret = "") then
      inl (Wrapped "JWT_SECRET environment variable not set" ErrKeyNotFound)
    else inr {| jm_secretKey := secret; jm_publicKey := None; jm_algorithm := algorithm |}
  else if decide (algorithm = "RS256") then
    let pem := getenv "JWT_PUBLIC_KEY" in
    if decide (pem = "") then
      inl (Wrapped "JWT_PUBLIC_KEY environment variable not set" ErrKeyNotFound)
    else
      match ParseRSAPublicKeyFromPEM pem with
      | inl e => inl (Wrapped "failed to parse RSA public key" e)
      | inr pk => inr {| jm_secretKey := ""; jm_publicKey := Some pk; jm_algorithm := algorithm |}
      end
  else inl (Wrapped ("unsupported algorithm " +:+ algorithm) ErrAlgorithmType).

(** ** [GenerateToken] *)

(** [time.Duration(expirationHours) * time.Hour]; times are in nanoseconds and
    a [NumericDate] keeps whole seconds. *)
Definition token_claims (tenantID userID email : string) (roles : list string)
    (expirationHours now : Z) : Claims :=
  let sec t := t / Second in
  {| cl_TenantID := tenantID; cl_UserID := userID; cl_Email := email; cl_Roles := roles;
     cl_ExpiresAt := Some (sec (now + int64 (expirationHours * Hour)));
     cl_IssuedAt := Some (sec now); cl_NotBefore := Some (sec now);
     cl_Issuer := "cloudtask-orchestrator"; cl_Subject := userID |}.

Definition GenerateToken (jm : JWTManager) (tenantID userID email : string)
    (roles : list string) (expirationHours : Z) : GoM W (auth_error + string) :=
  if decide (jm_algorithm jm <> "HS256") then
    mret (inl (LibError "GenerateToken only supports HS256; use RSA key pair for RS256"))
  else
    now ← lift clock_now;
    match jwt_sign_hs256 (token_claims tenantID userID email roles expirationHours now)
            (jm_secretKey jm) with
    | inl e => mret (inl (Wrapped "failed to sign token" e))
    | inr s => mret (inr s)
    end.

(** ** [ValidateToken] *)

(** The key function; a nil public key is returned as such by the code and
    fails in the library, [None] here. *)
Definition keyFunc (jm : JWTManager) (m : SigningMethod) : auth_error + SigningKey :=
  if decide (jm_algorithm jm = "HS256") then
    match m with
    | SigningMethodHMAC => inr (inl (jm_secretKey jm))
    | _ => inl (LibError "unexpected signing method")
    end
  else if decide (jm_algorithm jm = "RS256") then
    match m with
    | SigningMethodRSA =>
        match jm_publicKey jm with
        | Some pk => inr (inr pk)
        | None => inl (LibError "key is of invalid type")
        end
    | _ => inl (LibError "unexpected signing method")
    end
  else inl ErrAlgorithmType.

Definition ValidateToken (jm : JWTManager) (tokenString : string) : GoM W (auth_error + Claims) :=
  if decide (tokenString = "") then mret (inl ErrTokenMissing)
  else
    now ← lift clock_now;
    match ParseWithClaims tokenString (keyFunc jm) (now / Second) with
    | inl (true, _) => mret (inl ErrTokenExpired)
    | inl (false, e) => mret (inl (WrappedBoth ErrTokenInvalid e))
    | inr (claims, valid) =>
        if valid : bool then
          if decide (cl_TenantID claims = "" \/ cl_UserID claims = "") then
            mret (inl (Wrapped "missing required claims (tenant_id, user_id)" ErrTokenInvalid))
          else mret (inr claims)
        else mret (inl ErrTokenInvalid)
    end.

(** ** Reading the header and the context *)

(** [strings.SplitN(h, " ", 2)] and a case-insensitive scheme. *)
Definition auth_extractBearerToken (r : Request) : string :=
  let authHeader := header_get r "Authorization" in
  if decide (authHeader = "") then ""
  else match split2 " "%char authHeader with
       | (scheme, Some rest) => if decide (to_lower scheme = "bearer") then rest else ""
       | (_, None) => ""
       end.

Definition extractTenantID (r : Request) : string :=
  let tokenString := auth_extractBearerToken r in
  if decide (tokenString = "") then ""
  else match ParseUnverified tokenString with
       | Some c => cl_TenantID c
       | None => ""
       end.

Definition GetClaimsFromContext (x : Ctx) : string + Claims :=
  match ctx_claims x with
  | Some c => inr c
  | None => inl "claims not found in context"
  end.

Definition GetTenantIDFromContext (x : Ctx) : string + string :=
  match GetClaimsFromContext x with
  | inl e => inl e
  | inr c => inr (cl_TenantID c)
  end.

Definition GetUserIDFromContext (x : Ctx) : string + string :=
  match GetClaimsFromContext x with
  | inl e => inl e
  | inr c => inr (cl_UserID c)
  end.

(** ** [AuthMiddleware]; [err_body] is the JSON error response *)

Definition AuthMiddleware {B} (err_body : string -> Z -> B) (jm : JWTManager)
    (next : Handler (W := W) (B := B)) : Handler (W := W) (B := B) := fun r =>
  let tokenString := auth_extractBearerToken r in
  if decide (tokenString = "") then
    _ ← set_header "Content-Type" "application/json";
    _ ← write_header StatusUnauthorized;
    write_body (err_body
      "Missing or invalid Authorization header (expected: Authorization: Bearer <token>)"
      StatusUnauthorized)
  else
    v ← on_world (ValidateToken jm tokenString);
    match v with
    | inl err =>
        let errorMsg :=
          if decide (err = ErrTokenExpired) then "Token has expired"
          else if decide (err = ErrTokenInvalid) then "Token is invalid or malformed"
          else "Invalid token" in
        _ ← set_header "Content-Type" "application/json";
        _ ← write_header StatusForbidden;
        write_body (err_body errorMsg StatusForbidden)
    | inr claims => next (with_ctx (ctx_with_claims claims (rq_Ctx r)) r)
    end.
End JWT.

(** ** What a validated token guarantees *)

Section Facts.
Context `{!JwtLib, JL : !JwtLaws} {W : Type} `{!Clock W}.

Lemma ValidateToken_returns jm s (w : W) : exists r w', ValidateToken jm s w = (Ret r, w').
Proof. unfold ValidateToken. go_run; by do 2 eexists. Qed.

(** The key function ties the algorithm of the manager to the token's method. *)
Lemma keyFunc_inv jm m k :
  keyFunc jm m = inr k ->
  (jm_algorithm jm = "HS256" /\ m = SigningMethodHMAC /\ k = inl (jm_secretKey jm)) \/
  (jm_algorithm jm = "RS256" /\ m = SigningMethodRSA /\
   exists pk, jm_publicKey jm = Some pk /\ k = inr pk).
Proof.
  unfold keyFunc. repeat case_decide; destruct m; try done; intros.
  - simplify_eq. auto.
  - destruct (jm_publicKey jm); simplify_eq. eauto 10.
Qed.

Lemma ValidateToken_accepts jm s (w : W) c w' :
  ValidateToken jm s w = (Ret (inr c), w') ->
  exists m k, jwt_decode s = Some (m, c) /\ keyFunc jm m = inr k /\ jwt_verify m k s = true /\
    (forall e, cl_ExpiresAt c = Some e -> (clock_now w).1 / Second < e) /\
    cl_TenantID c <> "" /\ cl_UserID c <> "".
Proof.
  unfold ValidateToken. case_decide; [done|]. rewrite lift_bind.
  destruct (clock_now w) as [now w1].
  destruct (ParseWithClaims s (keyFunc jm) (now / Second)) as [[[] e]|[c' []]] eqn:Ep; try done.
  case_decide as Hreq; [done|]. intros [= <- <-].
  destruct (parse_sound _ _ _ _ Ep) as (m & k & Hd & Hk & Hv & He).
  exists m, k. split_and!; auto.
Qed.

(** C8: a token is accepted only if it is signed with the manager's own key
    by a signing method of the family of the manager's algorithm (a token signed
    with a method of another family is never checked against that key), has not
    expired, and names a tenant and a user.  The code asks for the family only: an
    HS256 manager also takes HS384 and HS512. *)
Theorem ValidateToken_sound jm s (w : W) c w' :
  ValidateToken jm s w = (Ret (inr c), w') ->
  ((jm_algorithm jm = "HS256" /\ jwt_decode s = Some (SigningMethodHMAC, c) /\
    jwt_verify SigningMethodHMAC (inl (jm_secretKey jm)) s = true) \/
   (jm_algorithm jm = "RS256" /\ jwt_decode s = Some (SigningMethodRSA, c) /\
    exists pk, jm_publicKey jm = Some pk /\ jwt_verify SigningMethodRSA (inr pk) s = true)) /\
  (forall e, cl_ExpiresAt c = Some e -> (clock_now w).1 / Second < e) /\
  cl_TenantID c <> "" /\ cl_UserID c <> "".
Proof.
  intros (m & k & Hd & Hk & Hv & He & Ht & Hu)%ValidateToken_accepts.
  split; [|done]. destruct (keyFunc_inv _ _ _ Hk) as [(Ha & -> & ->)|(Ha & -> & pk & Hpk & ->)].
  - left. auto.
  - right. eauto.
Qed.

(** C9: round trip.  A token generated by an HS256 manager for a tenant and a
    user, with a positive life time that fits a duration, validates at any
    later time before it expires, and gives back the tenant, user, e-mail and
    roles it was made for. *)
Theorem GenerateToken_ValidateToken jm tenant user email roles hours (w w1 w2 : W) s :
  tenant <> "" -> user <> "" -> jm_algorithm jm = "HS256" -> s <> "" ->
  0 < hours -> hours * Hour < 2 ^ 63 ->
  GenerateToken jm tenant user email roles hours w = (Ret (inr s), w1) ->
  (clock_now w).1 <= (clock_now w2).1 ->
  (clock_now w2).1 / Second < ((clock_now w).1 + hours * Hour) / Second ->
  exists c w3, ValidateToken jm s w2 = (Ret (inr c), w3) /\
    cl_TenantID c = tenant /\ cl_UserID c = user /\ cl_Email c = email /\ cl_Roles c = roles.
Proof.
  intros Ht Hu Halg Hs Hpos Hfit Hgen Hlater Hbefore. unfold GenerateToken in Hgen.
  rewrite decide_False in Hgen by (rewrite Halg; auto). rewrite lift_bind in Hgen.
  destruct (clock_now w) as [now wx]. simpl in *.
  destruct (jwt_sign_hs256 _ _) as [e|s'] eqn:Esig; [done|]. injection Hgen as -> _.
  apply sign_verifies in Esig as [Hd Hv].
  unfold ValidateToken. rewrite decide_False by done. rewrite lift_bind.
  destruct (clock_now w2) as [now2 w3]. simpl in *.
  rewrite (parse_complete s (keyFunc jm) (now2 / Second) SigningMethodHMAC
    (inl (jm_secretKey jm)) _ Hd); [|by unfold keyFunc; rewrite Halg|done|..].
  - simpl. rewrite decide_False by naive_solver. by do 2 eexists.
  - simpl. intros e [= <-].
    rewrite wrap_id; [done|lia|]. unfold in_width. change Hour with 3600000000000 in *. lia.
  - simpl. intros b [= <-]. apply Z.div_le_mono; [done|lia].
Qed.
End Facts.

(** ** A small JWT library that satisfies the laws *)

Section ToyJwt.
Definition toy_claims : Claims := token_claims "acme" "u1" "u1@acme.io" ["dev"] 1 0.

#[local] Instance Claims_eq_dec : EqDecision Claims.
Proof. solve_decision. Defined.

(** One known token per key: ["hs256." ++ key] for [toy_claims]. *)
Definition toy_decode (s : string) : option (SigningMethod * Claims) :=
  match strip_prefix "hs256." s with
  | Some _ => Some (SigningMethodHMAC, toy_claims)
  | None => None
  end.

Definition toy_verify (m : SigningMethod) (k : string + unit) (s : string) : bool :=
  match m, k with
  | SigningMethodHMAC, inl key => bool_decide (s = "hs256." +:+ key)
  | _, _ => false
  end.

Definition in_time (c : Claims) (now : Z) : bool :=
  match cl_ExpiresAt c with Some e => bool_decide (now < e) | None => true end.
Definition started_at (c : Claims) (now : Z) : bool :=
  match cl_NotBefore c with Some b => bool_decide (b <= now) | None => true end.

Definition toy_parse (s : string) (kf : SigningMethod -> auth_error + (string + unit)) (now : Z)
    : (bool * auth_error) + (Claims * bool) :=
  match toy_decode s with
  | None => inl (false, LibError "malformed")
  | Some (m, c) =>
      match kf m with
      | inl e => inl (false, e)
      | inr k =>
          if toy_verify m k s then
            if in_time c now then
              if started_at c now then inr (c, true) else inl (false, LibError "not yet valid")
            else inl (true, LibError "expired")
          else inl (false, LibError "bad signature")
      end
  end.

#[local] Instance toy_jwt : JwtLib := {
  RsaPublicKey := unit;
  ParseRSAPublicKeyFromPEM _ := inr tt;
  jwt_decode := toy_decode;
  jwt_verify := toy_verify;
  jwt_sign_hs256 c k :=
    if decide (c = toy_claims) then inr ("hs256." +:+ k) else inl (LibError "unknown claims");
  ParseWithClaims := toy_parse;
  ParseUnverified s := snd <$> toy_decode s
}.

#[local] Instance toy_jwt_laws : JwtLaws.
Proof.
  split; simpl; unfold toy_parse.
  - intros s kf now c. destruct (toy_decode s) as [[m c']|]; [|done].
    destruct (kf m) as [e|k] eqn:Hk; [done|]. destruct (toy_verify m k s) eqn:Hv; [|done].
    destruct (in_time c' now) eqn:Hi; [|done]. destruct (started_at c' now); [|done].
    intros [= ->]. exists m, k. split_and!; auto. intros e He. unfold in_time in Hi.
    rewrite He in Hi. by apply bool_decide_eq_true in Hi.
  - intros c k s. case_decide; [|done]. intros [= <-]. subst c.
    unfold toy_decode. rewrite strip_prefix_app. split; [done|]. by apply bool_decide_true.
  - intros s kf now m k c -> -> -> He Hb.
    assert (in_time c now = true) as ->.
    { unfold in_time. destruct (cl_ExpiresAt c); [|done]. by apply bool_decide_true, He. }
    assert (started_at c now = true) as ->; [|done].
    unfold started_at. destruct (cl_NotBefore c); [|done]. by apply bool_decide_true, Hb.
Qed.

(** The world is the time. *)
#[local] Instance toy_clock : Clock Z := fun w => (w, w).

Definition toy_manager : JWTManager :=
  {| jm_secretKey := "k1"; jm_publicKey := None; jm_algorithm := "HS256" |}.

Lemma ValidateToken_sound_witness :
  ValidateToken toy_manager "hs256.k1" 5 = (Ret (inr toy_claims), 5) /\
  cl_TenantID toy_claims <> "".
Proof.
  assert (ValidateToken toy_manager "hs256.k1" 5 = (Ret (inr toy_claims), 5)) as E
    by (vm_compute; reflexivity).
  split; [exact E|].
  exact (proj1 (proj2 (proj2 (ValidateToken_sound toy_manager "hs256.k1" 5 toy_claims 5 E)))).
Defined.

Lemma GenerateToken_ValidateToken_witness :
  exists c w3, ValidateToken toy_manager "hs256.k1" 7 = (Ret (inr c), w3) /\
    cl_TenantID c = "acme" /\ cl_UserID c = "u1" /\ cl_Email c = "u1@acme.io" /\
    cl_Roles c = ["dev"].
Proof.
  apply (GenerateToken_ValidateToken toy_manager "acme" "u1" "u1@acme.io" ["dev"] 1 0 0 7
    "hs256.k1"); [done..|lia|vm_compute; reflexivity|vm_compute; reflexivity|done|].
  vm_compute. reflexivity.
Defined.
End ToyJwt.
