(* ===== verification/RateLimiter.v ===== *)
(** * The per-tenant rate limiter: [pkg/auth/ratelimiter.go]

    Redis is not part of the repository: [Redis] has the calls the limiter makes
    (a pipeline of commands, [SCAN] and [DEL]) and [RedisLaws] says what a
    successful pipeline does to the counters.  The theorems bound the requests
    admitted in a window, separate the tenants, and show that the windows are
    fixed, not sliding. *)

From Stdlib Require Import Ascii.
From S2P Require Import Prelude GoStrings GoTime Kube.

(** ** Redis *)

Inductive redis_cmd : Type :=
| CmdIncr (k : string)
| CmdExpire (k : string) (ttl : Z)
| CmdGet (k : string).

Inductive redis_reply : Type :=
| IntReply (z : Z)
| BoolReply (b : bool)
| StringReply (s : option string).

Inductive redis_error : Type := RedisNil | RedisError (msg : string).

Class Redis (W : Type) := {
  redis_exec : list redis_cmd -> W -> (redis_error + list redis_reply) * W;
  redis_scan : Z -> string -> Z -> W -> (redis_error + (list string * Z)) * W;
  redis_del : list string -> W -> option redis_error * W
}.

(** What one command does to the live counters, and its reply. *)
Definition redis_step (m : gmap string Z) (c : redis_cmd) : redis_reply * gmap string Z :=
  match c with
  | CmdIncr k => let v := default 0 (m !! k) + 1 in (IntReply v, <[k := v]> m)
  | CmdExpire k _ => (BoolReply (bool_decide (is_Some (m !! k))), m)
  | CmdGet k => (StringReply (pretty <$> (m !! k)), m)
  end.

Fixpoint redis_run (m : gmap string Z) (cs : list redis_cmd) : list redis_reply * gmap string Z :=
  match cs with
  | [] => ([], m)
  | c :: cs' =>
      let '(r, m1) := redis_step m c in
      let '(rs, m2) := redis_run m1 cs' in (r :: rs, m2)
  end.

Definition cmd_key (c : redis_cmd) : string :=
  match c with CmdIncr k | CmdExpire k _ | CmdGet k => k end.

(** The value of a counter; a missing key counts as 0. *)
Definition counter (m : gmap string Z) (k : string) : Z := default 0 (m !! k).

(** Commands change only their own keys and never lower a counter. *)
Lemma redis_run_other m cs k : k ∉ (cmd_key <$> cs) -> (redis_run m cs).2 !! k = m !! k.
Proof.
  revert m. induction cs as [|c cs IH]; intros m; simpl; [done|].
  rewrite not_elem_of_cons. intros [Hne Hin]. destruct (redis_step m c) as [r m1] eqn:E.
  specialize (IH m1 Hin). destruct (redis_run m1 cs) as [rs m2]. simpl in *. rewrite IH.
  destruct c; simpl in E, Hne; injection E as _ <-; [by rewrite lookup_insert_ne|done..].
Qed.

Lemma redis_run_mono m cs k : counter m k <= counter (redis_run m cs).2 k.
Proof.
  revert m. induction cs as [|c cs IH]; intros m; simpl; [lia|].
  destruct (redis_step m c) as [r m1] eqn:E. specialize (IH m1).
  destruct (redis_run m1 cs) as [rs m2]. simpl in *. etrans; [|exact IH].
  destruct c as [k'| |]; simpl in E; injection E as _ <-; [|lia..].
  unfold counter. rewrite lookup_insert. case_decide; subst; simpl; lia.
Qed.

Class RedisLaws (W : Type) `{!Redis W, !Clock W} := {
  redis_store : W -> gmap string Z;
  (** a successful pipeline runs its commands in order *)
  redis_exec_ok cs w rs w' :
    redis_exec cs w = (inr rs, w') -> redis_run (redis_store w) cs = (rs, redis_store w');
  (** a failed one may have run the first of them *)
  redis_exec_failed cs w e w' :
    redis_exec cs w = (inl e, w') ->
    exists n, redis_store w' = (redis_run (redis_store w) (take n cs)).2;
  redis_clock w : redis_store (clock_now w).2 = redis_store w
}.

Section RateLimiter.
Context {W : Type} `{!Redis W, !Clock W}.

Record RateLimiter := { perMinuteLimit : Z; perHourLimit : Z }.

Definition NewRateLimiter : RateLimiter := {| perMinuteLimit := 100; perHourLimit := 1000 |}.

Definition SetLimits (rl : RateLimiter) (perMinute perHour : Z) : RateLimiter :=
  {| perMinuteLimit := perMinute; perHourLimit := perHour |}.

Definition GetLimits (rl : RateLimiter) : Z * Z := (perMinuteLimit rl, perHourLimit rl).

(** ["ratelimit:minute:%s:%d"] and ["ratelimit:hour:%s:%d"] *)
Definition minuteWindow (tenantID : string) (nowUnix : Z) : string :=
  "ratelimit:minute:" +:+ tenantID +:+ ":" +:+ pretty (Z.quot nowUnix 60).
Definition hourWindow (tenantID : string) (nowUnix : Z) : string :=
  "ratelimit:hour:" +:+ tenantID +:+ ":" +:+ pretty (Z.quot nowUnix 3600).

Inductive limit_error : Type := EmptyTenant | RedisFailure (e : redis_error).

(** [results[i].( *redis.IntCmd).Val()]: an index or a type assertion that
    fails is a panic. *)
Definition int_result (results : list redis_reply) (i : nat) : GoM W Z :=
  match results !! i with
  | Some (IntReply z) => mret z
  | Some _ => go_panic "interface conversion"
  | None => go_panic "index out of range"
  end.

(** [time.Until(now.Truncate(d).Add(d))], with the clock read again. *)
Definition until_next (now d : Z) : GoM W Z :=
  now2 ← lift clock_now; mret (now / d * d + d - now2).

Definition Allow (rl : RateLimiter) (tenantID : string) : GoM W (bool * Z * option limit_error) :=
  if decide (tenantID = "") then mret (false, 0, Some EmptyTenant)
  else
    now ← lift clock_now;
    let nowUnix := now / Second in
    let mw := minuteWindow tenantID nowUnix in
    let hw := hourWindow tenantID nowUnix in
    r ← lift (redis_exec [CmdIncr mw; CmdIncr hw; CmdExpire mw (2 * Minute);
                          CmdExpire hw (2 * Hour)]);
    match r with
    | inl e => mret (false, 0, Some (RedisFailure e))
    | inr results =>
        minuteCount ← int_result results 0;
        hourCount ← int_result results 1;
        if decide (minuteCount > perMinuteLimit rl) then
          remaining ← until_next now Minute; mret (false, remaining, None)
        else if decide (hourCount > perHourLimit rl) then
          remaining ← until_next now Hour; mret (false, remaining, None)
        else mret (true, 0, None)
    end.

(** [StringCmd.Int64]: the value, or an error; [redis.Nil] counts as 0. *)
Definition int64_result (results : list redis_reply) (i : nat) : GoM W (limit_error + Z) :=
  match results !! i with
  | Some (StringReply (Some s)) =>
      match parse_int 64 s with
      | Some z => mret (inr z)
      | None => mret (inl (RedisFailure (RedisError "invalid syntax")))
      end
  | Some (StringReply None) => mret (inr 0)
  | Some _ => go_panic "interface conversion"
  | None => go_panic "index out of range"
  end.

Definition GetTenantStats (tenantID : string) : GoM W (Z * Z * option limit_error) :=
  now ← lift clock_now;
  let nowUnix := now / Second in
  r ← lift (redis_exec [CmdGet (minuteWindow tenantID nowUnix);
                        CmdGet (hourWindow tenantID nowUnix)]);
  match r with
  | inl e => mret (0, 0, Some (RedisFailure e))
  | inr results =>
      m ← int64_result results 0;
      match m with
      | inl e => mret (0, 0, Some e)
      | inr minuteVal =>
          h ← int64_result results 1;
          match h with
          | inl e => mret (0, 0, Some e)
          | inr hourVal => mret (minuteVal, hourVal, None)
          end
      end
  end.

(** [ResetTenantLimit]: the [SCAN] loop, at most [fuel] rounds; [None] when the
    server has not returned the cursor to 0 by then. *)
Fixpoint reset_loop (fuel : nat) (cursor : Z) (pattern : string)
    : GoM W (option (option limit_error)) :=
  match fuel with
  | O => mret None
  | S fuel' =>
      r ← lift (redis_scan cursor pattern 100);
      match r with
      | inl e => mret (Some (Some (RedisFailure e)))
      | inr (keys, nextCursor) =>
          d ← (if decide (keys <> []) then lift (redis_del keys) else mret None);
          match d with
          | Some e => mret (Some (Some (RedisFailure e)))
          | None =>
              if decide (nextCursor = 0) then mret (Some None)
              else reset_loop fuel' nextCursor pattern
          end
      end
  end.

Definition ResetTenantLimit (fuel : nat) (tenantID : string)
    : GoM W (option (option limit_error)) :=
  reset_loop fuel 0 ("ratelimit:*:" +:+ tenantID +:+ ":*").
End RateLimiter.

(** ** Keys *)

Lemma minuteWindow_inj t1 n1 t2 n2 :
  minuteWindow t1 n1 = minuteWindow t2 n2 -> t1 = t2 /\ Z.quot n1 60 = Z.quot n2 60.
Proof.
  unfold minuteWindow. intros E%append_inj_l.
  apply last_field_inj in E as [-> E]; [|apply pretty_Z_no_colon..].
  split; [done|]. by apply (inj pretty) in E.
Qed.

Lemma hourWindow_inj t1 n1 t2 n2 :
  hourWindow t1 n1 = hourWindow t2 n2 -> t1 = t2 /\ Z.quot n1 3600 = Z.quot n2 3600.
Proof.
  unfold hourWindow. intros E%append_inj_l.
  apply last_field_inj in E as [-> E]; [|apply pretty_Z_no_colon..].
  split; [done|]. by apply (inj pretty) in E.
Qed.

Lemma minute_hour_ne t1 n1 t2 n2 : minuteWindow t1 n1 <> hourWindow t2 n2.
Proof. discriminate. Qed.

Section Facts.
Context {W : Type} `{!Redis W, !Clock W, RL : !RedisLaws W}.

(** The replies and counters after a successful pipeline of [Allow]. *)
Lemma redis_run_allow m mw hw d1 d2 :
  mw <> hw ->
  exists b1 b2, redis_run m [CmdIncr mw; CmdIncr hw; CmdExpire mw d1; CmdExpire hw d2] =
    ([IntReply (counter m mw + 1); IntReply (counter m hw + 1);
      BoolReply b1; BoolReply b2],
     <[hw := counter m hw + 1]> (<[mw := counter m mw + 1]> m)).
Proof. intros Hne. unfold counter. simpl. rewrite lookup_insert_ne by done. by do 2 eexists. Qed.

Lemma until_next_run now d (w : W) :
  exists z w', until_next now d w = (Ret z, w') /\ redis_store w' = redis_store w.
Proof.
  unfold until_next. rewrite lift_bind. pose proof (redis_clock w).
  destruct (clock_now w) as [now2 w']. by do 2 eexists.
Qed.

(** One call: it returns, and either reports an error or has counted the
    request in both windows; it is allowed only within both limits. *)
Lemma Allow_spec rl tenant (w : W) :
  let nowUnix := (clock_now w).1 / Second in
  let mw := minuteWindow tenant nowUnix in
  let hw := hourWindow tenant nowUnix in
  exists allowed rem err w', Allow rl tenant w = (Ret (allowed, rem, err), w') /\
    (forall k, k <> mw -> k <> hw -> redis_store w' !! k = redis_store w !! k) /\
    match err with
    | Some _ => allowed = false /\ counter (redis_store w) mw <= counter (redis_store w') mw
    | None =>
        redis_store w' !! mw = Some (counter (redis_store w) mw + 1) /\
        redis_store w' !! hw = Some (counter (redis_store w) hw + 1) /\
        (allowed = true <->
           counter (redis_store w) mw < perMinuteLimit rl /\
           counter (redis_store w) hw < perHourLimit rl)
    end.
Proof.
  intros nowUnix mw hw. unfold Allow. case_decide as Hemp; [by do 4 eexists; split_and!|].
  rewrite lift_bind. pose proof (redis_clock w) as Hc.
  destruct (clock_now w) as [now w1] eqn:En. simpl in Hc, nowUnix.
  rewrite lift_bind. fold nowUnix. fold mw. fold hw.
  destruct (redis_exec _ w1) as [[e|rs] w2] eqn:Ee.
  { apply redis_exec_failed in Ee as [j Ej]. rewrite Hc in Ej. do 4 eexists.
    split; [done|]. rewrite Ej. split; [|split; [done|apply redis_run_mono]].
    intros k H1 H2. apply redis_run_other. intros Hin.
    rewrite fmap_take in Hin. apply subseteq_take in Hin. simpl in Hin. set_solver. }
  apply redis_exec_ok in Ee. rewrite Hc in Ee.
  destruct (redis_run_allow (redis_store w) mw hw (2 * Minute) (2 * Hour)
    ltac:(apply minute_hour_ne)) as (b1 & b2 & Er). rewrite Er in Ee. injection Ee as <- Hs.
  set (mc := counter (redis_store w) mw) in *.
  set (hc := counter (redis_store w) hw) in *.
  assert (forall w3, redis_store w3 = redis_store w2 ->
    (forall k, k <> mw -> k <> hw -> redis_store w3 !! k = redis_store w !! k) /\
    redis_store w3 !! mw = Some (mc + 1) /\ redis_store w3 !! hw = Some (hc + 1)) as Hst.
  { intros w3 ->. rewrite <- Hs. split; [|split].
    - intros k H1 H2. by rewrite !lookup_insert_ne.
    - rewrite lookup_insert_ne by (symmetry; apply minute_hour_ne). by rewrite lookup_insert_eq.
    - by rewrite lookup_insert_eq. }
  unfold int_result. simpl. rewrite !GoM_mret_bind.
  case_decide as Hm; [|case_decide as Hh].
  1: destruct (until_next_run now Minute w2) as (z & w3 & E & Hu).
  2: destruct (until_next_run now Hour w2) as (z & w3 & E & Hu).
  1, 2: rewrite (GoM_bind_ret _ _ _ _ _ E); do 4 eexists; (split; [done|]);
    destruct (Hst w3 Hu) as (? & ? & ?); split_and!; try done; split; [done|lia].
  do 4 eexists; (split; [done|]); destruct (Hst w2 eq_refl) as (? & ? & ?).
  split_and!; try done. split; [lia|done].
Qed.

(** C28: requests of one tenant never move the counters of another: after a
    call for [t1], the minute and hour counters of every window of every other
    tenant are what they were, whatever characters the tenant names contain. *)
Theorem Allow_isolates_tenants rl t1 t2 (w : W) n :
  t1 <> t2 ->
  exists r w', Allow rl t1 w = (Ret r, w') /\
    redis_store w' !! minuteWindow t2 n = redis_store w !! minuteWindow t2 n /\
    redis_store w' !! hourWindow t2 n = redis_store w !! hourWindow t2 n.
Proof.
  intros Hne. destruct (Allow_spec rl t1 w) as (a & rem & err & w' & E & Hk & _).
  exists (a, rem, err), w'. split; [done|].
  split; apply Hk; try apply minute_hour_ne; try (symmetry; apply minute_hour_ne);
    [intros [? _]%minuteWindow_inj|intros [? _]%hourWindow_inj]; congruence.
Qed.

(** ** Requests of one tenant in one minute *)

(** [minute_run rl t m w n a w']: from [w], [n] calls for tenant [t] in the
    minute [m], of which [a] are allowed, lead to [w'].  Between the calls
    anything may happen that does not lower the counter of that minute, whose key
    lives for two minutes: calls of any tenant, expiry of other keys. *)
Inductive minute_run (rl : RateLimiter) (t : string) (m : Z) : W -> Z -> Z -> W -> Prop :=
| run_start w : minute_run rl t m w 0 0 w
| run_call w w1 w2 n a (allowed : bool) rem err :
    minute_run rl t m w n a w1 ->
    Z.quot ((clock_now w1).1 / Second) 60 = m ->
    Allow rl t w1 = (Ret (allowed, rem, err), w2) ->
    minute_run rl t m w (n + 1) (if allowed then a + 1 else a) w2
| run_env w w1 w2 n a :
    minute_run rl t m w n a w1 ->
    counter (redis_store w1) (minuteWindow t (60 * m)) <=
      counter (redis_store w2) (minuteWindow t (60 * m)) ->
    minute_run rl t m w n a w2.

Lemma minuteWindow_quot t n m : Z.quot n 60 = m -> minuteWindow t n = minuteWindow t (60 * m).
Proof.
  intros <-. unfold minuteWindow. rewrite (Z.mul_comm 60), Z.quot_mul by done. done.
Qed.

(** The counter of the minute after the run: it has grown by at least the
    number of allowed requests, all of which fell within the limit. *)
Lemma minute_run_counter rl t m w n a w' :
  minute_run rl t m w n a w' ->
  let c0 := counter (redis_store w) (minuteWindow t (60 * m)) in
  let c := counter (redis_store w') (minuteWindow t (60 * m)) in
  0 <= a <= n /\ c0 + a <= c /\ (0 < a -> c0 + a <= perMinuteLimit rl).
Proof.
  intros Hrun. induction Hrun as
    [w|w w1 w2 n a allowed rem err Hrun IH Hmin HA|w w1 w2 n a Hrun IH Hk]; simpl in *.
  - lia.
  - destruct (Allow_spec rl t w1) as (al & rem' & err' & w' & E & _ & Hs).
    rewrite HA in E. simplify_eq. rewrite (minuteWindow_quot t _ _ eq_refl) in Hs.
    destruct err' as [e|]; [destruct Hs as [-> Hs]; lia|].
    destruct Hs as (Hs & _ & Hal). unfold counter at 2. rewrite Hs. simpl.
    destruct al; [|lia]. destruct Hal as [Hal _]. specialize (Hal eq_refl). lia.
  - lia.
Qed.

(** [minute_history rl t m w a r w']: runs in which [a] calls in all are allowed, with
    [r] events between them that may lower the counter or remove its key, as
    [ResetTenantLimit] does. *)
Inductive minute_history (rl : RateLimiter) (t : string) (m : Z) : W -> Z -> Z -> W -> Prop :=
| history_run w n a w' : minute_run rl t m w n a w' -> minute_history rl t m w a 0 w'
| history_reset w a r w1 w2 n a2 w3 :
    minute_history rl t m w a r w1 ->
    0 <= counter (redis_store w2) (minuteWindow t (60 * m)) ->
    minute_run rl t m w2 n a2 w3 ->
    minute_history rl t m w (a + a2) (r + 1) w3.

(** C10: within one clock minute a tenant is allowed at most [perMinuteLimit]
    requests, counting those already made in that minute, and at most that many again
    after each event that lowers its counter, such as a [ResetTenantLimit], however
    many it sends and whatever else happens in between: calls of other tenants, of
    other instances of the gateway, and everything else that does not lower it. *)
Theorem minute_limit_enforced rl t m w a r w' :
  minute_history rl t m w a r w' ->
  0 <= r /\
  0 <= a <= Z.max 0 (perMinuteLimit rl - counter (redis_store w) (minuteWindow t (60 * m))) +
    r * Z.max 0 (perMinuteLimit rl).
Proof.
  induction 1 as [w n a w' H%minute_run_counter|w a r w1 w2 n a2 w3 _ IH H2 H%minute_run_counter];
    simpl in H; [lia|nia].
Qed.
End Facts.

(** ** A Redis server in memory *)

Section MemRedis.
Record MemRedis := { mr_time : Z; mr_store : gmap string Z }.

Definition mr_set (m : gmap string Z) (w : MemRedis) : MemRedis :=
  {| mr_time := mr_time w; mr_store := m |}.
Definition mr_at (t : Z) (w : MemRedis) : MemRedis := {| mr_time := t; mr_store := mr_store w |}.

#[local] Instance mr_clock : Clock MemRedis := fun w => (mr_time w, w).

#[local] Instance mr_redis : Redis MemRedis := {
  redis_exec cs w := let '(rs, m) := redis_run (mr_store w) cs in (inr rs, mr_set m w);
  redis_scan _ _ _ w := (inr ((map_to_list (mr_store w)).*1, 0), w);
  redis_del ks w := (None, mr_set (foldr delete (mr_store w) ks) w)
}.

#[local] Program Instance mr_laws : RedisLaws MemRedis := { redis_store := mr_store }.
Next Obligation.
  simpl. intros cs w rs w'. destruct (redis_run (mr_store w) cs). by intros [= <- <-].
Qed.
Next Obligation. simpl. intros cs w e w'. by destruct (redis_run (mr_store w) cs). Qed.
Next Obligation. done. Qed.

(** [n] calls that must all be allowed. *)
Fixpoint allow_all (rl : RateLimiter) (t : string) (n : nat) (w : MemRedis) : option MemRedis :=
  match n with
  | O => Some w
  | S n' =>
      match allow_all rl t n' w with
      | Some w1 =>
          match Allow rl t w1 with
          | (Ret (true, _, _), w2) => if decide (mr_time w2 = mr_time w1) then Some w2 else None
          | _ => None
          end
      | None => None
      end
  end.

Lemma allow_all_run rl t n w w' :
  allow_all rl t n w = Some w' ->
  mr_time w' = mr_time w /\
  minute_run rl t (Z.quot (mr_time w / Second) 60) w (Z.of_nat n) (Z.of_nat n) w'.
Proof.
  revert w'. induction n as [|n IH]; simpl allow_all; intros w'.
  { intros [= <-]. split; [done|constructor]. }
  destruct (allow_all rl t n w) as [w1|]; [|done]. destruct (IH w1 eq_refl) as [Ht Hrun].
  destruct (Allow rl t w1) as [[[[[] rem] err]|e] w2] eqn:E; try done.
  case_decide as Ht2; [|done]. intros [= <-]. split; [congruence|].
  rewrite Nat2Z.inj_succ, <- Z.add_1_r.
  eapply (run_call rl t _ w w1 w2 _ _ true); eauto. simpl. by rewrite Ht.
Qed.

Definition mr_start : MemRedis := {| mr_time := 59 * Second; mr_store := ∅ |}.

(** The windows are fixed, not sliding: with the default limit of 100
    requests per minute, a tenant can have 200 requests admitted within one
    second, 100 in the last second of a minute and 100 in the first of the
    next. *)
Theorem window_boundary_burst :
  exists w1 w2,
    minute_run NewRateLimiter "acme" 0 mr_start 100 100 w1 /\ mr_time w1 = 59 * Second /\
    minute_run NewRateLimiter "acme" 1 (mr_at (60 * Second) w1) 100 100 w2 /\
    mr_time w2 = 60 * Second.
Proof.
  destruct (allow_all NewRateLimiter "acme" 100 mr_start) as [w1|] eqn:E1;
    [|by vm_compute in E1].
  destruct (allow_all NewRateLimiter "acme" 100 (mr_at (60 * Second) w1)) as [w2|] eqn:E2.
  - apply allow_all_run in E1 as [Ht1 R1]. apply allow_all_run in E2 as [Ht2 R2].
    by exists w1, w2.
  - exfalso. vm_compute in E1. injection E1 as <-. by vm_compute in E2.
Qed.

Lemma Allow_isolates_tenants_witness :
  exists r w', Allow NewRateLimiter "a" mr_start = (Ret r, w') /\
    redis_store w' !! minuteWindow "b" 59 = redis_store mr_start !! minuteWindow "b" 59.
Proof.
  destruct (Allow_isolates_tenants NewRateLimiter "a" "b" mr_start 59)
    as (r & w' & E & Hm & _); [done|]. by exists r, w'.
Defined.

(** A call, a reset of the tenant's limits, and another call. *)
Definition one_call : RateLimiter := {| perMinuteLimit := 1; perHourLimit := 1000 |}.
Definition mr_called : MemRedis := (Allow one_call "acme" mr_start).2.
Definition mr_reset : MemRedis := (ResetTenantLimit 1 "acme" mr_called).2.
Definition mr_again : MemRedis := (Allow one_call "acme" mr_reset).2.

Lemma minute_limit_enforced_witness :
  minute_history one_call "acme" 0 mr_start 2 1 mr_again /\
  0 <= 2 <= Z.max 0 (1 - counter (redis_store mr_start) (minuteWindow "acme" (60 * 0))) + 1 * Z.max 0 1.
Proof.
  assert (minute_history one_call "acme" 0 mr_start 2 1 mr_again) as Hrun.
  { apply (history_reset one_call "acme" 0 mr_start 1 0 mr_called mr_reset 1 1 mr_again).
    - apply (history_run _ _ _ _ 1).
      apply (run_call one_call "acme" 0 mr_start mr_start _ 0 0 true 0 None);
        [constructor|reflexivity|vm_compute; reflexivity].
    - vm_compute. discriminate.
    - apply (run_call one_call "acme" 0 mr_reset mr_reset _ 0 0 true 0 None);
        [constructor|reflexivity|vm_compute; reflexivity]. }
  split; [exact Hrun|].
  exact (proj2 (minute_limit_enforced one_call "acme" 0 mr_start 2 1 mr_again Hrun)).
Defined.
End MemRedis.
