(* ===== verification/RateReset.v ===== *)
(** * Resetting a tenant's limits: [ResetTenantLimit] of [pkg/auth/ratelimiter.go]

    The loop follows Redis' scan cursor until it is 0 again.  [ScanLaws] states
    what Redis documents of SCAN: a full iteration ends, every key that is there
    throughout is returned, and only keys that match the pattern are.  The loop
    then ends after as many rounds as the iteration has, and what it deletes are
    exactly the keys of the pattern: those of the tenant, but also those of
    tenants whose names end in a colon and the tenant's name. *)

From Stdlib Require Import Ascii.
From S2P Require Import Prelude GoStrings GoTime Kube RateLimiter.

(** Characters that a Redis pattern reads as themselves. *)
Definition literal_char (a : ascii) : bool :=
  negb (bool_decide (a ∈ ["*"; "?"; "["; "]"; "\"; "^"]%char)).
Definition literal (s : string) : bool := str_forall literal_char s.

Definition reset_pattern (t : string) : string := "ratelimit:*:" +:+ t +:+ ":*".

Class ScanLaws (W : Type) `{!Redis W, !Clock W, !RedisLaws W} := {
  glob : string -> string -> bool;
  (** a star stands for any string, a literal for itself *)
  glob_reset t k : literal t = true ->
    glob (reset_pattern t) k = true <-> exists a b, k = "ratelimit:" +:+ a +:+ ":" +:+ t +:+ ":" +:+ b;
  (** the rounds an iteration still has, and the keys it will still return *)
  rounds : Z -> W -> nat;
  ahead : Z -> string -> W -> Prop;
  ahead_start k w : ahead 0 k w;
  scan_spec cursor pattern n w keys next w' :
    redis_scan cursor pattern n w = (inr (keys, next), w') ->
    redis_store w' = redis_store w /\
    (forall k, k ∈ keys -> glob pattern k = true) /\
    (next <> 0 -> (rounds next w' < rounds cursor w)%nat) /\
    forall k, is_Some (redis_store w !! k) -> glob pattern k = true -> ahead cursor k w ->
      k ∈ keys \/ next <> 0 /\ ahead next k w';
  scan_error cursor pattern n w e w' :
    redis_scan cursor pattern n w = (inl e, w') -> redis_store w' = redis_store w;
  (** DEL is carried out, or the error leaves some of the keys *)
  del_spec keys w e w' :
    redis_del keys w = (e, w') ->
    (forall k, k ∉ keys -> redis_store w' !! k = redis_store w !! k) /\
    (e = None -> forall k, k ∈ keys -> redis_store w' !! k = None) /\
    (forall c, (rounds c w' <= rounds c w)%nat) /\
    (forall c k, ahead c k w -> ahead c k w')
}.

Section Reset.
Context {W : Type} `{!Redis W, !Clock W, !RedisLaws W, SL : !ScanLaws W}.

(** The deletion of one round, which is skipped without keys. *)
Lemma round_delete keys (w : W) :
  exists d w', (if decide (keys <> []) then lift (redis_del keys) else mret None) w = (Ret d, w') /\
    (forall k, k ∉ keys -> redis_store w' !! k = redis_store w !! k) /\
    (d = None -> forall k, k ∈ keys -> redis_store w' !! k = None) /\
    (forall c, (rounds c w' <= rounds c w)%nat) /\ (forall c k, ahead c k w -> ahead c k w').
Proof.
  case_decide as Hk.
  - unfold lift. destruct (redis_del keys w) as [d w'] eqn:E. exists d, w'. split; [done|].
    by apply del_spec in E.
  - exists None, w. assert (keys = []) as -> by (by destruct keys; [|destruct Hk]).
    split_and!; try done. intros _ k Hk'. by apply not_elem_of_nil in Hk'.
Qed.

Definition pattern_only (pattern : string) (w w' : W) : Prop :=
  forall k, glob pattern k = false -> redis_store w' !! k = redis_store w !! k.

(** What the loop has left from a cursor on. *)
Lemma reset_loop_ends pattern fuel cursor (w : W) :
  (rounds cursor w < fuel)%nat ->
  (forall k, is_Some (redis_store w !! k) -> glob pattern k = true -> ahead cursor k w) ->
  exists r w', (forall more, reset_loop (fuel + more) cursor pattern w = (Ret (Some r), w')) /\
    pattern_only pattern w w' /\
    (r = None -> forall k, glob pattern k = true -> redis_store w' !! k = None).
Proof.
  revert cursor w. induction fuel as [|fuel IH]; intros cursor w Hf Hah; [lia|].
  cbn [Nat.add reset_loop].
  destruct (redis_scan cursor pattern 100 w) as [[e|[keys next]] w1] eqn:Es.
  { exists (Some (RedisFailure e)), w1. split; [|split; [|done]].
    - intros more. rewrite lift_bind, Es. done.
    - intros k _. by rewrite (scan_error _ _ _ _ _ _ Es). }
  destruct (scan_spec _ _ _ _ _ _ _ Es) as (Hst & Hglob & Hrank & Hcover).
  destruct (round_delete keys w1) as (d & w2 & Ed & Hoth & Hgone & Hr2 & Ha2).
  assert (pattern_only pattern w w2) as Hpo.
  { intros k Hk. rewrite Hoth, Hst; [done|]. intros Hin%Hglob. congruence. }
  destruct d as [e|].
  { exists (Some (RedisFailure e)), w2. split; [|split; [done|done]].
    intros more. rewrite lift_bind, Es, (GoM_bind_ret _ _ _ _ _ Ed). done. }
  destruct (decide (next = 0)) as [->|Hnext].
  { exists None, w2. split; [|split; [done|]].
    - intros more. rewrite lift_bind, Es, (GoM_bind_ret _ _ _ _ _ Ed). by rewrite decide_True.
    - intros _ k Hk. destruct (decide (k ∈ keys)) as [Hin|Hin]; [by apply Hgone|].
      rewrite Hoth, Hst by done. destruct (redis_store w !! k) as [z|] eqn:Ez; [|done].
      destruct (Hcover k) as [?|[? _]]; [by rewrite Ez|done|apply Hah; [by rewrite Ez|done]|done|done]. }
  destruct (IH next w2) as (r & w3 & E3 & Hpo3 & Hdone).
  - specialize (Hr2 next). specialize (Hrank Hnext). lia.
  - intros k [z Hz] Hk. apply Ha2.
    assert (k ∉ keys) as Hin by (intros Hin; by rewrite (Hgone eq_refl k Hin) in Hz).
    rewrite Hoth, Hst in Hz by done.
    destruct (Hcover k) as [?|[_ ?]]; [by rewrite Hz|done|apply Hah; [by rewrite Hz|done]|done|done].
  - exists r, w3. split; [|split; [|done]].
    + intros more. rewrite lift_bind, Es, (GoM_bind_ret _ _ _ _ _ Ed). by rewrite decide_False.
    + intros k Hk. by rewrite Hpo3, Hpo.
Qed.

Lemma ResetTenantLimit_ends tenant (w : W) :
  exists fuel r w', (forall more, ResetTenantLimit (fuel + more) tenant w = (Ret (Some r), w')) /\
    pattern_only (reset_pattern tenant) w w' /\
    (r = None -> forall k, glob (reset_pattern tenant) k = true -> redis_store w' !! k = None).
Proof.
  exists (S (rounds 0 w)). apply reset_loop_ends; [lia|]. intros. apply ahead_start.
Qed.

Lemma window_matches t n :
  literal t = true ->
  glob (reset_pattern t) (minuteWindow t n) = true /\ glob (reset_pattern t) (hourWindow t n) = true.
Proof.
  intros Ht. split; apply (glob_reset t); try done.
  - exists "minute", (pretty (Z.quot n 60)). done.
  - exists "hour", (pretty (Z.quot n 3600)). done.
Qed.

(** C18: ResetTenantLimit ends: however the keys are spread over the rounds of Redis'
    scan, enough fuel gives a result that more fuel does not change.  No reset touches
    a key outside its pattern, and one that reports no error has removed every key that
    matches it: when the tenant's name has none of the characters that are special in
    a Redis pattern, every minute and hour counter of the tenant. *)
Theorem ResetTenantLimit_terminates (tenant : string) (w : W) :
  exists fuel r w', (forall more, ResetTenantLimit (fuel + more) tenant w = (Ret (Some r), w')) /\
    pattern_only (reset_pattern tenant) w w' /\
    (r = None -> (forall k, glob (reset_pattern tenant) k = true -> redis_store w' !! k = None) /\
       (literal tenant = true -> forall n, redis_store w' !! minuteWindow tenant n = None /\
                                           redis_store w' !! hourWindow tenant n = None)).
Proof.
  destruct (ResetTenantLimit_ends tenant w) as (fuel & r & w' & E & Hpo & Hdone).
  exists fuel, r, w'. split_and!; [done|done|]. intros Hr. split; [by apply Hdone|]. intros Ht n.
  destruct (window_matches tenant n Ht). split; by apply Hdone.
Qed.

(** The star also matches colons: a reset of one tenant removes the counters of
    every tenant whose name is some prefix, a colon, and that tenant's name. *)
Theorem reset_hits_other_tenants (tenant prefix : string) (fuel : nat) (w w' : W) (n : Z) :
  literal tenant = true ->
  ResetTenantLimit fuel tenant w = (Ret (Some None), w') ->
  redis_store w' !! minuteWindow (prefix +:+ ":" +:+ tenant) n = None.
Proof.
  intros Ht E. destruct (ResetTenantLimit_ends tenant w) as (fuel0 & r & w0 & E0 & _ & Hdone).
  assert (forall f more c p v x v', reset_loop f c p v = (Ret (Some x), v') ->
    reset_loop (f + more) c p v = (Ret (Some x), v')) as Hmono.
  { clear. induction f as [|f IH]; intros more c p v x v'; [done|]. cbn [Nat.add reset_loop].
    rewrite !lift_bind. destruct (redis_scan c p 100 v) as [[e|[keys next]] v1]; [done|].
    unfold mbind, GoM_bind. destruct (_ v1) as [[[e|]|e] v2]; try done. case_decide; [done|]. apply IH. }
  apply (Hmono _ fuel0) in E. specialize (E0 fuel). unfold ResetTenantLimit in E0.
  rewrite Nat.add_comm, E0 in E. simplify_eq. apply Hdone; [done|]. apply glob_reset; [done|].
  exists ("minute:" +:+ prefix), (pretty (Z.quot n 60)). unfold minuteWindow.
  rewrite !append_assoc. done.
Qed.
End Reset.

(** ** A server in memory that scans in one round *)

Module ScanRedis.
(** Patterns with stars only. *)
Fixpoint star_match (p s : string) : bool :=
  match p with
  | EmptyString => match s with EmptyString => true | _ => false end
  | String "*" p' =>
      (fix any (s : string) : bool :=
         star_match p' s || match s with EmptyString => false | String _ s' => any s' end) s
  | String c p' => match s with String a s' => bool_decide (a = c) && star_match p' s' | _ => false end
  end.

Lemma star_match_star p s :
  star_match (String "*" p) s = true <-> exists a s', s = a +:+ s' /\ star_match p s' = true.
Proof.
  induction s as [|c s IH].
  - change (star_match p "" || false = true <-> exists a s', "" = a +:+ s' /\ star_match p s' = true).
    rewrite orb_false_r. split; [by exists "", ""|]. intros (a & s' & E & H).
    destruct a; [|done]. by rewrite append_nil_l in E; subst.
  - change (star_match p (String c s) || star_match (String "*" p) s = true <->
      exists a s', String c s = a +:+ s' /\ star_match p s' = true).
    rewrite orb_true_iff, IH. split.
    + intros [H|(a & s' & -> & H)]; [by exists "", (String c s)|]. by exists (String c a), s'.
    + intros (a & s' & E & H). destruct a as [|c' a]; [left; by rewrite append_nil_l in E; subst|].
      right. injection E as -> ->. by exists a, s'.
Qed.

Lemma star_match_literal l p s :
  literal l = true ->
  star_match (l +:+ p) s = true <-> exists s', s = l +:+ s' /\ star_match p s' = true.
Proof.
  revert s. induction l as [|c l IH]; intros s Hl.
  { split; [by exists s|]. by intros (s' & -> & ?). }
  unfold literal in Hl. simpl in Hl. apply andb_true_iff in Hl as [Hc Hl].
  assert (c <> "*"%char) as Hne by (intros ->; done).
  assert (star_match (String c l +:+ p) s =
    match s with String a s' => bool_decide (a = c) && star_match (l +:+ p) s' | _ => false end) as ->.
  { rewrite append_cons. destruct c as [[] [] [] [] [] [] [] []]; try reflexivity. by destruct Hne. }
  destruct s as [|a s].
  - split; [done|]. by intros (s' & E & _).
  - rewrite andb_true_iff, bool_decide_eq_true, (IH s Hl). split.
    + intros [-> (s' & -> & H)]. by exists s'.
    + intros (s' & E & H). injection E as -> ->. split; [done|]. by exists s'.
Qed.

Record Server := { sv_store : gmap string Z }.

#[export] Instance clock : Clock Server := fun w => (0, w).
#[export] Instance redis : Redis Server := {
  redis_exec cs w := let '(rs, m) := redis_run (sv_store w) cs in (inr rs, {| sv_store := m |});
  redis_scan _ pattern _ w :=
    (inr (filter (fun k => star_match pattern k = true) (map_to_list (sv_store w)).*1, 0), w);
  redis_del ks w := (None, {| sv_store := filter (fun kv => kv.1 ∉ ks) (sv_store w) |})
}.
#[export] Instance laws : RedisLaws Server.
Proof.
  unshelve econstructor; [exact sv_store|..]; simpl.
  - intros cs w rs w'. destruct (redis_run (sv_store w) cs). by intros [= <- <-].
  - intros cs w e w'. by destruct (redis_run (sv_store w) cs).
  - done.
Defined.

#[export] Instance scan_laws : ScanLaws Server.
Proof.
  unshelve econstructor; [exact star_match|exact (fun _ _ => O)|exact (fun _ _ _ => True)|..]; simpl.
  - intros t k Ht. unfold reset_pattern.
    etransitivity; [exact (star_match_literal "ratelimit:" (String "*" (":" +:+ (t +:+ ":*"))) k eq_refl)|].
    split.
    + intros (s1 & -> & (a & s2 & -> & (s3 & -> & (s4 & -> & (s5 & -> & (b & s6 & -> & H)%star_match_star)%(star_match_literal ":" "*"))%star_match_literal)%star_match_literal)%star_match_star); try done.
      destruct s6; [|done]. rewrite append_nil_r. by exists a, b.
    + intros (a & b & ->). eexists. split; [done|]. apply star_match_star. eexists a, _. split; [done|].
      apply star_match_literal; [done|]. eexists. split; [done|].
      apply star_match_literal; [done|]. eexists. split; [done|].
      apply (star_match_literal ":" "*"); [done|]. eexists. split; [done|].
      apply star_match_star. exists b, "". by rewrite append_nil_r.
  - done.
  - intros cursor pattern n w keys next w' [= <- <- <-]. split_and!; [done| |done|].
    + intros k [Hk _]%list_elem_of_filter. done.
    + intros k [z Hz] Hk _. left. apply list_elem_of_filter. split; [done|].
      apply list_elem_of_fmap. exists (k, z). split; [done|]. by apply elem_of_map_to_list.
  - done.
  - intros keys w e w' [= <- <-]. split_and!; simpl; try done.
    + intros k Hk. rewrite map_lookup_filter. destruct (sv_store w !! k); simpl; [|done].
      by rewrite option_guard_True.
    + intros _ k Hk. rewrite map_lookup_filter. destruct (sv_store w !! k); simpl; [|done].
      by rewrite option_guard_False by (intros Hn; by apply Hn).
Defined.

(** Counters of the tenants a and x:a, and of b. *)
Definition used : Server :=
  {| sv_store := {[ minuteWindow "a" 60 := 7; hourWindow "a" 60 := 9; minuteWindow "x:a" 60 := 3;
                    minuteWindow "b" 60 := 5 ]} |}.
End ScanRedis.

Section Witnesses.
Import ScanRedis.

Lemma ResetTenantLimit_terminates_witness :
  literal "a" = true /\ is_Some (redis_store used !! minuteWindow "a" 60) /\
  exists fuel r w', (forall more, ResetTenantLimit (fuel + more) "a" used = (Ret (Some r), w')) /\
    pattern_only (reset_pattern "a") used w' /\
    (r = None -> forall n, redis_store w' !! minuteWindow "a" n = None /\
                           redis_store w' !! hourWindow "a" n = None).
Proof.
  split; [reflexivity|]. split; [vm_compute; eauto|].
  destruct (ResetTenantLimit_terminates "a" used) as (fuel & r & w' & E & Hpo & Hr).
  exists fuel, r, w'. split; [exact E|]. split; [exact Hpo|].
  intros Hn. exact (proj2 (Hr Hn) eq_refl).
Defined.

Example reset_example :
  let m := sv_store (ResetTenantLimit 1 "a" used).2 in
  m !! minuteWindow "a" 60 = None /\ m !! minuteWindow "x:a" 60 = None /\
  m !! minuteWindow "b" 60 = Some 5.
Proof. by vm_compute. Qed.
End Witnesses.
