(* ===== verification/TaskHandler.v ===== *)
(** * The task endpoints of the API gateway

    Models [pkg/api/handlers/task_handler.go]: the five handlers whole, with the
    status codes they write and the calls they make to the API server.  The JSON
    decoder and [metav1.Time.String] are library code ([GatewayLib]); log lines
    are not modelled.  [convertCloudTaskToResponse] passes the stored resources to
    [convertResourceRequirements], whose types go the other way and which the Go
    compiler rejects; the conversion it needs is a parameter.  [writeError]
    evaluates [err.Error()] also when it is given a nil error, which panics after
    the status line is written. *)

From Stdlib Require Import Ascii.
From S2P Require Import Prelude GoStrings Kube CloudTaskApi CloudTaskController Validators Http Auth.

Class GatewayLib := {
  unmarshal_create : string -> string + CreateCloudTaskRequest;
  time_String : Z -> string;
  (** the conversion of stored resources into a response: the code passes them to
      [convertResourceRequirements], which goes the other way, so there is no such
      function in the repository *)
  responseResources : ResourceRequirements -> ResourceRequirementsReq
}.

(** ** Responses *)

Record CloudTaskResponse := {
  resp_Name : string;
  resp_Namespace : string;
  resp_Phase : string;
  resp_PodName : string;
  resp_Message : string;
  resp_RetryCount : Z;
  resp_CreatedAt : string;
  resp_CompletedAt : string;
  resp_Spec : CreateCloudTaskRequest
}.

(** [ComponentStatus] of [health_handler.go]. *)
Record ComponentStatus := {
  comp_Name : string;
  comp_Status : string;
  comp_Message : string;
  comp_Latency : Z
}.

(** What is handed to the JSON encoder, or printed. *)
Inductive body : Type :=
| BError (error : string) (status : Z) (detail : string)
| BFields (error : string) (status : Z) (fields : list (string * string))
| BTask (r : CloudTaskResponse)
| BTaskList (items : list CloudTaskResponse) (count total limit offset : Z)
| BLogs (taskID logs status : string) (podName : option string)
| BHealth (status timestamp : string) (components : list ComponentStatus)
| BStatus (error : string) (status : Z)
| BText (s : string).

Section Handlers.
Context {K : K8sTypes} {G : GatewayLib} {W : Type} `{!Client W CloudTask}.

Abbreviation H := (GoM (HState (W := W) (B := body))).

(** ** Response helpers *)

Definition writeJSON (statusCode : Z) (data : body) : H unit :=
  _ ← set_header "Content-Type" "application/json";
  _ ← write_header statusCode;
  write_body data.

Definition writeError (statusCode : Z) (message : string) (err : option string) : H unit :=
  _ ← set_header "Content-Type" "application/json";
  _ ← write_header statusCode;
  match err with
  | Some e => write_body (BError message statusCode e)
  | None => go_panic "invalid memory address or nil pointer dereference"
  end.

Definition writeValidationErrors (statusCode : Z) (errors : list ValidationError) : H unit :=
  _ ← set_header "Content-Type" "application/json";
  _ ← write_header statusCode;
  write_body (BFields "Validation failed" statusCode
                ((fun e => (ve_Field e, ve_Message e)) <$> errors)).

(** ** Conversions *)

Definition convert_list (l : ResourceListReq) : ResourceList :=
  {| rl_CPU := rlq_CPU l; rl_Memory := rlq_Memory l |}.
Definition convertResourceRequirements (r : ResourceRequirementsReq) : ResourceRequirements :=
  {| res_Requests := convert_list <$> rrq_Requests r;
     res_Limits := convert_list <$> rrq_Limits r |}.

Definition convertCloudTaskToResponse (t : CloudTask) : CloudTaskResponse :=
  {| resp_Name := task_Name t;
     resp_Namespace := task_Namespace t;
     resp_Phase := st_Phase (task_Status t);
     resp_PodName := st_PodName (task_Status t);
     resp_Message := st_Message (task_Status t);
     resp_RetryCount := st_RetryCount (task_Status t);
     resp_CreatedAt := time_String (om_CreationTimestamp (task_Meta t));
     resp_CompletedAt :=
       match st_CompletionTime (task_Status t) with Some c => time_String c | None => "" end;
     resp_Spec := {|
       req_Name := task_Name t;
       req_Image := spec_Image (task_Spec t);
       req_Command := spec_Command (task_Spec t);
       req_Args := spec_Args (task_Spec t);
       req_TenantID := spec_TenantID (task_Spec t);
       req_Resources := responseResources <$> spec_Resources (task_Spec t);
       req_Retries := spec_Retries (task_Spec t);
       req_Timeout := spec_Timeout (task_Spec t);
       req_Priority := spec_Priority (task_Spec t) |} |}.

(** [randString]: the letters in order, repeated. *)
Fixpoint rand_from (i n : nat) : string :=
  match n with
  | O => ""
  | S n' => match String.get (i mod 16) "abcdef0123456789" with
            | Some c => String c (rand_from (S i) n')
            | None => ""
            end
  end.
Definition randString (n : nat) : string := rand_from 0 n.

Definition tenant_namespace (tenantID : string) : string := "tenant-" +:+ tenantID.

(** ** [CreateTask] *)

Definition taskID_of (req : CreateCloudTaskRequest) : string :=
  if decide (req_Name req = "") then "task-" +:+ randString 8 else req_Name req.

(** The object built from a request. *)
Definition task_of_request (tenantID taskID : string) (req : CreateCloudTaskRequest) : CloudTask :=
  {| task_Meta := new_meta taskID (tenant_namespace tenantID)
                    {[ "tenantID" := tenantID; "app" := "cloudtask" ]} ∅;
     task_Spec := {|
       spec_Image := req_Image req; spec_Command := req_Command req; spec_Args := req_Args req;
       spec_Resources := convertResourceRequirements <$> req_Resources req;
       spec_Retries := req_Retries req; spec_Timeout := req_Timeout req;
       spec_TenantID := tenantID; spec_Priority := req_Priority req;
       spec_Env := []; spec_VolumeMounts := []; spec_Labels := ∅; spec_Annotations := ∅ |};
     task_Status := emptyStatus |}.

Definition CreateTask : Handler (W := W) (B := body) := fun r =>
  match GetTenantIDFromContext (rq_Ctx r) with
  | inl err => writeError StatusUnauthorized "Tenant ID not found in token" (Some err)
  | inr tenantID =>
      match rq_Body r with
      | inl err => writeError StatusBadRequest "Failed to read request body" (Some err)
      | inr content =>
          match unmarshal_create content with
          | inl err => writeError StatusBadRequest "Invalid JSON format" (Some err)
          | inr req =>
              let validationErrors := ValidateCreateTaskRequest req in
              if decide (validationErrors <> []) then
                writeValidationErrors StatusBadRequest validationErrors
              else if decide (req_TenantID req <> tenantID) then
                writeError StatusForbidden
                  "Tenant ID mismatch: cannot create tasks for other tenants" None
              else
                let taskID := taskID_of req in
                match ValidateTaskID taskID with
                | Some err => writeError StatusBadRequest "Invalid task name" (Some err)
                | None =>
                    c ← on_world (lift (c_create (task_of_request tenantID taskID req)));
                    match c with
                    | inl AlreadyExists =>
                        writeError StatusConflict "Task with this name already exists" None
                    | inl err =>
                        writeError StatusInternalServerError "Failed to create task"
                          (Some (err_text err))
                    | inr t => writeJSON StatusCreated (BTask (convertCloudTaskToResponse t))
                    end
                end
          end
      end
  end.

(** ** [ListTasks] *)

Definition list_limit (limitStr : string) : Z :=
  if decide (limitStr <> "") then
    match atoi limitStr with
    | Some l => if decide (l > 0) then (if decide (l > 500) then 500 else l) else 50
    | None => 50
    end
  else 50.

Definition list_offset (offsetStr : string) : Z :=
  if decide (offsetStr <> "") then
    match atoi offsetStr with
    | Some o => if decide (o >= 0) then o else 0
    | None => 0
    end
  else 0.

(** [tasks[lo:hi]] *)
Definition go_slice {A} (lo hi : Z) (l : list A) : outcome (list A) :=
  if decide (0 <= lo <= hi /\ hi <= Z.of_nat (length l))
  then Ret (take (Z.to_nat (hi - lo)) (drop (Z.to_nat lo) l))
  else Panic "slice bounds out of range".

Definition paginate {A} (offset limit : Z) (tasks : list A) : outcome (list A) :=
  let total := Z.of_nat (length tasks) in
  if decide (offset > total) then Ret []
  else if decide (int64 (offset + limit) > total) then go_slice offset total tasks
  else go_slice offset (int64 (offset + limit)) tasks.

Definition ListTasks : Handler (W := W) (B := body) := fun r =>
  match GetTenantIDFromContext (rq_Ctx r) with
  | inl err => writeError StatusUnauthorized "Tenant ID not found in token" (Some err)
  | inr tenantID =>
      let status := query_get r "status" in
      match (if decide (status <> "") then ValidateStatus status else None) with
      | Some err => writeError StatusBadRequest "Invalid status parameter" (Some err)
      | None =>
          let limit := list_limit (query_get r "limit") in
          let offset := list_offset (query_get r "offset") in
          l ← on_world (lift (c_list (T := CloudTask) (tenant_namespace tenantID) ∅
                                (Some (int64 (limit + offset)))));
          match l with
          | inl err =>
              writeError StatusInternalServerError "Failed to list tasks" (Some (err_text err))
          | inr items =>
              let tasks :=
                if decide (status <> "")
                then filter (fun t => st_Phase (task_Status t) = status) items else items in
              match paginate offset limit tasks with
              | Panic e => go_panic e
              | Ret page =>
                  writeJSON StatusOK
                    (BTaskList (convertCloudTaskToResponse <$> page) (Z.of_nat (length page))
                       (Z.of_nat (length tasks)) limit offset)
              end
          end
      end
  end.

(** ** [GetTask], [DeleteTask], [GetTaskLogs] *)

(** [strings.Split(strings.TrimPrefix(path, "/v1/tasks/"), "/")] *)
Definition path_parts (path : string) : list string :=
  split "/"%char (trim_prefix "/v1/tasks/" path).
Definition path_taskID (path : string) : string := default "" (head (path_parts path)).

(** The part the three handlers share: read the task of the tenant, answer on
    errors, and go on with it. *)
Definition with_own_task (tenantID taskID failMsg denyMsg : string)
    (k : CloudTask -> H unit) : H unit :=
  g ← on_world (lift (c_get (T := CloudTask) (tenant_namespace tenantID, taskID)));
  match g with
  | inl NotFound => writeError StatusNotFound "Task not found" None
  | inl err => writeError StatusInternalServerError failMsg (Some (err_text err))
  | inr t =>
      if decide (spec_TenantID (task_Spec t) <> tenantID) then
        writeError StatusForbidden denyMsg None
      else k t
  end.

Definition GetTask : Handler (W := W) (B := body) := fun r =>
  match GetTenantIDFromContext (rq_Ctx r) with
  | inl err => writeError StatusUnauthorized "Tenant ID not found in token" (Some err)
  | inr tenantID =>
      let taskID := path_taskID (rq_Path r) in
      match ValidateTaskID taskID with
      | Some err => writeError StatusBadRequest "Invalid task ID" (Some err)
      | None =>
          with_own_task tenantID taskID "Failed to get task"
            "Cannot access tasks from other tenants"
            (fun t => writeJSON StatusOK (BTask (convertCloudTaskToResponse t)))
      end
  end.

Definition DeleteTask : Handler (W := W) (B := body) := fun r =>
  match GetTenantIDFromContext (rq_Ctx r) with
  | inl err => writeError StatusUnauthorized "Tenant ID not found in token" (Some err)
  | inr tenantID =>
      let taskID := path_taskID (rq_Path r) in
      match ValidateTaskID taskID with
      | Some err => writeError StatusBadRequest "Invalid task ID" (Some err)
      | None =>
          with_own_task tenantID taskID "Failed to delete task"
            "Cannot delete tasks from other tenants"
            (fun t =>
               d ← on_world (lift (c_delete t));
               match d with
               | None | Some NotFound => write_header StatusNoContent
               | Some err =>
                   writeError StatusInternalServerError "Failed to delete task"
                     (Some (err_text err))
               end)
      end
  end.

(** [getPodLogs] is a placeholder in the code. *)
Definition getPodLogs (namespace podName : string) : string + string :=
  inr "Pod logs would be streamed here".

Definition GetTaskLogs : Handler (W := W) (B := body) := fun r =>
  match GetTenantIDFromContext (rq_Ctx r) with
  | inl err => writeError StatusUnauthorized "Tenant ID not found in token" (Some err)
  | inr tenantID =>
      let parts := path_parts (rq_Path r) in
      if decide (length parts < 2)%nat then
        writeError StatusBadRequest "Invalid request path" None
      else
        let taskID := default "" (head parts) in
        match ValidateTaskID taskID with
        | Some err => writeError StatusBadRequest "Invalid task ID" (Some err)
        | None =>
            with_own_task tenantID taskID "Failed to get task logs"
              "Cannot access logs from other tenant tasks"
              (fun t =>
                 if decide (st_PodName (task_Status t) = "") then
                   writeJSON StatusOK
                     (BLogs taskID "Task pod not yet created" "Not Started" None)
                 else
                   match getPodLogs (tenant_namespace tenantID) (st_PodName (task_Status t)) with
                   | inl err =>
                       writeJSON StatusOK (BLogs taskID ("Unable to fetch logs: " +:+ err)
                         (st_Phase (task_Status t)) None)
                   | inr podLogs =>
                       writeJSON StatusOK (BLogs taskID podLogs (st_Phase (task_Status t))
                         (Some (st_PodName (task_Status t))))
                   end)
        end
  end.
End Handlers.
