(* ===== verification/TaskHandlerProofs.v ===== *)
(** * What the task endpoints guarantee

    Tenant isolation of all five handlers, the outcome of [CreateTask] on every
    branch, pagination, the panics of the error paths, and how the gateway's
    validation relates to the admission webhook's. *)

From Stdlib Require Import Ascii.
From S2P Require Import Prelude GoStrings GoTime Regexp Kube CloudTaskApi CloudTaskController Validators.
From S2P Require Import Http Auth TaskHandler MemKube.

Section Isolation.
Context {K : K8sTypes} {A : Admission} {G : GatewayLib} {W : Type}.
Context `{!Client W CloudTask, LT : !ClientLaws W CloudTask}.

Abbreviation tasks := (c_store (T := CloudTask)).
Abbreviation HS := (HState (W := W) (B := body)).

(** [r] is what the conversion shows of a task stored in the tenant's namespace. *)
Definition shows_task (T : gmap NamespacedName CloudTask) (tenant : string)
    (r : CloudTaskResponse) : Prop :=
  exists t, T !! (tenant_namespace tenant, resp_Name r) = Some t /\
    r = convertCloudTaskToResponse t.

(** A chunk of a response that shows only tasks stored in the tenant's namespace:
    tasks are conversions of stored ones, logs name a stored task of the tenant and
    carry the phase, the pod and the logs of that task's pod, errors carry no task. *)
Definition body_of_tenant (T : gmap NamespacedName CloudTask) (tenant : string)
    (b : body) : Prop :=
  match b with
  | BTask r => shows_task T tenant r
  | BTaskList items _ _ _ _ => Forall (shows_task T tenant) items
  | BLogs id logs status podName =>
      exists t, T !! (tenant_namespace tenant, id) = Some t /\
        spec_TenantID (task_Spec t) = tenant /\
        let pod := st_PodName (task_Status t) in
        (pod = "" /\ podName = None /\ status = "Not Started" /\
         logs = "Task pod not yet created") \/
        (pod <> "" /\ podName = Some pod /\ status = st_Phase (task_Status t) /\
         getPodLogs (tenant_namespace tenant) pod = inr logs)
  | BError _ _ _ | BFields _ _ _ => True
  | BHealth _ _ _ | BStatus _ _ | BText _ => False
  end.

(** Between two states only tasks of the tenant's namespace have changed, and
    only its tasks, as they are stored at the end, have been added to the
    response. *)
Definition confined (tenant : string) (st st' : HS) : Prop :=
  (forall k, k.1 <> tenant_namespace tenant -> tasks st'.1 !! k = tasks st.1 !! k) /\
  exists bs, rw_body st'.2 = rw_body st.2 ++ bs /\
    Forall (body_of_tenant (tasks st'.1) tenant) bs.

(** [m] calls nothing and adds only chunks with [P] to the response. *)
Definition writes_only {B} (P : body -> Prop) (m : GoM HS B) : Prop :=
  forall st, (m st).2.1 = st.1 /\
    exists bs, rw_body (m st).2.2 = rw_body st.2 ++ bs /\ Forall P bs.

Lemma writes_only_panic {B} P m : writes_only P (go_panic (A := B) m).
Proof. intros st. split; [done|]. exists []. by rewrite app_nil_r. Qed.
Lemma writes_only_bind {B C} P (m : GoM HS B) (k : B -> GoM HS C) :
  writes_only P m -> (forall b, writes_only P (k b)) -> writes_only P (m ≫= k).
Proof.
  intros Hm Hk st. destruct (Hm st) as [Hw (b1 & E1 & F1)]. unfold mbind, GoM_bind.
  destruct (m st) as [[b|e] st']; [|by split; [|exists b1]]. simpl in *.
  destruct (Hk b st') as [Hw' (b2 & E2 & F2)]. split; [congruence|].
  exists (b1 ++ b2). rewrite E2, E1, app_assoc. split; [done|]. by apply Forall_app.
Qed.
Lemma writes_only_header P c : writes_only P (write_header c).
Proof.
  intros [w r]. split; [done|]. exists []. simpl. rewrite app_nil_r. by destruct (rw_code r).
Qed.
Lemma writes_only_set_header P k v : writes_only P (set_header k v).
Proof.
  intros [w r]. split; [done|]. exists []. simpl. rewrite app_nil_r. by destruct (rw_code r).
Qed.
Lemma writes_only_body (P : body -> Prop) b : P b -> writes_only P (write_body b).
Proof. intros Hb [w r]. split; [done|]. exists [b]. split; [done|]. by constructor. Qed.

Hint Resolve writes_only_panic writes_only_bind writes_only_header writes_only_set_header
  writes_only_body : go.

Lemma writeError_writes (P : body -> Prop) c m e :
  (forall d, P (BError m c d)) -> writes_only P (writeError c m e).
Proof.
  intros HP. unfold writeError. destruct e; repeat first
    [apply writes_only_bind; [|intros []] | by auto with go].
Qed.

Lemma writeJSON_writes (P : body -> Prop) c b : P b -> writes_only P (writeJSON c b).
Proof.
  intros. unfold writeJSON. repeat first
    [apply writes_only_bind; [|intros []] | by auto with go].
Qed.

Lemma writeValidationErrors_writes (P : body -> Prop) c es :
  (forall e, P (BFields "Validation failed" c e)) -> writes_only P (writeValidationErrors c es).
Proof.
  intros HP. unfold writeValidationErrors. repeat first
    [apply writes_only_bind; [|intros []] | by auto with go].
Qed.

(** Writing only what the store allows is confined. *)
Lemma writes_confined {B} tenant (m : GoM HS B) st :
  writes_only (body_of_tenant (tasks st.1) tenant) m -> confined tenant st (m st).2.
Proof.
  intros Hm. destruct (Hm st) as [Hw (bs & E & F)]. split; [by rewrite Hw|]. exists bs.
  by rewrite Hw.
Qed.

Lemma error_confined tenant c m e st : confined tenant st (writeError c m e st).2.
Proof. apply writes_confined. by apply writeError_writes. Qed.
Lemma errors_confined tenant c es st :
  confined tenant st (writeValidationErrors c es st).2.
Proof. apply writes_confined. by apply writeValidationErrors_writes. Qed.

Lemma confined_panic {B} tenant m st : confined tenant st (go_panic (A := B) m st).2.
Proof. apply writes_confined. auto with go. Qed.

Hint Resolve error_confined errors_confined confined_panic : go.

(** A server call followed by [k], when the call only changes the tenant's
    namespace and what follows is confined. *)
Lemma call_confined {B C} tenant (op : W -> B * W) (k : B -> GoM HS C) w rw :
  (forall b w', op w = (b, w') ->
     (forall key, key.1 <> tenant_namespace tenant -> tasks w' !! key = tasks w !! key) /\
     confined tenant (w', rw) (k b (w', rw)).2) ->
  confined tenant (w, rw) ((on_world (lift op) ≫= k) (w, rw)).2.
Proof.
  intros H. rewrite on_world_bind. unfold lift. destruct (op w) as [b w'] eqn:E.
  destruct (H b w' eq_refl) as [H1 [H2 H3]]. split; [|done].
  intros key Hk. simpl. by rewrite H2, H1.
Qed.

Lemma with_own_task_confined tenant id m1 m2 k w rw :
  (forall t w', tasks w' !! (tenant_namespace tenant, id) = Some t ->
     spec_TenantID (task_Spec t) = tenant -> task_key t = (tenant_namespace tenant, id) ->
     confined tenant (w', rw) (k t (w', rw)).2) ->
  confined tenant (w, rw) (with_own_task tenant id m1 m2 k (w, rw)).2.
Proof.
  intros Hk. unfold with_own_task. apply call_confined. intros g w' E.
  apply c_get_spec in E as [Hs Hg]. split; [by rewrite Hs|].
  destruct g as [[| |]|t]; auto with go. case_decide as Ht; [auto with go|].
  apply Hk; [congruence|done|].
  exact (c_store_key (T := CloudTask) _ _ _ Hg).
Qed.

Lemma shows_stored (T : gmap NamespacedName CloudTask) tenant t :
  T !! task_key t = Some t -> task_Namespace t = tenant_namespace tenant ->
  shows_task T tenant (convertCloudTaskToResponse t).
Proof.
  intros HT Hns. exists t. split; [|done]. simpl. by rewrite <-Hns.
Qed.

Lemma CreateTask_confined tenant r w rw :
  GetTenantIDFromContext (rq_Ctx r) = inr tenant ->
  confined tenant (w, rw) (CreateTask r (w, rw)).2.
Proof.
  intros Ht. unfold CreateTask. rewrite Ht. destruct (rq_Body r); auto with go.
  destruct (unmarshal_create _) as [|req]; auto with go. cbn zeta.
  case_decide; auto with go. case_decide; auto with go.
  destruct (ValidateTaskID _); auto with go.
  apply call_confined. intros c w' E. apply c_create_spec in E.
  destruct c as [[| |]|t].
  1, 3: split; [intros; by rewrite E|auto with go].
  { destruct E as [_ ->]. auto with go. }
  destruct E as (_ & _ & Hkey & Hs). split.
  - intros key Hne. rewrite Hs, lookup_insert_ne; [done|]. intros <-. by apply Hne.
  - apply writes_confined, writeJSON_writes, shows_stored; [|by injection Hkey].
    simpl. change (obj_key t) with (task_key t) in Hkey. rewrite Hs, Hkey.
    apply lookup_insert_eq.
Qed.

(** A page of the filtered list holds listed tasks. *)
Lemma paginate_elem_of {X} offset limit (l page : list X) x :
  paginate offset limit l = Ret page -> x ∈ page -> x ∈ l.
Proof.
  unfold paginate, go_slice. intros Hp Hin. repeat case_decide; simplify_eq;
    try (by apply not_elem_of_nil in Hin);
    apply subseteq_take in Hin; by apply subseteq_drop in Hin.
Qed.

Lemma ListTasks_confined tenant r w rw :
  GetTenantIDFromContext (rq_Ctx r) = inr tenant ->
  confined tenant (w, rw) (ListTasks r (w, rw)).2.
Proof.
  intros Ht. unfold ListTasks. rewrite Ht. cbn zeta.
  destruct (if decide (query_get r "status" <> "") then _ else _); auto with go.
  apply call_confined. intros l w' E. apply c_list_spec in E as [Hs Hl].
  split; [by rewrite Hs|]. destruct l as [err|items]; auto with go.
  destruct (paginate _ _ _) as [page|e] eqn:Hp; auto with go.
  apply writes_confined, writeJSON_writes. simpl. apply Forall_fmap, Forall_forall.
  intros t Hin. apply (paginate_elem_of _ _ _ _ _ Hp) in Hin.
  assert (t ∈ items) as Hti
    by (case_decide; [by apply list_elem_of_filter in Hin as [_ Hin]|done]).
  destruct Hl as [Hl _]. destruct (Hl t Hti) as (Hst & Hns & _).
  apply shows_stored; [by rewrite Hs|done].
Qed.

Lemma GetTask_confined tenant r w rw :
  GetTenantIDFromContext (rq_Ctx r) = inr tenant ->
  confined tenant (w, rw) (GetTask r (w, rw)).2.
Proof.
  intros Ht. unfold GetTask. rewrite Ht. cbn zeta. destruct (ValidateTaskID _); auto with go.
  apply with_own_task_confined. intros t w' Hst _ Hkey.
  apply writes_confined, writeJSON_writes, shows_stored; [by rewrite Hkey|by injection Hkey].
Qed.

Lemma DeleteTask_confined tenant r w rw :
  GetTenantIDFromContext (rq_Ctx r) = inr tenant ->
  confined tenant (w, rw) (DeleteTask r (w, rw)).2.
Proof.
  intros Ht. unfold DeleteTask. rewrite Ht. cbn zeta. destruct (ValidateTaskID _); auto with go.
  apply with_own_task_confined. intros t w1 _ _ Hkey. apply call_confined. intros d w' E.
  apply c_delete_spec in E. change (obj_key t) with (task_key t) in E. rewrite Hkey in E. split.
  - intros key Hne. destruct d; [by rewrite E|].
    destruct E as [->|(o' & _ & _ & ->)];
      [rewrite lookup_delete_ne|rewrite lookup_insert_ne]; try done; by intros <-.
  - destruct d as [[| |]|]; auto with go; apply writes_confined; auto with go.
Qed.

Lemma GetTaskLogs_confined tenant r w rw :
  GetTenantIDFromContext (rq_Ctx r) = inr tenant ->
  confined tenant (w, rw) (GetTaskLogs r (w, rw)).2.
Proof.
  intros Ht. unfold GetTaskLogs. rewrite Ht. cbn zeta. case_decide; auto with go.
  destruct (ValidateTaskID _); auto with go.
  apply with_own_task_confined. intros t w' Hst Hten _.
  case_decide; apply writes_confined, writeJSON_writes; exists t;
    (split; [done|]); (split; [done|]); [by left|by right].
Qed.

(** The five handlers. *)
Definition task_handlers : list (Handler (W := W) (B := body)) :=
  [CreateTask; ListTasks; GetTask; DeleteTask; GetTaskLogs].

(** What a handler run with a tenant's claims may do. *)
Lemma handler_confined h r c w rw :
  h ∈ task_handlers -> ctx_claims (rq_Ctx r) = Some c ->
  confined (cl_TenantID c) (w, rw) (h r (w, rw)).2.
Proof.
  intros Hh Hc.
  assert (GetTenantIDFromContext (rq_Ctx r) = inr (cl_TenantID c)) as Ht
    by (unfold GetTenantIDFromContext, GetClaimsFromContext; by rewrite Hc).
  unfold task_handlers in Hh. rewrite !elem_of_cons in Hh.
  destruct Hh as [->|[->|[->|[->|[->|Hnil]]]]]; [..|by apply not_elem_of_nil in Hnil];
    eauto using CreateTask_confined, ListTasks_confined, GetTask_confined, DeleteTask_confined,
      GetTaskLogs_confined.
Qed.

(** C5: tenant isolation.  Whatever the request, and whether the handler
    returns or panics, a handler run with the claims of a tenant leaves every
    task outside the namespace of that tenant as it was, and its response shows
    nothing but tasks stored in that namespace: each task shown is the conversion
    of a stored one, and the logs endpoint shows the phase, pod and logs of the
    stored task it names. *)
Theorem handlers_isolate_tenants h r c w rw :
  h ∈ task_handlers -> ctx_claims (rq_Ctx r) = Some c ->
  let st' := (h r (w, rw)).2 in
  (forall k, k.1 <> tenant_namespace (cl_TenantID c) -> tasks st'.1 !! k = tasks w !! k) /\
  exists bs, rw_body st'.2 = rw_body rw ++ bs /\
    Forall (body_of_tenant (tasks st'.1) (cl_TenantID c)) bs.
Proof. apply handler_confined. Qed.

(** Without claims in the context, every handler answers 401 and does
    nothing else. *)
Theorem handlers_need_claims h r w :
  h ∈ task_handlers -> ctx_claims (rq_Ctx r) = None ->
  exists rw', h r (w, fresh_response) = (Ret tt, (w, rw')) /\ rw_code rw' = Some 401.
Proof.
  intros Hh Hc.
  assert (GetTenantIDFromContext (rq_Ctx r) = inl "claims not found in context") as Ht
    by (unfold GetTenantIDFromContext, GetClaimsFromContext; by rewrite Hc).
  unfold task_handlers in Hh. rewrite !elem_of_cons in Hh.
  destruct Hh as [->|[->|[->|[->|[->|Hnil]]]]]; [..|by apply not_elem_of_nil in Hnil];
    unfold CreateTask, ListTasks, GetTask, DeleteTask, GetTaskLogs; rewrite Ht;
    by eexists.
Qed.
End Isolation.

(** ** [CreateTask] on an acceptable request *)

Section Create.
Context {K : K8sTypes} {A : Admission} {G : GatewayLib} {W : Type}.
Context `{!Client W CloudTask, LT : !ClientLaws W CloudTask}.

Abbreviation tasks := (c_store (T := CloudTask)).

(** [r] carries the claims of [tenant] and a request [req] that passes the
    gateway's checks. *)
Definition acceptable (r : Request) (tenant : string) (req : CreateCloudTaskRequest) : Prop :=
  GetTenantIDFromContext (rq_Ctx r) = inr tenant /\
  (exists content, rq_Body r = inr content /\ unmarshal_create content = inr req) /\
  ValidateCreateTaskRequest req = [] /\ req_TenantID req = tenant /\
  ValidateTaskID (taskID_of req) = None.

Definition create_key (tenant : string) (req : CreateCloudTaskRequest) : NamespacedName :=
  (tenant_namespace tenant, taskID_of req).

(** An acceptable request comes down to one create call. *)
Lemma CreateTask_acceptable r tenant req w rw :
  acceptable r tenant req ->
  CreateTask r (w, rw) =
    let '(c, w') := c_create (task_of_request tenant (taskID_of req) req) w in
    match c with
    | inl AlreadyExists =>
        writeError StatusConflict "Task with this name already exists" None (w', rw)
    | inl err =>
        writeError StatusInternalServerError "Failed to create task" (Some (err_text err)) (w', rw)
    | inr t => writeJSON StatusCreated (BTask (convertCloudTaskToResponse t)) (w', rw)
    end.
Proof.
  intros (Ht & (content & Hb & Hu) & Hv & Hten & Hid). unfold CreateTask.
  rewrite Ht, Hb, Hu. cbn zeta. rewrite Hv.
  rewrite (decide_False (P := [] <> [])) by auto. rewrite decide_False by auto. rewrite Hid, on_world_bind. unfold lift.
  destruct (c_create _ w) as [c w']. by destruct c as [[| |]|t].
Qed.

(** C27: an acceptable request for a name that is free in the tenant's
    namespace is answered 201 and the task is stored under that name with the
    request's image, command, arguments, retries, timeout, priority and
    resources as admission leaves them and the tenant of the token, with no
    status, and the body is the conversion of the stored task (whose resources go
    through the conversion the code calls but does not have, a parameter); or the server refuses it, the answer is 500 and nothing is stored. *)
Theorem CreateTask_stores_task r tenant req w :
  acceptable r tenant req -> tasks w !! create_key tenant req = None ->
  exists w' rw', CreateTask r (w, fresh_response) = (Ret tt, (w', rw')) /\
    ((rw_code rw' = Some 201 /\
      exists t, tasks w' = <[create_key tenant req := t]> (tasks w) /\
        task_Spec t = admit_spec (task_Spec (task_of_request tenant (taskID_of req) req)) /\
        task_Status t = emptyStatus /\
        rw_body rw' = [BTask (convertCloudTaskToResponse t)]) \/
     (rw_code rw' = Some 500 /\ tasks w' = tasks w)).
Proof.
  intros Hacc Hfree. rewrite (CreateTask_acceptable _ _ _ _ _ Hacc).
  destruct (c_create _ w) as [c w'] eqn:E. pose proof E as Hc. apply c_create_spec in Hc.
  change (obj_key (task_of_request tenant (taskID_of req) req))
    with (create_key tenant req) in Hc.
  destruct c as [[| |msg]|t]; simpl in Hc.
  - do 2 eexists; split; [done|]. right. done.
  - destruct Hc as [[o Ho] _]. congruence.
  - do 2 eexists; split; [done|]. right. done.
  - destruct Hc as (_ & (_ & _ & _ & Hsp & Hst) & _ & Hs).
    do 2 eexists; split; [done|]. left. split; [done|]. exists t. done.
Qed.

(** When the name is taken, the request fails: the status line is 409 or
    500, and the conflict branch panics in [writeError] instead of writing the
    JSON error; the stored task is untouched. *)
Theorem CreateTask_name_taken r tenant req w t0 :
  acceptable r tenant req -> tasks w !! create_key tenant req = Some t0 ->
  exists o w' rw', CreateTask r (w, fresh_response) = (o, (w', rw')) /\ tasks w' = tasks w /\
    ((rw_code rw' = Some 409 /\ rw_body rw' = [] /\ exists m, o = Panic m) \/
     (rw_code rw' = Some 500 /\ o = Ret tt)).
Proof.
  intros Hacc Htaken. rewrite (CreateTask_acceptable _ _ _ _ _ Hacc).
  destruct (c_create_taken (T := CloudTask) (task_of_request tenant (taskID_of req) req) t0 w)
    as (e & w' & -> & Hs); [exact Htaken|].
  destruct e; do 3 eexists; (split; [done|]); (split; [done|]); [by right|left|by right].
  split_and!; [done..|by eexists].
Qed.

(** a tenant can have one unnamed task at a time.  The name generated for
    a request without one is always [task-abcdef01], so a second unnamed task
    meets the first. *)
Theorem unnamed_tasks_collide r tenant req w t0 :
  acceptable r tenant req -> req_Name req = "" ->
  tasks w !! (tenant_namespace tenant, "task-abcdef01") = Some t0 ->
  exists o w' rw', CreateTask r (w, fresh_response) = (o, (w', rw')) /\ tasks w' = tasks w /\
    rw_code rw' <> Some 201.
Proof.
  intros Hacc Hname Htaken.
  assert (taskID_of req = "task-abcdef01") as Hid
    by (unfold taskID_of; by rewrite decide_True).
  rewrite (CreateTask_acceptable _ _ _ _ _ Hacc), Hid.
  destruct (c_create_taken (T := CloudTask) (task_of_request tenant "task-abcdef01" req) t0 w)
    as (e & w' & -> & Hs); [exact Htaken|].
  destruct e; do 3 eexists; (split; [done|]); done.
Qed.

(** reading or deleting a task the server does not know writes the status
    line 404 and then panics in [writeError]: no error
    body is sent. *)
Theorem missing_task_panics h r tenant w w' :
  h ∈ [GetTask; DeleteTask] ->
  GetTenantIDFromContext (rq_Ctx r) = inr tenant ->
  ValidateTaskID (path_taskID (rq_Path r)) = None ->
  c_get (tenant_namespace tenant, path_taskID (rq_Path r)) w = (inl NotFound, w') ->
  exists m rw', h r (w, fresh_response) = (Panic m, (w', rw')) /\
    rw_code rw' = Some 404 /\ rw_body rw' = [].
Proof.
  intros Hh Ht Hid Hg. rewrite !elem_of_cons in Hh.
  destruct Hh as [->|[->|Hnil]]; [..|by apply not_elem_of_nil in Hnil];
    unfold GetTask, DeleteTask, with_own_task; rewrite Ht, Hid, on_world_bind;
    unfold lift; rewrite Hg; by do 2 eexists.
Qed.
End Create.

(** ** Pagination *)

Lemma parse_int_width bits s z : parse_int bits s = Some z -> in_width bits z.
Proof.
  unfold parse_int. set (x := match s with EmptyString => _ | _ => _ end).
  destruct x as [neg b]. destruct (parse_digits b); [|done].
  case_decide; [|done]. by intros [= <-].
Qed.

Lemma list_limit_range s : 1 <= list_limit s <= 500.
Proof. unfold list_limit. repeat case_match; lia. Qed.

Lemma list_offset_range s : 0 <= list_offset s < 2 ^ 63.
Proof.
  unfold list_offset. case_decide; [|lia]. destruct (atoi s) as [o|] eqn:E; [|lia].
  apply parse_int_width in E. unfold in_width in E. case_decide; lia.
Qed.

(** C36: the page of [ListTasks] is exactly the [limit] tasks after the first
    [offset], for every value of the two query parameters: the limit is between 1
    and 500, unparsable values give the defaults, and neither the 64-bit sum of
    offset and limit nor the slice expression can go wrong. *)
Theorem paginate_exact {X} (offsetStr limitStr : string) (l : list X) :
  Z.of_nat (length l) < 2 ^ 62 ->
  let limit := list_limit limitStr in
  let offset := list_offset offsetStr in
  1 <= limit <= 500 /\
  paginate offset limit l = Ret (take (Z.to_nat limit) (drop (Z.to_nat offset) l)).
Proof.
  intros Hl limit offset. pose proof (list_limit_range limitStr) as Hlim. fold limit in Hlim.
  pose proof (list_offset_range offsetStr) as Hoff. fold offset in Hoff.
  split; [done|]. unfold paginate, go_slice. case_decide as Hbig.
  { rewrite drop_ge by lia. by rewrite take_nil. }
  rewrite (wrap_id 64) by (unfold in_width; lia).
  case_decide as Hend; rewrite decide_True by lia; f_equal.
  - rewrite !take_ge; [done|rewrite length_drop; lia..].
  - f_equal. lia.
Qed.

(** ** The gateway and the webhook *)

Section Admission.
Context {K : K8sTypes}.

Lemma ValidateCreateTaskRequest_nil req :
  ValidateCreateTaskRequest req = [] ->
  validateImage (req_Image req) = None /\ 0 <= req_Priority req <= 100 /\ req_Retries req <= 10.
Proof.
  unfold ValidateCreateTaskRequest. rewrite !app_nil, !field_error_nil.
  intros (Hi & _ & _ & Hp & _ & Hr). split; [done|]. split.
  - clear Hr. unfold validatePriority in Hp. case_decide; [done|lia].
  - case_decide; [done|lia].
Qed.

(** the webhook admits the task made from a request the gateway accepts
    exactly when the request's retries are not negative (and the tenant is
    named): negative retries pass the gateway, whose check only looks at the
    upper bound, and fail in the API server. *)
Theorem gateway_webhook_agree req tenant id :
  ValidateCreateTaskRequest req = [] -> tenant <> "" ->
  (ValidateCreate (Default (task_of_request tenant id req))).2 = None <-> 0 <= req_Retries req.
Proof.
  intros (Hi & Hp & Hr)%ValidateCreateTaskRequest_nil Ht.
  rewrite ValidateCreate_ok_iff. unfold spec_in_range. simpl.
  assert (req_Image req <> "") by (intros E; by rewrite E in Hi).
  split.
  - intros (_ & _ & Hret & _). case_decide; lia.
  - intros. split; [done|]. split; [done|]. repeat case_decide; lia.
Qed.
End Admission.

(** ** The theorems at work on the in-memory server *)

Section Witnesses.
#[local] Instance no_webhook : Admission := fun s => s.

Definition ex_req (name : string) (retries : Z) : CreateCloudTaskRequest :=
  {| req_Name := name; req_Image := "busybox:latest"; req_Command := ["ls"]; req_Args := [];
     req_TenantID := "acme"; req_Resources := None; req_Retries := retries;
     req_Timeout := "5m"; req_Priority := 50 |}.

(** A decoder that knows two documents. *)
#[local] Instance toy_gateway : GatewayLib := {
  unmarshal_create s :=
    if decide (s = "{named}") then inr (ex_req "t1" 3)
    else if decide (s = "{unnamed}") then inr (ex_req "" 3)
    else inl "unexpected end of JSON input";
  time_String t := pretty t;
  responseResources r := {|
    rrq_Requests := (fun l => {| rlq_CPU := rl_CPU l; rlq_Memory := rl_Memory l |}) <$> res_Requests r;
    rrq_Limits := (fun l => {| rlq_CPU := rl_CPU l; rlq_Memory := rl_Memory l |}) <$> res_Limits r |}
}.

Definition ex_claims : Claims :=
  {| cl_TenantID := "acme"; cl_UserID := "u1"; cl_Email := ""; cl_Roles := [];
     cl_ExpiresAt := None; cl_IssuedAt := None; cl_NotBefore := None; cl_Issuer := "";
     cl_Subject := "" |}.

Definition ex_request (method path doc : string) (claims : option Claims) : Request :=
  {| rq_Method := method; rq_Path := path; rq_RequestURI := path; rq_RemoteAddr := "10.0.0.9:4711"; rq_Query := ∅; rq_Headers := ∅; rq_Body := inr doc;
     rq_Ctx := {| ctx_claims := claims; ctx_request_id := None; ctx_log := ∅ |} |}.

Definition r_named : Request := ex_request "POST" "/v1/tasks" "{named}" (Some ex_claims).
Definition r_unnamed : Request := ex_request "POST" "/v1/tasks" "{unnamed}" (Some ex_claims).
Definition r_get : Request := ex_request "GET" "/v1/tasks/t9" "" (Some ex_claims).

Definition stored (name : string) : CloudTask :=
  mk_created (task_of_request "acme" name (ex_req name 3)).
Definition gw_world (ts : list CloudTask) : MemWorld :=
  {| mw_tasks := ts; mw_jobs := []; mw_pods := []; mw_clock := 0; mw_events := [] |}.

Lemma r_named_acceptable : acceptable r_named "acme" (ex_req "t1" 3).
Proof. split_and!; try reflexivity. by eexists. Qed.
Lemma r_unnamed_acceptable : acceptable r_unnamed "acme" (ex_req "" 3).
Proof. split_and!; try reflexivity. by eexists. Qed.

Lemma handlers_isolate_tenants_witness :
  c_store (T := CloudTask) (CreateTask r_named (gw_world [], fresh_response)).2.1
    !! ("tenant-b", "x") = None.
Proof.
  etrans; [apply (proj1 (handlers_isolate_tenants CreateTask r_named ex_claims (gw_world [])
    fresh_response ltac:(left) eq_refl))|]; done.
Defined.

Lemma handlers_need_claims_witness :
  exists rw', CreateTask (ex_request "POST" "/v1/tasks" "{named}" None)
    (gw_world [], fresh_response) = (Ret tt, (gw_world [], rw')) /\ rw_code rw' = Some 401.
Proof. apply (handlers_need_claims CreateTask); [left|reflexivity]. Defined.

Lemma CreateTask_stores_task_witness :
  exists w' rw', CreateTask r_named (gw_world [], fresh_response) = (Ret tt, (w', rw')).
Proof.
  destruct (CreateTask_stores_task r_named "acme" (ex_req "t1" 3) (gw_world []))
    as (w' & rw' & E & _); [apply r_named_acceptable|reflexivity|]. by exists w', rw'.
Defined.

Lemma CreateTask_name_taken_witness :
  exists o w' rw', CreateTask r_named (gw_world [stored "t1"], fresh_response) = (o, (w', rw')).
Proof.
  destruct (CreateTask_name_taken r_named "acme" (ex_req "t1" 3) (gw_world [stored "t1"])
    (stored "t1")) as (o & w' & rw' & E & _); [apply r_named_acceptable|reflexivity|].
  exists o, w', rw'. first [exact E|split; [exact E|exact H]].
Defined.

Lemma unnamed_tasks_collide_witness :
  exists o w' rw', CreateTask r_unnamed (gw_world [stored "task-abcdef01"], fresh_response) =
    (o, (w', rw')) /\ rw_code rw' <> Some 201.
Proof.
  destruct (unnamed_tasks_collide r_unnamed "acme" (ex_req "" 3)
    (gw_world [stored "task-abcdef01"]) (stored "task-abcdef01"))
    as (o & w' & rw' & E & _ & H);
    [apply r_unnamed_acceptable|reflexivity|reflexivity|]. exists o, w', rw'. first [exact E|split; [exact E|exact H]].
Defined.

Lemma missing_task_panics_witness :
  exists m rw', GetTask r_get (gw_world [], fresh_response) = (Panic m, (gw_world [], rw')) /\
    rw_code rw' = Some 404.
Proof.
  destruct (missing_task_panics GetTask r_get "acme" (gw_world []) (gw_world []))
    as (m & rw' & E & H & _); [left|reflexivity..|]. by exists m, rw'.
Defined.

Lemma paginate_exact_witness :
  paginate (list_offset "1") (list_limit "2") [10; 20; 30; 40] = Ret [20; 30].
Proof. exact (proj2 (paginate_exact "1" "2" [10; 20; 30; 40] eq_refl)). Defined.

Lemma gateway_webhook_agree_witness :
  (ValidateCreate (Default (task_of_request "acme" "t1" (ex_req "t1" (-1))))).2 <> None.
Proof.
  intros H%(gateway_webhook_agree (ex_req "t1" (-1)) "acme" "t1"); [|done|done].
  simpl in H. lia.
Defined.
End Witnesses.
