(* ===== verification/Router.v ===== *)
(** * Health checks, middleware and routing of the API gateway

    Models [pkg/api/handlers/health_handler.go] and [pkg/api/router.go]: the
    middleware as functions on handlers, [chainMiddleware], and the routes that
    [SetupRoutes] registers with [http.ServeMux] (Go 1.22 patterns: a pattern
    with a method serves that method only, and GET serves HEAD).  The calls that
    probe Kubernetes and Redis are parameters; log lines are not modelled. *)

From Stdlib Require Import Ascii.
From S2P Require Import Prelude GoStrings GoTime Kube CloudTaskApi CloudTaskController Validators Http.
From S2P Require Import Auth RateLimiter TaskHandler.

(** ** Health checks *)

(** [kubeClient.List(namespaces)] and [redisClient.Ping]: an error text or
    success; [None] for a nil client.  [format_utc] is the RFC 3339 rendering. *)
Class Probes (W : Type) := {
  probe_kube : option (W -> option string * W);
  probe_redis : option (W -> option string * W);
  format_utc : Z -> string
}.

Section Health.
Context {K : K8sTypes} {G : GatewayLib} {W : Type} `{!Clock W, !Probes W}.

Definition component (name status message : string) (latency : Z) : ComponentStatus :=
  {| comp_Name := name; comp_Status := status; comp_Message := message;
     comp_Latency := latency |}.

(** [checkKubeAPI] and [checkRedis] differ in the name, the probe and the
    message for a nil client; the latency is in whole milliseconds. *)
Definition check_component (name nilMessage : string) (probe : option (W -> option string * W))
    : GoM W ComponentStatus :=
  match probe with
  | None => mret (component name "unavailable" nilMessage 0)
  | Some p =>
      start ← lift clock_now;
      e ← lift p;
      stop ← lift clock_now;
      let latency := Z.quot (stop - start) Millisecond in
      match e with
      | Some msg => mret (component name "unhealthy" msg latency)
      | None => mret (component name "healthy" "" latency)
      end
  end.

Definition checkKubeAPI : GoM W ComponentStatus :=
  check_component "kubernetes" "Kubernetes client not initialized" probe_kube.
Definition checkRedis : GoM W ComponentStatus :=
  check_component "redis" "Redis client not initialized" probe_redis.

Definition all_healthy (cs : list ComponentStatus) : bool :=
  forallb (fun c => bool_decide (comp_Status c = "healthy")) cs.

Definition Healthz : Handler (W := W) (B := body) := fun _ =>
  now ← on_world (lift clock_now);
  kube ← on_world checkKubeAPI;
  redis ← on_world checkRedis;
  let components := [kube; redis] in
  if all_healthy components
  then writeJSON StatusOK (BHealth "healthy" (format_utc now) components)
  else writeJSON StatusServiceUnavailable (BHealth "degraded" (format_utc now) components).

Definition Readyz : Handler (W := W) (B := body) := fun _ =>
  now ← on_world (lift clock_now);
  kube ← on_world checkKubeAPI;
  if decide (comp_Status kube = "healthy")
  then writeJSON StatusOK (BHealth "ready" (format_utc now) [kube])
  else writeJSON StatusServiceUnavailable (BHealth "not ready" (format_utc now) [kube]).
End Health.

(** ** The response writer that captures the status *)

Record responseWriterWrapper := {
  wr_inner : ResponseWriter body;
  wr_statusCode : Z;
  wr_written : bool
}.

Definition new_wrapper (w : ResponseWriter body) : responseWriterWrapper :=
  {| wr_inner := w; wr_statusCode := StatusOK; wr_written := false |}.

Definition inner_write_header (code : Z) (r : ResponseWriter body) : ResponseWriter body :=
  match rw_code r with
  | Some _ => r
  | None => {| rw_headers := rw_headers r; rw_code := Some code; rw_body := rw_body r |}
  end.

Definition inner_write (b : body) (r : ResponseWriter body) : ResponseWriter body :=
  {| rw_headers := rw_headers r; rw_code := Some (default StatusOK (rw_code r));
     rw_body := rw_body r ++ [b] |}.

Definition wrapper_WriteHeader (code : Z) (w : responseWriterWrapper) : responseWriterWrapper :=
  if wr_written w then w
  else {| wr_inner := inner_write_header code (wr_inner w); wr_statusCode := code;
          wr_written := true |}.

Definition wrapper_Write (b : body) (w : responseWriterWrapper) : responseWriterWrapper :=
  if wr_written w
  then {| wr_inner := inner_write b (wr_inner w); wr_statusCode := wr_statusCode w;
          wr_written := true |}
  else {| wr_inner := inner_write b (wr_inner w); wr_statusCode := StatusOK; wr_written := true |}.

Inductive write_op : Type := OpWriteHeader (code : Z) | OpWrite (b : body).

Definition wrapper_op (w : responseWriterWrapper) (o : write_op) : responseWriterWrapper :=
  match o with
  | OpWriteHeader c => wrapper_WriteHeader c w
  | OpWrite b => wrapper_Write b w
  end.

Definition plain_op (r : ResponseWriter body) (o : write_op) : ResponseWriter body :=
  match o with
  | OpWriteHeader c => inner_write_header c r
  | OpWrite b => inner_write b r
  end.

(** ** Middleware *)

Section Middleware.
Context {K : K8sTypes} {G : GatewayLib} `{!JwtLib} {W : Type}.
Context `{!Client W CloudTask, !Clock W, !Redis W, !Probes W}.

Abbreviation Handler := (Handler (W := W) (B := body)).
Definition Middleware : Type := Handler -> Handler.

Record Router := {
  rt_rateLimiter : option RateLimiter;
  rt_jwtManager : JWTManager
}.

(** The handlers take their clients from the world ([Client], [Probes]). *)
Definition NewRouter (jwtManager : JWTManager) (rateLimiter : option RateLimiter) : Router :=
  {| rt_rateLimiter := rateLimiter; rt_jwtManager := jwtManager |}.

(** The first middleware of the list ends up outermost. *)
Definition chainMiddleware (handler : Handler) (ms : list Middleware) : Handler :=
  foldr (fun m h => m h) handler ms.

Definition requestIDMiddleware (next : Handler) : Handler := fun req =>
  now ← on_world (lift clock_now);
  let requestID := rq_Method req +:+ "-" +:+ pretty now in
  _ ← set_header "X-Request-ID" requestID;
  next (with_ctx (ctx_with_request_id requestID (rq_Ctx req)) req).

(** [req.Context().Value("request-id").(string)] panics when there is none; the
    wrapped writer passes every write on ([wrapper_transparent] below). *)
Definition requestLoggingMiddleware (next : Handler) : Handler := fun req =>
  _ ← on_world (lift clock_now);
  match ctx_request_id (rq_Ctx req) with
  | None => go_panic "interface conversion: interface {} is nil, not string"
  | Some _ =>
      _ ← next req;
      _ ← on_world (lift clock_now);
      mret tt
  end.

Definition corsMiddleware (next : Handler) : Handler := fun req =>
  _ ← set_header "Access-Control-Allow-Origin" "*";
  _ ← set_header "Access-Control-Allow-Methods" "GET, POST, PUT, DELETE, OPTIONS, PATCH";
  _ ← set_header "Access-Control-Allow-Headers" "Content-Type, Authorization, X-Request-ID";
  _ ← set_header "Access-Control-Max-Age" "3600";
  if decide (rq_Method req = "OPTIONS") then write_header StatusOK else next req.

(** The router's own [extractBearerToken]: the scheme is case-sensitive. *)
Definition router_extractBearerToken (req : Request) : string :=
  let authHeader := header_get req "Authorization" in
  match strip_prefix "Bearer " authHeader with
  | Some token => token
  | None => ""
  end.

Definition authMiddleware (r : Router) (next : Handler) : Handler := fun req =>
  let tokenString := router_extractBearerToken req in
  if decide (tokenString = "") then
    _ ← set_header "Content-Type" "application/json";
    _ ← write_header StatusUnauthorized;
    write_body (BStatus "Missing or invalid Authorization header" 401)
  else
    v ← on_world (ValidateToken (rt_jwtManager r) tokenString);
    match v with
    | inl err =>
        let errorMsg :=
          if decide (err = ErrTokenExpired) then "Token has expired" else "Invalid token" in
        _ ← set_header "Content-Type" "application/json";
        _ ← write_header StatusForbidden;
        write_body (BStatus errorMsg 403)
    | inr claims => next (with_ctx (ctx_with_claims claims (rq_Ctx req)) req)
    end.

(** [fmt.Sprintf("%.0f", d.Seconds())]: to the nearest second, halves to even. *)
Definition format_seconds (d : Z) : string :=
  let q := d / Second in
  let r := d mod Second in
  let n := if decide (2 * r < Second) then q
           else if decide (2 * r > Second) then q + 1
           else if Z.even q then q else q + 1 in
  if decide (d < 0 /\ n = 0) then "-0" else pretty n.

Definition rateLimitMiddleware (r : Router) (next : Handler) : Handler := fun req =>
  match rt_rateLimiter r with
  | None => next req
  | Some rl =>
      match ctx_claims (rq_Ctx req) with
      | None => next req
      | Some claims =>
          a ← on_world (Allow rl (cl_TenantID claims));
          match a with
          | (_, _, Some _) =>
              _ ← write_header StatusInternalServerError;
              write_body (BStatus "Internal server error" 500)
          | (true, _, None) => next req
          | (false, retryAfter, None) =>
              _ ← set_header "Retry-After" (format_seconds retryAfter);
              _ ← set_header "Content-Type" "application/json";
              _ ← write_header StatusTooManyRequests;
              write_body (BStatus "Rate limit exceeded" 429)
          end
      end
  end.

(** ** Routes *)

Definition v1_chain (r : Router) (h : Handler) : Handler :=
  chainMiddleware h [corsMiddleware; requestIDMiddleware; requestLoggingMiddleware;
                     rateLimitMiddleware r; authMiddleware r].

Definition health_chain (h : Handler) : Handler :=
  chainMiddleware h [requestLoggingMiddleware; requestIDMiddleware].

(** What [http.ServeMux] answers itself. *)
Definition mux_not_found : Handler := fun _ =>
  _ ← write_header StatusNotFound; write_body (BText "404 page not found").
Definition mux_not_allowed (allow : string) : Handler := fun _ =>
  _ ← set_header "Allow" allow;
  _ ← write_header StatusMethodNotAllowed; write_body (BText "Method Not Allowed").

Definition is_get (m : string) : bool := bool_decide (m = "GET" \/ m = "HEAD").

Definition SetupRoutes (r : Router) (req : Request) : Handler :=
  let m := rq_Method req in
  match split "/"%char (rq_Path req) with
  | [""; "healthz"] => health_chain Healthz
  | [""; "readyz"] => health_chain Readyz
  | [""; "v1"; "tasks"] =>
      if decide (m = "POST") then v1_chain r CreateTask
      else if is_get m then v1_chain r ListTasks
      else mux_not_allowed "GET, HEAD, POST"
  | [""; "v1"; "tasks"; id] =>
      if decide (id = "") then mux_not_found
      else if is_get m then v1_chain r GetTask
      else if decide (m = "DELETE") then v1_chain r DeleteTask
      else mux_not_allowed "DELETE, GET, HEAD"
  | [""; "v1"; "tasks"; id; "logs"] =>
      if decide (id = "") then mux_not_found
      else if is_get m then v1_chain r GetTaskLogs
      else mux_not_allowed "GET, HEAD"
  | _ => mux_not_found
  end.

Definition serve (r : Router) (req : Request) : GoM (HState (W := W) (B := body)) unit :=
  SetupRoutes r req req.
End Middleware.
