(* ===== verification/RouterProofs.v ===== *)
(** * What the gateway's router guarantees

    Authentication and tenant isolation of the whole gateway, from the request to
    the stored tasks; the rate limiter's place in the chain; the health routes;
    the status the logging middleware sees. *)

From Stdlib Require Import Ascii.
From S2P Require Import Prelude GoStrings GoTime Kube CloudTaskApi CloudTaskController Validators Http.
From S2P Require Import Auth RateLimiter TaskHandler TaskHandlerProofs Router MemKube.

(** ** The status capturing writer *)

Definition wrapper_agrees (w : responseWriterWrapper) : Prop :=
  (wr_written w = true <-> is_Some (rw_code (wr_inner w))) /\
  wr_statusCode w = default StatusOK (rw_code (wr_inner w)).

Lemma wrapper_op_agrees w o :
  wrapper_agrees w ->
  wrapper_agrees (wrapper_op w o) /\ wr_inner (wrapper_op w o) = plain_op (wr_inner w) o.
Proof.
  intros [Hw Hs]. destruct w as [r code written]; simpl in *.
  destruct (rw_code r) as [c0|] eqn:Er.
  - assert (written = true) as -> by (apply Hw; eauto). simpl in Hs. subst code.
    destruct o as [c|b]; simpl; unfold wrapper_WriteHeader, wrapper_Write, inner_write_header; simpl;
      unfold wrapper_agrees; simpl; rewrite ?Er; simpl; split_and!; try done; eauto.
  - assert (written = false) as -> by (destruct written; [|done]; by destruct (proj1 Hw eq_refl)).
    destruct o as [c|b]; simpl; unfold wrapper_WriteHeader, wrapper_Write, inner_write_header; simpl;
      unfold wrapper_agrees, inner_write; simpl; rewrite ?Er; simpl; split_and!; try done; eauto.
Qed.

(** The wrapped response writer of the logging middleware is transparent:
    for every sequence of [WriteHeader] and [Write] calls the client gets the
    response the plain writer would send, and the status that is logged is the
    status that was sent. *)
Theorem wrapper_transparent (ops : list write_op) :
  let w := foldl wrapper_op (new_wrapper fresh_response) ops in
  wr_inner w = foldl plain_op fresh_response ops /\
  wr_statusCode w = default StatusOK (rw_code (foldl plain_op fresh_response ops)).
Proof.
  assert (forall ops w, wrapper_agrees w -> wrapper_agrees (foldl wrapper_op w ops) /\
    wr_inner (foldl wrapper_op w ops) = foldl plain_op (wr_inner w) ops) as Hgen.
  { clear ops. intros ops. induction ops as [|o ops IH]; intros w Hw; [done|]. simpl.
    destruct (wrapper_op_agrees w o Hw) as [Ho Hi]. destruct (IH _ Ho) as [? ->].
    by rewrite Hi. }
  destruct (Hgen ops (new_wrapper fresh_response)) as [[_ Hs] Hi].
  { split; [|done]. simpl. split; [done|]. by intros [? ?]. }
  simpl. rewrite Hs, Hi. done.
Qed.

Section Router.
Context {K : K8sTypes} {A : Admission} {G : GatewayLib} `{!JwtLib} {W : Type}.
Context `{!Client W CloudTask, !Clock W, !Redis W, !Probes W, LT : !ClientLaws W CloudTask}.

Abbreviation tasks := (c_store (T := CloudTask)).

(** ** Health checks *)

Lemma check_component_cases name nilm probe (w : W) :
  exists c w', check_component name nilm probe w = (Ret c, w') /\
    (comp_Status c = "healthy" <->
      exists p, probe = Some p /\ (p (clock_now w).2).1 = None).
Proof.
  unfold check_component. destruct probe as [p|].
  - rewrite lift_bind. destruct (clock_now w) as [t w1]. rewrite lift_bind.
    destruct (p w1) as [e w2] eqn:Ep. rewrite lift_bind. destruct (clock_now w2) as [t2 w3].
    destruct e; do 2 eexists; (split; [done|]); simpl; split; try done.
    + intros (p' & [= <-] & Hp). simpl in Hp. by rewrite Ep in Hp.
    + intros _. exists p. by rewrite Ep.
  - do 2 eexists. split; [done|]. split; [done|]. by intros (p & [=] & _).
Qed.

(** [Readyz] answers 200 exactly when the Kubernetes client is configured
    and its probe succeeds, and 503 otherwise; it never panics. *)
Theorem Readyz_reports_kube r (w : W) :
  exists w' rw', Readyz r (w, fresh_response) = (Ret tt, (w', rw')) /\
    (rw_code rw' = Some 200 \/ rw_code rw' = Some 503) /\
    (rw_code rw' = Some 200 <->
      exists p, probe_kube = Some p /\ (p (clock_now (clock_now w).2).2).1 = None).
Proof.
  unfold Readyz. rewrite on_world_bind. unfold lift. destruct (clock_now w) as [now w1].
  rewrite on_world_bind. unfold checkKubeAPI.
  destruct (check_component_cases "kubernetes" "Kubernetes client not initialized" probe_kube w1)
    as (c & w2 & -> & Hc).
  case_decide as Hs; do 2 eexists; (split; [done|]); simpl; (split; [auto|]); rewrite <- Hc;
    split; auto; done.
Qed.

(** the health routes never answer.  [/healthz] and [/readyz] run the
    logging middleware outside the one that sets the request id, so for every
    request that arrives without an id the type assertion panics before
    anything is written. *)
Theorem health_routes_panic rt req (w : W) rw :
  rq_Path req = "/healthz" \/ rq_Path req = "/readyz" ->
  ctx_request_id (rq_Ctx req) = None ->
  exists m, serve rt req (w, rw) = (Panic m, ((clock_now w).2, rw)).
Proof.
  intros Hp Hid. unfold serve, SetupRoutes.
  assert (split "/"%char (rq_Path req) = [""; "healthz"] \/
          split "/"%char (rq_Path req) = [""; "readyz"]) as Hs
    by (destruct Hp as [-> | ->]; [left|right]; reflexivity).
  destruct Hs as [-> | ->]; unfold health_chain, chainMiddleware; simpl;
    unfold requestLoggingMiddleware; rewrite on_world_bind; unfold lift;
    destruct (clock_now w); rewrite Hid; by eexists.
Qed.

(** ** Rate limiting *)

(** C39: rate limiting is never applied.  In the chain of every task endpoint
    the rate limiter runs before authentication has put the claims in the
    context, so for every request that arrives without claims the chain
    behaves, on every handler, exactly as the chain without it. *)
Theorem rate_limit_never_applied rt h req (st : HState (W := W) (B := body)) :
  ctx_claims (rq_Ctx req) = None ->
  v1_chain rt h req st =
    chainMiddleware h [corsMiddleware; requestIDMiddleware; requestLoggingMiddleware;
                       authMiddleware rt] req st.
Proof.
  intros Hc. unfold v1_chain, chainMiddleware. simpl. unfold corsMiddleware.
  destruct st as [w rw]. unfold set_header. rewrite !rw_update_bind. case_decide; [done|].
  unfold requestIDMiddleware. rewrite !on_world_bind. unfold lift.
  destruct (clock_now w) as [now w1]. unfold set_header. rewrite !rw_update_bind.
  unfold requestLoggingMiddleware, rateLimitMiddleware. simpl. rewrite Hc.
  by destruct (rt_rateLimiter rt).
Qed.

(** ** Authentication and isolation, end to end *)

Hypothesis clock_tasks : forall w, tasks (clock_now w).2 = tasks w.

(** A request as the handlers see it: only the context differs. *)
Definition same_request (r r' : Request) : Prop :=
  rq_Headers r' = rq_Headers r /\ rq_Path r' = rq_Path r /\ rq_Method r' = rq_Method r /\
  rq_Body r' = rq_Body r.

(** The chain up to authentication changes no task. *)
Lemma v1_chain_run rt h req w rw :
  ctx_claims (rq_Ctx req) = None ->
  (exists rw1, v1_chain rt h req (w, rw) = (Ret tt, (w, rw1)) /\ rq_Method req = "OPTIONS") \/
  (exists w1 rw1 req1, tasks w1 = tasks w /\ w1 = (clock_now (clock_now w).2).2 /\
    same_request req req1 /\ (rw_code rw = None -> rw_code rw1 = None) /\
    v1_chain rt h req (w, rw) =
      (authMiddleware rt h req1 ≫= fun _ => on_world (lift clock_now) ≫= fun _ => mret tt)
        (w1, rw1)).
Proof.
  intros Hc. unfold v1_chain, chainMiddleware. simpl. unfold corsMiddleware.
  unfold set_header. rewrite !rw_update_bind. case_decide; [left; by eexists|]. right.
  unfold requestIDMiddleware. rewrite on_world_bind. unfold lift at 1.
  pose proof (clock_tasks w) as Hw. destruct (clock_now w) as [now w1]. simpl in Hw.
  unfold set_header. rewrite rw_update_bind. unfold requestLoggingMiddleware.
  rewrite on_world_bind. unfold lift at 1. simpl snd.
  pose proof (clock_tasks w1) as Hw1. destruct (clock_now w1) as [t2 w2]. simpl in Hw1.
  eexists w2, _, (with_ctx (ctx_with_request_id (rq_Method req +:+ "-" +:+ pretty now)
    (rq_Ctx req)) req).
  split; [congruence|]. split; [done|]. split; [done|]. split; cycle 1.
  { simpl. unfold rateLimitMiddleware. simpl. rewrite Hc. by destruct (rt_rateLimiter rt). }
  intros Hcode. simpl. rewrite Hcode. simpl. by destruct (rw_code rw).
Qed.

Lemma ValidateToken_tasks jm s w o w' :
  ValidateToken jm s w = (o, w') -> tasks w' = tasks w.
Proof.
  unfold ValidateToken. case_decide; [by intros [= <- <-]|]. rewrite lift_bind.
  pose proof (clock_tasks w) as Hw. destruct (clock_now w) as [now w1]. simpl in Hw.
  intros E. go_run_in E; congruence.
Qed.

(** Authentication lets the handler run only with the claims of a token that
    validates, and otherwise changes no task. *)
Lemma authMiddleware_guards rt h req w rw :
  (exists w1 rw1, authMiddleware rt h req (w, rw) = (Ret tt, (w1, rw1)) /\ tasks w1 = tasks w /\
     (rw_code rw = None -> rw_code rw1 <> Some StatusCreated)) \/
  (exists c w1, ValidateToken (rt_jwtManager rt) (router_extractBearerToken req) w =
      (Ret (inr c), w1) /\ tasks w1 = tasks w /\
    authMiddleware rt h req (w, rw) =
      h (with_ctx (ctx_with_claims c (rq_Ctx req)) req) (w1, rw)).
Proof.
  unfold authMiddleware. case_decide.
  { left. do 2 eexists. split; [reflexivity|]. split; [done|]. simpl. by intros ->. }
  rewrite on_world_bind.
  destruct (ValidateToken_returns (rt_jwtManager rt) (router_extractBearerToken req) w)
    as (v & w1 & E). rewrite E. pose proof (ValidateToken_tasks _ _ _ _ _ E) as Hw1.
  destruct v as [err|c]; [left|right; by exists c, w1].
  do 2 eexists. split; [reflexivity|]. split; [done|]. simpl. by intros ->.
Qed.

Lemma clock_after_tasks (m : GoM (HState (W := W) (B := body)) unit) st :
  tasks ((m ≫= fun _ => on_world (lift clock_now) ≫= fun _ => mret tt) st).2.1 =
  tasks (m st).2.1.
Proof.
  destruct (m st) as [[u|e] [w1 rw1]] eqn:E.
  - rewrite (GoM_bind_ret _ _ _ _ _ E), on_world_bind. unfold lift.
    pose proof (clock_tasks w1). by destruct (clock_now w1).
  - by rewrite (GoM_bind_panic _ _ _ _ _ E).
Qed.

Lemma v1_chain_isolates rt h req w rw :
  h ∈ task_handlers -> ctx_claims (rq_Ctx req) = None ->
  let w' := (v1_chain rt h req (w, rw)).2.1 in
  tasks w' = tasks w \/
  exists c w1 w2, tasks w1 = tasks w /\ w1 = (clock_now (clock_now w).2).2 /\
    ValidateToken (rt_jwtManager rt) (router_extractBearerToken req) w1 = (Ret (inr c), w2) /\
    forall k, k.1 <> tenant_namespace (cl_TenantID c) -> tasks w' !! k = tasks w !! k.
Proof.
  intros Hh Hc. simpl.
  destruct (v1_chain_run rt h req w rw Hc) as [(rw1 & -> & _)|(w1 & rw1 & req1 & Hw1 & Hclk & Hreq & _ & ->)];
    [by left|].
  assert (router_extractBearerToken req1 = router_extractBearerToken req) as Htok.
  { destruct Hreq as (Hhd & _). unfold router_extractBearerToken, header_get. by rewrite Hhd. }
  rewrite clock_after_tasks.
  destruct (authMiddleware_guards rt h req1 w1 rw1) as
    [(w2 & rw2 & E & Hw2 & _)|(c & w2 & Ev & Hw2 & E)]; rewrite E.
  - left. simpl. congruence.
  - right. exists c, w1, w2. rewrite <- Htok. split_and!; [done..|]. intros k Hk.
    destruct (handler_confined h (with_ctx (ctx_with_claims c (rq_Ctx req1)) req1) c w2 rw1 Hh
      eq_refl) as [Hiso _]. rewrite Hiso by done. simpl. congruence.
Qed.

(** What the router does with a request: it answers it itself or panics in the logging
    of a health check, or runs the chain of a task handler. *)
Lemma serve_cases rt req w :
  ctx_claims (rq_Ctx req) = None -> ctx_request_id (rq_Ctx req) = None ->
  (exists o w' rw', serve rt req (w, fresh_response) = (o, (w', rw')) /\
     (w' = w \/ w' = (clock_now w).2)) \/
  exists h, h ∈ task_handlers /\ serve rt req (w, fresh_response) = v1_chain rt h req (w, fresh_response).
Proof.
  intros Hc Hid. unfold serve.
  assert (forall h, health_chain h req (w, fresh_response) =
    (Panic "interface conversion: interface {} is nil, not string",
     ((clock_now w).2, fresh_response))) as Hhealth.
  { intros h. unfold health_chain, chainMiddleware. simpl. unfold requestLoggingMiddleware.
    rewrite on_world_bind. unfold lift. destruct (clock_now w). by rewrite Hid. }
  unfold SetupRoutes. repeat case_match; subst;
    first [ left; rewrite Hhealth; do 3 eexists; split; [reflexivity|by right]
          | left; do 3 eexists; split; [reflexivity|by left]
          | right; eexists; split; [|reflexivity]; unfold task_handlers; set_solver ].
Qed.

Lemma serve_isolates rt req w :
  ctx_claims (rq_Ctx req) = None -> ctx_request_id (rq_Ctx req) = None ->
  let w' := (serve rt req (w, fresh_response)).2.1 in
  tasks w' = tasks w \/
  exists c w1 w2, tasks w1 = tasks w /\ w1 = (clock_now (clock_now w).2).2 /\
    ValidateToken (rt_jwtManager rt) (router_extractBearerToken req) w1 = (Ret (inr c), w2) /\
    forall k, k.1 <> tenant_namespace (cl_TenantID c) -> tasks w' !! k = tasks w !! k.
Proof.
  intros Hc Hid. destruct (serve_cases rt req w Hc Hid) as [(o & w' & rw' & -> & Hw)|(h & Hh & ->)].
  - left. destruct Hw as [->| ->]; [done|apply clock_tasks].
  - by apply v1_chain_isolates.
Qed.

(** C4: the gateway as a whole.  For every request that arrives with an empty
    context, either no task changes, or the bearer token of the request
    validates, after the two clock readings that come before authentication, and
    every task outside the namespace of the token's tenant is
    left as it was. *)
Theorem gateway_isolates_tenants rt req w :
  ctx_claims (rq_Ctx req) = None -> ctx_request_id (rq_Ctx req) = None ->
  let w' := (serve rt req (w, fresh_response)).2.1 in
  tasks w' = tasks w \/
  exists c w1 w2, tasks w1 = tasks w /\ w1 = (clock_now (clock_now w).2).2 /\
    ValidateToken (rt_jwtManager rt) (router_extractBearerToken req) w1 = (Ret (inr c), w2) /\
    forall k, k.1 <> tenant_namespace (cl_TenantID c) -> tasks w' !! k = tasks w !! k.
Proof. apply serve_isolates. Qed.
End Router.

(** ** The theorems at work on the in-memory server *)

Section Witnesses.
#[local] Existing Instance toy_jwt.
#[local] Existing Instance toy_gateway.
#[local] Existing Instance no_webhook.

#[local] Instance no_redis : Redis MemWorld := {
  redis_exec _ w := (inl (RedisError "connection refused"), w);
  redis_scan _ _ _ w := (inl (RedisError "connection refused"), w);
  redis_del _ w := (Some (RedisError "connection refused"), w)
}.
#[local] Instance good_probes : Probes MemWorld := {
  probe_kube := Some (fun w => (None, w));
  probe_redis := None;
  format_utc t := pretty t
}.

Definition ex_router : Router :=
  {| rt_rateLimiter := Some NewRateLimiter; rt_jwtManager := toy_manager |}.

Definition r_health : Request := ex_request "GET" "/healthz" "" None.
Definition r_create : Request :=
  {| rq_Method := "POST"; rq_Path := "/v1/tasks"; rq_RequestURI := "/v1/tasks"; rq_RemoteAddr := "10.0.0.9:4711";
     rq_Query := ∅;
     rq_Headers := {["Authorization" := "Bearer hs256.k1"]}; rq_Body := inr "{named}";
     rq_Ctx := {| ctx_claims := None; ctx_request_id := None; ctx_log := ∅ |} |}.

Lemma health_routes_panic_witness :
  exists m w', serve ex_router r_health (gw_world [], fresh_response) =
    (Panic m, (w', fresh_response)).
Proof.
  destruct (health_routes_panic ex_router r_health (gw_world []) fresh_response) as (m & E);
    [by left|done|]. by exists m, (clock_now (gw_world [])).2.
Defined.

Lemma rate_limit_never_applied_witness :
  v1_chain ex_router CreateTask r_create (gw_world [], fresh_response) =
    chainMiddleware CreateTask [corsMiddleware; requestIDMiddleware; requestLoggingMiddleware;
      authMiddleware ex_router] r_create (gw_world [], fresh_response).
Proof. apply rate_limit_never_applied. reflexivity. Defined.

Lemma gateway_isolates_tenants_witness :
  let w' := (serve ex_router r_create (gw_world [], fresh_response)).2.1 in
  c_store (T := CloudTask) w' = c_store (gw_world []) \/
  exists c w1 w2, c_store (T := CloudTask) w1 = c_store (gw_world []) /\
    w1 = (clock_now (clock_now (gw_world [])).2).2 /\
    ValidateToken (rt_jwtManager ex_router) (router_extractBearerToken r_create) w1 =
      (Ret (inr c), w2) /\
    forall k, k.1 <> tenant_namespace (cl_TenantID c) ->
      c_store (T := CloudTask) w' !! k = c_store (gw_world []) !! k.
Proof.
  apply (gateway_isolates_tenants (W := MemWorld)); [intros w|..]; reflexivity.
Defined.

(** The request of the last example does create the task. *)
Example create_through_gateway :
  is_Some (c_store (T := CloudTask) (serve ex_router r_create (gw_world [], fresh_response)).2.1
    !! ("tenant-acme", "t1")).
Proof. vm_compute. eauto. Qed.
End Witnesses.
