(* ===== verification/Module1Client.v ===== *)
(** * The gRPC client of the scheduler service

    Models [pkg/grpc/module1_client.go] and the request and response types of
    [pkg/grpc/client.go].  The client's fields are the record
    [Module1RealClient]; the gRPC library, the remote service, timers and the
    caller's context are the class [Grpc].  Every critical section of the code
    (the code between [Lock] and [Unlock]) is one function on the circuit
    breaker, so that concurrent callers are sequences of these functions in any
    order ([Module1Proofs]).  Log lines are not modelled. *)

From S2P Require Import Prelude GoStrings GoTime Kube.

(** ** Types *)

Record SubmitTaskRequest := {
  sub_TaskID : string;
  sub_TenantID : string;
  sub_Image : string;
  sub_Command : list string;
  sub_CPURequest : string;
  sub_MemoryRequest : string;
  sub_Priority : Z;
  sub_TimeoutSeconds : Z
}.

Record SubmitTaskResponse := {
  sr_Accepted : bool;
  sr_QueuePosition : Z;
  sr_EstimatedStartSeconds : Z;
  sr_Reason : string
}.

Record TaskStatusResponse := {
  ts_TaskID : string;
  ts_Status : string;
  ts_PodName : string;
  ts_StartedAt : Z;
  ts_CompletedAt : Z;
  ts_ExitCode : Z
}.

Record QueueDepthResponse := {
  qd_TotalQueued : Z;
  qd_PendingTasks : Z;
  qd_RunningTasks : Z
}.

Inductive CircuitBreakerState : Type := StateClosed | StateOpen | StateHalfOpen.

#[export] Instance CircuitBreakerState_eq_dec : EqDecision CircuitBreakerState.
Proof. solve_decision. Defined.

Record ClientConfig := {
  MaxRetries : Z;
  Timeout : Z;
  RetryBackoff : Z;
  MaxConsecutiveErr : Z;
  CircuitRecoverTime : Z;
  HealthCheckInterval : Z
}.

(** The fields guarded by the mutex that make up the circuit breaker. *)
Record Breaker := {
  consecutiveErr : Z;
  circuitState : CircuitBreakerState;
  lastFailTime : Z
}.

Inductive ConnState : Type := Idle | Connecting | Ready | TransientFailure | Shutdown.

(** ** The circuit breaker *)

(** [checkCircuitBreaker] at time [now]: an error, or nil, and the new state. *)
Definition checkCircuitBreaker (cfg : ClientConfig) (now : Z) (b : Breaker)
    : option string * Breaker :=
  match circuitState b with
  | StateClosed => (None, b)
  | StateOpen =>
      if decide (now - lastFailTime b > CircuitRecoverTime cfg) then
        (None, {| consecutiveErr := 0; circuitState := StateHalfOpen;
                  lastFailTime := lastFailTime b |})
      else (Some "circuit breaker is open", b)
  | StateHalfOpen => (None, b)
  end.

Definition recordSuccess (b : Breaker) : Breaker :=
  {| consecutiveErr := 0;
     circuitState := match circuitState b with
                     | StateHalfOpen => StateClosed
                     | s => s
                     end;
     lastFailTime := lastFailTime b |}.

Definition recordFailure (cfg : ClientConfig) (now : Z) (b : Breaker) : Breaker :=
  let n := int64 (consecutiveErr b + 1) in
  {| consecutiveErr := n;
     circuitState := if decide (n >= MaxConsecutiveErr cfg /\ circuitState b <> StateOpen)
                     then StateOpen else circuitState b;
     lastFailTime := now |}.

(** The reset of a successful (re)connection. *)
Definition connected_breaker (b : Breaker) : Breaker :=
  {| consecutiveErr := 0; circuitState := StateClosed; lastFailTime := lastFailTime b |}.

(** ** The outside: gRPC, timers, the remote service *)

Class Grpc (W : Type) := {
  Conn : Type;
  grpc_dial : string -> W -> (string + Conn) * W;
  grpc_state : Conn -> W -> ConnState * W;
  grpc_close : Conn -> W -> option string * W;
  grpc_sleep : Z -> W -> W;
  (** the [select] between a timer and the caller's context: [None] when the
      timer fires first, [Some e] when the context is done with error [e] *)
  grpc_wait : Z -> W -> option string * W;
  rpc_SubmitTask : SubmitTaskRequest -> W -> (string + SubmitTaskResponse) * W;
  rpc_GetTaskStatus : string -> W -> (string + TaskStatusResponse) * W;
  rpc_CancelTask : string -> W -> (string + (bool * string)) * W;
  rpc_GetQueueDepth : W -> (string + QueueDepthResponse) * W
}.

Section Client.
Context {W : Type} `{!Grpc W, !Clock W}.

Record Module1RealClient := {
  m1_address : string;
  m1_conn : option Conn;
  m1_breaker : Breaker;
  m1_config : ClientConfig;
  m1_stopped : bool
}.

Definition set_breaker (b : Breaker) (c : Module1RealClient) : Module1RealClient :=
  {| m1_address := m1_address c; m1_conn := m1_conn c; m1_breaker := b;
     m1_config := m1_config c; m1_stopped := m1_stopped c |}.
Definition set_conn (k : Conn) (c : Module1RealClient) : Module1RealClient :=
  {| m1_address := m1_address c; m1_conn := Some k;
     m1_breaker := connected_breaker (m1_breaker c);
     m1_config := m1_config c; m1_stopped := m1_stopped c |}.

(** Programs over the client and the world. *)
Definition CState : Type := Module1RealClient * W.
Abbreviation M := (GoM CState).

Definition outside {A} (op : W -> A * W) : M A := fun st =>
  let '(a, w') := op st.2 in (Ret a, (st.1, w')).
Definition client : M Module1RealClient := fun st => (Ret st.1, st).
Definition update (f : Module1RealClient -> Module1RealClient) : M unit := fun st =>
  (Ret tt, (f st.1, st.2)).
Definition sleep (d : Z) : M unit := fun st => (Ret tt, (st.1, grpc_sleep d st.2)).

(** ** Connecting *)

(** [connectWithRetry] from attempt [attempt] on, [n] attempts left. *)
Fixpoint connect_loop (n : nat) (attempt : Z) : M (option string) :=
  c ← client;
  match n with
  | O => mret (Some ("failed to connect to Module 1 after " +:+
                     pretty (MaxRetries (m1_config c)) +:+ " attempts"))
  | S n' =>
      r ← outside (grpc_dial (m1_address c));
      match r with
      | inr k => _ ← update (set_conn k); mret None
      | inl _ =>
          _ ← (if decide (attempt < MaxRetries (m1_config c)) then
                 sleep (int64 (RetryBackoff (m1_config c) * int64 (2 ^ (attempt - 1))))
               else mret tt);
          connect_loop n' (attempt + 1)
      end
  end.

Definition connectWithRetry : M (option string) :=
  c ← client; connect_loop (Z.to_nat (MaxRetries (m1_config c))) 1.

Definition ensureConnected : M (option string) :=
  c ← client;
  match m1_conn c with
  | None => mret (Some "client not connected")
  | Some k =>
      s ← outside (grpc_state k);
      match s with
      | TransientFailure | Shutdown => connectWithRetry
      | _ => mret None
      end
  end.

(** ** Calls *)

(** [callFunc] gives [Some e] on failure.  [n] is the number of attempts left,
    so that this attempt is followed by a wait exactly when [n > 1]. *)
Fixpoint retry_loop {R} (n : nat) (backoff : Z) (lastErr : string)
    (callFunc : M (string + R)) : M (string + R) :=
  match n with
  | O =>
      now ← outside clock_now;
      c ← client;
      _ ← update (fun c => set_breaker (recordFailure (m1_config c) now (m1_breaker c)) c);
      mret (inl ("gRPC call failed after " +:+ pretty (int64 (MaxRetries (m1_config c) + 1)) +:+
                 " attempts: " +:+ lastErr))
  | S n' =>
      r ← callFunc;
      match r with
      | inr x =>
          _ ← update (fun c => set_breaker (recordSuccess (m1_breaker c)) c);
          mret (inr x)
      | inl err =>
          match n' with
          | O => retry_loop n' backoff err callFunc
          | S _ =>
              d ← outside (grpc_wait backoff);
              match d with
              | None => retry_loop n' (int64 (backoff * 2)) err callFunc
              | Some ctxErr => mret (inl ctxErr)
              end
          end
      end
  end.

Definition callWithRetry {R} (callFunc : M (string + R)) : M (string + R) :=
  now ← outside clock_now;
  c ← client;
  let '(e, b) := checkCircuitBreaker (m1_config c) now (m1_breaker c) in
  _ ← update (set_breaker b);
  match e with
  | Some err => mret (inl err)
  | None => retry_loop (Z.to_nat (MaxRetries (m1_config c) + 1)) (RetryBackoff (m1_config c))
              "%!w(<nil>)" callFunc
  end.

(** The shape of the four calls. *)
Definition connected_call {R} (callFunc : M (string + R)) : M (string + R) :=
  e ← ensureConnected;
  match e with
  | Some err => mret (inl err)
  | None => callWithRetry callFunc
  end.

Definition SubmitTask (req : SubmitTaskRequest) : M (string + SubmitTaskResponse) :=
  connected_call (outside (rpc_SubmitTask req)).

Definition GetTaskStatus (taskID : string) : M (string + TaskStatusResponse) :=
  connected_call (outside (rpc_GetTaskStatus taskID)).

(** A cancellation the service refuses is an error of the attempt. *)
Definition cancel_attempt (taskID : string) : M (string + unit) :=
  r ← outside (rpc_CancelTask taskID);
  match r with
  | inl e => mret (inl e)
  | inr (cancelled, reason) =>
      if cancelled : bool then mret (inr tt)
      else mret (inl ("task cancellation rejected: " +:+ reason))
  end.

Definition CancelTask (taskID : string) : M (option string) :=
  r ← connected_call (cancel_attempt taskID);
  match r with
  | inl e => mret (Some e)
  | inr _ => mret None
  end.

Definition GetQueueDepth : M (string + QueueDepthResponse) :=
  connected_call (outside rpc_GetQueueDepth).

(** One tick of [healthCheckLoop]. *)
Definition healthCheckTick : M unit := _ ← GetQueueDepth; mret tt.

(** A turn of its loop: it ends when the client is closed; a failed check is logged
    and the loop goes on. *)
Inductive health_event : Type := HealthStop | HealthTick.
Definition healthCheckLoop (ev : health_event) : M bool :=
  match ev with
  | HealthStop => mret false
  | HealthTick => _ ← healthCheckTick; mret true
  end.

Definition GetCircuitBreakerState (c : Module1RealClient) : string :=
  match circuitState (m1_breaker c) with
  | StateClosed => "closed"
  | StateOpen => "open"
  | StateHalfOpen => "half-open"
  end.

(** [Close]: closing the stop channel twice panics. *)
Definition Close : M (option string) :=
  c ← client;
  if m1_stopped c then go_panic "close of closed channel"
  else
    _ ← update (fun c => {| m1_address := m1_address c; m1_conn := m1_conn c;
                            m1_breaker := m1_breaker c; m1_config := m1_config c;
                            m1_stopped := true |});
    match m1_conn c with
    | Some k => outside (grpc_close k)
    | None => mret None
    end.

(** ** Construction from the environment *)

Definition client_config (getenv : string -> string) : ClientConfig :=
  let timeout := getenv "MODULE1_GRPC_TIMEOUT" in
  let maxRetries := getenv "MODULE1_GRPC_MAX_RETRIES" in
  {| MaxRetries := if decide (maxRetries <> "") then default 3 (atoi maxRetries) else 3;
     Timeout := if decide (timeout <> "")
                then default (30 * Second) ((fun t => int64 (t * Second)) <$> atoi timeout)
                else 30 * Second;
     RetryBackoff := 1 * Second;
     MaxConsecutiveErr := 5;
     CircuitRecoverTime := 30 * Second;
     HealthCheckInterval := 30 * Second |}.

Definition initial_client (getenv : string -> string) : Module1RealClient :=
  let a := getenv "MODULE1_GRPC_ADDRESS" in
  {| m1_address := if decide (a = "") then "module1-scheduler:50051" else a;
     m1_conn := None;
     m1_breaker := {| consecutiveErr := 0; circuitState := StateClosed; lastFailTime := 0 |};
     m1_config := client_config getenv;
     m1_stopped := false |}.

Definition NewModule1RealClient (getenv : string -> string) (w : W)
    : outcome (string + Module1RealClient) * W :=
  match connectWithRetry (initial_client getenv, w) with
  | (Ret (Some e), (_, w')) => (Ret (inl e), w')
  | (Ret None, (c, w')) => (Ret (inr c), w')
  | (Panic e, (_, w')) => (Panic e, w')
  end.
End Client.
