(* ===== verification/Module1Proofs.v ===== *)
(** * What the scheduler client guarantees

    The circuit breaker under every interleaving of its critical sections, the
    retries of one call for every sequence of outcomes, and the interplay of the
    two. *)

From S2P Require Import Prelude GoStrings GoTime Kube Module1Client.

(** ** The circuit breaker as a state machine *)

(** The critical sections concurrent callers may run, in any order. *)
Inductive breaker_event : Type :=
| EvCheck (now : Z)
| EvSuccess
| EvFailure (now : Z)
| EvConnect.

Definition breaker_step (cfg : ClientConfig) (b : Breaker) (e : breaker_event) : Breaker :=
  match e with
  | EvCheck now => (checkCircuitBreaker cfg now b).2
  | EvSuccess => recordSuccess b
  | EvFailure now => recordFailure cfg now b
  | EvConnect => connected_breaker b
  end.

Definition breaker_run (cfg : ClientConfig) (b : Breaker) (es : list breaker_event) : Breaker :=
  foldl (breaker_step cfg) b es.

Definition is_failure (e : breaker_event) : bool :=
  match e with EvFailure _ => true | _ => false end.
Definition is_reset (e : breaker_event) : bool :=
  match e with EvSuccess | EvConnect => true | _ => false end.

Definition failures (es : list breaker_event) : Z :=
  Z.of_nat (length (List.filter is_failure es)).

Lemma failures_app es1 es2 : failures (es1 ++ es2) = failures es1 + failures es2.
Proof. unfold failures. rewrite List.filter_app, length_app. lia. Qed.

(** [es] contains at least [n] failures with no success among them. *)
Definition failure_streak (n : Z) (es : list breaker_event) : Prop :=
  exists pre seg post, es = pre ++ seg ++ post /\
    Forall (fun e => is_reset e = false) seg /\ n <= failures seg.

(** What the fields record of the history. *)
Definition breaker_history (cfg : ClientConfig) (b : Breaker) (es : list breaker_event) : Prop :=
  match circuitState b with
  | StateOpen => failure_streak (MaxConsecutiveErr cfg) es
  | _ => 0 <= consecutiveErr b < MaxConsecutiveErr cfg /\
      exists pre seg, es = pre ++ seg /\ Forall (fun e => is_reset e = false) seg /\
        failures seg = consecutiveErr b
  end.

Lemma failure_streak_snoc n es e : failure_streak n es -> failure_streak n (es ++ [e]).
Proof.
  intros (pre & seg & post & -> & Hseg & Hn). exists pre, seg, (post ++ [e]).
  by rewrite <- !app_assoc.
Qed.

Lemma breaker_history_fresh cfg b es :
  1 <= MaxConsecutiveErr cfg -> circuitState b <> StateOpen -> consecutiveErr b = 0 ->
  breaker_history cfg b es.
Proof.
  intros Hmax Hst He. unfold breaker_history.
  destruct (circuitState b); try done; (split; [lia|]); exists es, []; rewrite app_nil_r, He; done.
Qed.

Lemma breaker_history_step cfg b es e :
  1 <= MaxConsecutiveErr cfg < 2 ^ 63 ->
  breaker_history cfg b es -> breaker_history cfg (breaker_step cfg b e) (es ++ [e]).
Proof.
  intros Hmax Hh. destruct e as [now| |now|]; simpl.
  - unfold checkCircuitBreaker. destruct (circuitState b) eqn:Es; simpl.
    2: { case_decide; [apply breaker_history_fresh; simpl; done || lia|].
         unfold breaker_history in *. simpl. rewrite Es in *. by apply failure_streak_snoc. }
    all: unfold breaker_history in *; rewrite Es in *; destruct Hh as (? & pre & seg & -> & Hs & Hf);
      (split; [done|]); exists pre, (seg ++ [EvCheck now]);
      rewrite <- app_assoc, failures_app, Forall_app; split_and!; auto;
      unfold failures in *; simpl; lia.
  - unfold recordSuccess. destruct (circuitState b) eqn:Es.
    1, 3: apply breaker_history_fresh; simpl; done || lia.
    unfold breaker_history in *. simpl. rewrite Es in *. by apply failure_streak_snoc.
  - unfold recordFailure, breaker_history in *. simpl.
    destruct (circuitState b) eqn:Es.
    2: { rewrite decide_False by naive_solver. by apply failure_streak_snoc. }
    all: destruct Hh as (Hr & pre & seg & -> & Hs & Hf);
      rewrite wrap_id by (unfold in_width; lia);
      assert (failures (seg ++ [EvFailure now]) = consecutiveErr b + 1) as Hf'
        by (rewrite failures_app, Hf; done);
      assert (Forall (fun e => is_reset e = false) (seg ++ [EvFailure now])) as Hs'
        by (apply Forall_app; auto);
      case_decide as Hd; [exists pre, (seg ++ [EvFailure now]), []; rewrite app_nil_r, <- app_assoc;
        split_and!; auto; lia|];
      (split; [split; [lia|apply Z.nle_gt; intros ?; apply Hd; split; [lia|done]]|]); exists pre, (seg ++ [EvFailure now]);
      by rewrite <- app_assoc.
  - apply breaker_history_fresh; simpl; done || lia.
Qed.

Definition closed_breaker : Breaker :=
  {| consecutiveErr := 0; circuitState := StateClosed; lastFailTime := 0 |}.

(** C11: the circuit opens only after [MaxConsecutiveErr] failed calls with no
    successful call or reconnection among them, and while it is not open fewer
    than that many failures have been counted, under every interleaving of the
    critical sections of concurrent callers. *)
Theorem circuit_opens_only_after_failures cfg es :
  1 <= MaxConsecutiveErr cfg < 2 ^ 63 ->
  let b := breaker_run cfg closed_breaker es in
  (circuitState b = StateOpen -> failure_streak (MaxConsecutiveErr cfg) es) /\
  (circuitState b <> StateOpen -> 0 <= consecutiveErr b < MaxConsecutiveErr cfg).
Proof.
  intros Hmax. simpl. unfold breaker_run.
  assert (breaker_history cfg (foldl (breaker_step cfg) closed_breaker es) es) as Hh.
  { induction es as [|e es IH] using rev_ind; [apply breaker_history_fresh; simpl; done || lia|].
    rewrite foldl_app. simpl. by apply breaker_history_step. }
  unfold breaker_history in Hh. split; intros Hs.
  - by rewrite Hs in Hh.
  - destruct (circuitState _); naive_solver.
Qed.

(** a half-open circuit is closed by one success, but one failure does not
    open it again: after the recovery time it stays half-open, letting every call
    through, until [MaxConsecutiveErr] further failures have been counted. *)
Theorem half_open_tolerates_failures cfg b now (ts : list Z) :
  1 <= MaxConsecutiveErr cfg < 2 ^ 63 ->
  circuitState b = StateOpen -> now - lastFailTime b > CircuitRecoverTime cfg ->
  let b' := breaker_run cfg b (EvCheck now :: (EvFailure <$> ts)) in
  (Z.of_nat (length ts) < MaxConsecutiveErr cfg ->
     circuitState b' = StateHalfOpen /\ forall t, (checkCircuitBreaker cfg t b').1 = None) /\
  (Z.of_nat (length ts) = MaxConsecutiveErr cfg -> circuitState b' = StateOpen) /\
  circuitState (recordSuccess (breaker_run cfg b [EvCheck now])) = StateClosed.
Proof.
  intros Hmax Hopen Hwait. unfold breaker_run. simpl.
  assert ((checkCircuitBreaker cfg now b).2 = {| consecutiveErr := 0;
    circuitState := StateHalfOpen; lastFailTime := lastFailTime b |}) as ->
    by (unfold checkCircuitBreaker; by rewrite Hopen, decide_True).
  assert (forall ts b0, circuitState b0 = StateHalfOpen -> 0 <= consecutiveErr b0 ->
    consecutiveErr b0 + Z.of_nat (length ts) < MaxConsecutiveErr cfg ->
    circuitState (foldl (breaker_step cfg) b0 (EvFailure <$> ts)) = StateHalfOpen /\
    consecutiveErr (foldl (breaker_step cfg) b0 (EvFailure <$> ts)) =
      consecutiveErr b0 + Z.of_nat (length ts)) as Hrun.
  { clear ts. intros ts. induction ts as [|t ts IH]; intros b0 Hs H0 Hlt; simpl in *; [split; [done|lia]|].
    assert (int64 (consecutiveErr b0 + 1) = consecutiveErr b0 + 1) as Hw
      by (apply wrap_id; unfold in_width; lia).
    destruct (IH (recordFailure cfg t b0)) as [IH1 IH2].
    - simpl. rewrite Hw, decide_False by lia. done.
    - simpl. rewrite Hw. lia.
    - simpl. rewrite Hw. lia.
    - split; [exact IH1|]. etrans; [exact IH2|]. simpl. rewrite Hw. lia. }
  split_and!; [| |done].
  - intros Hlt. destruct (Hrun ts {| consecutiveErr := 0; circuitState := StateHalfOpen;
      lastFailTime := lastFailTime b |}) as [Hs _]; simpl; try done; try lia.
    split; [exact Hs|]. intros t. unfold checkCircuitBreaker. by rewrite Hs.
  - intros Heq. destruct ts as [|t ts _] using rev_ind; [simpl in Heq; lia|].
    rewrite length_app in Heq. simpl in Heq. rewrite fmap_app, foldl_app. simpl.
    destruct (Hrun ts {| consecutiveErr := 0; circuitState := StateHalfOpen;
      lastFailTime := lastFailTime b |}) as [Hs He]; simpl; try done; try lia.
    rewrite Hs, He. simpl. rewrite wrap_id by (unfold in_width; lia).
    by rewrite decide_True by (split; [lia|done]).
Qed.

(** ** Calls *)

Section Calls.
Context {W : Type} `{!Grpc W, !Clock W}.

(** While the circuit is open and the recovery time has not passed, every
    call fails at once: the remote procedure is not called, nothing is waited
    for, and the client is unchanged. *)
Theorem open_circuit_fails_fast {R} (callFunc : GoM (CState (W := W)) (string + R)) c w :
  circuitState (m1_breaker c) = StateOpen ->
  (clock_now w).1 - lastFailTime (m1_breaker c) <= CircuitRecoverTime (m1_config c) ->
  callWithRetry callFunc (c, w) =
    (Ret (inl "circuit breaker is open"), (c, (clock_now w).2)).
Proof.
  intros Hopen Htime. unfold callWithRetry, outside, client, update, mbind, GoM_bind. simpl.
  destruct (clock_now w) as [now w1]. simpl in *. unfold checkCircuitBreaker.
  rewrite Hopen, decide_False by lia. simpl. by destruct c.
Qed.

Lemma outside_bind {A B} (op : W -> A * W) (k : A -> GoM (CState (W := W)) B) c w :
  (outside op ≫= k) (c, w) = k (op w).1 (c, (op w).2).
Proof. unfold outside, mbind, GoM_bind. simpl. by destruct (op w). Qed.

Lemma client_bind {B} (k : Module1RealClient -> GoM (CState (W := W)) B) c w :
  (client ≫= k) (c, w) = k c (c, w).
Proof. done. Qed.

Lemma update_bind {B} f (k : unit -> GoM (CState (W := W)) B) c w :
  (update f ≫= k) (c, w) = k tt (f c, w).
Proof. done. Qed.

Lemma set_breaker_id c : set_breaker (m1_breaker c) c = c.
Proof. by destruct c. Qed.

(** With a closed circuit the call is the retry loop. *)
Lemma callWithRetry_closed {R} (callFunc : GoM (CState (W := W)) (string + R)) c w :
  circuitState (m1_breaker c) = StateClosed ->
  callWithRetry callFunc (c, w) =
    retry_loop (Z.to_nat (MaxRetries (m1_config c) + 1)) (RetryBackoff (m1_config c))
      "%!w(<nil>)" callFunc (c, (clock_now w).2).
Proof.
  intros Hs. unfold callWithRetry. rewrite outside_bind, client_bind.
  unfold checkCircuitBreaker. rewrite Hs, update_bind. by rewrite set_breaker_id.
Qed.

(** A call that fails on every attempt records exactly one failure. *)
Lemma retry_loop_all_fail {R} n backoff e (callFunc : GoM (CState (W := W)) (string + R)) c w :
  (forall w, exists err w', callFunc (c, w) = (Ret (inl err), (c, w'))) ->
  (forall d w, (grpc_wait d w).1 = None) ->
  exists err now w', retry_loop n backoff e callFunc (c, w) =
    (Ret (inl err), (set_breaker (recordFailure (m1_config c) now (m1_breaker c)) c, w')).
Proof.
  intros Hfail Hwait. revert backoff e w. induction n as [|n IH]; intros backoff e w.
  - simpl. rewrite outside_bind, client_bind, update_bind. by do 3 eexists.
  - cbn [retry_loop]. destruct (Hfail w) as (err & w1 & E).
    rewrite (GoM_bind_ret _ _ _ _ _ E). destruct n as [|n]; [apply IH|].
    rewrite outside_bind, Hwait. apply IH.
Qed.

(** ** Refused cancellations *)

Definition cancels (n : nat) (id : string) : GoM (CState (W := W)) unit :=
  Nat.iter n (fun m => _ ← CancelTask id; m) (mret tt).

Lemma CancelTask_refused id c w :
  (forall w, exists reason w', rpc_CancelTask id w = (inr (false, reason), w')) ->
  (forall d w, (grpc_wait d w).1 = None) ->
  (forall k w, (grpc_state k w).1 = Ready) ->
  is_Some (m1_conn c) -> circuitState (m1_breaker c) = StateClosed ->
  exists err now w', CancelTask id (c, w) =
    (Ret (Some err), (set_breaker (recordFailure (m1_config c) now (m1_breaker c)) c, w')).
Proof.
  intros Hrej Hwait Hready [k Hk] Hs. unfold CancelTask, connected_call, ensureConnected.
  assert (forall w, exists err w', cancel_attempt id (c, w) = (Ret (inl err), (c, w'))) as Hfail.
  { intros w0. destruct (Hrej w0) as (reason & w' & E). unfold cancel_attempt.
    rewrite outside_bind, E. by do 2 eexists. }
  destruct (retry_loop_all_fail (Z.to_nat (MaxRetries (m1_config c) + 1))
    (RetryBackoff (m1_config c)) "%!w(<nil>)" (cancel_attempt id) c
    (clock_now (grpc_state k w).2).2 Hfail Hwait) as (err & now & w' & E).
  exists err, now, w'.
  assert ((client ≫= fun c0 => match m1_conn c0 with
      | Some k0 => s ← outside (grpc_state k0);
          match s with TransientFailure | Shutdown => connectWithRetry | _ => mret None end
      | None => mret (Some "client not connected") end) (c, w)
    = (Ret None, (c, (grpc_state k w).2))) as Ec
    by (rewrite client_bind, Hk, outside_bind; by rewrite Hready).
  erewrite (GoM_bind_ret _ _ (c, w)); [|rewrite (GoM_bind_ret _ _ _ _ _ Ec),
    callWithRetry_closed by done; exact E]. done.
Qed.

(** refused cancellations open the circuit.  A cancellation that the
    service answers and refuses is retried and then counted like a failed call,
    so [MaxConsecutiveErr] refusals in a row (of tasks that are finished or
    unknown) leave the circuit open for every other call, although the service
    is reachable. *)
Theorem refused_cancellations_open_circuit id c w :
  (forall w, exists reason w', rpc_CancelTask id w = (inr (false, reason), w')) ->
  (forall d w, (grpc_wait d w).1 = None) ->
  (forall k w, (grpc_state k w).1 = Ready) ->
  is_Some (m1_conn c) -> circuitState (m1_breaker c) = StateClosed ->
  consecutiveErr (m1_breaker c) = 0 ->
  1 <= MaxConsecutiveErr (m1_config c) < 2 ^ 63 ->
  exists c' w', cancels (Z.to_nat (MaxConsecutiveErr (m1_config c))) id (c, w) = (Ret tt, (c', w')) /\
    circuitState (m1_breaker c') = StateOpen.
Proof.
  intros Hrej Hwait Hready Hconn Hs He Hmax.
  assert (forall n c w, is_Some (m1_conn c) -> circuitState (m1_breaker c) = StateClosed ->
    0 <= consecutiveErr (m1_breaker c) ->
    consecutiveErr (m1_breaker c) + Z.of_nat (S n) = MaxConsecutiveErr (m1_config c) ->
    MaxConsecutiveErr (m1_config c) < 2 ^ 63 ->
    exists c' w', cancels (S n) id (c, w) = (Ret tt, (c', w')) /\
      circuitState (m1_breaker c') = StateOpen) as Hgen.
  { clear -Hrej Hwait Hready. intros n. induction n as [|n IH]; intros c w Hconn Hs H0 Hn Hmax.
    all: destruct (CancelTask_refused id c w Hrej Hwait Hready Hconn Hs) as (err & now & w1 & E).
    all: assert (int64 (consecutiveErr (m1_breaker c) + 1) = consecutiveErr (m1_breaker c) + 1)
      as Hw by (apply wrap_id; unfold in_width; lia).
    - do 2 eexists. split; [unfold cancels; simpl; by rewrite (GoM_bind_ret _ _ _ _ _ E)|].
      simpl. rewrite Hw, decide_True; [done|]. rewrite Hs. split; [lia|done].
    - change (cancels (S (S n)) id) with (_ ← CancelTask id; cancels (S n) id).
      rewrite (GoM_bind_ret _ _ _ _ _ E). apply IH; simpl; rewrite ?Hw; try done; try lia.
      by rewrite decide_False by lia. }
  destruct (Z.to_nat (MaxConsecutiveErr (m1_config c))) as [|n] eqn:En; [lia|].
  apply Hgen; auto; lia.
Qed.
End Calls.

(** ** The attempts of one call *)

(** A world at time [sc_now] in which the attempts of a call have the listed outcomes
    ([Some e] for an error), the waits between them are recorded, and the caller's
    context is done, when [sc_done] is [Some (n, e)], with error [e] from the [n]-th
    wait on, counted from 0. *)
Record Script := {
  sc_now : Z;
  sc_outcomes : list (option string);
  sc_done : option (nat * string);
  sc_waits : list Z
}.

Section Retries.
#[local] Instance script_clock : Clock Script := fun w => (sc_now w, w).

Definition script_wait (d : Z) (w : Script) : option string * Script :=
  let w' dn := {| sc_now := sc_now w; sc_outcomes := sc_outcomes w; sc_done := dn;
                  sc_waits := sc_waits w ++ [d] |} in
  match sc_done w with
  | None => (None, w' None)
  | Some (S n, e) => (None, w' (Some (n, e)))
  | Some (O, e) => (Some e, w' (Some (O, e)))
  end.

#[local] Instance script_grpc : Grpc Script := {
  Conn := unit;
  grpc_dial _ w := (inr tt, w);
  grpc_state _ w := (Ready, w);
  grpc_close _ w := (None, w);
  grpc_sleep _ w := w;
  grpc_wait := script_wait;
  rpc_SubmitTask _ w := (inl "unavailable", w);
  rpc_GetTaskStatus _ w := (inl "unavailable", w);
  rpc_CancelTask _ w := (inr (false, "not found"), w);
  rpc_GetQueueDepth w := (inl "unavailable", w)
}.

(** The call takes the next outcome of the script. *)
Definition next_outcome : GoM (CState (W := Script)) (string + unit) := outside (fun w =>
  match sc_outcomes w with
  | [] => (inl "no more outcomes", w)
  | o :: os => (match o with Some e => inl e | None => inr tt end,
                {| sc_now := sc_now w; sc_outcomes := os; sc_done := sc_done w;
                   sc_waits := sc_waits w |})
  end).

(** The waits after the first [k] attempts: doubling, in 64-bit arithmetic. *)
Fixpoint backoffs (b : Z) (k : nat) : list Z :=
  match k with
  | O => []
  | S k' => b :: backoffs (int64 (b * 2)) k'
  end.

(** The context is not done before [k] waits are over, and what is left after them. *)
Definition lasts (k : nat) (dn : option (nat * string)) : Prop :=
  match dn with Some (n, _) => (k <= n)%nat | None => True end.
Definition later (k : nat) (dn : option (nat * string)) : option (nat * string) :=
  (fun ne => (ne.1 - k, ne.2)%nat) <$> dn.

Lemma later_0 dn : later 0 dn = dn.
Proof. destruct dn as [[n e]|]; [|done]. cbn. by rewrite Nat.sub_0_r. Qed.

(** An attempt on the script. *)
Lemma next_outcome_bind {B} (k : string + unit -> GoM (CState (W := Script)) B) c now o os dn ws :
  (next_outcome ≫= k) (c, {| sc_now := now; sc_outcomes := o :: os; sc_done := dn; sc_waits := ws |}) =
    k (match o with Some e => inl e | None => inr tt end)
      (c, {| sc_now := now; sc_outcomes := os; sc_done := dn; sc_waits := ws |}).
Proof. done. Qed.

(** A failed attempt that is not the last one, while the context lasts. *)
Lemma retry_loop_attempt n b e c now e0 os dn ws :
  lasts 1 dn ->
  retry_loop (S (S n)) b e next_outcome
    (c, {| sc_now := now; sc_outcomes := Some e0 :: os; sc_done := dn; sc_waits := ws |}) =
  retry_loop (S n) (int64 (b * 2)) e0 next_outcome
    (c, {| sc_now := now; sc_outcomes := os; sc_done := later 1 dn; sc_waits := ws ++ [b] |}).
Proof.
  destruct dn as [[[|n'] e']|]; simpl lasts; intros H; [lia| |done].
  change (later 1 (Some (S n', e'))) with (Some ((S n' - 1)%nat, e')).
  replace (S n' - 1)%nat with n' by lia. done.
Qed.

Lemma lasts_later k dn : lasts (S k) dn -> lasts 1 dn /\ lasts k (later 1 dn).
Proof. destruct dn as [[n e]|]; cbn; lia. Qed.
Lemma later_later k dn : later k (later 1 dn) = later (S k) dn.
Proof. destruct dn as [[n e]|]; [|done]. cbn. do 2 f_equal. lia. Qed.

(** [k] failures and then a success, with at least [k + 1] attempts left. *)
Lemma retry_loop_succeeds n b e c now es os dn ws :
  (length es < n)%nat -> lasts (length es) dn ->
  retry_loop n b e next_outcome
    (c, {| sc_now := now; sc_outcomes := (Some <$> es) ++ None :: os; sc_done := dn; sc_waits := ws |}) =
  (Ret (inr tt), (set_breaker (recordSuccess (m1_breaker c)) c,
    {| sc_now := now; sc_outcomes := os; sc_done := later (length es) dn;
       sc_waits := ws ++ backoffs b (length es) |})).
Proof.
  revert n b e dn ws. induction es as [|e0 es IH]; intros n b e dn ws Hn Hl; simpl in Hn.
  - destruct n as [|n]; [lia|]. cbn [retry_loop fmap list_fmap app].
    rewrite next_outcome_bind, app_nil_r. cbn [length]. rewrite later_0. done.
  - destruct n as [|[|n]]; [lia|lia|]. cbn [fmap list_fmap app length] in *.
    apply lasts_later in Hl as [H1 Hl]. rewrite retry_loop_attempt by done.
    rewrite IH by (done || lia). rewrite later_later. simpl. by rewrite <- app_assoc.
Qed.

(** As many failures as attempts. *)
Lemma retry_loop_fails n b e c now es os dn ws :
  length es = n -> lasts (n - 1) dn ->
  exists err, retry_loop n b e next_outcome
    (c, {| sc_now := now; sc_outcomes := (Some <$> es) ++ os; sc_done := dn; sc_waits := ws |}) =
  (Ret (inl err), (set_breaker (recordFailure (m1_config c) now (m1_breaker c)) c,
    {| sc_now := now; sc_outcomes := os; sc_done := later (n - 1) dn;
       sc_waits := ws ++ backoffs b (n - 1) |})).
Proof.
  revert n b e dn ws. induction es as [|e0 es IH]; intros n b e dn ws <- Hl.
  - eexists. simpl. rewrite outside_bind, client_bind, update_bind. by rewrite app_nil_r, later_0.
  - destruct es as [|e1 es]; cbn [length].
    + eexists. cbn [retry_loop fmap list_fmap app]. rewrite next_outcome_bind.
      rewrite outside_bind, client_bind, update_bind, app_nil_r, later_0. done.
    + cbn [length] in Hl. change (S (S (length es)) - 1)%nat with (S (length es)) in *.
      apply lasts_later in Hl as [H1 Hl].
      destruct (IH (S (length es)) (int64 (b * 2)) e0 (later 1 dn) (ws ++ [b]) eq_refl) as [err E].
      { simpl. by rewrite Nat.sub_0_r. }
      exists err. cbn [fmap list_fmap app] in *. rewrite retry_loop_attempt by done.
      rewrite E. simpl. by rewrite Nat.sub_0_r, later_later, <- app_assoc.
Qed.

(** The context is done in the wait after the last of some failures. *)
Lemma retry_loop_cancelled n b e c now es os cerr ws :
  (0 < length es < n)%nat ->
  retry_loop n b e next_outcome
    (c, {| sc_now := now; sc_outcomes := (Some <$> es) ++ os; sc_done := Some ((length es - 1)%nat, cerr);
           sc_waits := ws |}) =
  (Ret (inl cerr), (c, {| sc_now := now; sc_outcomes := os; sc_done := Some (O, cerr);
    sc_waits := ws ++ backoffs b (length es) |})).
Proof.
  revert n b e ws. induction es as [|e0 es IH]; intros n b e ws Hn; simpl in Hn; [lia|].
  destruct n as [|[|n]]; [lia|lia|]. cbn [fmap list_fmap app length].
  destruct es as [|e1 es]; [done|]. rewrite retry_loop_attempt by (simpl; lia).
  specialize (IH (S n) (int64 (b * 2)) e0 (ws ++ [b])). cbn [length] in *.
  change (later 1 (Some ((S (S (length es)) - 1)%nat, cerr)))
    with (Some ((S (S (length es)) - 1 - 1)%nat, cerr)).
  replace (S (S (length es)) - 1 - 1)%nat with (S (length es) - 1)%nat by lia.
  rewrite IH by lia. simpl. by rewrite <- app_assoc.
Qed.

(** The circuit breaker decides first. *)
Lemma callWithRetry_checked {R} (callFunc : GoM (CState (W := Script)) (string + R)) c w :
  let '(e, br) := checkCircuitBreaker (m1_config c) (sc_now w) (m1_breaker c) in
  callWithRetry callFunc (c, w) =
    match e with
    | Some err => (Ret (inl err), (set_breaker br c, w))
    | None => retry_loop (Z.to_nat (MaxRetries (m1_config c) + 1)) (RetryBackoff (m1_config c))
                "%!w(<nil>)" callFunc (set_breaker br c, w)
    end.
Proof.
  destruct (checkCircuitBreaker _ _ _) as [e br] eqn:E. unfold callWithRetry.
  rewrite outside_bind, client_bind. simpl. rewrite E, update_bind. by destruct e.
Qed.

(** C29: one call, for every state of the circuit, every sequence of outcomes and
    every moment the caller's context may end.  A call the open circuit refuses makes
    no attempt.  Otherwise it makes attempts until one succeeds, at most
    [MaxRetries + 1] (none when [MaxRetries] is negative), waiting [RetryBackoff] after
    the first failure and twice as long after each further one: with a success it
    succeeds and counts as one success; when all attempts fail it fails and counts as
    one failure; and when the context is done in a wait it ends with the error of the
    context, without a further attempt, and counts as neither. *)
Theorem call_attempts c now es os dn :
  let attempts := Z.to_nat (MaxRetries (m1_config c) + 1) in
  let waits := backoffs (RetryBackoff (m1_config c)) in
  let run os dn := callWithRetry next_outcome
    (c, {| sc_now := now; sc_outcomes := os; sc_done := dn; sc_waits := [] |}) in
  let after os dn ws := {| sc_now := now; sc_outcomes := os; sc_done := dn; sc_waits := ws |} in
  let '(refused, br) := checkCircuitBreaker (m1_config c) now (m1_breaker c) in
  match refused with
  | Some err => run os dn = (Ret (inl err), (set_breaker br c, after os dn []))
  | None =>
      ((length es < attempts)%nat -> lasts (length es) dn ->
       run ((Some <$> es) ++ None :: os) dn =
         (Ret (inr tt), (set_breaker (recordSuccess br) c,
           after os (later (length es) dn) (waits (length es))))) /\
      (length es = attempts -> lasts (attempts - 1) dn ->
       exists err, run ((Some <$> es) ++ os) dn =
         (Ret (inl err), (set_breaker (recordFailure (m1_config c) now br) c,
           after os (later (attempts - 1) dn) (waits (attempts - 1)%nat)))) /\
      (forall cerr, (0 < length es < attempts)%nat -> dn = Some ((length es - 1)%nat, cerr) ->
       run ((Some <$> es) ++ os) dn =
         (Ret (inl cerr), (set_breaker br c, after os (Some (O, cerr)) (waits (length es)))))
  end.
Proof.
  cbn zeta. pose proof (fun os dn => callWithRetry_checked next_outcome c
    {| sc_now := now; sc_outcomes := os; sc_done := dn; sc_waits := [] |}) as Hcall.
  simpl sc_now in Hcall. destruct (checkCircuitBreaker _ now _) as [[err|] br]; [apply Hcall|].
  split_and!; intros; subst; rewrite Hcall.
  - by rewrite retry_loop_succeeds.
  - destruct (retry_loop_fails (Z.to_nat (MaxRetries (m1_config c) + 1))
      (RetryBackoff (m1_config c)) "%!w(<nil>)" (set_breaker br c) now es os dn []) as [err E];
      [done..|]. exists err. exact E.
  - by rewrite retry_loop_cancelled.
Qed.

(** ** Witnesses *)

Definition ex_client : Module1RealClient (W := Script) :=
  set_conn tt (initial_client (fun _ => "")).
Definition ex_open : Breaker :=
  {| consecutiveErr := 5; circuitState := StateOpen; lastFailTime := 0 |}.
Definition ex_cfg : ClientConfig := client_config (fun _ => "").
Definition ex_script (os : list (option string)) (dn : option (nat * string)) : Script :=
  {| sc_now := 0; sc_outcomes := os; sc_done := dn; sc_waits := [] |}.

Lemma circuit_opens_only_after_failures_witness :
  failure_streak 5 (EvFailure <$> [1; 2; 3; 4; 5]).
Proof.
  apply (circuit_opens_only_after_failures ex_cfg (EvFailure <$> [1; 2; 3; 4; 5]));
    [simpl; lia|reflexivity].
Defined.

Lemma half_open_tolerates_failures_witness :
  circuitState (breaker_run ex_cfg ex_open (EvCheck (31 * Second) :: (EvFailure <$> [1; 2; 3; 4])))
    = StateHalfOpen.
Proof.
  apply (half_open_tolerates_failures ex_cfg ex_open (31 * Second) [1; 2; 3; 4]);
    [simpl; lia|reflexivity|reflexivity|simpl; lia].
Defined.

Lemma open_circuit_fails_fast_witness :
  callWithRetry next_outcome (set_breaker ex_open ex_client, ex_script [] None)
    = (Ret (inl "circuit breaker is open"), (set_breaker ex_open ex_client, ex_script [] None)).
Proof.
  set (w := ex_script [] None).
  assert ((clock_now w).1 - lastFailTime (m1_breaker (set_breaker ex_open ex_client)) <=
    CircuitRecoverTime (m1_config (set_breaker ex_open ex_client))) as Ht
    by (vm_compute; discriminate).
  exact (open_circuit_fails_fast next_outcome (set_breaker ex_open ex_client) w eq_refl Ht).
Defined.

(** A service that refuses every cancellation. *)
#[local] Instance refusing_clock : Clock unit := fun w => (0, w).
#[local] Instance refusing_grpc : Grpc unit := {
  Conn := unit;
  grpc_dial _ w := (inr tt, w);
  grpc_state _ w := (Ready, w);
  grpc_close _ w := (None, w);
  grpc_sleep _ w := w;
  grpc_wait _ w := (None, w);
  rpc_SubmitTask _ w := (inl "unavailable", w);
  rpc_GetTaskStatus _ w := (inl "unavailable", w);
  rpc_CancelTask _ w := (inr (false, "not found"), w);
  rpc_GetQueueDepth w := (inl "unavailable", w)
}.
Definition refusing_client : Module1RealClient (W := unit) :=
  set_conn tt (initial_client (fun _ => "")).

Lemma refused_cancellations_open_circuit_witness :
  exists c' w', cancels 5 "gone" (refusing_client, tt) =
      (Ret tt, (c', w')) /\ circuitState (m1_breaker c') = StateOpen.
Proof.
  apply (refused_cancellations_open_circuit "gone" refusing_client);
    [intros w; by do 2 eexists|done|done|by eexists|reflexivity|reflexivity|simpl; lia].
Defined.

(** Two failures and a success; two failures and a context that is done. *)
Lemma call_attempts_witness :
  callWithRetry next_outcome (ex_client, ex_script [Some "e1"; Some "e2"; None] None) =
    (Ret (inr tt), (ex_client, {| sc_now := 0; sc_outcomes := []; sc_done := None;
      sc_waits := [1 * Second; 2 * Second] |})) /\
  callWithRetry next_outcome
    (ex_client, ex_script [Some "e1"; Some "e2"; None] (Some (1%nat, "context canceled"))) =
    (Ret (inl "context canceled"), (ex_client, {| sc_now := 0; sc_outcomes := [None];
      sc_done := Some (O, "context canceled"); sc_waits := [1 * Second; 2 * Second] |})).
Proof.
  split.
  - etrans; [apply (proj1 (call_attempts ex_client 0 ["e1"; "e2"] [] None)); simpl; done || lia|].
    reflexivity.
  - etrans; [apply (proj2 (proj2 (call_attempts ex_client 0 ["e1"; "e2"] [None]
      (Some (1%nat, "context canceled"))))); [simpl; lia|reflexivity]|]. reflexivity.
Defined.
End Retries.
