(* ===== verification/Scaling.v ===== *)
(** * Autoscaling: the HPA calculator and the replica formula of the KEDA scaler

    Models [pkg/scaling/hpa_calculator.go] and
    [CalculateDesiredReplicasFromQueueDepth] of [pkg/scaling/keda_scaler.go].
    Replica counts are 32-bit, queue depths 64-bit integers with their
    wrap-around; utilisations are binary64 floats.  Converting a float outside
    the range of [int32] is left to the implementation by the Go specification:
    [FloatConv] is that conversion, [FloatConvLaws] what the specification says.
    The formatted reasons are modelled by what they report. *)

From Stdlib Require Import Floats.SpecFloat.
From S2P Require Import Prelude GoStrings Float64 GoTime Kube.

Class FloatConv := float_to_int32 : float64 -> Z.

Class FloatConvLaws `{FloatConv} : Prop := {
  float_to_int32_width x : is_int32 (float_to_int32 x);
  float_to_int32_exact x z : f_trunc x = Some z -> is_int32 z -> float_to_int32 x = z
}.

(** ** Types *)

Record MetricsSnapshot := {
  ms_QueueDepth : Z;
  ms_ActiveTasks : Z;
  ms_FailedTasks : Z;
  ms_AvgDurationSecs : float64;
  ms_CurrentReplicas : Z;
  ms_CurrentCPU : float64;
  ms_CurrentMemory : float64;
  ms_TargetCPU : float64;
  ms_TargetMemory : float64
}.

Inductive action : Type := ScaleUp | ScaleDown | NoChange.

Inductive reason : Type :=
| ReasonCPU (current threshold : float64)
| ReasonMemory (current threshold : float64)
| ReasonQueue (depth : Z)
| ReasonDown (from to depth : Z)
| ReasonInRange.

Record ScalingDecision := {
  sd_DesiredReplicas : Z;
  sd_Action : action;
  sd_Reason : reason;
  sd_QueueBasedReplicas : Z
}.

Record HPACalculator := {
  hc_minReplicas : Z;
  hc_maxReplicas : Z;
  hc_itemsPerPod : Z;
  hc_cpuThreshold : float64;
  hc_memThreshold : float64
}.

Definition NewHPACalculator (minReplicas maxReplicas itemsPerPod : Z)
    (cpuThreshold memThreshold : float64) : HPACalculator :=
  {| hc_minReplicas := minReplicas; hc_maxReplicas := maxReplicas;
     hc_itemsPerPod := itemsPerPod; hc_cpuThreshold := cpuThreshold;
     hc_memThreshold := memThreshold |}.

(** ** Replicas from the queue *)

Definition CalculateDesiredReplicas (hc : HPACalculator) (queueDepth : Z) : outcome Z :=
  if decide (queueDepth = 0) then Ret (hc_minReplicas hc)
  else
    match go_div 64 (int64 (int64 (queueDepth + hc_itemsPerPod hc) - 1)) (hc_itemsPerPod hc) with
    | Panic e => Panic e
    | Ret needed =>
        if decide (needed < hc_minReplicas hc) then Ret (hc_minReplicas hc)
        else if decide (needed > hc_maxReplicas hc) then Ret (hc_maxReplicas hc)
        else Ret (int32 needed)
    end.

(** [CalculateDesiredReplicasFromQueueDepth] of the KEDA scaler, in [int]. *)
Definition CalculateDesiredReplicasFromQueueDepth
    (queueDepth itemsPerPod minReplicas maxReplicas : Z) : outcome Z :=
  if decide (queueDepth = 0) then Ret minReplicas
  else
    match go_div 64 (int64 (int64 (queueDepth + itemsPerPod) - 1)) itemsPerPod with
    | Panic e => Panic e
    | Ret needed =>
        if decide (needed < minReplicas) then Ret minReplicas
        else if decide (needed > maxReplicas) then Ret maxReplicas
        else Ret needed
    end.

(** ** Decisions *)

Definition f_gt (x y : float64) : bool := f_lt y x.

Definition ShouldScaleUp (hc : HPACalculator) (m : MetricsSnapshot) : outcome bool :=
  if f_gt (ms_CurrentCPU m) (hc_cpuThreshold hc) then Ret true
  else if f_gt (ms_CurrentMemory m) (hc_memThreshold hc) then Ret true
  else
    match CalculateDesiredReplicas hc (ms_QueueDepth m) with
    | Panic e => Panic e
    | Ret desired => Ret (bool_decide (desired > ms_CurrentReplicas m))
    end.

Definition ShouldScaleDown (hc : HPACalculator) (m : MetricsSnapshot) : outcome bool :=
  if decide (ms_CurrentReplicas m <= hc_minReplicas hc) then Ret false
  else
    match ShouldScaleUp hc m with
    | Panic e => Panic e
    | Ret true => Ret false
    | Ret false =>
        let cpuMargin := f_mul (hc_cpuThreshold hc) (f_dec 5 1) in
        let memMargin := f_mul (hc_memThreshold hc) (f_dec 5 1) in
        if f_lt (ms_CurrentCPU m) cpuMargin then Ret true
        else if f_lt (ms_CurrentMemory m) memMargin then Ret true
        else
          let queueThreshold := f_mul (hc_cpuThreshold hc) (f_dec 6 1) in
          match CalculateDesiredReplicas hc (ms_QueueDepth m) with
          | Panic e => Panic e
          | Ret desired =>
              Ret (bool_decide (desired < ms_CurrentReplicas m) &&
                   f_lt (ms_CurrentCPU m) queueThreshold)
          end
    end.

Section Decision.
Context `{FC : FloatConv}.

(** [calculateFromCPU] and [calculateFromMemory]. *)
Definition calculate_from (hc : HPACalculator) (replicas : Z) (current threshold : float64) : Z :=
  if f_eq current (f_of_Z 0) then hc_minReplicas hc
  else
    let ratio := f_div current threshold in
    let desired := float_to_int32 (f_mul (f_of_Z replicas) ratio) in
    if decide (desired < hc_minReplicas hc) then hc_minReplicas hc
    else if decide (desired > hc_maxReplicas hc) then hc_maxReplicas hc
    else desired.

Definition calculateFromCPU (hc : HPACalculator) (m : MetricsSnapshot) : Z :=
  calculate_from hc (ms_CurrentReplicas m) (ms_CurrentCPU m) (hc_cpuThreshold hc).
Definition calculateFromMemory (hc : HPACalculator) (m : MetricsSnapshot) : Z :=
  calculate_from hc (ms_CurrentReplicas m) (ms_CurrentMemory m) (hc_memThreshold hc).

Definition MakeScalingDecision (hc : HPACalculator) (m : MetricsSnapshot)
    : outcome ScalingDecision :=
  match CalculateDesiredReplicas hc (ms_QueueDepth m) with
  | Panic e => Panic e
  | Ret queueBased =>
      match ShouldScaleUp hc m with
      | Panic e => Panic e
      | Ret true =>
          let cpuBased := calculateFromCPU hc m in
          let memBased := calculateFromMemory hc m in
          let '(desired, why) :=
            if decide (cpuBased > queueBased) then
              (cpuBased, ReasonCPU (ms_CurrentCPU m) (hc_cpuThreshold hc))
            else if decide (memBased > queueBased) then
              (memBased, ReasonMemory (ms_CurrentMemory m) (hc_memThreshold hc))
            else (queueBased, ReasonQueue (ms_QueueDepth m)) in
          Ret {| sd_DesiredReplicas := desired; sd_Action := ScaleUp; sd_Reason := why;
                 sd_QueueBasedReplicas := queueBased |}
      | Ret false =>
          match ShouldScaleDown hc m with
          | Panic e => Panic e
          | Ret true =>
              let desired := if decide (queueBased < hc_minReplicas hc)
                             then hc_minReplicas hc else queueBased in
              Ret {| sd_DesiredReplicas := desired; sd_Action := ScaleDown;
                     sd_Reason := ReasonDown (ms_CurrentReplicas m) desired (ms_QueueDepth m);
                     sd_QueueBasedReplicas := queueBased |}
          | Ret false =>
              Ret {| sd_DesiredReplicas := ms_CurrentReplicas m; sd_Action := NoChange;
                     sd_Reason := ReasonInRange; sd_QueueBasedReplicas := queueBased |}
          end
      end
  end.
End Decision.

(** ** Lemmas *)

Definition in_int32 (hc : HPACalculator) : Prop :=
  is_int32 (hc_minReplicas hc) /\ is_int32 (hc_maxReplicas hc) /\
  hc_minReplicas hc <= hc_maxReplicas hc.

Lemma CalculateDesiredReplicas_bounds hc q r :
  in_int32 hc -> CalculateDesiredReplicas hc q = Ret r ->
  hc_minReplicas hc <= r <= hc_maxReplicas hc.
Proof.
  intros (Hmin & Hmax & Hle). unfold CalculateDesiredReplicas.
  case_decide; [intros [= <-]; lia|].
  destruct (go_div 64 _ _) as [needed|e]; [|done].
  case_decide; [intros [= <-]; lia|]. case_decide; [intros [= <-]; lia|].
  intros [= <-]. rewrite wrap_id; [lia|lia|]. unfold in_width in *. lia.
Qed.

Lemma CalculateDesiredReplicas_returns hc q :
  hc_itemsPerPod hc <> 0 -> exists r, CalculateDesiredReplicas hc q = Ret r.
Proof.
  intros Hi. unfold CalculateDesiredReplicas, go_div. rewrite (decide_False (P := hc_itemsPerPod hc = 0)) by done.
  repeat case_decide; eauto.
Qed.

Lemma ceil_div q i :
  0 < i -> 0 < q ->
  (Z.quot (q + i - 1) i - 1) * i < q <= Z.quot (q + i - 1) i * i /\ 1 <= Z.quot (q + i - 1) i.
Proof.
  intros Hi Hq. rewrite Z.quot_div_nonneg by lia.
  pose proof (Z.div_mod (q + i - 1) i ltac:(lia)). pose proof (Z.mod_pos_bound (q + i - 1) i Hi).
  assert (1 <= (q + i - 1) / i) by (apply Z.div_le_lower_bound; lia). lia.
Qed.

(** C32: for a queue of [q] tasks the calculator asks for the least number of
    pods that can hold them at [itemsPerPod] each, clamped between the minimal
    and the maximal number of replicas, provided the sum does not overflow. *)
Theorem CalculateDesiredReplicas_exact hc q :
  in_int32 hc -> 0 < hc_itemsPerPod hc -> 0 < q -> q + hc_itemsPerPod hc < 2 ^ 63 ->
  exists n, (n - 1) * hc_itemsPerPod hc < q <= n * hc_itemsPerPod hc /\
    CalculateDesiredReplicas hc q =
      Ret (Z.max (hc_minReplicas hc) (Z.min (hc_maxReplicas hc) n)).
Proof.
  intros (Hmin & Hmax & Hle) Hi Hq Hfit. set (i := hc_itemsPerPod hc) in *.
  set (n := Z.quot (q + i - 1) i). destruct (ceil_div q i Hi Hq) as [Hc H1]. fold n in Hc, H1.
  exists n. split; [done|]. assert (n <= q) as Hn by nia.
  unfold CalculateDesiredReplicas, go_div. fold i. rewrite decide_False by lia.
  rewrite (decide_False (P := i = 0)) by lia.
  rewrite (wrap_id 64 (q + i)) by (unfold in_width; lia).
  rewrite (wrap_id 64 (q + i - 1)) by (unfold in_width; lia). fold n.
  rewrite (wrap_id 64 n) by (unfold in_width; lia).
  case_decide; [f_equal; lia|]. case_decide; [f_equal; lia|].
  rewrite wrap_id by (unfold in_width in *; lia). f_equal. lia.
Qed.

(** the HPA calculator and the KEDA scaler agree: for the same queue depth,
    items per pod and 32-bit replica bounds they give the same number, overflow
    and the panic on zero items per pod included. *)
Theorem hpa_keda_agree hc q :
  in_int32 hc ->
  CalculateDesiredReplicas hc q =
    CalculateDesiredReplicasFromQueueDepth q (hc_itemsPerPod hc) (hc_minReplicas hc)
      (hc_maxReplicas hc).
Proof.
  intros (Hmin & Hmax & Hle). unfold CalculateDesiredReplicas,
    CalculateDesiredReplicasFromQueueDepth. case_decide; [done|].
  destruct (go_div 64 _ _) as [needed|e]; [|done]. repeat case_decide; try done.
  rewrite wrap_id; [done|lia|]. unfold in_width in *. lia.
Qed.

Section DecisionFacts.
Context `{FC : FloatConv, FL : !FloatConvLaws}.

Lemma calculate_from_bounds hc replicas cur thr :
  in_int32 hc -> hc_minReplicas hc <= calculate_from hc replicas cur thr <= hc_maxReplicas hc.
Proof. intros (_ & _ & Hle). unfold calculate_from. repeat case_match; lia. Qed.

Lemma calculate_from_value hc replicas cur thr z :
  f_eq cur (f_of_Z 0) = false ->
  float_to_int32 (f_mul (f_of_Z replicas) (f_div cur thr)) = z ->
  calculate_from hc replicas cur thr =
    if decide (z < hc_minReplicas hc) then hc_minReplicas hc
    else if decide (z > hc_maxReplicas hc) then hc_maxReplicas hc else z.
Proof. intros H0 Hz. unfold calculate_from. by rewrite H0, Hz. Qed.

(** C31: with a nonzero number of items per pod a decision is always reached.
    A scale-up or scale-down stays between the minimal and the maximal number
    of replicas and never goes below what the queue needs, and a scale-down
    never asks for more replicas than there are; otherwise the number is left
    alone. *)
Theorem MakeScalingDecision_sound hc m :
  in_int32 hc -> hc_itemsPerPod hc <> 0 ->
  exists d, MakeScalingDecision hc m = Ret d /\
    CalculateDesiredReplicas hc (ms_QueueDepth m) = Ret (sd_QueueBasedReplicas d) /\
    match sd_Action d with
    | NoChange => sd_DesiredReplicas d = ms_CurrentReplicas m
    | ScaleUp => hc_minReplicas hc <= sd_DesiredReplicas d <= hc_maxReplicas hc /\
        sd_QueueBasedReplicas d <= sd_DesiredReplicas d
    | ScaleDown => hc_minReplicas hc <= sd_DesiredReplicas d <= hc_maxReplicas hc /\
        sd_QueueBasedReplicas d <= sd_DesiredReplicas d <= ms_CurrentReplicas m
    end.
Proof.
  intros Hin Hi. destruct (CalculateDesiredReplicas_returns hc (ms_QueueDepth m) Hi) as [q Hq].
  pose proof (CalculateDesiredReplicas_bounds hc _ q Hin Hq) as Hqb.
  pose proof (calculate_from_bounds hc (ms_CurrentReplicas m) (ms_CurrentCPU m)
    (hc_cpuThreshold hc) Hin) as Hcpu.
  pose proof (calculate_from_bounds hc (ms_CurrentReplicas m) (ms_CurrentMemory m)
    (hc_memThreshold hc) Hin) as Hmem.
  unfold MakeScalingDecision. rewrite Hq.
  assert (exists up, ShouldScaleUp hc m = Ret up /\
    (up = false -> q <= ms_CurrentReplicas m)) as (up & Hup & Hle).
  { unfold ShouldScaleUp. rewrite Hq. repeat case_match; eexists; (split; [done|]); try done.
    intros Hd%bool_decide_eq_false. lia. }
  rewrite Hup. destruct up.
  { unfold calculateFromCPU, calculateFromMemory.
    repeat case_decide; eexists; (split; [done|]); simpl; split_and!; done || lia. }
  unfold ShouldScaleDown. rewrite Hup, Hq. specialize (Hle eq_refl).
  case_decide; [by eexists|].
  rewrite (decide_False (P := q < hc_minReplicas hc)) by lia.
  repeat case_match; simplify_eq; eexists; (split; [done|]); simpl; split_and!; done || lia.
Qed.

(** The metrics of one replica at 75% CPU with a threshold of 70%. *)
Definition busy_metrics : MetricsSnapshot :=
  {| ms_QueueDepth := 1; ms_ActiveTasks := 1; ms_FailedTasks := 0;
     ms_AvgDurationSecs := f_of_Z 0; ms_CurrentReplicas := 1; ms_CurrentCPU := f_of_Z 75;
     ms_CurrentMemory := f_of_Z 10; ms_TargetCPU := f_of_Z 0; ms_TargetMemory := f_of_Z 0 |}.
Definition default_hpa : HPACalculator := NewHPACalculator 1 10 10 (f_of_Z 70) (f_of_Z 80).

(** A scale-up decision may not scale: the number of replicas wanted for
    the CPU load is truncated, not rounded up, so one replica at 75% of CPU
    with a threshold of 70% is told to scale up to one replica. *)
Theorem scale_up_without_effect :
  exists d, MakeScalingDecision default_hpa busy_metrics = Ret d /\
    sd_Action d = ScaleUp /\ sd_DesiredReplicas d = ms_CurrentReplicas busy_metrics.
Proof.
  assert (calculateFromCPU default_hpa busy_metrics = 1) as Hcpu.
  { refine (calculate_from_value default_hpa 1 (f_of_Z 75) (f_of_Z 70) 1 eq_refl _).
    apply float_to_int32_exact; [vm_compute; reflexivity|by compute]. }
  assert (calculateFromMemory default_hpa busy_metrics = 1) as Hmem.
  { refine (calculate_from_value default_hpa 1 (f_of_Z 10) (f_of_Z 80) 0 eq_refl _).
    apply float_to_int32_exact; [vm_compute; reflexivity|by compute]. }
  unfold MakeScalingDecision. rewrite Hcpu, Hmem.
  replace (CalculateDesiredReplicas default_hpa (ms_QueueDepth busy_metrics)) with (Ret 1)
    by (vm_compute; reflexivity).
  replace (ShouldScaleUp default_hpa busy_metrics) with (Ret true) by (vm_compute; reflexivity).
  by eexists.
Qed.
End DecisionFacts.

(** ** Witnesses *)

Section Witnesses.
(** Out of range the conversion may give anything; here the smallest value. *)
#[local] Instance amd64_conv : FloatConv := fun x =>
  match f_trunc x with
  | Some z => if decide (is_int32 z) then z else - 2 ^ 31
  | None => - 2 ^ 31
  end.

#[local] Instance amd64_laws : FloatConvLaws.
Proof.
  split; unfold float_to_int32, amd64_conv.
  - intros x. destruct (f_trunc x) as [z|]; [case_decide; [done|]|]; by compute.
  - intros x z -> Hz. by rewrite decide_True.
Qed.

Lemma default_hpa_in_int32 : in_int32 default_hpa.
Proof. split_and!; by compute. Qed.

Lemma CalculateDesiredReplicas_exact_witness :
  exists n, (n - 1) * 10 < 25 <= n * 10 /\
    CalculateDesiredReplicas default_hpa 25 = Ret (Z.max 1 (Z.min 10 n)).
Proof.
  apply (CalculateDesiredReplicas_exact default_hpa 25);
    [apply default_hpa_in_int32|simpl; lia..].
Defined.

Lemma hpa_keda_agree_witness :
  CalculateDesiredReplicas default_hpa 25 = CalculateDesiredReplicasFromQueueDepth 25 10 1 10.
Proof. apply (hpa_keda_agree default_hpa 25). apply default_hpa_in_int32. Defined.

Lemma MakeScalingDecision_sound_witness :
  exists d, MakeScalingDecision default_hpa busy_metrics = Ret d.
Proof.
  destruct (MakeScalingDecision_sound default_hpa busy_metrics) as (d & E & _);
    [apply default_hpa_in_int32|done|]. exists d. exact E.
Defined.

Lemma scale_up_without_effect_witness :
  exists d, MakeScalingDecision default_hpa busy_metrics = Ret d /\ sd_DesiredReplicas d = 1.
Proof.
  destruct scale_up_without_effect as (d & E & _ & Hd).
  exists d. split; [exact E|exact Hd].
Defined.
End Witnesses.
