(* ===== verification/Keda.v ===== *)
(** * The queue-depth publisher of the KEDA scaler: [pkg/scaling/keda_scaler.go]

    The scaler keeps a Redis client, the name of the list of pending tasks, the
    publishing interval, and the two fields [Start], [publishLoop] and [Stop]
    share: the stop channel and [isRunning].  [publishLoop] runs in a goroutine;
    its three [select] cases are the steps [loop_exits] (stop channel or
    context) and [publish_tick].  Redis is a parameter.  The accesses to
    [isRunning] are taken to be atomic; the source does not synchronise them.
    ([CalculateDesiredReplicasFromQueueDepth] of the same file is in [Scaling].) *)

From S2P Require Import Prelude GoStrings GoTime Kube RateLimiter.

Class KedaRedis (W : Type) := {
  kr_ping : W -> option string * W;
  kr_set : string -> Z -> W -> option string * W;
  kr_llen : string -> W -> (redis_error + Z) * W;
  kr_close : W -> option string * W
}.

(** What the scaler relies on: the integer keys and the list lengths of the
    server, [SET], which may have reached the server when it fails, and [LLEN],
    which only reads and counts a missing list as empty. *)
Class KedaRedisLaws (W : Type) `{!KedaRedis W} := {
  kr_keys : W -> gmap string Z;
  kr_lens : W -> gmap string Z;
  kr_set_key k d w e w' :
    kr_set k d w = (e, w') ->
    kr_lens w' = kr_lens w /\
    (kr_keys w' = <[k := d]> (kr_keys w) \/ e <> None /\ kr_keys w' = kr_keys w);
  kr_llen_reads k w r w' :
    kr_llen k w = (r, w') ->
    kr_lens w' = kr_lens w /\ kr_keys w' = kr_keys w /\
    (r = inr (default 0 (kr_lens w !! k)) \/ exists m, r = inl (RedisError m))
}.

(** [ks_stopClosed]: the stop channel is closed.  [ks_loops] counts the
    goroutines running [publishLoop]; the program has no such field. *)
Record KEDAScaler := {
  ks_redisClient : bool;
  ks_listName : string;
  ks_publishInterval : Z;
  ks_stopClosed : bool;
  ks_isRunning : bool;
  ks_loops : Z
}.

Definition ks_set (closed running : bool) (loops : Z) (ks : KEDAScaler) : KEDAScaler :=
  {| ks_redisClient := ks_redisClient ks; ks_listName := ks_listName ks;
     ks_publishInterval := ks_publishInterval ks; ks_stopClosed := closed;
     ks_isRunning := running; ks_loops := loops |}.

Section Scaler.
Context {W : Type} `{!KedaRedis W}.

(** [NewKEDAScaler]: defaults for the list name and the interval, then a ping. *)
Definition NewKEDAScaler (redisAddr listName : string) (publishInterval : Z)
    : GoM W (string + KEDAScaler) :=
  let listName := if decide (listName = "") then "tasks:pending" else listName in
  let publishInterval :=
    if decide (publishInterval = 0) then 10 * Second else publishInterval in
  err ← lift kr_ping;
  match err with
  | Some e => mret (inl ("failed to connect to Redis at " +:+ redisAddr +:+ ": " +:+ e))
  | None => mret (inr {| ks_redisClient := true; ks_listName := listName;
                         ks_publishInterval := publishInterval; ks_stopClosed := false;
                         ks_isRunning := false; ks_loops := 0 |})
  end.

Definition depthKey (ks : KEDAScaler) : string := ks_listName ks +:+ ":depth".

Definition PublishQueueDepth (ks : KEDAScaler) (depth : Z) : GoM W (option string) :=
  if ks_redisClient ks then lift (kr_set (depthKey ks) depth)
  else mret (Some "Redis client not initialized").

Definition GetCurrentQueueDepth (ks : KEDAScaler) : GoM W (string + Z) :=
  if ks_redisClient ks then
    r ← lift (kr_llen (ks_listName ks));
    match r with
    | inl RedisNil => mret (inr 0)
    | inl (RedisError m) => mret (inl m)
    | inr length => mret (inr length)
    end
  else mret (inl "Redis client not initialized").

(** [StartQueueDepthPublisher]; the function may be nil. *)
Definition StartQueueDepthPublisher (getQueueDepthFunc : option (GoM W (string + Z)))
    (ks : KEDAScaler) : option string * KEDAScaler :=
  if ks_isRunning ks then (Some "queue depth publisher is already running", ks)
  else match getQueueDepthFunc with
       | None => (Some "getQueueDepthFunc cannot be nil", ks)
       | Some _ => (None, ks_set (ks_stopClosed ks) true (ks_loops ks + 1) ks)
       end.

(** The start of [publishLoop]: [time.NewTicker] panics on an interval that is
    not positive. *)
Definition new_ticker (ks : KEDAScaler) : outcome unit :=
  if decide (ks_publishInterval ks <= 0) then Panic "non-positive interval for NewTicker"
  else Ret tt.

(** [case <-ticker.C] of [publishLoop] *)
Definition publish_tick (getQueueDepthFunc : GoM W (string + Z)) (ks : KEDAScaler)
    : GoM W unit :=
  d ← getQueueDepthFunc;
  match d with
  | inl _ => mret tt
  | inr depth => _ ← PublishQueueDepth ks depth; mret tt
  end.

(** [case <-ks.stopCh] and [case <-ctx.Done()] *)
Definition loop_exits (ks : KEDAScaler) : KEDAScaler :=
  ks_set (ks_stopClosed ks) false (ks_loops ks - 1) ks.

(** [Stop]: [close(ks.stopCh)] panics on a closed channel. *)
Definition Stop (ks : KEDAScaler) : outcome (option string) * KEDAScaler :=
  if ks_isRunning ks then
    if ks_stopClosed ks then (Panic "close of closed channel", ks)
    else (Ret None, ks_set true (ks_isRunning ks) (ks_loops ks) ks)
  else (Ret (Some "queue depth publisher is not running"), ks).

(** [Close] of a scaler; the error of [Stop] is only logged. *)
Definition keda_Close (ks : KEDAScaler) (w : W) : (outcome (option string) * W) * KEDAScaler :=
  match (if ks_isRunning ks then Stop ks else (Ret None, ks)) with
  | (Panic e, ks') => (Panic e, w, ks')
  | (Ret _, ks') =>
      if ks_redisClient ks' then
        let '(e, w') := kr_close w in (Ret e, w', ks')
      else (Ret None, w, ks')
  end.

(** ** Histories *)

(** The events of a scaler and its server, with [g] the queue-depth function:
    a start, a stop that returns, a tick of a running loop, a loop that ends,
    and the rest of the system working on Redis. *)
Inductive keda_step (g : KEDAScaler -> GoM W (string + Z))
    : KEDAScaler * W -> KEDAScaler * W -> Prop :=
| keda_start f e ks ks' w :
    StartQueueDepthPublisher f ks = (e, ks') -> keda_step g (ks, w) (ks', w)
| keda_stop e ks ks' w : Stop ks = (Ret e, ks') -> keda_step g (ks, w) (ks', w)
| keda_tick ks w w' :
    0 < ks_loops ks -> publish_tick (g ks) ks w = (Ret tt, w') -> keda_step g (ks, w) (ks, w')
| keda_loop_ends ks w : 0 < ks_loops ks -> keda_step g (ks, w) (loop_exits ks, w)
| keda_env ks w w' : keda_step g (ks, w) (ks, w').

Lemma keda_stop_closed_stays g s s' :
  keda_step g s s' -> ks_stopClosed s.1 = true -> ks_stopClosed s'.1 = true.
Proof.
  intros [f e ks ks' w E|e ks ks' w E| | |] Hc; simpl in *; [| |done..].
  - unfold StartQueueDepthPublisher in E.
    destruct (ks_isRunning ks), f; by injection E as _ <-.
  - unfold Stop in E. rewrite Hc in E.
    destruct (ks_isRunning ks); [done|]. by injection E as _ <-.
Qed.

(** a publisher can be stopped once.  The stop channel is made when the
    scaler is made and closed by the first successful [Stop]; however the
    publisher is started again afterwards, a later [Stop] of a running
    publisher panics, and so does a second [Stop] that comes before the loop
    has ended. *)
Theorem keda_stops_once g ks ks1 w1 s2 :
  Stop ks = (Ret None, ks1) -> rtc (keda_step g) (ks1, w1) s2 -> ks_isRunning s2.1 = true ->
  exists m, Stop s2.1 = (Panic m, s2.1).
Proof.
  intros Hstop Hrun Hr.
  assert (ks_stopClosed ks1 = true) as Hc.
  { unfold Stop in Hstop. destruct (ks_isRunning ks); [|done].
    destruct (ks_stopClosed ks); [done|]. by injection Hstop as <-. }
  assert (ks_stopClosed s2.1 = true) as Hc2.
  { clear Hstop Hr. remember (ks1, w1) as s1 eqn:E1.
    assert (ks_stopClosed s1.1 = true) as H1 by by subst. clear E1 Hc.
    induction Hrun as [|x y z Hs _ IH]; eauto using keda_stop_closed_stays. }
  unfold Stop. rewrite Hr, Hc2. by eexists.
Qed.

Definition one_loop (ks : KEDAScaler) : Prop := ks_loops ks = if ks_isRunning ks then 1 else 0.

Lemma keda_step_one_loop g s s' : keda_step g s s' -> one_loop s.1 -> one_loop s'.1.
Proof.
  unfold one_loop.
  intros [f e ks ks' w E|e ks ks' w E| |ks w Hl|] Hone; simpl in *; [| |done| |done].
  - unfold StartQueueDepthPublisher in E.
    destruct (ks_isRunning ks) eqn:R, f; injection E as _ <-; simpl; rewrite ?R; lia.
  - unfold Stop in E. destruct (ks_isRunning ks) eqn:R; [|injection E as _ <-; by rewrite R].
    destruct (ks_stopClosed ks); [done|]. injection E as _ <-. simpl. done.
  - destruct (ks_isRunning ks); lia.
Qed.

(** In every history of a new scaler at most one [publishLoop] runs, exactly
    while [isRunning] is set. *)
Theorem keda_at_most_one_loop g addr name interval w0 ks0 w1 s :
  NewKEDAScaler addr name interval w0 = (Ret (inr ks0), w1) ->
  rtc (keda_step g) (ks0, w1) s -> ks_loops s.1 = if ks_isRunning s.1 then 1 else 0.
Proof.
  intros Hnew Hrun. change (one_loop s.1).
  assert (one_loop ks0) as H0.
  { unfold NewKEDAScaler in Hnew. rewrite lift_bind in Hnew.
    destruct (kr_ping w0) as [[e|] w']; simpl in Hnew; [done|].
    by injection Hnew as <- _. }
  remember (ks0, w1) as s0 eqn:E0. assert (one_loop s0.1) as H1 by by subst. clear E0 Hnew H0.
  induction Hrun as [|x y z Hs _ IH]; eauto using keda_step_one_loop.
Qed.
End Scaler.

Section Publishing.
Context {W : Type} `{!KedaRedis W, KL : !KedaRedisLaws W}.

(** A tick of a loop started with the scaler's own [GetCurrentQueueDepth]
    always returns, writes no key but the depth key, and leaves there the
    length of the pending list or, after an error, what was there before. *)
Theorem publish_tick_mirrors_queue ks w :
  ks_redisClient ks = true ->
  exists w', publish_tick (GetCurrentQueueDepth ks) ks w = (Ret tt, w') /\
    kr_lens w' = kr_lens w /\
    (kr_keys w' = <[depthKey ks := default 0 (kr_lens w !! ks_listName ks)]> (kr_keys w) \/
     kr_keys w' = kr_keys w).
Proof.
  intros Hr. unfold publish_tick, GetCurrentQueueDepth, PublishQueueDepth. rewrite Hr.
  unfold lift, mbind, GoM_bind, mret, GoM_ret. destruct (kr_llen (ks_listName ks) w) as [r w1] eqn:E1.
  destruct (kr_llen_reads _ _ _ _ E1) as (Hl & Hk & [->|[m ->]]); simpl.
  - destruct (kr_set (depthKey ks) _ w1) as [e w2] eqn:E2. simpl.
    destruct (kr_set_key _ _ _ _ _ E2) as [Hl2 Hk2]. exists w2.
    split; [done|]. rewrite Hl2, Hl. split; [done|]. rewrite <- Hk. tauto.
  - exists w1. auto.
Qed.
End Publishing.

(** ** Witness *)

Section Witness.
(** A server that answers, holding list lengths and keys. *)
#[local] Instance mem_keda : KedaRedis (gmap string Z * gmap string Z) := {
  kr_ping w := (None, w);
  kr_set k d w := (None, (<[k := d]> w.1, w.2));
  kr_llen k w := (inr (default 0 (w.2 !! k)), w);
  kr_close w := (None, w)
}.

#[local] Program Instance mem_keda_laws : KedaRedisLaws (gmap string Z * gmap string Z) := {
  kr_keys := fst; kr_lens := snd
}.
Next Obligation. intros k d w e w' [= <- <-]. auto. Qed.
Next Obligation. intros k w r w' [= <- <-]. auto. Qed.

Definition ks_run : KEDAScaler :=
  {| ks_redisClient := true; ks_listName := "tasks:pending"; ks_publishInterval := 10 * Second;
     ks_stopClosed := false; ks_isRunning := true; ks_loops := 1 |}.

Example ks_run_started :
  exists ks0, NewKEDAScaler "redis:6379" "" 0 (∅, ∅) = (Ret (inr ks0), (∅, ∅)) /\
    StartQueueDepthPublisher (Some (GetCurrentQueueDepth ks0)) ks0 = (None, ks_run).
Proof. by eexists. Qed.

Lemma keda_stops_once_witness :
  exists m, Stop (Stop ks_run).2 = (Panic m, (Stop ks_run).2).
Proof.
  apply (keda_stops_once (W := gmap string Z * gmap string Z) GetCurrentQueueDepth ks_run
           (Stop ks_run).2 (∅, ∅) ((Stop ks_run).2, (∅, ∅)));
    [reflexivity|apply rtc_refl|reflexivity].
Defined.
End Witness.
