(* ===== verification/MockScheduler.v ===== *)
(** * The mock scheduler service: [pkg/mock/scheduler_service.go]

    The service keeps a map from task ids to pointers; a goroutine per submitted
    task holds its own pointer and moves the task on.  The model keeps the heap
    of task objects, the map of ids to pointers, and the goroutines that have not
    finished, so that submitting an id again leaves the older goroutine on the
    older object.  Every critical section of the code is one function here, and
    [sched_step] is any order of them.  A critical section that reads the clock
    more than once gets one reading here.  The gRPC registration and the update
    channel, which nothing writes to, are not modelled. *)

From S2P Require Import Prelude GoStrings Kube.

(** ** State *)

Record Task := {
  tk_ID : string;
  tk_TenantID : string;
  tk_Status : string;
  tk_QueuePosition : Z;
  tk_StartedAt : Z;
  tk_CompletedAt : Z;
  tk_ExitCode : Z;
  tk_CPURequest : string;
  tk_MemoryRequest : string;
  tk_PodName : string;
  tk_CreatedAt : Z
}.

(** Where the goroutine of a task is: in its first sleep, or in its second. *)
Inductive stage : Type := WaitingToRun | Executing.

Record SchedulerService := {
  sv_delayMS : Z;
  sv_failureRate : Z;
  sv_heap : gmap nat Task;
  sv_next : nat;
  sv_tasks : gmap string nat;
  sv_queueDepth : Z;
  sv_goroutines : gmap nat stage;
  sv_published : list (string * string)
}.

Definition NewSchedulerService (delayMS failureRate : Z) : SchedulerService :=
  {| sv_delayMS := delayMS; sv_failureRate := failureRate; sv_heap := ∅; sv_next := 0;
     sv_tasks := ∅; sv_queueDepth := 0; sv_goroutines := ∅; sv_published := [] |}.

Definition set_task (p : nat) (t : Task) (s : SchedulerService) : SchedulerService :=
  {| sv_delayMS := sv_delayMS s; sv_failureRate := sv_failureRate s;
     sv_heap := <[p := t]> (sv_heap s); sv_next := sv_next s; sv_tasks := sv_tasks s;
     sv_queueDepth := sv_queueDepth s; sv_goroutines := sv_goroutines s;
     sv_published := sv_published s |}.

Definition set_depth (d : Z) (s : SchedulerService) : SchedulerService :=
  {| sv_delayMS := sv_delayMS s; sv_failureRate := sv_failureRate s; sv_heap := sv_heap s;
     sv_next := sv_next s; sv_tasks := sv_tasks s; sv_queueDepth := d;
     sv_goroutines := sv_goroutines s; sv_published := sv_published s |}.

Definition set_goroutines (g : gmap nat stage) (s : SchedulerService) : SchedulerService :=
  {| sv_delayMS := sv_delayMS s; sv_failureRate := sv_failureRate s; sv_heap := sv_heap s;
     sv_next := sv_next s; sv_tasks := sv_tasks s; sv_queueDepth := sv_queueDepth s;
     sv_goroutines := g; sv_published := sv_published s |}.

Definition quoted (v : string) : string :=
  String (Ascii.ascii_of_nat 34) v +:+ String (Ascii.ascii_of_nat 34) "".

(** The message of an event: the format string of [publishEvent]. *)
Definition event_message (t : Task) (now : Z) : string :=
  "{" +:+ quoted "task_id" +:+ ":" +:+ quoted (tk_ID t) +:+ "," +:+
  quoted "tenant_id" +:+ ":" +:+ quoted (tk_TenantID t) +:+ "," +:+
  quoted "status" +:+ ":" +:+ quoted (tk_Status t) +:+ "," +:+
  quoted "exit_code" +:+ ":" +:+ pretty (tk_ExitCode t) +:+ "," +:+
  quoted "timestamp" +:+ ":" +:+ pretty now +:+ "," +:+
  quoted "pod_name" +:+ ":" +:+ quoted (tk_PodName t) +:+ "}".

(** [publishEvent]: [sv_published] is what was handed to Redis, whose errors are
    only logged. *)
Definition publishEvent (channel : string) (t : Task) (now : Z) (s : SchedulerService)
    : SchedulerService :=
  {| sv_delayMS := sv_delayMS s; sv_failureRate := sv_failureRate s; sv_heap := sv_heap s;
     sv_next := sv_next s; sv_tasks := sv_tasks s; sv_queueDepth := sv_queueDepth s;
     sv_goroutines := sv_goroutines s;
     sv_published := sv_published s ++ [(channel, event_message t now)] |}.

(** A new object under its id, with the queue one longer. *)
Definition add_task (t : Task) (s : SchedulerService) : SchedulerService :=
  {| sv_delayMS := sv_delayMS s; sv_failureRate := sv_failureRate s;
     sv_heap := <[sv_next s := t]> (sv_heap s); sv_next := S (sv_next s);
     sv_tasks := <[tk_ID t := sv_next s]> (sv_tasks s);
     sv_queueDepth := int32 (sv_queueDepth s + 1);
     sv_goroutines := sv_goroutines s; sv_published := sv_published s |}.

(** ** Requests *)

(** [fmt.Sprintf("%v", req[k])] *)
Definition req_field (req : gmap string string) (k : string) : string := default "<nil>" (req !! k).

Record SubmitResult := {
  res_accepted : bool;
  res_queue_position : Z;
  res_estimated_start_seconds : Z;
  res_reason : string
}.

Definition new_task (req : gmap string string) (depth now : Z) : Task :=
  let id := req_field req "task_id" in
  {| tk_ID := id; tk_TenantID := req_field req "tenant_id"; tk_Status := "Pending";
     tk_QueuePosition := int32 (depth + 1); tk_StartedAt := 0; tk_CompletedAt := 0;
     tk_ExitCode := 0; tk_CPURequest := req_field req "cpu_request";
     tk_MemoryRequest := req_field req "memory_request";
     tk_PodName := id +:+ "-pod-" +:+ pretty now; tk_CreatedAt := now |}.

(** [SubmitTask] at time [now]: the goroutine starts with the new pointer. *)
Definition SubmitTask (req : gmap string string) (now : Z) (s : SchedulerService)
    : SubmitResult * SchedulerService :=
  let t := new_task req (sv_queueDepth s) now in
  let s1 := add_task t s in
  ({| res_accepted := true; res_queue_position := tk_QueuePosition t;
      res_estimated_start_seconds := Z.quot (sv_delayMS s) 1000;
      res_reason := "" |},
   set_goroutines (<[sv_next s := WaitingToRun]> (sv_goroutines s1)) s1).

(** [AddPendingTask]: no goroutine. *)
Definition AddPendingTask (taskID : string) (now : Z) (s : SchedulerService) : SchedulerService :=
  add_task
    {| tk_ID := taskID; tk_TenantID := "system"; tk_Status := "Pending";
       tk_QueuePosition := int32 (sv_queueDepth s + 1); tk_StartedAt := 0; tk_CompletedAt := 0;
       tk_ExitCode := 0; tk_CPURequest := ""; tk_MemoryRequest := "";
       tk_PodName := taskID +:+ "-pod"; tk_CreatedAt := now |} s.

Definition find_task (s : SchedulerService) (taskID : string) : option (nat * Task) :=
  match sv_tasks s !! taskID with
  | Some p => match sv_heap s !! p with Some t => Some (p, t) | None => None end
  | None => None
  end.

(** The reply of [GetTaskStatus] *)
Record StatusResult := {
  sr_task_id : string;
  sr_status : string;
  sr_pod_name : string;
  sr_started_at : Z;
  sr_completed_at : Z;
  sr_exit_code : Z
}.

Definition GetTaskStatus (s : SchedulerService) (taskID : string) : string + StatusResult :=
  match find_task s taskID with
  | Some (_, t) =>
      inr {| sr_task_id := tk_ID t; sr_status := tk_Status t; sr_pod_name := tk_PodName t;
             sr_started_at := tk_StartedAt t; sr_completed_at := tk_CompletedAt t;
             sr_exit_code := tk_ExitCode t |}
  | None => inl ("task not found: " +:+ taskID)
  end.

Definition GetResourceAllocation (s : SchedulerService) (taskID : string)
    : string + (string * string * string * string) :=
  match find_task s taskID with
  | Some (_, t) => inr (tk_ID t, tk_CPURequest t, tk_MemoryRequest t, "mock-node")
  | None => inl ("task not found: " +:+ taskID)
  end.

Definition finish_task (status : string) (code now : Z) (t : Task) : Task :=
  {| tk_ID := tk_ID t; tk_TenantID := tk_TenantID t; tk_Status := status;
     tk_QueuePosition := tk_QueuePosition t; tk_StartedAt := tk_StartedAt t;
     tk_CompletedAt := now; tk_ExitCode := code; tk_CPURequest := tk_CPURequest t;
     tk_MemoryRequest := tk_MemoryRequest t; tk_PodName := tk_PodName t;
     tk_CreatedAt := tk_CreatedAt t |}.

Definition run_task (now : Z) (t : Task) : Task :=
  {| tk_ID := tk_ID t; tk_TenantID := tk_TenantID t; tk_Status := "Running";
     tk_QueuePosition := tk_QueuePosition t; tk_StartedAt := now;
     tk_CompletedAt := tk_CompletedAt t; tk_ExitCode := tk_ExitCode t;
     tk_CPURequest := tk_CPURequest t; tk_MemoryRequest := tk_MemoryRequest t;
     tk_PodName := tk_PodName t; tk_CreatedAt := tk_CreatedAt t |}.

(** [CancelTask]: whether the task was cancelled, and the reason if not. *)
Definition CancelTask (taskID : string) (now : Z) (s : SchedulerService)
    : bool * string * SchedulerService :=
  match find_task s taskID with
  | None => (false, "task not found", s)
  | Some (p, t) =>
      if decide (tk_Status t = "Completed" \/ tk_Status t = "Failed") then
        (false, "cannot cancel " +:+ tk_Status t +:+ " task", s)
      else
        let t' := finish_task "Failed" 137 now t in
        (true, "", publishEvent "tasks:cancelled" t' now
                     (set_depth (int32 (sv_queueDepth s - 1)) (set_task p t' s)))
  end.

Definition count_status (s : SchedulerService) (status : string) : Z :=
  int32 (Z.of_nat (length (filter (fun '(_, p) =>
    (tk_Status <$> (sv_heap s !! p)) = Some status) (map_to_list (sv_tasks s))))).

(** [GetQueueDepth]: total, pending and running. *)
Definition GetQueueDepth (s : SchedulerService) : Z * Z * Z :=
  (sv_queueDepth s, count_status s "Pending", count_status s "Running").

(** ** [scheduleTaskTransition]: its two critical sections *)

Definition transition_running (p : nat) (now : Z) (s : SchedulerService) : SchedulerService :=
  match sv_heap s !! p with
  | Some t => set_goroutines (<[p := Executing]> (sv_goroutines s)) (set_task p (run_task now t) s)
  | None => s
  end.

(** [roll] is the value of [rand.Intn(100)]. *)
Definition transition_done (p : nat) (now roll : Z) (s : SchedulerService) : SchedulerService :=
  match sv_heap s !! p with
  | Some t =>
      let shouldFail := bool_decide (sv_failureRate s > 0 /\ roll < sv_failureRate s) in
      let t' := if shouldFail then finish_task "Failed" 1 now t
                else finish_task "Completed" 0 now t in
      let channel := if shouldFail then "tasks:failed" else "tasks:completed" in
      set_goroutines (delete p (sv_goroutines s))
        (set_depth (int32 (sv_queueDepth s - 1)) (publishEvent channel t' now (set_task p t' s)))
  | None => s
  end.

(** ** Interleavings *)

Inductive sched_step (s s' : SchedulerService) : Prop :=
| step_submit req now r : SubmitTask req now s = (r, s') -> sched_step s s'
| step_running p now :
    sv_goroutines s !! p = Some WaitingToRun -> s' = transition_running p now s -> sched_step s s'
| step_done p now roll :
    sv_goroutines s !! p = Some Executing -> 0 <= roll < 100 ->
    s' = transition_done p now roll s -> sched_step s s'.

(** The same with cancellations. *)
Inductive sched_step_cancel (s s' : SchedulerService) : Prop :=
| step_plain : sched_step s s' -> sched_step_cancel s s'
| step_cancel id now b r : CancelTask id now s = (b, r, s') -> sched_step_cancel s s'.

(** ** Invariant of the histories without cancellation *)

Definition status_of_stage (g : option stage) (status : string) : Prop :=
  match g with
  | Some WaitingToRun => status = "Pending"
  | Some Executing => status = "Running"
  | None => status = "Completed" \/ status = "Failed"
  end.

(** The queue depth is the number of goroutines, and [k] for tasks without one. *)
Record depth_inv (k : Z) (s : SchedulerService) : Prop := {
  inv_depth : sv_queueDepth s = int32 (k + Z.of_nat (size (sv_goroutines s)));
  inv_fresh : forall p t, sv_heap s !! p = Some t -> (p < sv_next s)%nat;
  inv_goroutine : forall p g, sv_goroutines s !! p = Some g -> is_Some (sv_heap s !! p)
}.

Record sched_inv (s : SchedulerService) : Prop := {
  inv_counts : depth_inv 0 s;
  inv_status : forall p t, sv_heap s !! p = Some t ->
    status_of_stage (sv_goroutines s !! p) (tk_Status t)
}.

Lemma int32_shift z d : int32 (int32 z + d) = int32 (z + d).
Proof.
  unfold wrap. f_equal.
  replace ((z + 2 ^ (32 - 1)) mod 2 ^ 32 - 2 ^ (32 - 1) + d + 2 ^ (32 - 1))
    with ((z + 2 ^ (32 - 1)) mod 2 ^ 32 + d) by lia.
  rewrite Zplus_mod_idemp_l. f_equal. lia.
Qed.

Lemma int32_shift_sub z d : int32 (int32 z - d) = int32 (z - d).
Proof. exact (int32_shift z (- d)). Qed.

Lemma depth_inv_new d f : depth_inv 0 (NewSchedulerService d f).
Proof. split; simpl; try (by intros ? ?; rewrite lookup_empty). by rewrite map_size_empty. Qed.

Lemma depth_inv_free k s : depth_inv k s -> sv_goroutines s !! sv_next s = None.
Proof.
  intros [_ Hf Hg]. destruct (sv_goroutines s !! sv_next s) as [g|] eqn:E; [|done].
  destruct (Hg _ _ E) as [t Ht]. apply Hf in Ht. lia.
Qed.

Lemma depth_inv_submit k req now s : depth_inv k s -> depth_inv k (SubmitTask req now s).2.
Proof.
  intros Hinv. pose proof (depth_inv_free k s Hinv) as Hfree. destruct Hinv as [Hd Hf Hg].
  split; simpl.
  - rewrite map_size_insert_None by done. rewrite Hd, int32_shift. f_equal. lia.
  - intros p t. rewrite lookup_insert. case_decide; [intros; lia|]. intros Hp%Hf. lia.
  - intros p g. rewrite !lookup_insert. case_decide; [by eauto|]. apply Hg.
Qed.

Lemma depth_inv_running k p now s :
  depth_inv k s -> sv_goroutines s !! p = Some WaitingToRun -> depth_inv k (transition_running p now s).
Proof.
  intros [Hd Hf Hg] Hp. unfold transition_running.
  destruct (Hg _ _ Hp) as [t Ht]. rewrite Ht. split; simpl.
  - rewrite Hd. do 2 f_equal. f_equal. symmetry. apply map_size_insert_Some. eauto.
  - intros q u. rewrite lookup_insert. case_decide; [intros; subst; by eapply Hf|apply Hf].
  - intros q g. rewrite !lookup_insert. case_decide; [by eauto|apply Hg].
Qed.

Lemma depth_inv_done k p now roll s :
  depth_inv k s -> sv_goroutines s !! p = Some Executing -> depth_inv k (transition_done p now roll s).
Proof.
  intros [Hd Hf Hg] Hp. unfold transition_done.
  destruct (Hg _ _ Hp) as [t Ht]. rewrite Ht. split; simpl.
  - rewrite map_size_delete_Some by eauto.
    assert (size (sv_goroutines s) <> 0%nat) as Hne by (intros E; apply map_size_empty_inv in E;
      rewrite E, lookup_empty in Hp; done).
    rewrite Hd, int32_shift_sub. f_equal. lia.
  - intros q u. rewrite lookup_insert. case_decide; [intros; subst; by eapply Hf|apply Hf].
  - intros q g. rewrite lookup_delete, lookup_insert. case_decide; [done|apply Hg].
Qed.

Lemma depth_inv_step k s s' : sched_step s s' -> depth_inv k s -> depth_inv k s'.
Proof.
  intros [req now r E|p now Hp ->|p now roll Hp _ ->] Hinv;
    eauto using depth_inv_running, depth_inv_done.
  change s' with ((r, s').2). rewrite <- E. by apply depth_inv_submit.
Qed.

Lemma sched_inv_new d f : sched_inv (NewSchedulerService d f).
Proof. split; [apply depth_inv_new|]. simpl. by intros ? ?; rewrite lookup_empty. Qed.

Lemma sched_step_inv s s' : sched_step s s' -> sched_inv s -> sched_inv s'.
Proof.
  intros Hstep [Hc Hs]. split; [by eapply depth_inv_step|].
  destruct Hstep as [req now r [= _ <-]|p now Hp ->|p now roll Hp _ ->]; simpl.
  - intros p t. rewrite !lookup_insert. case_decide; [by intros [= <-]|]. apply Hs.
  - unfold transition_running. destruct (inv_goroutine _ _ Hc _ _ Hp) as [t Ht]. rewrite Ht. simpl.
    intros q u. rewrite !lookup_insert. case_decide; [by intros [= <-]|apply Hs].
  - unfold transition_done. destruct (inv_goroutine _ _ Hc _ _ Hp) as [t Ht]. rewrite Ht. simpl.
    intros q u. rewrite lookup_insert, lookup_delete. case_decide; [|apply Hs].
    intros [= <-]. case_bool_decide; simpl; auto.
Qed.

(** C33: in every interleaving of submissions and task goroutines without
    cancellations, the queue depth is the number of goroutines that have not
    finished (so it is never negative while there are fewer than 2^31), and the
    status of a task is Pending, Running or final according to where its own
    goroutine is. *)
Theorem queue_depth_counts_goroutines d f s :
  rtc sched_step (NewSchedulerService d f) s ->
  Z.of_nat (size (sv_goroutines s)) < 2 ^ 31 ->
  sv_queueDepth s = Z.of_nat (size (sv_goroutines s)) /\
  forall p t, sv_heap s !! p = Some t -> status_of_stage (sv_goroutines s !! p) (tk_Status t).
Proof.
  intros Hrun Hsmall.
  assert (sched_inv s) as Hinv.
  { assert (sched_inv (NewSchedulerService d f)) as H0 by apply sched_inv_new.
    induction Hrun as [|x y z Hs _ IH]; eauto using sched_step_inv. }
  split; [|apply Hinv]. rewrite (inv_depth _ _ (inv_counts _ Hinv)), Z.add_0_l.
  apply wrap_id; [lia|]. unfold in_width. lia.
Qed.

(** cancelling does not stop a task.  Whatever the service holds, a task
    that is submitted and cancelled while it waits is run all the same: its
    goroutine overwrites the cancellation with Running and then Completed (exit
    code 0), and the queue depth is decremented twice, once by the cancellation
    and once by the goroutine, ending one below what it was before. *)
Theorem cancelled_task_completes s req t0 t1 t2 t3 roll :
  (forall p t, sv_heap s !! p = Some t -> (p < sv_next s)%nat) ->
  is_int32 (sv_queueDepth s) -> sv_failureRate s <= roll ->
  let id := req_field req "task_id" in
  let p := sv_next s in
  let s1 := (SubmitTask req t0 s).2 in
  exists s2, CancelTask id t1 s1 = (true, "", s2) /\
    (exists t, GetTaskStatus s2 id = inr t /\ sr_status t = "Failed" /\ sr_exit_code t = 137) /\
    sv_goroutines s2 !! p = Some WaitingToRun /\
    let s4 := transition_done p t3 roll (transition_running p t2 s2) in
    (exists t, GetTaskStatus s4 id = inr t /\ sr_status t = "Completed" /\ sr_exit_code t = 0) /\
    sv_queueDepth s4 = int32 (sv_queueDepth s - 1).
Proof.
  intros Hfresh Hw Hroll. simpl.
  set (t := new_task req (sv_queueDepth s) t0).
  unfold CancelTask, find_task. simpl. rewrite lookup_insert_eq, lookup_insert_eq.
  rewrite decide_False by (intros [?|?]; done).
  eexists. split; [reflexivity|]. split.
  { eexists. unfold GetTaskStatus, find_task. simpl. rewrite !lookup_insert_eq. done. }
  simpl. rewrite lookup_insert_eq. split; [done|].
  unfold transition_running. simpl. rewrite lookup_insert_eq.
  unfold transition_done. simpl. rewrite lookup_insert_eq.
  rewrite bool_decide_false by lia.
  split.
  { eexists. unfold GetTaskStatus, find_task. simpl. rewrite !lookup_insert_eq. done. }
  simpl. rewrite (int32_shift_sub (sv_queueDepth s + 1) 1), int32_shift_sub. f_equal. lia.
Qed.

(** ** Witnesses *)

Definition ex_submit : gmap string string := {["task_id" := "t1"; "tenant_id" := "acme"]}.
Definition ex_sched : SchedulerService := NewSchedulerService 100 0.

Lemma queue_depth_counts_goroutines_witness :
  sv_queueDepth (SubmitTask ex_submit 5 ex_sched).2 = 1.
Proof.
  assert (rtc sched_step (NewSchedulerService 100 0) (SubmitTask ex_submit 5 ex_sched).2) as Hrun
    by (apply rtc_once; eapply step_submit; apply surjective_pairing).
  exact (proj1 (queue_depth_counts_goroutines 100 0 _ Hrun eq_refl)).
Defined.

Lemma cancelled_task_completes_witness :
  exists s2, CancelTask "t1" 6 (SubmitTask ex_submit 5 ex_sched).2 = (true, "", s2) /\
    sv_queueDepth (transition_done 0 8 50 (transition_running 0 7 s2)) = -1.
Proof.
  destruct (cancelled_task_completes ex_sched ex_submit 5 6 7 8 50) as (s2 & E & _ & _ & _ & Hd);
    [intros p t; simpl; by rewrite lookup_empty|by compute|by compute|].
  exists s2. split; [exact E|]. etrans; [exact Hd|reflexivity].
Defined.
