(* ===== verification/Sql.v ===== *)
(** * The SQL the program sends to PostgreSQL

    The statements of [pkg/storage/postgres.go], as syntax trees: a column list, a
    conjunction of conditions with numbered placeholders, an order, a limit and an
    offset.  A placeholder [$k] is the number [k]; the arguments of a call are a
    list, so that [$k] is its [k]-th element.  The table of
    [config/postgres/migrations] is a list of rows, in the order of their creation, and
    [eval_cond], [apply_sets] and [select_result] say what PostgreSQL does with
    it.  The server is a parameter ([SqlDb]) and [SqlLaws] its documented
    behaviour: a statement is carried out entirely or not at all (one that reports
    an error may be either, as when the connection is lost), conditions on NULL do
    not hold, a fraction is not a [BIGINT]. *)

From Stdlib Require Import Ascii.
From stdpp Require Import sorting.
From S2P Require Import Prelude GoStrings Float64 GoTime Kube.

(** ** Values, rows and conditions *)

Inductive sql_value : Type :=
| VNull
| VText (s : string)
| VInt (z : Z)
| VFloat (f : float64)
| VTime (t : Z).

Abbreviation row := (gmap string sql_value).

Definition col (r : row) (c : string) : sql_value := default VNull (r !! c).

Inductive cond : Type :=
| CEq (c : string) (k : nat)
| CNe (c : string) (k : nat)
| CGe (c : string) (k : nat)
| CLe (c : string) (k : nat)
| CILike (c : string) (k : nat).

(** The argument of a placeholder. *)
Definition arg (args : list sql_value) (k : nat) : sql_value := default VNull (args !! pred k).

(** [LIKE]: [%] is any string, [_] any character, a backslash quotes. *)
Fixpoint like (p s : string) : bool :=
  match p with
  | EmptyString => match s with EmptyString => true | _ => false end
  | String "%" p' =>
      (fix any (s : string) : bool :=
         like p' s || match s with EmptyString => false | String _ s' => any s' end) s
  | String "_" p' => match s with EmptyString => false | String _ s' => like p' s' end
  | String "\" (String c p') =>
      match s with EmptyString => false | String a s' => bool_decide (a = c) && like p' s' end
  | String c p' =>
      match s with EmptyString => false | String a s' => bool_decide (a = c) && like p' s' end
  end.

(** [ILIKE] on ASCII text *)
Definition ilike (s p : string) : bool := like (to_lower p) (to_lower s).

(** [=], on two values that are not NULL *)
Definition sql_eqb (v v' : sql_value) : bool :=
  match v, v' with
  | VText a, VText b => bool_decide (a = b)
  | VInt a, VInt b => bool_decide (a = b)
  | VTime a, VTime b => bool_decide (a = b)
  | _, _ => false
  end.

Definition eval_cond (args : list sql_value) (r : row) (c : cond) : bool :=
  match c with
  | CEq c k => sql_eqb (col r c) (arg args k)
  | CNe c k =>
      match col r c, arg args k with
      | VText a, VText b => bool_decide (a <> b)
      | VInt a, VInt b => bool_decide (a <> b)
      | _, _ => false
      end
  | CGe c k => match col r c, arg args k with VTime a, VTime b => Z.leb b a | _, _ => false end
  | CLe c k => match col r c, arg args k with VTime a, VTime b => Z.leb a b | _, _ => false end
  | CILike c k => match col r c, arg args k with VText a, VText b => ilike a b | _, _ => false end
  end.

Definition eval_where (args : list sql_value) (cs : list cond) (r : row) : bool :=
  forallb (eval_cond args r) cs.

(** ** SELECT *)

Inductive operand : Type := Param (k : nat) | Const (z : Z).

Definition operand_int (args : list sql_value) (o : operand) : option Z :=
  match o with
  | Const z => Some z
  | Param k => match arg args k with VInt z => Some z | _ => None end
  end.

Record select := {
  sel_columns : list string;
  sel_where : list cond;
  sel_order_desc : string;
  sel_limit : operand;
  sel_offset : option operand
}.

Definition sql_time (v : sql_value) : Z := match v with VTime t => t | _ => 0 end.

(** [ORDER BY c DESC] *)
Definition later (c : string) (r1 r2 : row) : Prop := sql_time (col r2 c) <= sql_time (col r1 c).
#[export] Instance later_dec c : RelDecision (later c).
Proof. intros r1 r2. unfold later. apply _. Defined.
#[export] Instance later_total c : Total (later c).
Proof. intros r1 r2. unfold later. lia. Qed.
#[export] Instance later_trans c : Transitive (later c).
Proof. intros r1 r2 r3. unfold later. lia. Qed.

(** Rows that a SELECT may return: an arrangement of the rows that satisfy the
    conditions, newest first, cut to the page.  Rows of equal time may come in
    any order. *)
Definition select_result (q : select) (args : list sql_value) (table rs : list row) : Prop :=
  exists l limit offset,
    l ≡ₚ filter (fun r => eval_where args (sel_where q) r = true) table /\
    Sorted (later (sel_order_desc q)) l /\
    operand_int args (sel_limit q) = Some limit /\ 0 <= limit /\
    match sel_offset q with
    | Some o => operand_int args o = Some offset /\ 0 <= offset
    | None => offset = 0
    end /\
    rs = take (Z.to_nat limit) (drop (Z.to_nat offset) l).

(** A SELECT on the table, or on one of the functions of the migration. *)
Inductive query : Type :=
| QTable (s : select)
| QFunc (columns : list string) (name : string) (params : list nat).

Definition project (columns : list string) (r : row) : list sql_value := col r <$> columns.

(** The columns of the tables the functions return. *)
Definition func_columns (name : string) : list string :=
  if decide (name = "get_tenant_stats") then
    ["total_tasks"; "completed_tasks"; "failed_tasks"; "success_rate";
     "avg_duration_seconds"; "max_duration_seconds"]
  else if decide (name = "get_recent_failures") then
    ["id"; "task_id"; "pod_name"; "reason"; "message"; "failed_at"; "created_at"]
  else [].

(** ** INSERT and UPDATE *)

Record insert_stmt := { ins_columns : list (string * nat); ins_returning : string }.
Record update_stmt := { upd_set : list (string * nat); upd_where : list cond }.

Definition task_statuses : list string :=
  ["pending"; "running"; "completed"; "failed"; "cancelled"; "paused"].

(** What PostgreSQL stores in a column for an argument, if it takes it: a float
    is sent as its decimal text, which is a [BIGINT] only without a fraction; a
    status is one of the enumeration; an [INTEGER] has 32 bits. *)
Definition coerce (c : string) (v : sql_value) : option sql_value :=
  if decide (c = "duration_seconds") then
    match v with
    | VFloat f =>
        match f_trunc f with
        | Some z => if f_eq (f_of_Z z) f then if decide (0 <= z < 2 ^ 63) then Some (VInt z) else None
                    else None
        | None => None
        end
    | _ => None
    end
  else if decide (c = "status") then
    match v with VText s => if decide (s ∈ task_statuses) then Some v else None | _ => None end
  else if decide (c ∈ ["exit_code"; "retry_attempt"; "max_retries"]) then
    match v with VInt z => if decide (is_int32 z) then Some v else None | _ => None end
  else Some v.

Fixpoint apply_sets (args : list sql_value) (sets : list (string * nat)) (r : row) : option row :=
  match sets with
  | [] => Some r
  | (c, k) :: sets' =>
      match coerce c (arg args k) with
      | Some v => apply_sets args sets' (<[c := v]> r)
      | None => None
      end
  end.

(** The defaults of a new row, before the columns of the INSERT are set. *)
Definition default_row (id : string) (now : Z) : row :=
  {[ "id" := VText id; "namespace" := VText "default"; "status" := VText "pending";
     "retry_attempt" := VInt 0; "max_retries" := VInt 0;
     "created_at" := VTime now; "updated_at" := VTime now ]}.

Definition inserted (i : insert_stmt) (args : list sql_value) (id : string)
    (table table' : list row) : Prop :=
  exists now r, apply_sets args (ins_columns i) (default_row id now) = Some r /\
    table' = table ++ [r].

(** One row of an UPDATE: the assignments, and the trigger on [updated_at]. *)
Definition update_row (u : update_stmt) (args : list sql_value) (now : Z) (r r' : row) : Prop :=
  if eval_where args (upd_where u) r
  then exists r1, apply_sets args (upd_set u) r = Some r1 /\
         r' = <["updated_at" := VTime now]> r1
  else r' = r.

Definition matching (u : update_stmt) (args : list sql_value) (table : list row) : list row :=
  filter (fun r => eval_where args (upd_where u) r = true) table.

(** ** The server *)

Class SqlDb (W : Type) := {
  sql_open : string -> W -> option string * W;
  sql_ping : W -> option string * W;
  sql_close : W -> option string * W;
  sql_sleep : Z -> W -> W;
  (** [ExecContext] and then [RowsAffected], each with its own error *)
  sql_exec : update_stmt -> list sql_value -> W -> (string + (string + Z)) * W;
  (** [QueryRowContext] of an INSERT and the [Scan] of its result *)
  sql_insert : insert_stmt -> list sql_value -> W -> (string + string) * W;
  (** [QueryContext]: the rows [Next] yields, and then [rows.Err] *)
  sql_query : query -> list sql_value -> W ->
    (string + (list (list sql_value) * option string)) * W
}.

Class SqlLaws (W : Type) `{!SqlDb W, !Clock W} := {
  db_table : W -> list row;
  db_clock w : db_table (clock_now w).2 = db_table w;
  sql_exec_spec u args w r w' :
    sql_exec u args w = (r, w') ->
    match r with
    | inl _ => db_table w' = db_table w \/
        exists now, Forall2 (update_row u args now) (db_table w) (db_table w')
    | inr n => (exists now, Forall2 (update_row u args now) (db_table w) (db_table w')) /\
        forall k, n = inr k -> k = Z.of_nat (length (matching u args (db_table w)))
    end;
  sql_insert_spec i args w r w' :
    sql_insert i args w = (r, w') ->
    match r with
    | inl _ => db_table w' = db_table w \/ exists id, inserted i args id (db_table w) (db_table w')
    | inr id => inserted i args id (db_table w) (db_table w')
    end;
  sql_query_table q args w r w' :
    sql_query (QTable q) args w = (r, w') ->
    db_table w' = db_table w /\
    match r with
    | inr (vs, None) => exists rs, select_result q args (db_table w) rs /\
        vs = project (sel_columns q) <$> rs
    | _ => True
    end;
  (** naming a column the function does not return is an error *)
  sql_query_func cols name params args w r w' :
    sql_query (QFunc cols name params) args w = (r, w') ->
    db_table w' = db_table w /\
    (~ cols ⊆ func_columns name -> exists e, r = inl e)
}.
