(* ===== verification/Storage.v ===== *)
(** * The task history store: [pkg/storage/postgres.go] and [pkg/storage/types.go]

    Every method of [PostgresStore], over the database interface of [Sql].  The
    mutex protects [closed] only; a method reads it once, at its start.  Log lines
    and the sizes of the connection pool are not modelled. *)

From S2P Require Import Prelude GoStrings Float64 GoTime Kube Sql.

(** ** Types *)

Definition TaskStatusPending : string := "pending".
Definition TaskStatusRunning : string := "running".
Definition TaskStatusCompleted : string := "completed".
Definition TaskStatusFailed : string := "failed".
Definition TaskStatusCancelled : string := "cancelled".
Definition TaskStatusPaused : string := "paused".

(** [sql.NullString] and its kin are options. *)
Record TaskRecord := {
  rec_ID : string;
  rec_TaskID : string;
  rec_TenantID : string;
  rec_PodName : string;
  rec_Namespace : string;
  rec_ContainerID : option string;
  rec_Status : string;
  rec_ExitCode : option Z;
  rec_RetryAttempt : Z;
  rec_MaxRetries : Z;
  rec_StartedAt : option Z;
  rec_CompletedAt : option Z;
  rec_Duration : option Z;
  rec_Reason : option string;
  rec_Message : option string;
  rec_CreatedAt : Z;
  rec_UpdatedAt : Z
}.

Record TaskExecutionStats := {
  stat_TotalTasks : Z;
  stat_CompletedTasks : Z;
  stat_FailedTasks : Z;
  stat_SuccessRate : float64;
  stat_AvgDuration : float64;
  stat_MaxDuration : Z
}.

(** The zero [time.Time] of an unset date is [None]. *)
Record TaskFilter := {
  tf_TenantID : string;
  tf_Status : string;
  tf_StartDate : option Z;
  tf_EndDate : option Z;
  tf_PodName : string;
  tf_OnlyFailed : bool;
  tf_Limit : Z;
  tf_Offset : Z
}.

Record RecentFailure := {
  rf_ID : string;
  rf_TaskID : string;
  rf_PodName : string;
  rf_Reason : string;
  rf_Message : string;
  rf_FailedAt : option Z;
  rf_CreatedAt : Z
}.

(** ** [Scan]: a column value into a Go variable *)

Definition scan_error (target : string) : string :=
  "sql: Scan error: converting to " +:+ target +:+ " is unsupported".

Definition scan_string (v : sql_value) : string + string :=
  match v with VText s => inr s | _ => inl (scan_error "string") end.
Definition scan_null_string (v : sql_value) : string + option string :=
  match v with VNull => inr None | VText s => inr (Some s) | _ => inl (scan_error "string") end.
Definition scan_int (v : sql_value) : string + Z :=
  match v with VInt z => inr z | _ => inl (scan_error "int") end.
Definition scan_null_int (v : sql_value) : string + option Z :=
  match v with VNull => inr None | VInt z => inr (Some z) | _ => inl (scan_error "int") end.
Definition scan_float (v : sql_value) : string + float64 :=
  match v with VFloat f => inr f | VInt z => inr (f_of_Z z) | _ => inl (scan_error "float64") end.
Definition scan_time (v : sql_value) : string + Z :=
  match v with VTime t => inr t | _ => inl (scan_error "*time.Time") end.
Definition scan_null_time (v : sql_value) : string + option Z :=
  match v with VNull => inr None | VTime t => inr (Some t) | _ => inl (scan_error "*time.Time") end.

(** Errors of a sequence of scans: the first one. *)
Definition sbind {A B} (x : string + A) (f : A -> string + B) : string + B :=
  match x with inl e => inl e | inr a => f a end.
Notation "'let*' x := m 'in' k" := (sbind m (fun x => k)) (at level 10, x name, k at level 200).

Definition scan_record (vs : list sql_value) : string + TaskRecord :=
  match vs with
  | [id; task_id; tenant_id; pod_name; ns; container_id; status; exit_code; retry; maxr;
     started; completed; duration; reason; message; created; updated] =>
      let* ID := scan_string id in
      let* TaskID := scan_string task_id in
      let* TenantID := scan_string tenant_id in
      let* PodName := scan_string pod_name in
      let* Namespace := scan_string ns in
      let* ContainerID := scan_null_string container_id in
      let* Status := scan_string status in
      let* ExitCode := scan_null_int exit_code in
      let* RetryAttempt := scan_int retry in
      let* MaxRetries := scan_int maxr in
      let* StartedAt := scan_null_time started in
      let* CompletedAt := scan_null_time completed in
      let* Duration := scan_null_int duration in
      let* Reason := scan_null_string reason in
      let* Message := scan_null_string message in
      let* CreatedAt := scan_time created in
      let* UpdatedAt := scan_time updated in
      inr {| rec_ID := ID; rec_TaskID := TaskID; rec_TenantID := TenantID;
             rec_PodName := PodName; rec_Namespace := Namespace;
             rec_ContainerID := ContainerID; rec_Status := Status; rec_ExitCode := ExitCode;
             rec_RetryAttempt := RetryAttempt; rec_MaxRetries := MaxRetries;
             rec_StartedAt := StartedAt; rec_CompletedAt := CompletedAt;
             rec_Duration := Duration; rec_Reason := Reason; rec_Message := Message;
             rec_CreatedAt := CreatedAt; rec_UpdatedAt := UpdatedAt |}
  | _ => inl "sql: wrong number of destination arguments in Scan"
  end.

Definition scan_stats (vs : list sql_value) : string + TaskExecutionStats :=
  match vs with
  | [total; completed; failed; rate; avg; maxd] =>
      let* TotalTasks := scan_int total in
      let* CompletedTasks := scan_int completed in
      let* FailedTasks := scan_int failed in
      let* SuccessRate := scan_float rate in
      let* AvgDuration := scan_float avg in
      let* MaxDuration := scan_int maxd in
      inr {| stat_TotalTasks := TotalTasks; stat_CompletedTasks := CompletedTasks;
             stat_FailedTasks := FailedTasks; stat_SuccessRate := SuccessRate;
             stat_AvgDuration := AvgDuration; stat_MaxDuration := MaxDuration |}
  | _ => inl "sql: wrong number of destination arguments in Scan"
  end.

Definition scan_failure (vs : list sql_value) : string + RecentFailure :=
  match vs with
  | [id; task_id; pod_name; reason; message; failed; created] =>
      let* ID := scan_string id in
      let* TaskID := scan_string task_id in
      let* PodName := scan_string pod_name in
      let* Reason := scan_string reason in
      let* Message := scan_string message in
      let* FailedAt := scan_null_time failed in
      let* CreatedAt := scan_time created in
      inr {| rf_ID := ID; rf_TaskID := TaskID; rf_PodName := PodName; rf_Reason := Reason;
             rf_Message := Message; rf_FailedAt := FailedAt; rf_CreatedAt := CreatedAt |}
  | _ => inl "sql: wrong number of destination arguments in Scan"
  end.

(** The loop over [rows.Next]: the first scan error ends it. *)
Fixpoint scan_all {A} (scan : list sql_value -> string + A) (rows : list (list sql_value))
    : string + list A :=
  match rows with
  | [] => inr []
  | vs :: rows' => let* x := scan vs in let* xs := scan_all scan rows' in inr (x :: xs)
  end.

(** ** The statements *)

Definition record_columns : list string :=
  ["id"; "task_id"; "tenant_id"; "pod_name"; "namespace"; "container_id";
   "status"; "exit_code"; "retry_attempt"; "max_retries";
   "started_at"; "completed_at"; "duration_seconds"; "reason"; "message";
   "created_at"; "updated_at"].

Definition start_stmt : insert_stmt :=
  {| ins_columns := [("task_id", 1); ("tenant_id", 2); ("pod_name", 3); ("namespace", 4);
                     ("status", 5); ("started_at", 6)]%nat;
     ins_returning := "id" |}.

Definition completion_stmt : update_stmt :=
  {| upd_set := [("status", 1); ("exit_code", 2); ("duration_seconds", 3);
                 ("completed_at", 4)]%nat;
     upd_where := [CEq "pod_name" 5; CEq "task_id" 6; CNe "status" 7] |}.

Definition failure_stmt : update_stmt :=
  {| upd_set := [("status", 1); ("exit_code", 2); ("duration_seconds", 3);
                 ("completed_at", 4); ("reason", 5); ("message", 6);
                 ("retry_attempt", 7); ("max_retries", 8)]%nat;
     upd_where := [CEq "pod_name" 9; CEq "task_id" 10; CNe "status" 11] |}.

(** [GetTaskHistory] builds its conditions, arguments and [argIdx] one by one. *)
Record builder := { bd_where : list cond; bd_args : list sql_value; bd_argIdx : nat }.

Definition add_cond (c : nat -> cond) (v : sql_value) (b : builder) : builder :=
  {| bd_where := bd_where b ++ [c (bd_argIdx b)]; bd_args := bd_args b ++ [v];
     bd_argIdx := S (bd_argIdx b) |}.

Definition history_where (f : TaskFilter) : builder :=
  let b := {| bd_where := [CEq "tenant_id" 1]; bd_args := [VText (tf_TenantID f)];
              bd_argIdx := 2 |} in
  let b := if decide (tf_Status f <> "")
           then add_cond (CEq "status") (VText (tf_Status f)) b else b in
  let b := if tf_OnlyFailed f
           then add_cond (CEq "status") (VText TaskStatusFailed) b else b in
  let b := match tf_StartDate f with
           | Some t => add_cond (CGe "created_at") (VTime t) b | None => b end in
  let b := match tf_EndDate f with
           | Some t => add_cond (CLe "created_at") (VTime t) b | None => b end in
  if decide (tf_PodName f <> "")
  then add_cond (CILike "pod_name") (VText ("%" +:+ tf_PodName f +:+ "%")) b else b.

Definition history_query (f : TaskFilter) : select * list sql_value :=
  let limit := if decide (tf_Limit f = 0) then 100 else tf_Limit f in
  let b := history_where f in
  let args := bd_args b ++ [VInt limit] in
  let q offset := {| sel_columns := record_columns; sel_where := bd_where b;
                     sel_order_desc := "created_at"; sel_limit := Param (bd_argIdx b);
                     sel_offset := offset |} in
  if decide (tf_Offset f > 0)
  then (q (Some (Param (S (bd_argIdx b)))), args ++ [VInt (tf_Offset f)])
  else (q None, args).

Definition by_id_query : select :=
  {| sel_columns := record_columns; sel_where := [CEq "task_id" 1; CEq "tenant_id" 2];
     sel_order_desc := "created_at"; sel_limit := Const 1; sel_offset := None |}.

Definition stats_query : query :=
  QFunc ["total_tasks"; "completed_tasks"; "failed_tasks"; "success_rate";
         "avg_duration_seconds"; "max_duration_seconds"] "get_tenant_stats" [1; 2]%nat.

Definition failures_query : query :=
  QFunc ["id"; "task_id"; "pod_name"; "reason"; "message"; "completed_at"; "created_at"]
    "get_recent_failures" [1; 2]%nat.

(** ** The store *)

Record PostgresStore := { ps_closed : bool }.

Section Store.
Context {W : Type} `{!SqlDb W, !Clock W}.

(** *** [NewPostgresStore]: up to five attempts, with a delay that doubles *)

(** One turn of the loop: its error, if any. *)
Definition open_attempt (connString : string) : GoM W (option string) :=
  e ← lift (sql_open connString);
  match e with
  | Some err => mret (Some err)
  | None =>
      p ← lift sql_ping;
      match p with
      | Some err => _ ← lift sql_close; mret (Some err)
      | None => mret None
      end
  end.

(** [n] turns are left; the last one does not sleep. *)
Fixpoint open_loop (n : nat) (retryDelay : Z) (connString : string) (err : option string)
    : GoM W (option string) :=
  match n with
  | O => mret err
  | S n' =>
      e ← open_attempt connString;
      match e with
      | None => mret None
      | Some _ =>
          match n' with
          | O => mret e
          | S _ =>
              _ ← lift_unit (sql_sleep retryDelay);
              open_loop n' (int64 (retryDelay * 2)) connString e
          end
      end
  end.

Definition NewPostgresStore (connString : string) : GoM W (string + PostgresStore) :=
  err ← open_loop 5 Second connString None;
  match err with
  | Some e => mret (inl ("failed to connect to PostgreSQL after 5 attempts: " +:+ e))
  | None => mret (inr {| ps_closed := false |})
  end.

(** *** Recording *)

Definition RecordTaskStart (ps : PostgresStore) (taskID tenantID podName namespace : string)
    : GoM W (option string) :=
  if ps_closed ps then mret (Some "store is closed")
  else
    now ← lift clock_now;
    r ← lift (sql_insert start_stmt
          [VText taskID; VText tenantID; VText podName; VText namespace;
           VText TaskStatusRunning; VTime now]);
    match r with
    | inl err => mret (Some ("failed to record task start: " +:+ err))
    | inr _ => mret None
    end.

(** The part that [RecordTaskCompletion] and [RecordTaskFailure] share. *)
Definition exec_update (u : update_stmt) (args : list sql_value) (what missing : string)
    : GoM W (option string) :=
  r ← lift (sql_exec u args);
  match r with
  | inl err => mret (Some ("failed to record task " +:+ what +:+ ": " +:+ err))
  | inr (inl err) => mret (Some ("failed to get rows affected: " +:+ err))
  | inr (inr rowsAffected) =>
      if decide (rowsAffected = 0) then mret (Some missing) else mret None
  end.

Definition completion_args (taskID podName : string) (exitCode duration now : Z)
    : list sql_value :=
  [VText TaskStatusCompleted; VInt exitCode; VFloat (duration_seconds duration); VTime now;
   VText podName; VText taskID; VText TaskStatusCompleted].

Definition RecordTaskCompletion (ps : PostgresStore) (taskID podName : string)
    (exitCode duration : Z) : GoM W (option string) :=
  if ps_closed ps then mret (Some "store is closed")
  else
    now ← lift clock_now;
    exec_update completion_stmt (completion_args taskID podName exitCode duration now)
      "completion" "task not found or already completed".

Definition failure_args (taskID podName reason message : string)
    (exitCode duration retryAttempt maxRetries now : Z) : list sql_value :=
  [VText TaskStatusFailed; VInt exitCode; VFloat (duration_seconds duration); VTime now;
   VText reason; VText message; VInt retryAttempt; VInt maxRetries;
   VText podName; VText taskID; VText TaskStatusFailed].

Definition RecordTaskFailure (ps : PostgresStore) (taskID podName reason message : string)
    (exitCode duration retryAttempt maxRetries : Z) : GoM W (option string) :=
  if ps_closed ps then mret (Some "store is closed")
  else
    now ← lift clock_now;
    exec_update failure_stmt
      (failure_args taskID podName reason message exitCode duration retryAttempt maxRetries now)
      "failure" "task not found or already failed".

(** *** Reading *)

(** The query, the loop over the rows and [rows.Err]. *)
Definition query_all {A} (q : query) (args : list sql_value)
    (scan : list sql_value -> string + A) (queryMsg scanMsg iterMsg : string)
    : GoM W (string + list A) :=
  r ← lift (sql_query q args);
  match r with
  | inl err => mret (inl (queryMsg +:+ err))
  | inr (rows, rows_err) =>
      match scan_all scan rows with
      | inl err => mret (inl (scanMsg +:+ err))
      | inr xs =>
          match rows_err with
          | Some err => mret (inl (iterMsg +:+ err))
          | None => mret (inr xs)
          end
      end
  end.

Definition GetTaskHistory (ps : PostgresStore) (filter : TaskFilter)
    : GoM W (string + list TaskRecord) :=
  if ps_closed ps then mret (inl "store is closed")
  else if decide (tf_TenantID filter = "") then mret (inl "tenant_id is required")
  else
    let '(q, args) := history_query filter in
    query_all (QTable q) args scan_record "failed to query task history: "
      "failed to scan task record: " "error iterating rows: ".

(** [QueryRowContext(...).Scan]: the first row, or [None] for [sql.ErrNoRows]. *)
Definition query_row {A} (q : query) (args : list sql_value)
    (scan : list sql_value -> string + A) : GoM W (option string + A) :=
  r ← lift (sql_query q args);
  match r with
  | inl err => mret (inl (Some err))
  | inr ([], Some err) => mret (inl (Some err))
  | inr ([], None) => mret (inl None)
  | inr (vs :: _, _) =>
      match scan vs with
      | inl err => mret (inl (Some err))
      | inr x => mret (inr x)
      end
  end.

Definition GetTaskByID (ps : PostgresStore) (taskID tenantID : string)
    : GoM W (string + TaskRecord) :=
  if ps_closed ps then mret (inl "store is closed")
  else
    r ← query_row (QTable by_id_query) [VText taskID; VText tenantID] scan_record;
    match r with
    | inl None => mret (inl "task not found")
    | inl (Some err) => mret (inl ("failed to query task: " +:+ err))
    | inr rec => mret (inr rec)
    end.

Definition GetTenantStats (ps : PostgresStore) (tenantID : string) (days : Z)
    : GoM W (string + TaskExecutionStats) :=
  if ps_closed ps then mret (inl "store is closed")
  else
    let days := if decide (days = 0) then 30 else days in
    r ← query_row stats_query [VText tenantID; VInt days] scan_stats;
    match r with
    | inl None => mret (inl "failed to query tenant stats: sql: no rows in result set")
    | inl (Some err) => mret (inl ("failed to query tenant stats: " +:+ err))
    | inr stats => mret (inr stats)
    end.

Definition GetRecentFailures (ps : PostgresStore) (tenantID : string) (limit : Z)
    : GoM W (string + list RecentFailure) :=
  if ps_closed ps then mret (inl "store is closed")
  else
    let limit := if decide (limit = 0) then 10 else limit in
    query_all failures_query [VText tenantID; VInt limit] scan_failure
      "failed to query recent failures: " "failed to scan failure record: "
      "error iterating failure rows: ".

(** *** [Close]: idempotent *)
Definition store_Close (ps : PostgresStore) : GoM W (option string * PostgresStore) :=
  if ps_closed ps then mret (None, ps)
  else
    e ← lift sql_close;
    match e with
    | Some err => mret (Some ("failed to close database: " +:+ err), ps)
    | None => mret (None, {| ps_closed := true |})
    end.
End Store.
