(* ===== verification/StorageProofs.v ===== *)
(** * What the task history store guarantees

    The rows the store writes are well-formed in every history of its calls, and
    are never removed; [GetTaskHistory] implements the abstract query of its
    filter; an update changes exactly the rows it names. *)

From Stdlib Require Import Ascii.
From stdpp Require Import sorting.
From S2P Require Import Prelude GoStrings Float64 GoTime Kube Sql Storage.

(** ** Rows *)

Lemma col_insert (r : row) c c' v : col (<[c := v]> r) c' = if decide (c = c') then v else col r c'.
Proof. unfold col. rewrite lookup_insert. by case_decide. Qed.

(** The type of a column's values. *)
Inductive kind : Type := KText | KNullText | KInt | KNullInt | KTime | KNullTime.

Definition has_kind (k : kind) (v : sql_value) : Prop :=
  match k, v with
  | KText, VText _ | KInt, VInt _ | KTime, VTime _ => True
  | KNullText, (VNull | VText _) | KNullInt, (VNull | VInt _) | KNullTime, (VNull | VTime _) => True
  | _, _ => False
  end.

Definition column_kind (c : string) : kind :=
  if decide (c ∈ ["id"; "task_id"; "tenant_id"; "pod_name"; "namespace"; "status"]) then KText
  else if decide (c ∈ ["retry_attempt"; "max_retries"]) then KInt
  else if decide (c ∈ ["exit_code"; "duration_seconds"]) then KNullInt
  else if decide (c ∈ ["created_at"; "updated_at"]) then KTime
  else if decide (c ∈ ["started_at"; "completed_at"]) then KNullTime
  else KNullText.

Definition row_typed (r : row) : Prop := forall c, has_kind (column_kind c) (col r c).

Lemma row_typed_insert r c v :
  row_typed r -> has_kind (column_kind c) v -> row_typed (<[c := v]> r).
Proof. intros Hr Hv c'. rewrite col_insert. case_decide; [by subst|done]. Qed.

Ltac scan_column r c :=
  let E := fresh "E" in
  match goal with H : row_typed r |- _ => pose proof (H c) as E end;
  change (column_kind c) with ltac:(let k := eval vm_compute in (column_kind c) in exact k) in E;
  destruct (col r c); try done; clear E.

(** A typed row can be scanned, and its record has the row's tenant. *)
Lemma scan_record_typed r :
  row_typed r -> exists rec, scan_record (project record_columns r) = inr rec.
Proof.
  intros Hr. unfold project, record_columns, scan_record. cbn [fmap list_fmap].
  scan_column r "id". scan_column r "task_id". scan_column r "tenant_id".
  scan_column r "pod_name". scan_column r "namespace". scan_column r "container_id";
  scan_column r "status"; scan_column r "retry_attempt"; scan_column r "max_retries";
  scan_column r "created_at"; scan_column r "updated_at"; scan_column r "exit_code";
  scan_column r "started_at"; scan_column r "completed_at"; scan_column r "duration_seconds";
  scan_column r "reason"; scan_column r "message"; by eexists.
Qed.

Lemma sbind_inr {A B} (x : string + A) (f : A -> string + B) b :
  sbind x f = inr b -> exists a, x = inr a /\ f a = inr b.
Proof. destruct x; simpl; [done|eauto]. Qed.

(** The record that stands for a row: every column in its field. *)
Definition nullable {A} (mk : A -> sql_value) (o : option A) : sql_value :=
  match o with Some a => mk a | None => VNull end.

Definition represents (r : row) (rec : TaskRecord) : Prop :=
  col r "id" = VText (rec_ID rec) /\
  col r "task_id" = VText (rec_TaskID rec) /\
  col r "tenant_id" = VText (rec_TenantID rec) /\
  col r "pod_name" = VText (rec_PodName rec) /\
  col r "namespace" = VText (rec_Namespace rec) /\
  col r "container_id" = nullable VText (rec_ContainerID rec) /\
  col r "status" = VText (rec_Status rec) /\
  col r "exit_code" = nullable VInt (rec_ExitCode rec) /\
  col r "retry_attempt" = VInt (rec_RetryAttempt rec) /\
  col r "max_retries" = VInt (rec_MaxRetries rec) /\
  col r "started_at" = nullable VTime (rec_StartedAt rec) /\
  col r "completed_at" = nullable VTime (rec_CompletedAt rec) /\
  col r "duration_seconds" = nullable VInt (rec_Duration rec) /\
  col r "reason" = nullable VText (rec_Reason rec) /\
  col r "message" = nullable VText (rec_Message rec) /\
  col r "created_at" = VTime (rec_CreatedAt rec) /\
  col r "updated_at" = VTime (rec_UpdatedAt rec).

Lemma scan_string_inr v s : scan_string v = inr s -> v = VText s.
Proof. by destruct v; intros; simplify_eq/=. Qed.
Lemma scan_int_inr v z : scan_int v = inr z -> v = VInt z.
Proof. by destruct v; intros; simplify_eq/=. Qed.
Lemma scan_time_inr v t : scan_time v = inr t -> v = VTime t.
Proof. by destruct v; intros; simplify_eq/=. Qed.
Lemma scan_null_string_inr v o : scan_null_string v = inr o -> v = nullable VText o.
Proof. by destruct v; intros; simplify_eq/=. Qed.
Lemma scan_null_int_inr v o : scan_null_int v = inr o -> v = nullable VInt o.
Proof. by destruct v; intros; simplify_eq/=. Qed.
Lemma scan_null_time_inr v o : scan_null_time v = inr o -> v = nullable VTime o.
Proof. by destruct v; intros; simplify_eq/=. Qed.
#[local] Hint Resolve scan_string_inr scan_int_inr scan_time_inr scan_null_string_inr
  scan_null_int_inr scan_null_time_inr : go.

Lemma scan_record_represents r rec :
  scan_record (project record_columns r) = inr rec -> represents r rec.
Proof.
  unfold project, record_columns, scan_record. cbn [fmap list_fmap]. intros E.
  repeat (apply sbind_inr in E as (? & ? & E)). injection E as <-.
  unfold represents. cbn. repeat split; eauto with go.
Qed.

(** ** The conditions of [GetTaskHistory] *)

(** What the filter asks of a row. *)
Definition history_matches (f : TaskFilter) (r : row) : Prop :=
  col r "tenant_id" = VText (tf_TenantID f) /\
  (tf_Status f <> "" -> col r "status" = VText (tf_Status f)) /\
  (tf_OnlyFailed f = true -> col r "status" = VText "failed") /\
  (forall t, tf_StartDate f = Some t -> exists c, col r "created_at" = VTime c /\ t <= c) /\
  (forall t, tf_EndDate f = Some t -> exists c, col r "created_at" = VTime c /\ c <= t) /\
  (tf_PodName f <> "" ->
     exists p, col r "pod_name" = VText p /\ ilike p ("%" +:+ tf_PodName f +:+ "%") = true).

(** A builder whose next placeholder is the next argument, and whose conditions
    hold of the rows in [P] whatever arguments are added. *)
Definition denotes (b : builder) (P : row -> Prop) : Prop :=
  bd_argIdx b = S (length (bd_args b)) /\
  forall extra r, eval_where (bd_args b ++ extra) (bd_where b) r = true <-> P r.

Lemma arg_app_r args v extra : arg (args ++ v :: extra) (S (length args)) = v.
Proof. unfold arg. simpl. by rewrite list_lookup_middle. Qed.

Lemma add_cond_denotes b (P Q : row -> Prop) c v :
  denotes b P ->
  (forall args k r, arg args k = v -> eval_cond args r (c k) = true <-> Q r) ->
  denotes (add_cond c v b) (fun r => P r /\ Q r).
Proof.
  intros [Hi HP] Hc. split; [simpl; rewrite length_app, Hi; simpl; lia|].
  intros extra r. unfold eval_where. simpl. rewrite <- app_assoc. simpl.
  rewrite forallb_app, andb_true_iff. unfold eval_where in HP. rewrite HP. simpl.
  rewrite andb_true_r, (Hc _ _ r); [done|]. rewrite Hi. apply arg_app_r.
Qed.

Lemma denotes_if b (P Q : row -> Prop) (d : bool) c v :
  denotes b P ->
  (d = true -> forall args k r, arg args k = v -> eval_cond args r (c k) = true <-> Q r) ->
  denotes (if d then add_cond c v b else b) (fun r => P r /\ (d = true -> Q r)).
Proof.
  intros Hb Hc. destruct d.
  - destruct (add_cond_denotes b P Q c v Hb (Hc eq_refl)) as [Hi HP]. split; [done|].
    intros extra r. rewrite HP. naive_solver.
  - destruct Hb as [Hi HP]. split; [done|]. intros extra r. rewrite HP. naive_solver.
Qed.

Lemma denotes_proper b (P Q : row -> Prop) :
  denotes b P -> (forall r, P r <-> Q r) -> denotes b Q.
Proof. intros [Hi HP] HQ. split; [done|]. intros extra r. by rewrite HP. Qed.

Lemma CEq_text args k r c s :
  arg args k = VText s -> eval_cond args r (CEq c k) = true <-> col r c = VText s.
Proof.
  intros E. simpl. rewrite E. destruct (col r c); simpl; rewrite ?bool_decide_eq_true; naive_solver.
Qed.

Lemma CGe_time args k r c t :
  arg args k = VTime t ->
  eval_cond args r (CGe c k) = true <-> exists x, col r c = VTime x /\ t <= x.
Proof. intros E. simpl. rewrite E. destruct (col r c); rewrite ?Z.leb_le; naive_solver. Qed.

Lemma CLe_time args k r c t :
  arg args k = VTime t ->
  eval_cond args r (CLe c k) = true <-> exists x, col r c = VTime x /\ x <= t.
Proof. intros E. simpl. rewrite E. destruct (col r c); rewrite ?Z.leb_le; naive_solver. Qed.

Lemma CILike_text args k r c p :
  arg args k = VText p ->
  eval_cond args r (CILike c k) = true <-> exists s, col r c = VText s /\ ilike s p = true.
Proof. intros E. simpl. rewrite E. destruct (col r c); naive_solver. Qed.

Lemma denotes_option {A} b (P : row -> Prop) (Q : A -> row -> Prop) (o : option A) c v :
  denotes b P ->
  (forall t args k r, arg args k = v t -> eval_cond args r (c k) = true <-> Q t r) ->
  denotes (match o with Some t => add_cond c (v t) b | None => b end)
    (fun r => P r /\ forall t, o = Some t -> Q t r).
Proof.
  intros Hb Hc. destruct o as [t|].
  - eapply denotes_proper; [apply (add_cond_denotes b P (Q t)); [done|apply Hc]|]. naive_solver.
  - eapply denotes_proper; [done|]. naive_solver.
Qed.

Lemma denotes_decide b (P Q : row -> Prop) (D : Prop) `{!Decision D} c v :
  denotes b P ->
  (forall args k r, arg args k = v -> eval_cond args r (c k) = true <-> Q r) ->
  denotes (if decide D then add_cond c v b else b) (fun r => P r /\ (D -> Q r)).
Proof.
  intros Hb Hc. destruct (decide D).
  - eapply denotes_proper; [by apply (add_cond_denotes b P Q)|]. naive_solver.
  - eapply denotes_proper; [done|]. naive_solver.
Qed.

Lemma history_where_denotes f : denotes (history_where f) (history_matches f).
Proof.
  unfold history_where. eapply denotes_proper.
  - eapply (denotes_decide _ _ (fun r => exists p, col r "pod_name" = VText p /\
             ilike p ("%" +:+ tf_PodName f +:+ "%") = true)); [|intros; by apply CILike_text].
    eapply (denotes_option _ _ (fun t r => exists c, col r "created_at" = VTime c /\ c <= t));
      [|intros; by apply CLe_time].
    eapply (denotes_option _ _ (fun t r => exists c, col r "created_at" = VTime c /\ t <= c));
      [|intros; by apply CGe_time].
    eapply (denotes_if _ _ (fun r => col r "status" = VText TaskStatusFailed));
      [|intros; by apply CEq_text].
    eapply (denotes_decide _ _ (fun r => col r "status" = VText (tf_Status f)));
      [|intros; by apply CEq_text].
    instantiate (1 := fun r => col r "tenant_id" = VText (tf_TenantID f)).
    split; [done|]. intros extra r. unfold eval_where. cbn [forallb bd_where bd_args].
    rewrite andb_true_r. by apply CEq_text.
  - intros r. unfold history_matches, TaskStatusFailed. tauto.
Qed.

#[export] Instance history_matches_dec f r : Decision (history_matches f r).
Proof.
  destruct (history_where_denotes f) as [_ H].
  destruct (eval_where (bd_args (history_where f) ++ []) (bd_where (history_where f)) r) eqn:E.
  - left. by apply (H []).
  - right. intros Hm. apply (H []) in Hm. congruence.
Defined.

(** The abstract answer to a filter: the rows it asks for, newest first, cut to
    the page, each as its record. *)
Definition history_answer (f : TaskFilter) (table : list row) (recs : list TaskRecord) : Prop :=
  let limit := if decide (tf_Limit f = 0) then 100 else tf_Limit f in
  exists sel, sel ≡ₚ filter (history_matches f) table /\
    Sorted (later "created_at") sel /\ 0 <= limit /\
    Forall2 represents (take (Z.to_nat limit) (drop (Z.to_nat (tf_Offset f)) sel)) recs.

(** The same, read off the SELECT that the code builds. *)
Lemma history_query_answer f q args table rs :
  history_query f = (q, args) -> select_result q args table rs ->
  exists sel, sel ≡ₚ filter (history_matches f) table /\ Sorted (later "created_at") sel /\
    let limit := if decide (tf_Limit f = 0) then 100 else tf_Limit f in
    0 <= limit /\ rs = take (Z.to_nat limit) (drop (Z.to_nat (tf_Offset f)) sel).
Proof.
  unfold history_query. intros E (l & limit & offset & Hperm & Hsort & Hlim & Hpos & Hoff & ->).
  destruct (history_where_denotes f) as [Hi Hd]. exists l.
  rewrite Hi in E. set (lim := if decide (tf_Limit f = 0) then 100 else tf_Limit f) in *.
  assert (exists extra, args = bd_args (history_where f) ++ VInt lim :: extra /\
    sel_where q = bd_where (history_where f) /\ sel_order_desc q = "created_at" /\
    sel_limit q = Param (S (length (bd_args (history_where f)))) /\
    offset = (if decide (tf_Offset f > 0) then tf_Offset f else 0)) as (extra & -> & Hw & Ho & Hl & Hf).
  { case_decide; simplify_eq/=.
    - exists [VInt (tf_Offset f)]. rewrite <- app_assoc. split_and!; try done.
      destruct Hoff as [Hoff _]. rewrite <- app_assoc in Hoff. unfold operand_int, arg in Hoff.
      simpl in Hoff. rewrite lookup_app_r in Hoff by lia.
      rewrite Nat.sub_succ_l, Nat.sub_diag in Hoff by lia. by simplify_eq/=.
    - by exists []. }
  rewrite Hl in Hlim. unfold operand_int in Hlim. rewrite arg_app_r in Hlim. simplify_eq.
  rewrite Hw in Hperm. rewrite Ho in Hsort. split_and!; try done.
  - rewrite Hperm. apply reflexive_eq, list_filter_iff. intros r. apply Hd.
  - by replace (Z.to_nat (if decide (tf_Offset f > 0) then tf_Offset f else 0))
      with (Z.to_nat (tf_Offset f)) by (destruct (decide (tf_Offset f > 0)); lia).
Qed.

(** Scanning typed rows succeeds. *)
Lemma scan_all_typed rs :
  Forall row_typed rs ->
  exists recs, scan_all scan_record (project record_columns <$> rs) = inr recs /\
    Forall2 represents rs recs.
Proof.
  induction 1 as [|r rs Hr _ (recs & E & Hrecs)]; [by exists []|].
  destruct (scan_record_typed r Hr) as [rec Erec]. exists (rec :: recs). split.
  - rewrite fmap_cons. cbn [scan_all]. rewrite Erec. cbn [sbind]. by rewrite E.
  - constructor; [by apply scan_record_represents|done].
Qed.

(** ** What the statements do to a row *)

Lemma apply_sets_other args sets r r' c :
  apply_sets args sets r = Some r' -> c ∉ sets.*1 -> col r' c = col r c.
Proof.
  revert r. induction sets as [|[c' k] sets IH]; intros r E Hc; [by simplify_eq/=|].
  simpl in E. destruct (coerce c' (arg args k)) as [v|]; [|done].
  rewrite fmap_cons, not_elem_of_cons in Hc. destruct Hc as [Hc Hc'].
  rewrite (IH _ E Hc'), col_insert. by rewrite decide_False.
Qed.

Lemma apply_sets_set args sets r r' c k :
  apply_sets args sets r = Some r' -> NoDup sets.*1 -> (c, k) ∈ sets ->
  coerce c (arg args k) = Some (col r' c).
Proof.
  revert r. induction sets as [|[c' k'] sets IH]; intros r E Hnd Hin; [by apply not_elem_of_nil in Hin|].
  simpl in E. destruct (coerce c' (arg args k')) as [v|] eqn:Ev; [|done].
  rewrite fmap_cons, NoDup_cons in Hnd. destruct Hnd as [Hc Hnd]. simpl in Hc.
  apply elem_of_cons in Hin as [[= -> ->]|Hin]; [|by eapply IH].
  rewrite Ev. rewrite (apply_sets_other _ _ _ _ _ E Hc), col_insert. by rewrite decide_True.
Qed.

Lemma apply_sets_typed args sets r r' :
  apply_sets args sets r = Some r' -> row_typed r ->
  (forall c k v, (c, k) ∈ sets -> coerce c (arg args k) = Some v -> has_kind (column_kind c) v) ->
  row_typed r'.
Proof.
  revert r. induction sets as [|[c k] sets IH]; intros r E Hr Hk; [by simplify_eq/=|].
  simpl in E. destruct (coerce c (arg args k)) as [v|] eqn:Ev; [|done].
  eapply IH; [exact E| |].
  - apply row_typed_insert; [done|]. eapply Hk; [left|exact Ev].
  - intros c' k' v' Hin. apply Hk. by right.
Qed.

Lemma coerce_duration v d : coerce "duration_seconds" v = Some d -> exists z, d = VInt z /\ 0 <= z.
Proof.
  unfold coerce. rewrite decide_True by done. destruct v as [| | |f|]; try done.
  destruct (f_trunc f) as [z|]; [|done]. destruct (f_eq _ _); [|done].
  case_decide; [|done]. intros [= <-]. exists z. split; [done|lia].
Qed.

Lemma coerce_int c v d :
  c ∈ ["exit_code"; "retry_attempt"; "max_retries"] -> coerce c v = Some d ->
  exists z, d = VInt z /\ is_int32 z.
Proof.
  intros Hc. unfold coerce.
  rewrite decide_False by (intros ->; set_solver).
  rewrite decide_False by (intros ->; set_solver).
  rewrite decide_True by done. destruct v; try done. case_decide; [|done]. intros [= <-]. eauto.
Qed.

Lemma coerce_other c v d : c <> "duration_seconds" -> coerce c v = Some d -> d = v.
Proof.
  intros Hc. unfold coerce. rewrite decide_False by done. case_decide.
  - destruct v; try done. case_decide; [|done]. by intros [= <-].
  - case_decide; [|by intros [= <-]]. destruct v; try done. case_decide; [|done]. by intros [= <-].
Qed.

(** A row is that of a running task, or of one that ended, with what its end left. *)
Definition row_ok (r : row) : Prop :=
  row_typed r /\
  (col r "status" = VText TaskStatusRunning /\
     (forall c, c ∈ ["completed_at"; "exit_code"; "duration_seconds"; "reason"; "message"] ->
        col r c = VNull) \/
   (col r "status" = VText TaskStatusCompleted \/ col r "status" = VText TaskStatusFailed) /\
     (exists t, col r "completed_at" = VTime t) /\
     (exists z, col r "exit_code" = VInt z /\ is_int32 z) /\
     (exists d, col r "duration_seconds" = VInt d /\ 0 <= d)).

(** The columns that tell a row from another, and when it began. *)
Definition identity_columns : list string :=
  ["id"; "task_id"; "tenant_id"; "pod_name"; "namespace"; "started_at"; "created_at"].

Definition same_task (r r' : row) : Prop :=
  forall c, c ∈ identity_columns -> col r' c = col r c.

(** An UPDATE that records the end of a task. *)
Record ends_task (u : update_stmt) (args : list sql_value) : Prop := {
  ends_nodup : NoDup (upd_set u).*1;
  ends_sets : [("status", 1); ("exit_code", 2); ("duration_seconds", 3); ("completed_at", 4)]%nat
    ⊆ upd_set u;
  ends_status : arg args 1 = VText TaskStatusCompleted \/ arg args 1 = VText TaskStatusFailed;
  ends_time : exists t, arg args 4 = VTime t;
  ends_kinds c k v :
    (c, k) ∈ upd_set u -> coerce c (arg args k) = Some v -> has_kind (column_kind c) v;
  ends_identity : forall c, c ∈ identity_columns -> c ∉ (upd_set u).*1
}.

Lemma ends_task_row u args now r r' :
  ends_task u args -> row_ok r -> update_row u args now r r' -> row_ok r' /\ same_task r r'.
Proof.
  intros [Hnd Hsets Hst [t Ht] Hk Hid] [Hty Hok]. unfold update_row.
  destruct (eval_where _ _ _); [|by intros ->].
  intros (r1 & E & ->).
  assert (forall c, c <> "updated_at" -> col (<["updated_at":=VTime now]> r1) c = col r1 c) as Hup.
  { intros c Hc. rewrite col_insert. by rewrite decide_False. }
  assert (forall c k, (c, k) ∈ [("status", 1); ("exit_code", 2); ("duration_seconds", 3);
            ("completed_at", 4)]%nat -> coerce c (arg args k) = Some (col r1 c)) as Hset.
  { intros c k Hin. eapply apply_sets_set; eauto. }
  split; [split|].
  - apply row_typed_insert; [|done]. eapply apply_sets_typed; eauto.
  - right. rewrite !Hup by done. split_and!.
    + assert (col r1 "status" = arg args 1) as ->; [|done].
      apply (coerce_other "status"); [done|]. apply Hset. set_solver.
    + exists t. rewrite <- Ht. apply (coerce_other "completed_at"); [done|].
      apply Hset. set_solver.
    + eapply (coerce_int "exit_code"); [|apply (Hset _ 2%nat)]; set_solver.
    + eapply coerce_duration, (Hset _ 3%nat). set_solver.
  - intros c Hc. rewrite Hup by (intros ->; set_solver). eapply apply_sets_other; eauto.
Qed.

(** Every assignment of a statement has its column's type. *)
Ltac solve_kinds :=
  intros c k v; cbn [upd_set completion_stmt failure_stmt]; rewrite !elem_of_cons; intros Hin Hv;
  destruct_or? Hin; try (by apply not_elem_of_nil in Hin); injection Hin as -> ->;
  first [ apply coerce_duration in Hv as (? & -> & _); done
        | apply coerce_int in Hv as (? & -> & _); [done|set_solver]
        | apply coerce_other in Hv; [by subst|done] ].

Ltac solve_ends_task :=
  split;
  [ by apply (bool_decide_unpack _); vm_compute | set_solver | cbn; auto | by eexists
  | solve_kinds | intros c Hc; unfold identity_columns in Hc; set_solver ].

Lemma completion_ends_task taskID podName exitCode duration now :
  ends_task completion_stmt (completion_args taskID podName exitCode duration now).
Proof. solve_ends_task. Qed.

Lemma failure_ends_task taskID podName reason message exitCode duration retry maxr now :
  ends_task failure_stmt
    (failure_args taskID podName reason message exitCode duration retry maxr now).
Proof. solve_ends_task. Qed.

Lemma start_row taskID tenantID podName namespace t id now r :
  apply_sets [VText taskID; VText tenantID; VText podName; VText namespace;
              VText TaskStatusRunning; VTime t] (ins_columns start_stmt) (default_row id now)
    = Some r ->
  row_ok r /\ col r "tenant_id" = VText tenantID /\ col r "task_id" = VText taskID /\
  col r "pod_name" = VText podName.
Proof.
  intros E.
  assert (r = <["started_at":=VTime t]> (<["status":=VText TaskStatusRunning]>
    (<["namespace":=VText namespace]> (<["pod_name":=VText podName]>
    (<["tenant_id":=VText tenantID]> (<["task_id":=VText taskID]> (default_row id now))))))) as ->
    by (by injection E).
  unfold default_row. split_and!; [split|done..].
  - intros c. rewrite !col_insert. repeat (case_decide; [by subst|]).
    destruct (decide (c = "updated_at")) as [->|]; [done|].
    unfold col. rewrite lookup_singleton_ne by congruence. unfold column_kind.
    repeat (case_decide as Hc; [|clear Hc]); try done;
      repeat (apply elem_of_cons in Hc as [->|Hc]; [done|]); by apply not_elem_of_nil in Hc.
  - left. split; [done|]. intros c Hc. repeat (apply elem_of_cons in Hc as [->|Hc]; [done|]).
    by apply not_elem_of_nil in Hc.
Qed.
Section Guarantees.
Context {W : Type} `{SqlLaws W}.

(** What the server answered to the query of a filter was not a complete result. *)
Definition query_failed (f : TaskFilter) (w : W) : Prop :=
  let '(q, args) := history_query f in
  forall vs, (sql_query (QTable q) args w).1 <> inr (vs, None).

(** C14: GetTaskHistory refines the abstract query of its filter.  On a table whose
    columns have their types it never panics and never changes the table; when it
    succeeds, its records are exactly the rows of the filter's tenant that match
    every given criterion, newest first, cut to the requested page; and it fails
    only on a closed store, without a tenant, or when the server failed. *)
Theorem GetTaskHistory_refines (ps : PostgresStore) (f : TaskFilter) (w : W) :
  Forall row_typed (db_table w) ->
  exists r w', GetTaskHistory ps f w = (Ret r, w') /\ db_table w' = db_table w /\
    match r with
    | inl e => ps_closed ps = true \/ tf_TenantID f = "" \/ query_failed f w
    | inr recs => ps_closed ps = false /\ tf_TenantID f <> "" /\
        history_answer f (db_table w) recs
    end.
Proof.
  intros Hty. unfold GetTaskHistory, query_failed.
  destruct (ps_closed ps) eqn:Hc; [do 2 eexists; split; [done|]; split; [done|]; auto|].
  case_decide as Ht; [do 2 eexists; split; [done|]; split; [done|]; auto|].
  destruct (history_query f) as [q args] eqn:Eq. unfold query_all, mbind, GoM_bind, lift.
  destruct (sql_query (QTable q) args w) as [a w'] eqn:Ea.
  destruct (sql_query_table _ _ _ _ _ Ea) as [Htab Hans].
  destruct a as [e|[vs [e|]]].
  - do 2 eexists. split; [done|]. split; [done|]. right; right. by intros vs.
  - destruct (scan_all scan_record vs); do 2 eexists;
      (split; [done|]; split; [done|]; right; right; simpl; congruence).
  - destruct Hans as (rs & Hsel & ->).
    destruct (history_query_answer _ _ _ _ _ Eq Hsel) as (sel & Hperm & Hsort & Hlim & ->).
    assert (sel_columns q = record_columns) as ->
      by (unfold history_query in Eq; destruct (decide (tf_Offset f > 0)); by simplify_eq/=).
    destruct (scan_all_typed (take (Z.to_nat (if decide (tf_Limit f = 0) then 100 else tf_Limit f))
      (drop (Z.to_nat (tf_Offset f)) sel))) as (recs & -> & Hrecs).
    { apply Forall_take, Forall_drop. rewrite Hperm. apply list.Forall_forall.
      intros r [_ Hr]%list_elem_of_filter. by eapply list.Forall_forall. }
    do 2 eexists. split; [done|]. split_and!; try done. by exists sel.
Qed.

(** *** Updates *)

Lemma exec_update_run u args what missing w :
  exists r w', exec_update u args what missing w = (Ret r, w') /\
    match r with
    | None => (exists now, Forall2 (update_row u args now) (db_table w) (db_table w')) /\
        matching u args (db_table w) <> []
    | Some _ => db_table w' = db_table w \/
        exists now, Forall2 (update_row u args now) (db_table w) (db_table w')
    end.
Proof.
  unfold exec_update, mbind, GoM_bind, lift.
  destruct (sql_exec u args w) as [a w'] eqn:Ea. pose proof (sql_exec_spec _ _ _ _ _ Ea) as Hs.
  destruct a as [e|[e|k]].
  - by do 2 eexists.
  - do 2 eexists. split; [done|]. simpl. tauto.
  - destruct Hs as [Hs Hk]. specialize (Hk _ eq_refl). case_decide as H0.
    + do 2 eexists. split; [done|]. simpl. tauto.
    + do 2 eexists. split; [done|]. split; [done|]. intros E. rewrite E in Hk. by simpl in Hk.
Qed.

(** *** Histories *)

(** A step of a program that uses the store: a call of one of its methods, or
    something that leaves the table alone. *)
Inductive store_step : W -> W -> Prop :=
| step_start ps taskID tenantID podName namespace w :
    store_step w (RecordTaskStart ps taskID tenantID podName namespace w).2
| step_completion ps taskID podName exitCode duration w :
    store_step w (RecordTaskCompletion ps taskID podName exitCode duration w).2
| step_failure ps taskID podName reason message exitCode duration retryAttempt maxRetries w :
    store_step w (RecordTaskFailure ps taskID podName reason message exitCode duration
                    retryAttempt maxRetries w).2
| step_history ps f w : store_step w (GetTaskHistory ps f w).2
| step_by_id ps taskID tenantID w : store_step w (GetTaskByID ps taskID tenantID w).2
| step_stats ps tenantID days w : store_step w (GetTenantStats ps tenantID days w).2
| step_failures ps tenantID limit w : store_step w (GetRecentFailures ps tenantID limit w).2
| step_other w w' : db_table w' = db_table w -> store_step w w'.

(** The later table has the earlier rows, in their order and with their
    identities, and then new ones; all are well-formed. *)
Definition grows (table table' : list row) : Prop :=
  exists kept new, table' = kept ++ new /\ Forall2 same_task table kept /\ Forall row_ok table'.

#[export] Instance same_task_preorder : PreOrder same_task.
Proof.
  split; [by intros r c|]. intros r1 r2 r3 H12 H23 c Hc. by rewrite (H23 c Hc), (H12 c Hc).
Qed.

Lemma grows_refl table : Forall row_ok table -> grows table table.
Proof. exists table, []. rewrite app_nil_r. split_and!; done. Qed.

Lemma grows_trans t1 t2 t3 : grows t1 t2 -> grows t2 t3 -> grows t1 t3.
Proof.
  intros (k1 & n1 & -> & H1 & _) (k2 & n2 & -> & H2 & Hok).
  apply Forall2_app_inv_l in H2 as (ka & kb & Ha & Hb & ->).
  exists ka, (kb ++ n2). rewrite app_assoc. split_and!; [done| |done].
  by etrans.
Qed.

Lemma ends_task_grows u args now table table' :
  ends_task u args -> Forall row_ok table -> Forall2 (update_row u args now) table table' ->
  grows table table'.
Proof.
  intros He Hok Hu. exists table', []. rewrite app_nil_r. split; [done|].
  induction Hu as [|r r' table table' Hr Hu IH]; [done|].
  apply Forall_cons in Hok as [Hr0 Hok]. destruct (IH Hok) as [IH1 IH2].
  destruct (ends_task_row _ _ _ _ _ He Hr0 Hr). auto.
Qed.

Lemma exec_update_grows u args what missing w :
  ends_task u args -> Forall row_ok (db_table w) ->
  grows (db_table w) (db_table (exec_update u args what missing w).2).
Proof.
  intros He Hok. destruct (exec_update_run u args what missing w) as ([e|] & w' & -> & Hr); simpl.
  - destruct Hr as [->|[now Hu]]; [by apply grows_refl|by eapply ends_task_grows].
  - destruct Hr as [[now Hu] _]. by eapply ends_task_grows.
Qed.

Lemma inserted_grows taskID tenantID podName namespace t id table table' :
  Forall row_ok table ->
  inserted start_stmt [VText taskID; VText tenantID; VText podName; VText namespace;
                       VText TaskStatusRunning; VTime t] id table table' ->
  grows table table'.
Proof.
  intros Hok (now & r & Hr & ->). exists table, [r]. split_and!; [done|done|].
  apply Forall_app. split; [done|]. constructor; [|done]. by eapply start_row.
Qed.

Lemma sql_query_table_same q args w : db_table (sql_query q args w).2 = db_table w.
Proof.
  destruct (sql_query q args w) as [r w'] eqn:E. destruct q.
  - by destruct (sql_query_table _ _ _ _ _ E).
  - by destruct (sql_query_func _ _ _ _ _ _ _ E).
Qed.

Lemma query_all_same {A} q args (scan : list sql_value -> string + A) m1 m2 m3 w :
  db_table (query_all q args scan m1 m2 m3 w).2 = db_table w.
Proof.
  unfold query_all, mbind, GoM_bind, lift. pose proof (sql_query_table_same q args w).
  destruct (sql_query q args w) as [[e|[vs e]] w']; [done|].
  destruct (scan_all scan vs); [done|]. by destruct e.
Qed.

Lemma query_row_same {A} q args (scan : list sql_value -> string + A) w :
  exists r, query_row q args scan w = (Ret r, (sql_query q args w).2).
Proof.
  unfold query_row, mbind, GoM_bind, lift.
  destruct (sql_query q args w) as [[e|[[|v vs] [e|]]] w']; try by eexists.
  all: destruct (scan v); by eexists.
Qed.

Lemma store_step_grows w w' :
  store_step w w' -> Forall row_ok (db_table w) -> grows (db_table w) (db_table w').
Proof.
  intros Hs Hok. destruct Hs as [ps ???? w|ps ???? w|ps ???????? w|ps f w|ps ?? w|ps ?? w|ps ?? w|w w' E].
  8: by rewrite E; apply grows_refl.
  1: unfold RecordTaskStart. 2: unfold RecordTaskCompletion. 3: unfold RecordTaskFailure.
  4: unfold GetTaskHistory. 5: unfold GetTaskByID. 6: unfold GetTenantStats.
  7: unfold GetRecentFailures.
  all: destruct (ps_closed ps); [by apply grows_refl|].
  4: case_decide; [by apply grows_refl|]; destruct (history_query f).
  4,7: rewrite query_all_same; by apply grows_refl.
  4,5: unfold mbind, GoM_bind; match goal with
    | |- context [query_row ?q ?a ?s ?w0] => destruct (query_row_same q a s w0) as [[[e|]|x] ->]
    end; simpl; rewrite sql_query_table_same; by apply grows_refl.
  all: unfold mbind, GoM_bind, lift; pose proof (db_clock w) as Hc;
    destruct (clock_now w) as [now w1]; simpl in Hc; rewrite <- Hc in Hok |- *.
  - destruct (sql_insert _ _ w1) as [a w2] eqn:Ea. pose proof (sql_insert_spec _ _ _ _ _ Ea) as Hi.
    destruct a as [e|id]; simpl; [destruct Hi as [->|[id Hi]]|]; [by apply grows_refl| |];
      by eapply inserted_grows.
  - apply exec_update_grows; [apply completion_ends_task|done].
  - apply exec_update_grows; [apply failure_ends_task|done].
Qed.

Lemma store_steps_grow w w' :
  rtc store_step w w' -> Forall row_ok (db_table w) -> grows (db_table w) (db_table w').
Proof.
  induction 1 as [w|w w1 w2 Hs _ IH]; intros Hok; [by apply grows_refl|].
  pose proof (store_step_grows _ _ Hs Hok) as Hg.
  eapply grows_trans; [exact Hg|]. apply IH. by destruct Hg as (? & ? & ? & ? & ?).
Qed.

(** C15: the rows of the history table are well-formed in every history of calls of
    the store: each has its columns' types, a running task has no end data, one
    that completed or failed has a completion time, a 32-bit exit code and a
    duration that is not negative.  No row is ever removed, and none changes its
    id, task, tenant, pod, namespace, start or creation time. *)
Theorem store_rows_well_formed (w w' : W) :
  Forall row_ok (db_table w) -> rtc store_step w w' -> grows (db_table w) (db_table w').
Proof. intros. by apply store_steps_grow. Qed.

(** *** [RecordTaskCompletion] *)

(** The rows it names: that pod and task, not yet completed, of any tenant. *)
Definition not_completed (taskID podName : string) (r : row) : Prop :=
  col r "pod_name" = VText podName /\ col r "task_id" = VText taskID /\
  exists s, col r "status" = VText s /\ s <> TaskStatusCompleted.

(** What becomes of a row. *)
Definition completed_as (taskID podName : string) (exitCode duration t now : Z) (r r' : row) : Prop :=
  (not_completed taskID podName r /\
   col r' "status" = VText TaskStatusCompleted /\ col r' "exit_code" = VInt exitCode /\
   (exists z, col r' "duration_seconds" = VInt z /\ f_eq (f_of_Z z) (duration_seconds duration) = true) /\
   col r' "completed_at" = VTime t /\ col r' "updated_at" = VTime now /\
   forall c, c ∉ ["status"; "exit_code"; "duration_seconds"; "completed_at"; "updated_at"] ->
     col r' c = col r c) \/
  (~ not_completed taskID podName r /\ r' = r).

Lemma completion_where taskID podName exitCode duration now r :
  eval_where (completion_args taskID podName exitCode duration now) (upd_where completion_stmt) r
    = true <-> not_completed taskID podName r.
Proof.
  unfold eval_where, not_completed. cbn [upd_where completion_stmt forallb].
  rewrite !andb_true_iff, (CEq_text _ _ _ _ podName), (CEq_text _ _ _ _ taskID) by done.
  cbn. destruct (col r "status"); rewrite ?bool_decide_eq_true; naive_solver.
Qed.

Lemma coerce_duration_exact f v :
  coerce "duration_seconds" (VFloat f) = Some v -> exists z, v = VInt z /\ f_eq (f_of_Z z) f = true.
Proof.
  unfold coerce. rewrite decide_True by done.
  destruct (f_trunc f) as [z|]; [|done]. destruct (f_eq _ _) eqn:E; [|done].
  case_decide; [|done]. intros [= <-]. eauto.
Qed.

Lemma completion_row taskID podName exitCode duration t now r r' :
  update_row completion_stmt (completion_args taskID podName exitCode duration t) now r r' ->
  completed_as taskID podName exitCode duration t now r r'.
Proof.
  unfold update_row, completed_as. pose proof (completion_where taskID podName exitCode duration t r) as Hw.
  destruct (eval_where _ _ r); [|right; naive_solver]. intros (r1 & E & ->). left.
  assert (forall c k, (c, k) ∈ upd_set completion_stmt -> coerce c (arg (completion_args taskID
    podName exitCode duration t) k) = Some (col r1 c)) as Hset.
  { intros c k Hin. eapply apply_sets_set; [done| |done].
    apply (ends_nodup _ _ (completion_ends_task taskID podName exitCode duration t)). }
  cbn [upd_set completion_stmt] in Hset.
  split; [by apply Hw|]. rewrite !col_insert. repeat (rewrite decide_False by done).
  rewrite decide_True by done. split_and!.
  - apply (coerce_other "status"); [done|]. apply (Hset _ 1%nat). set_solver.
  - apply (coerce_other "exit_code"); [done|]. apply (Hset _ 2%nat). set_solver.
  - apply coerce_duration_exact, (Hset _ 3%nat). set_solver.
  - apply (coerce_other "completed_at"); [done|]. apply (Hset _ 4%nat). set_solver.
  - done.
  - intros c Hc. rewrite col_insert, decide_False by set_solver.
    eapply apply_sets_other; [done|]. cbn. set_solver.
Qed.

(** C30: RecordTaskCompletion never panics.  It succeeds only on an open store with a
    row of that pod and task that is not completed yet, and then every such row
    (whatever its tenant, failed ones included) becomes completed with the exit
    code, the completion time and a whole number of seconds equal to the duration,
    while every other column and row stays as it was.  When it reports an error the
    table is as before, or the server carried out the update and lost the answer. *)
Theorem RecordTaskCompletion_exact (ps : PostgresStore) (taskID podName : string)
    (exitCode duration : Z) (w : W) :
  exists r w', RecordTaskCompletion ps taskID podName exitCode duration w = (Ret r, w') /\
    let updated := exists t now,
      Forall2 (completed_as taskID podName exitCode duration t now) (db_table w) (db_table w') in
    match r with
    | None => ps_closed ps = false /\ updated /\ Exists (not_completed taskID podName) (db_table w)
    | Some _ => db_table w' = db_table w \/ ps_closed ps = false /\ updated
    end.
Proof.
  unfold RecordTaskCompletion.
  destruct (ps_closed ps); [do 2 eexists; split; [done|by left]|].
  unfold mbind, GoM_bind, lift. pose proof (db_clock w) as Hc.
  destruct (clock_now w) as [t w1]. simpl in Hc. rewrite <- Hc.
  set (args := completion_args taskID podName exitCode duration t).
  destruct (exec_update_run completion_stmt args "completion" "task not found or already completed" w1)
    as (r & w' & -> & Hr).
  assert (forall now, Forall2 (update_row completion_stmt args now) (db_table w1) (db_table w') ->
    Forall2 (completed_as taskID podName exitCode duration t now) (db_table w1) (db_table w')) as Hup.
  { intros now Hu. eapply Forall2_impl; [exact Hu|]. intros r1 r2. apply completion_row. }
  exists r, w'. split; [done|]. destruct r as [e|].
  - destruct Hr as [Hr|[now Hr]]; [by left|right]. split; [done|]. exists t, now. auto.
  - destruct Hr as [[now Hr] Hm]. split_and!; [done|exists t, now; auto|].
    destruct (matching completion_stmt args (db_table w1)) as [|r0 rs] eqn:Em; [done|].
    apply Exists_exists. exists r0.
    assert (r0 ∈ matching completion_stmt args (db_table w1)) as Hin by (rewrite Em; left).
    apply list_elem_of_filter in Hin as [H0 Hin]. split; [done|]. by apply completion_where in H0.
Qed.

(** *** What the store cannot do *)

(** A duration that is not a whole number of seconds is sent as a float, which the
    [BIGINT] column refuses: the completion is never recorded. *)
Theorem fractional_completion_fails (ps : PostgresStore) (taskID podName : string)
    (exitCode duration : Z) (w : W) :
  coerce "duration_seconds" (VFloat (duration_seconds duration)) = None ->
  exists e w', RecordTaskCompletion ps taskID podName exitCode duration w = (Ret (Some e), w').
Proof.
  intros Hd. unfold RecordTaskCompletion. destruct (ps_closed ps); [by do 2 eexists|].
  unfold mbind, GoM_bind, lift. destruct (clock_now w) as [t w1].
  set (args := completion_args taskID podName exitCode duration t).
  destruct (exec_update_run completion_stmt args "completion" "task not found or already completed" w1)
    as ([e|] & w' & -> & Hr); [by do 2 eexists|]. exfalso.
  destruct Hr as [[now Hu] Hm].
  destruct (matching completion_stmt args (db_table w1)) as [|r0 rs] eqn:Em; [done|].
  assert (r0 ∈ matching completion_stmt args (db_table w1)) as Hin by (rewrite Em; left).
  apply list_elem_of_filter in Hin as [H0 Hin].
  apply list_elem_of_lookup in Hin as [i Hi].
  destruct (Forall2_lookup_l _ _ _ _ _ Hu Hi) as (r' & _ & Hr').
  unfold update_row in Hr'. rewrite H0 in Hr'. destruct Hr' as (r1 & E & _).
  pose proof (apply_sets_set _ _ _ _ "duration_seconds" 3%nat E
    (ends_nodup _ _ (completion_ends_task taskID podName exitCode duration t))) as Hset.
  change (arg args 3) with (VFloat (duration_seconds duration)) in Hset.
  rewrite Hd in Hset. discriminate Hset. cbn. set_solver.
Qed.

(** GetRecentFailures never succeeds: it selects the column completed_at of a
    function whose result has failed_at instead. *)
Theorem GetRecentFailures_fails (ps : PostgresStore) (tenantID : string) (limit : Z) (w : W) :
  exists e w', GetRecentFailures ps tenantID limit w = (Ret (inl e), w') /\ db_table w' = db_table w.
Proof.
  unfold GetRecentFailures. destruct (ps_closed ps); [by do 2 eexists|].
  unfold query_all, mbind, GoM_bind, lift. set (args := [_; _]).
  destruct (sql_query failures_query args w) as [a w'] eqn:Ea.
  destruct (sql_query_func _ _ _ _ _ _ _ Ea) as [Ht Hcols].
  destruct Hcols as [e ->]; [|by do 2 eexists].
  intros Hsub. specialize (Hsub "completed_at"). cbn in Hsub. set_solver.
Qed.
End Guarantees.

(** ** A server in memory, for the witnesses *)

Module MemSql.
Record Db := { m_rows : list row; m_now : Z; m_next : nat; m_sleeps : list Z;
               m_down : nat (** connections that will still be refused *) }.

Definition with_rows (rs : list row) (w : Db) : Db :=
  {| m_rows := rs; m_now := m_now w; m_next := S (m_next w); m_sleeps := m_sleeps w;
     m_down := m_down w |}.

#[export] Instance mem_clock : Clock Db := fun w =>
  (m_now w, {| m_rows := m_rows w; m_now := m_now w + 1; m_next := m_next w;
               m_sleeps := m_sleeps w; m_down := m_down w |}).

(** The rows after an UPDATE, if every assignment is accepted. *)
Fixpoint updated (u : update_stmt) (args : list sql_value) (now : Z) (rs : list row)
    : option (list row) :=
  match rs with
  | [] => Some []
  | r :: rs' =>
      rs1 ← updated u args now rs';
      if eval_where args (upd_where u) r
      then r1 ← apply_sets args (upd_set u) r; Some (<["updated_at" := VTime now]> r1 :: rs1)
      else Some (r :: rs1)
  end.

Definition selected (q : select) (args : list sql_value) (rs : list row) : option (list row) :=
  let l := merge_sort (later (sel_order_desc q))
             (filter (fun r => eval_where args (sel_where q) r = true) rs) in
  limit ← operand_int args (sel_limit q);
  offset ← match sel_offset q with Some o => operand_int args o | None => Some 0 end;
  if decide (0 <= limit /\ 0 <= offset)
  then Some (take (Z.to_nat limit) (drop (Z.to_nat offset) l)) else None.

#[export] Instance mem_sql : SqlDb Db := {
  sql_open _ w :=
    match m_down w with
    | O => (None, w)
    | S n => (Some "connection refused",
              {| m_rows := m_rows w; m_now := m_now w; m_next := m_next w;
                 m_sleeps := m_sleeps w; m_down := n |})
    end;
  sql_ping w := (None, w);
  sql_close w := (None, w);
  sql_sleep d w := {| m_rows := m_rows w; m_now := m_now w + d; m_next := m_next w;
                      m_sleeps := m_sleeps w ++ [d]; m_down := m_down w |};
  sql_exec u args w :=
    match updated u args (m_now w) (m_rows w) with
    | Some rs => (inr (inr (Z.of_nat (length (matching u args (m_rows w))))), with_rows rs w)
    | None => (inl "invalid input syntax", w)
    end;
  sql_insert i args w :=
    let id := pretty (m_next w) in
    match apply_sets args (ins_columns i) (default_row id (m_now w)) with
    | Some r => (inr id, with_rows (m_rows w ++ [r]) w)
    | None => (inl "invalid input value", w)
    end;
  sql_query q args w :=
    match q with
    | QTable s =>
        match selected s args (m_rows w) with
        | Some rs => (inr (project (sel_columns s) <$> rs, None), w)
        | None => (inl "LIMIT must not be negative", w)
        end
    | QFunc _ _ _ => (inl "column does not exist", w)
    end
}.

Lemma updated_rows u args now rs rs' :
  updated u args now rs = Some rs' -> Forall2 (update_row u args now) rs rs'.
Proof.
  revert rs'. induction rs as [|r rs IH]; intros rs' E; simplify_eq/=; [done|].
  destruct (updated u args now rs) as [rs1|]; simplify_eq/=.
  destruct (eval_where args (upd_where u) r) eqn:Ew.
  - destruct (apply_sets args (upd_set u) r) as [r1|] eqn:E1; simplify_eq/=.
    constructor; [|by apply IH]. unfold update_row. rewrite Ew. eauto.
  - simplify_eq/=. constructor; [|by apply IH]. unfold update_row. by rewrite Ew.
Qed.

Lemma selected_result q args rs rs' :
  selected q args rs = Some rs' -> select_result q args rs rs'.
Proof.
  unfold selected. set (l := merge_sort _ _). intros E.
  assert (l ≡ₚ filter (fun r => eval_where args (sel_where q) r = true) rs) as Hp
    by apply merge_sort_Permutation.
  assert (Sorted (later (sel_order_desc q)) l) as Hs by apply Sorted_merge_sort, _.
  destruct (operand_int args (sel_limit q)) as [limit|] eqn:El; [|done].
  simpl in E. destruct (sel_offset q) as [o|] eqn:Eo.
  - destruct (operand_int args o) as [offset|] eqn:Eoff; [|done]. simpl in E.
    case_decide as Hd; [|done]. simplify_eq.
    exists l, limit, offset. rewrite Eo. split_and!; try done; tauto.
  - simpl in E. case_decide as Hd; [|done]. simplify_eq.
    exists l, limit, 0. rewrite Eo. split_and!; try done; tauto.
Qed.

#[export] Instance mem_laws : SqlLaws Db.
Proof.
  unshelve econstructor; [exact m_rows|..]; simpl.
  - done.
  - intros u args w r w' E. destruct (updated u args (m_now w) (m_rows w)) as [rs|] eqn:Eu;
      simplify_eq/=; [|by left]. split; [|naive_solver]. exists (m_now w). by apply updated_rows.
  - intros i args w r w' E.
    destruct (apply_sets _ _ _) as [r1|] eqn:Ea; simplify_eq/=; [|by left].
    by exists (m_now w), r1.
  - intros q args w r w' E. destruct (selected q args (m_rows w)) as [rs|] eqn:Es; simplify_eq/=.
    + split; [done|]. exists rs. split; [by apply selected_result|done].
    + done.
  - intros cols name params args w r w' E. simplify_eq/=. split; [done|]. intros _. by eexists.
Defined.

Definition no_tasks : Db := {| m_rows := []; m_now := 1000; m_next := 1; m_sleeps := []; m_down := 0 |}.
Definition store : PostgresStore := {| ps_closed := false |}.
Definition call {A} (m : GoM Db A) (w : Db) : Db := (m w).2.

(** Two tasks of one tenant and one of another; the first has completed. *)
Definition three_tasks : Db :=
  call (RecordTaskCompletion store "t1" "pod-1" 0 (90 * Second))
    (call (RecordTaskStart store "t3" "bob" "pod-3" "default")
      (call (RecordTaskStart store "t2" "alice" "pod-2" "default")
        (call (RecordTaskStart store "t1" "alice" "pod-1" "default") no_tasks))).
End MemSql.
Import MemSql.

Lemma three_tasks_reached : rtc store_step no_tasks three_tasks.
Proof.
  unfold three_tasks, call. eapply rtc_r; [|apply step_completion].
  do 3 (eapply rtc_r; [|apply step_start]). apply rtc_refl.
Qed.

Lemma three_tasks_typed : Forall row_typed (db_table three_tasks).
Proof.
  destruct (store_steps_grow _ _ three_tasks_reached) as (? & ? & _ & _ & Hok); [constructor|].
  eapply list.Forall_impl; [exact Hok|]. by intros r [? _].
Qed.

Lemma store_rows_well_formed_witness :
  length (db_table three_tasks) = 3%nat /\
  grows (db_table no_tasks) (db_table three_tasks).
Proof.
  split; [by vm_compute|]. apply (store_rows_well_formed no_tasks three_tasks);
    [constructor|apply three_tasks_reached].
Defined.

Definition alice_filter : TaskFilter :=
  {| tf_TenantID := "alice"; tf_Status := ""; tf_StartDate := None; tf_EndDate := None;
     tf_PodName := "POD"; tf_OnlyFailed := false; tf_Limit := 0; tf_Offset := 0 |}.

(** The two tasks of the tenant, the newer one first. *)
Example alice_history :
  match (GetTaskHistory store alice_filter three_tasks).1 with
  | Ret (inr recs) => (fun rec => (rec_TaskID rec, rec_Status rec, rec_Duration rec)) <$> recs
  | _ => []
  end = [("t2", "running", None); ("t1", "completed", Some 90)].
Proof. by vm_compute. Qed.

Lemma GetTaskHistory_refines_witness :
  Forall row_typed (db_table three_tasks) /\
  exists r w', GetTaskHistory store alice_filter three_tasks = (Ret r, w') /\
    db_table w' = db_table three_tasks /\
    match r with
    | inl e => ps_closed store = true \/ tf_TenantID alice_filter = "" \/
        query_failed alice_filter three_tasks
    | inr recs => ps_closed store = false /\ tf_TenantID alice_filter <> "" /\
        history_answer alice_filter (db_table three_tasks) recs
    end.
Proof.
  split; [apply three_tasks_typed|].
  apply (GetTaskHistory_refines store alice_filter), three_tasks_typed.
Defined.

Example fractional_duration : coerce "duration_seconds" (VFloat (duration_seconds (1500 * Millisecond))) = None.
Proof. by vm_compute. Qed.

(** A server that refuses [n] connections is reached if [n] is at most four, after
    the first [n] delays of 1, 2, 4 and 8 seconds; otherwise the call gives up
    after the fifth attempt. *)
Theorem NewPostgresStore_attempts (conn : string) (n : nat) :
  let '(r, w) := NewPostgresStore conn
    {| m_rows := []; m_now := 0; m_next := 0; m_sleeps := [];
       m_down := n |} in
  m_sleeps w = take n [1 * Second; 2 * Second; 4 * Second; 8 * Second] /\
  (r = Ret (inr {| ps_closed := false |}) <-> (n <= 4)%nat) /\
  (r = Ret (inl "failed to connect to PostgreSQL after 5 attempts: connection refused") <-> (5 <= n)%nat).
Proof.
  do 5 (destruct n as [|n]; [vm_compute; split_and!; intros; first [done|lia]|]).
  vm_compute. split_and!; intros; first [done|lia].
Qed.

Lemma RecordTaskCompletion_exact_witness :
  exists r w', RecordTaskCompletion store "t2" "pod-2" 0 (5 * Second) three_tasks = (Ret r, w') /\
    r = None /\ Exists (not_completed "t2" "pod-2") (db_table three_tasks).
Proof.
  destruct (RecordTaskCompletion_exact store "t2" "pod-2" 0 (5 * Second) three_tasks)
    as (r & w' & E & Hr).
  assert (r = None) as ->.
  { assert ((RecordTaskCompletion store "t2" "pod-2" 0 (5 * Second) three_tasks).1 = Ret None) as E1
      by (by vm_compute).
    rewrite E in E1. by injection E1. }
  exists None, w'. split; [exact E|]. split; [done|]. apply Hr.
Defined.
