(* ===== verification/Logger.v ===== *)
(** * Structured logging: [pkg/logger/logger.go] and [pkg/logger/middleware.go]

    A log line is the entry handed to zap; zap itself, which builds loggers and
    writes entries, and the generator of UUIDs are the class [Zap].  The context's
    values under the logger's string keys are [ctx_log] of [Http].  The response
    writer that captures the status is modelled on its own ([LogWriter]) and
    proved transparent, so that the middleware runs the next handler on the
    plain writer and reads the status from it; the middleware is the outermost
    handler of the gateway and its writer is fresh.

    [getClientIP] calls [net.SplitHostPort] with two arguments and one result,
    which no version of the package has: what it was to return is the parameter
    [forwarded_hosts]. *)

From Stdlib Require Import Ascii.
From S2P Require Import Prelude GoStrings Float64 GoTime Kube Http.

(** ** Entries *)

Inductive Level : Type := DebugLevel | InfoLevel | WarnLevel | ErrorLevel.

#[export] Instance Level_eq_dec : EqDecision Level.
Proof. solve_decision. Defined.

Inductive log_value : Type := LStr (s : string) | LInt (z : Z) | LFloat (f : float64).

Record LogEntry := {
  le_level : Level;
  le_msg : string;
  le_fields : list (string * log_value)
}.

(** What [NewLogger] sets in zap's configuration. *)
Record ZapConfig := {
  zc_development : bool;
  zc_colour_levels : bool;
  zc_time_key : string;
  zc_message_key : string;
  zc_level_key : string;
  zc_outputs : list string;
  zc_error_outputs : list string
}.

Class Zap (W : Type) := {
  zap_build : ZapConfig -> W -> option string * W;
  zap_log : LogEntry -> W -> W;
  zap_sync : W -> option string * W;
  uuid_new : W -> string * W;
  (** [fmt.Sprintf] with the verb v *)
  sprint_v : log_value -> string;
  forwarded_hosts : string -> list string
}.

(** ** Context values *)

Definition ContextKeyTenantID : string := "tenant_id".
Definition ContextKeyRequestID : string := "request_id".
Definition ContextKeyTraceID : string := "trace_id".
Definition ServiceName : string := "cloudtask-orchestrator".

Definition WithTenantID (ctx : Ctx) (tenantID : string) : Ctx :=
  ctx_with_log ContextKeyTenantID tenantID ctx.
Definition WithRequestID (ctx : Ctx) (requestID : string) : Ctx :=
  ctx_with_log ContextKeyRequestID requestID ctx.
Definition WithTraceID (ctx : Ctx) (traceID : string) : Ctx :=
  ctx_with_log ContextKeyTraceID traceID ctx.

Definition RequestIDFromContext (ctx : Ctx) : string :=
  default "" (ctx_log ctx !! ContextKeyRequestID).
Definition TenantIDFromContext (ctx : Ctx) : string :=
  default "" (ctx_log ctx !! ContextKeyTenantID).
Definition TraceIDFromContext (ctx : Ctx) : string :=
  default "" (ctx_log ctx !! ContextKeyTraceID).

Definition ContextWithRequestMetadata (ctx : Ctx) (requestID tenantID traceID : string) : Ctx :=
  let ctx := if decide (requestID <> "") then WithRequestID ctx requestID else ctx in
  let ctx := if decide (tenantID <> "") then WithTenantID ctx tenantID else ctx in
  if decide (traceID <> "") then WithTraceID ctx traceID else ctx.

(** The fields a context contributes, in the order of the code. *)
Definition context_field (ctx : Ctx) (key : string) : list (string * log_value) :=
  match ctx_log ctx !! key with
  | Some v => if decide (v <> "") then [(key, LStr v)] else []
  | None => []
  end.

Definition context_fields (ctx : Ctx) : list (string * log_value) :=
  context_field ctx ContextKeyTenantID ++ context_field ctx ContextKeyRequestID ++
  context_field ctx ContextKeyTraceID.

(** ** Loggers: the fields added by [With] *)

Record Logger := { lg_fields : list (string * log_value) }.

Definition logger_config (env : string) : ZapConfig :=
  let dev := bool_decide (env = "development" \/ env = "dev") in
  {| zc_development := dev; zc_colour_levels := dev; zc_time_key := "timestamp";
     zc_message_key := "message"; zc_level_key := "level"; zc_outputs := ["stdout"];
     zc_error_outputs := ["stderr"] |}.

Section Logging.
Context {W : Type} `{!Zap W, !Clock W}.

Definition NewLogger (env : string) : GoM W (string + Logger) :=
  e ← lift (zap_build (logger_config env));
  match e with
  | Some err => mret (inl ("failed to create logger: " +:+ err))
  | None => mret (inr {| lg_fields := [("service", LStr ServiceName)] |})
  end.

Definition GetLogger (ctx : Ctx) : GoM W Logger :=
  l ← NewLogger "production";
  match l with
  | inl err => go_panic ("failed to create logger: " +:+ err)
  | inr logger => mret {| lg_fields := lg_fields logger ++ context_fields ctx |}
  end.

(** Keys and values alternate; a last key without a value is dropped. *)
Fixpoint zap_fields (keysAndValues : list log_value) : list (string * log_value) :=
  match keysAndValues with
  | k :: v :: rest => (sprint_v k, v) :: zap_fields rest
  | _ => []
  end.

Definition LogWithContext (l : Logger) (ctx : Ctx) (level : Level) (msg : string)
    (keysAndValues : list log_value) : GoM W unit :=
  lift_unit (zap_log
    {| le_level := level; le_msg := msg;
       le_fields := lg_fields l ++ context_fields ctx ++ zap_fields keysAndValues |}).

Definition DebugWithContext (l : Logger) (ctx : Ctx) (msg : string) (kvs : list log_value) : GoM W unit :=
  LogWithContext l ctx DebugLevel msg kvs.
Definition InfoWithContext (l : Logger) (ctx : Ctx) (msg : string) (kvs : list log_value) : GoM W unit :=
  LogWithContext l ctx InfoLevel msg kvs.
Definition WarnWithContext (l : Logger) (ctx : Ctx) (msg : string) (kvs : list log_value) : GoM W unit :=
  LogWithContext l ctx WarnLevel msg kvs.
Definition ErrorWithContext (l : Logger) (ctx : Ctx) (msg : string) (kvs : list log_value) : GoM W unit :=
  LogWithContext l ctx ErrorLevel msg kvs.

Definition Sync : GoM W (option string) := lift zap_sync.
End Logging.

(** ** The client's address *)

(** Position of the first and of the last occurrence of a character. *)
Fixpoint index_byte (c : ascii) (s : string) : option nat :=
  match s with
  | EmptyString => None
  | String a s' => if decide (a = c) then Some O else S <$> index_byte c s'
  end.
Fixpoint last_index_byte (c : ascii) (s : string) : option nat :=
  match s with
  | EmptyString => None
  | String a s' =>
      match last_index_byte c s' with
      | Some i => Some (S i)
      | None => if decide (a = c) then Some O else None
      end
  end.

(** [net.SplitHostPort]: the host, or [None] for an error. *)
Definition SplitHostPort_host (hostport : string) : option string :=
  i ← last_index_byte ":" hostport;
  let check host j k :=
    match index_byte "[" (String.substring j (String.length hostport) hostport),
          index_byte "]" (String.substring k (String.length hostport) hostport) with
    | None, None => Some host
    | _, _ => None
    end in
  match String.get 0 hostport with
  | Some "["%char =>
      e ← index_byte "]" hostport;
      if decide (S e = i) then check (String.substring 1 (e - 1) hostport) 1%nat (S e) else None
  | _ =>
      let host := String.substring 0 i hostport in
      match index_byte ":" host with
      | Some _ => None
      | None => check host O O
      end
  end.

Section Middleware.
Context {W : Type} `{!Zap W, !Clock W} {B : Type}.

Definition getClientIP (r : Request) : string :=
  let rest :=
    let realIP := header_get r "X-Real-IP" in
    if decide (realIP <> "") then realIP
    else default (rq_RemoteAddr r) (SplitHostPort_host (rq_RemoteAddr r)) in
  let forwarded := header_get r "X-Forwarded-For" in
  if decide (forwarded <> "") then
    match forwarded_hosts forwarded with ip :: _ => ip | [] => rest end
  else rest.

(** ** [RequestLoggingMiddleware] *)

Definition or_uuid (s : string) : GoM W string :=
  if decide (s = "") then lift uuid_new else mret s.

Definition status_level (statusCode : Z) : Level :=
  if decide (statusCode >= 500) then ErrorLevel
  else if decide (statusCode >= 400) then WarnLevel else InfoLevel.

(** The context of the request.  Nothing stores a value under jwt_claims, the key
    the code looks for claims with, so that the tenant is the header's. *)
Definition request_context (r : Request) (requestID traceID : string) : Ctx :=
  let tenantID := header_get r "X-Tenant-ID" in
  let ctx := WithTraceID (WithRequestID (rq_Ctx r) requestID) traceID in
  if decide (tenantID <> "") then WithTenantID ctx tenantID else ctx.

Definition read_status : GoM (HState (W := W) (B := B)) Z := fun st =>
  (Ret (default StatusOK (rw_code st.2)), st).

(** [defer]: also when the body panics. *)
Definition deferring {A S : Type} (m : GoM S A) (d : GoM S unit) : GoM S A := fun st =>
  match m st with
  | (o, st') => let '(_, st'') := d st' in (o, st'')
  end.

Definition RequestLoggingMiddleware (next : Handler (W := W) (B := B))
    : Handler (W := W) (B := B) := fun r =>
  start ← on_world (lift clock_now);
  requestID ← on_world (or_uuid (header_get r "X-Request-ID"));
  traceID ← on_world (or_uuid (header_get r "X-Trace-ID"));
  let ctx := request_context r requestID traceID in
  requestLogger ← on_world (GetLogger ctx);
  deferring
    (let clientIP := getClientIP r in
     let userAgent := header_get r "User-Agent" in
     _ ← on_world (InfoWithContext requestLogger ctx "HTTP request started"
           [LStr "method"; LStr (rq_Method r); LStr "path"; LStr (rq_RequestURI r);
            LStr "client_ip"; LStr clientIP; LStr "user_agent"; LStr userAgent]);
     _ ← next (with_ctx ctx r);
     now ← on_world (lift clock_now);
     let durationMs := f_of_Z (Z.quot (int64 (now - start)) Millisecond) in
     statusCode ← read_status;
     _ ← on_world (LogWithContext requestLogger ctx (status_level statusCode)
           "HTTP request completed"
           [LStr "method"; LStr (rq_Method r); LStr "path"; LStr (rq_RequestURI r);
            LStr "status"; LInt statusCode; LStr "duration_ms"; LFloat durationMs;
            LStr "client_ip"; LStr clientIP; LStr "user_agent"; LStr userAgent]);
     _ ← set_header "X-Request-ID" requestID;
     set_header "X-Trace-ID" traceID)
    (_ ← on_world Sync; mret tt).
End Middleware.

(** ** The writer that captures the status *)

Module LogWriter.
Section Writer.
Context {B : Type}.

Record ResponseWriter := {
  lw_inner : Http.ResponseWriter B;
  statusCode : Z;
  written : bool
}.

(** [net/http]'s own writer. *)
Inductive op : Type := DoWriteHeader (code : Z) | DoWrite (b : B).

Definition plain (r : Http.ResponseWriter B) (o : op) : Http.ResponseWriter B :=
  match o with
  | DoWriteHeader code => (write_header (W := unit) code (tt, r)).2.2
  | DoWrite b => (write_body (W := unit) b (tt, r)).2.2
  end.

Definition WriteHeader (code : Z) (rw : ResponseWriter) : ResponseWriter :=
  if written rw then rw
  else {| lw_inner := plain (lw_inner rw) (DoWriteHeader code); statusCode := code;
          written := true |}.

Definition Write (b : B) (rw : ResponseWriter) : ResponseWriter :=
  {| lw_inner := plain (lw_inner rw) (DoWrite b);
     statusCode := if written rw then statusCode rw else StatusOK;
     written := true |}.

Definition run (rw : ResponseWriter) (o : op) : ResponseWriter :=
  match o with DoWriteHeader code => WriteHeader code rw | DoWrite b => Write b rw end.

Definition wrap_fresh : ResponseWriter :=
  {| lw_inner := fresh_response; statusCode := StatusOK; written := false |}.

Definition agrees (rw : ResponseWriter) : Prop :=
  written rw = bool_decide (is_Some (rw_code (lw_inner rw))) /\
  statusCode rw = default StatusOK (rw_code (lw_inner rw)).

Lemma run_agrees rw o : agrees rw -> agrees (run rw o) /\ lw_inner (run rw o) = plain (lw_inner rw) o.
Proof.
  destruct rw as [[hs code b] st wr]. unfold agrees. simpl. intros [-> ->].
  destruct code, o; simpl; done.
Qed.

(** For every sequence of writes the client gets the plain writer's response, and
    the captured status is the one sent. *)
Theorem log_writer_transparent (ops : list op) :
  let rw := foldl run wrap_fresh ops in
  let r := foldl plain fresh_response ops in
  lw_inner rw = r /\ statusCode rw = default StatusOK (rw_code r).
Proof.
  cut (forall rw, agrees rw -> agrees (foldl run rw ops) /\
         lw_inner (foldl run rw ops) = foldl plain (lw_inner rw) ops).
  { intros H. destruct (H wrap_fresh) as [[_ Hs] Hi]; [done|]. cbn zeta. by rewrite Hs, Hi. }
  induction ops as [|o ops IH]; intros rw Hrw; [done|]. simpl.
  destruct (run_agrees rw o Hrw) as [Ho <-]. by apply IH.
Qed.
End Writer.
End LogWriter.

(** ** Context values round-trip *)

(** Metadata put in a context is read back; an empty one leaves what was there. *)
Theorem context_metadata_roundtrip ctx requestID tenantID traceID :
  let ctx' := ContextWithRequestMetadata ctx requestID tenantID traceID in
  let kept new old := if decide (new = "") then old else new in
  RequestIDFromContext ctx' = kept requestID (RequestIDFromContext ctx) /\
  TenantIDFromContext ctx' = kept tenantID (TenantIDFromContext ctx) /\
  TraceIDFromContext ctx' = kept traceID (TraceIDFromContext ctx) /\
  ctx_claims ctx' = ctx_claims ctx.
Proof.
  unfold ContextWithRequestMetadata, RequestIDFromContext, TenantIDFromContext, TraceIDFromContext.
  repeat case_decide; subst; try done; simpl; by simplify_map_eq.
Qed.

(** ** What a request logs *)

Section Facts.
Context {W : Type} `{!Zap W, !Clock W} {B : Type}.

(** The entries zap was given, over the calls of this package. *)
Class ZapLaws := {
  zap_entries : W -> list LogEntry;
  zap_entries_log e w : zap_entries (zap_log e w) = zap_entries w ++ [e];
  zap_entries_sync w : zap_entries (zap_sync w).2 = zap_entries w;
  zap_entries_build c w : zap_entries (zap_build c w).2 = zap_entries w;
  zap_entries_uuid w : zap_entries (uuid_new w).2 = zap_entries w;
  zap_entries_clock w : zap_entries (clock_now w).2 = zap_entries w;
  zap_build_ok c w : (zap_build c w).1 = None;
  sprint_v_str s : sprint_v (LStr s) = s
}.
Context {ZL : ZapLaws}.

Lemma or_uuid_run s (w : W) :
  exists id w', or_uuid s w = (Ret id, w') /\ zap_entries w' = zap_entries w /\
    (s <> "" -> id = s).
Proof.
  unfold or_uuid. case_decide.
  - unfold lift. pose proof (zap_entries_uuid w). destruct (uuid_new w) as [id w'].
    exists id, w'. naive_solver.
  - by exists s, w.
Qed.

Lemma GetLogger_run ctx (w : W) :
  exists w', GetLogger ctx w =
    (Ret {| lg_fields := ("service", LStr ServiceName) :: context_fields ctx |}, w') /\
    zap_entries w' = zap_entries w.
Proof.
  unfold GetLogger, NewLogger, mbind, GoM_bind, lift.
  pose proof (zap_entries_build (logger_config "production") w) as He.
  pose proof (zap_build_ok (logger_config "production") w) as Hok.
  destruct (zap_build _ w) as [e w']. simpl in *. subst e. eauto.
Qed.

(** Every line repeats the context's fields: once from the logger, once from the
    call. *)
Definition request_fields (ctx : Ctx) : list (string * log_value) :=
  ("service", LStr ServiceName) :: context_fields ctx ++ context_fields ctx.

Definition started_entry (ctx : Ctx) (r : Request) : LogEntry :=
  {| le_level := InfoLevel; le_msg := "HTTP request started";
     le_fields := request_fields ctx ++
       [("method", LStr (rq_Method r)); ("path", LStr (rq_RequestURI r));
        ("client_ip", LStr (getClientIP r)); ("user_agent", LStr (header_get r "User-Agent"))] |}.

Definition completed_entry (ctx : Ctx) (r : Request) (status : Z) (ms : float64) : LogEntry :=
  {| le_level := status_level status; le_msg := "HTTP request completed";
     le_fields := request_fields ctx ++
       [("method", LStr (rq_Method r)); ("path", LStr (rq_RequestURI r));
        ("status", LInt status); ("duration_ms", LFloat ms);
        ("client_ip", LStr (getClientIP r)); ("user_agent", LStr (header_get r "User-Agent"))] |}.

Lemma deferring_sync {A} (m : GoM (HState (W := W) (B := B)) A) w rw o w' rw' :
  m (w, rw) = (o, (w', rw')) ->
  deferring m (_ ← on_world Sync; mret tt) (w, rw) = (o, ((zap_sync w').2, rw')).
Proof.
  intros E. unfold deferring. rewrite E, on_world_bind. unfold Sync, lift.
  by destruct (zap_sync w').
Qed.

Lemma next_bind {C D} (m : GoM (HState (W := W) (B := B)) C)
    (k : C -> GoM (HState (W := W) (B := B)) D) st o st' :
  m st = (o, st') -> (m ≫= k) st = match o with Ret a => k a st' | Panic e => (Panic e, st') end.
Proof. intros E. unfold mbind, GoM_bind. rewrite E. by destruct o. Qed.

(** what the logging middleware adds to a handler: a line before it, which is there also
    when the handler panics, and a line after it with the status that was sent.
    The response is the handler's own: the two id headers are set too late to be
    sent whenever the handler wrote anything. *)
Theorem RequestLoggingMiddleware_spec (next : Handler (W := W) (B := B)) (r : Request) (w : W) :
  exists requestID traceID w1,
    let ctx := request_context r requestID traceID in
    (header_get r "X-Request-ID" <> "" -> requestID = header_get r "X-Request-ID") /\
    zap_entries w1 = zap_entries w ++ [started_entry ctx r] /\
    let '(o, (w2, rw2)) := next (with_ctx ctx r) (w1, fresh_response) in
    let '(o', (w', rw')) := RequestLoggingMiddleware next r (w, fresh_response) in
    o' = o /\
    match o with
    | Panic _ => zap_entries w' = zap_entries w2 /\ rw' = rw2
    | Ret _ =>
        (exists ms, zap_entries w' = zap_entries w2 ++
           [completed_entry ctx r (default StatusOK (rw_code rw2)) ms]) /\
        (is_Some (rw_code rw2) -> rw' = rw2)
    end.
Proof.
  unfold RequestLoggingMiddleware. rewrite on_world_bind. unfold lift at 1.
  pose proof (zap_entries_clock w) as H0. destruct (clock_now w) as [start w0]. simpl in H0.
  rewrite on_world_bind.
  destruct (or_uuid_run (header_get r "X-Request-ID") w0) as (rid & wa & -> & Ha & Hrid).
  rewrite on_world_bind.
  destruct (or_uuid_run (header_get r "X-Trace-ID") wa) as (tid & wb & -> & Hb & _).
  set (ctx := request_context r rid tid). rewrite on_world_bind.
  destruct (GetLogger_run ctx wb) as (wc & -> & Hc).
  set (m := _ ≫= _). set (d := _ ≫= _).
  set (w1 := zap_log {| le_level := InfoLevel; le_msg := "HTTP request started";
    le_fields := (("service", LStr ServiceName) :: context_fields ctx) ++ context_fields ctx ++
       [("method", LStr (rq_Method r)); ("path", LStr (rq_RequestURI r));
        ("client_ip", LStr (getClientIP r)); ("user_agent", LStr (header_get r "User-Agent"))] |} wc).
  exists rid, tid, w1. cbn zeta. split; [done|]. split.
  { unfold w1. rewrite zap_entries_log, Hc, Hb, Ha, H0. unfold started_entry, request_fields.
    cbn [app]. by rewrite <- app_assoc. }
  fold ctx. destruct (next (with_ctx ctx r) (w1, fresh_response)) as [o [w2 rw2]] eqn:En.
  destruct (m (wc, fresh_response)) as [o' [w3 rw3]] eqn:Em.
  unfold d. rewrite (deferring_sync _ _ _ _ _ _ Em). rewrite zap_entries_sync.
  unfold m in Em. rewrite on_world_bind in Em.
  unfold InfoWithContext, LogWithContext in Em. cbn [zap_fields lg_fields lift_unit] in Em.
  rewrite !sprint_v_str in Em. change (zap_log _ wc) with w1 in Em.
  rewrite (next_bind _ _ _ _ _ En) in Em. destruct o as [u|e]; [|by simplify_eq].
  rewrite on_world_bind in Em. unfold lift in Em.
  pose proof (zap_entries_clock w2) as H2. destruct (clock_now w2) as [now wd]. simpl in H2.
  rewrite (next_bind read_status _ _ (Ret (default StatusOK (rw_code rw2))) (wd, rw2)) in Em by done.
  rewrite on_world_bind in Em. cbn -[completed_entry] in Em. injection Em as <- <- <-.
  split; [by destruct u|]. split.
  - eexists. rewrite zap_entries_log, H2. unfold completed_entry, request_fields. cbn [app].
    by rewrite <- app_assoc.
  - intros [c Hcode]. by rewrite Hcode; simpl; rewrite Hcode.
Qed.
End Facts.
