(* ===== verification/Metrics.v ===== *)
(** * Prometheus metrics

    [pkg/metrics/gateway_metrics.go], [pkg/metrics/operator_metrics.go],
    [pkg/middleware/metrics_middleware.go], [pkg/scaling/metrics.go] and
    [pkg/scaling/scaler.go].  The Prometheus library is the class [Prom]: counters
    and histograms by name and label values, gauges by name.  [promauto] panics when
    a metric is registered twice, and a vector when it is given another number of
    label values than it was declared with; both are in the model.  The middleware
    reads the status that was sent, which [metrics_writer_transparent] shows to be
    the one its wrapped writer captures. *)

From Stdlib Require Import Ascii QArith.
From S2P Require Import Prelude GoStrings Float64 GoTime Kube Http Logger.

(** ** The library *)

Inductive prom_error : Type := AlreadyRegistered | RegisterError (msg : string).

Class Prom (W : Type) := {
  prom_inc : string -> list string -> W -> W;
  prom_observe : string -> list string -> float64 -> W -> W;
  prom_gauge_add : string -> Z -> W -> W;
  prom_gauge_set : string -> float64 -> W -> W;
  prom_register : string -> W -> option prom_error * W
}.

Section Metrics.
Context {W : Type} `{!Prom W, !Clock W}.

(** ** Metrics and vectors of metrics *)

(** Buckets are in seconds. *)
Record MetricDesc := {
  md_Name : string;
  md_Help : string;
  md_Labels : list string;
  md_Buckets : list Q
}.

(** [promauto]: a registration that fails is a panic. *)
Definition promauto_new (d : MetricDesc) : GoM W MetricDesc :=
  e ← lift (prom_register (md_Name d));
  match e with
  | Some _ => go_panic "duplicate metrics collector registration attempted"
  | None => mret d
  end.

(** [WithLabelValues(...).Inc()] and [WithLabelValues(...).Observe(x)]. *)
Definition WithLabelValues (d : MetricDesc) (values : list string) (act : W -> W) : GoM W unit :=
  if decide (length values = length (md_Labels d)) then lift_unit act
  else go_panic "inconsistent label cardinality".
Definition vec_inc (d : MetricDesc) (values : list string) : GoM W unit :=
  WithLabelValues d values (prom_inc (md_Name d) values).
Definition vec_observe (d : MetricDesc) (values : list string) (x : float64) : GoM W unit :=
  WithLabelValues d values (prom_observe (md_Name d) values x).

(** ** Operator metrics *)

Record OperatorMetrics := {
  CloudTaskCreatedTotal : MetricDesc;
  CloudTaskCompletedTotal : MetricDesc;
  CloudTaskFailedTotal : MetricDesc;
  PodRestartsTotal : MetricDesc;
  CloudTaskDuration : MetricDesc;
  QueueDepth : MetricDesc
}.

(** The declarations of [NewOperatorMetrics], which registers them in this order. *)
Definition created_total : MetricDesc :=
  {| md_Name := "cloudtask_created_total"; md_Help := "Total number of CloudTasks created";
     md_Labels := ["namespace"; "tenant"]; md_Buckets := [] |}.
Definition completed_total : MetricDesc :=
  {| md_Name := "cloudtask_completed_total";
     md_Help := "Total number of CloudTasks completed successfully";
     md_Labels := ["namespace"; "tenant"]; md_Buckets := [] |}.
Definition failed_total : MetricDesc :=
  {| md_Name := "cloudtask_failed_total"; md_Help := "Total number of CloudTasks that failed";
     md_Labels := ["namespace"; "tenant"; "reason"]; md_Buckets := [] |}.
Definition task_duration : MetricDesc :=
  {| md_Name := "cloudtask_duration_seconds";
     md_Help := "Duration of CloudTask execution in seconds";
     md_Labels := ["namespace"; "tenant"];
     md_Buckets := [1#1; 5#1; 10#1; 30#1; 60#1; 120#1; 300#1; 600#1; 1800#1; 3600#1]%Q |}.
Definition queue_depth : MetricDesc :=
  {| md_Name := "cloudtask_queue_depth"; md_Help := "Current depth of the task queue";
     md_Labels := []; md_Buckets := [] |}.
Definition pod_restarts : MetricDesc :=
  {| md_Name := "pod_restarts_total"; md_Help := "Total number of pod restarts";
     md_Labels := ["pod_name"; "namespace"]; md_Buckets := [] |}.

Definition NewOperatorMetrics : GoM W OperatorMetrics :=
  created ← promauto_new created_total;
  completed ← promauto_new completed_total;
  failed ← promauto_new failed_total;
  duration ← promauto_new task_duration;
  depth ← promauto_new queue_depth;
  restarts ← promauto_new pod_restarts;
  mret {| CloudTaskCreatedTotal := created; CloudTaskCompletedTotal := completed;
          CloudTaskFailedTotal := failed; PodRestartsTotal := restarts;
          CloudTaskDuration := duration; QueueDepth := depth |}.

Definition RecordTaskCreated (m : OperatorMetrics) (namespace tenantID : string) : GoM W unit :=
  vec_inc (CloudTaskCreatedTotal m) [namespace; tenantID].
Definition RecordTaskCompleted (m : OperatorMetrics) (namespace tenantID : string) : GoM W unit :=
  vec_inc (CloudTaskCompletedTotal m) [namespace; tenantID].
Definition RecordTaskFailed (m : OperatorMetrics) (namespace tenantID reason : string) : GoM W unit :=
  vec_inc (CloudTaskFailedTotal m) [namespace; tenantID; reason].
Definition RecordTaskDuration (m : OperatorMetrics) (namespace tenantID : string) (duration : float64)
    : GoM W unit :=
  vec_observe (CloudTaskDuration m) [namespace; tenantID] duration.
Definition SetQueueDepth (m : OperatorMetrics) (depth : Z) : GoM W unit :=
  lift_unit (prom_gauge_set (md_Name (QueueDepth m)) (f_of_Z depth)).
Definition RecordPodRestart (m : OperatorMetrics) (podName namespace : string) : GoM W unit :=
  vec_inc (PodRestartsTotal m) [podName; namespace].

(** ** Gateway metrics *)

Record GatewayMetrics := {
  HTTPRequestsTotal : MetricDesc;
  HTTPRequestDuration : MetricDesc;
  ActiveConnections : MetricDesc
}.

Definition requests_total : MetricDesc :=
  {| md_Name := "http_requests_total"; md_Help := "Total number of HTTP requests processed";
     md_Labels := ["method"; "endpoint"; "status"]; md_Buckets := [] |}.
Definition request_duration : MetricDesc :=
  {| md_Name := "http_request_duration_seconds"; md_Help := "Duration of HTTP requests in seconds";
     md_Labels := ["method"; "endpoint"];
     md_Buckets := [1#1000; 5#1000; 10#1000; 25#1000; 50#1000; 100#1000; 250#1000; 500#1000; 1#1;
                    2500#1000; 5#1; 10#1]%Q |}.
Definition active_connections : MetricDesc :=
  {| md_Name := "active_connections"; md_Help := "Number of active HTTP connections";
     md_Labels := []; md_Buckets := [] |}.

Definition NewGatewayMetrics : GoM W GatewayMetrics :=
  requests ← promauto_new requests_total;
  duration ← promauto_new request_duration;
  active ← promauto_new active_connections;
  mret {| HTTPRequestsTotal := requests; HTTPRequestDuration := duration; ActiveConnections := active |}.

Definition RecordRequest (m : GatewayMetrics) (method endpoint status : string) (duration : float64)
    : GoM W unit :=
  _ ← vec_inc (HTTPRequestsTotal m) [method; endpoint; status];
  vec_observe (HTTPRequestDuration m) [method; endpoint] duration.

Definition IncActiveConnections (m : GatewayMetrics) : GoM W unit :=
  lift_unit (prom_gauge_add (md_Name (ActiveConnections m)) 1).
Definition DecActiveConnections (m : GatewayMetrics) : GoM W unit :=
  lift_unit (prom_gauge_add (md_Name (ActiveConnections m)) (-1)).

Definition formatStatusCode (statusCode : Z) : string :=
  if decide (statusCode >= 500) then "5xx"
  else if decide (statusCode >= 400) then "4xx"
  else if decide (statusCode >= 300) then "3xx"
  else if decide (statusCode >= 200) then "2xx"
  else "unknown".

Definition RecordHTTPRequest (m : GatewayMetrics) (method endpoint : string) (statusCode : Z)
    (duration : float64) : GoM W unit :=
  RecordRequest m method endpoint (formatStatusCode statusCode) duration.

(** ** The middleware *)

Definition normalizeEndpoint (path : string) : string :=
  if decide (path = "/healthz") then "/healthz"
  else if decide (path = "/readyz") then "/readyz"
  else if decide (path = "/metrics") then "/metrics"
  else if decide (str_len path > 3 /\ String.substring 0 3 path = "/v1") then
    if decide (str_len path > 10) then String.substring 0 10 path else path
  else path.

Section Middleware.
Context {B : Type}.
Abbreviation Handler := (Handler (W := W) (B := B)).

Record MetricsMiddleware := { mm_metrics : GatewayMetrics }.

Definition NewMetricsMiddleware (m : GatewayMetrics) : MetricsMiddleware := {| mm_metrics := m |}.

Definition MetricsHandler (mm : MetricsMiddleware) (next : Handler) : Handler := fun r =>
  if decide (rq_Path r = "/metrics") then next r
  else
    _ ← on_world (IncActiveConnections (mm_metrics mm));
    deferring
      (start ← on_world (lift clock_now);
       _ ← next r;
       now ← on_world (lift clock_now);
       statusCode ← read_status;
       on_world (RecordHTTPRequest (mm_metrics mm) (rq_Method r) (normalizeEndpoint (rq_Path r))
                   statusCode (duration_seconds (int64 (now - start)))))
      (on_world (DecActiveConnections (mm_metrics mm))).

(** The last middleware of the list is the outermost. *)
Definition ChainMiddleware (handler : Handler) (middlewares : list (Handler -> Handler)) : Handler :=
  foldl (fun h m => m h) handler middlewares.

(** [recover] in a deferred function: the panic ends here. *)
Definition RecoveryMiddleware (text : string -> B) (next : Handler) : Handler := fun r st =>
  match next r st with
  | (Ret u, st') => (Ret u, st')
  | (Panic _, st') =>
      (_ ← write_header StatusInternalServerError;
       write_body (text "Internal Server Error")) st'
  end.

(** [log.Printf] after the request: the address, method, URI, status and duration. *)
Definition LoggingMiddleware (printf : string -> string -> string -> Z -> Z -> W -> W)
    (next : Handler) : Handler := fun r =>
  start ← on_world (lift clock_now);
  _ ← next r;
  now ← on_world (lift clock_now);
  statusCode ← read_status;
  on_world (lift_unit (printf (rq_RemoteAddr r) (rq_Method r) (rq_RequestURI r) statusCode
                         (int64 (now - start)))).
End Middleware.

(** ** The collector of [pkg/scaling] *)

Record MetricsCollector := { mc_updateInterval : Z; mc_stopClosed : bool }.

Definition NewMetricsCollector (updateInterval : Z) : MetricsCollector :=
  {| mc_updateInterval := updateInterval; mc_stopClosed := false |}.

Definition collector_gauges : list string :=
  ["current_queue_depth"; "active_task_count"; "failed_task_count"; "avg_task_duration_seconds"].

(** [Register]: an error other than a repeated registration ends the loop. *)
Fixpoint register_all (names : list string) : GoM W (option string) :=
  match names with
  | [] => mret None
  | m :: names' =>
      e ← lift (prom_register m);
      match e with
      | Some (RegisterError msg) => mret (Some msg)
      | Some AlreadyRegistered | None => register_all names'
      end
  end.
Definition Register : GoM W (option string) := register_all collector_gauges.

(** The four readings are placeholders. *)
Definition getQueueDepth : string + Z := inr 0.
Definition getActiveTasks : string + Z := inr 0.
Definition getFailedTasks : string + Z := inr 0.
Definition getAvgDuration : string + float64 := inr (f_of_Z 0).

Definition set_if_ok (gauge : string) (v : string + float64) : GoM W unit :=
  match v with
  | inr x => lift_unit (prom_gauge_set gauge x)
  | inl _ => mret tt
  end.
Definition as_float (v : string + Z) : string + float64 :=
  match v with inr z => inr (f_of_Z z) | inl e => inl e end.

Definition updateMetrics : GoM W unit :=
  _ ← lift_unit (prom_gauge_set "current_queue_depth" (f_of_Z 0));
  _ ← lift_unit (prom_gauge_set "active_task_count" (f_of_Z 0));
  _ ← lift_unit (prom_gauge_set "failed_task_count" (f_of_Z 0));
  _ ← lift_unit (prom_gauge_set "avg_task_duration_seconds" (f_of_Z 0));
  _ ← set_if_ok "current_queue_depth" (as_float getQueueDepth);
  _ ← set_if_ok "active_task_count" (as_float getActiveTasks);
  _ ← set_if_ok "failed_task_count" (as_float getFailedTasks);
  set_if_ok "avg_task_duration_seconds" getAvgDuration.

(** [collectMetrics] up to its loop: the ticker needs a positive interval. *)
Definition collect_start (mc : MetricsCollector) : GoM W unit :=
  if decide (mc_updateInterval mc <= 0) then go_panic "non-positive interval for NewTicker"
  else updateMetrics.

(** A turn of its loop: the goroutine goes on or ends. *)
Inductive collect_event : Type := CtxDone | StopSignal | Tick.
Definition collect_turn (ev : collect_event) : GoM W bool :=
  match ev with
  | CtxDone | StopSignal => mret false
  | Tick => _ ← updateMetrics; mret true
  end.

Definition collector_Stop (mc : MetricsCollector) : outcome MetricsCollector :=
  if mc_stopClosed mc then Panic "close of closed channel"
  else Ret {| mc_updateInterval := mc_updateInterval mc; mc_stopClosed := true |}.

(** ** The scaler stub *)

Definition ScaleUp (namespace : string) (count : Z) : GoM W (option string) := mret None.
Definition ScaleDown (namespace : string) (count : Z) : GoM W (option string) := mret None.
Definition GetCurrentReplicas (namespace : string) : GoM W (string + Z) := mret (inr 0).
End Metrics.

(** ** What is counted *)

Class PromLaws (W : Type) `{!Prom W, !Clock W} := {
  counter_of : string -> list string -> W -> Z;
  gauge_of : string -> W -> Z;
  counter_inc n l n' l' w :
    counter_of n l (prom_inc n' l' w) =
      if decide (n = n' /\ l = l') then counter_of n l w + 1 else counter_of n l w;
  counter_observe n l n' l' x w : counter_of n l (prom_observe n' l' x w) = counter_of n l w;
  counter_gauge n l n' z w : counter_of n l (prom_gauge_add n' z w) = counter_of n l w;
  counter_clock n l w : counter_of n l (clock_now w).2 = counter_of n l w;
  gauge_add n n' z w :
    gauge_of n (prom_gauge_add n' z w) = if decide (n = n') then gauge_of n w + z else gauge_of n w;
  gauge_inc n n' l w : gauge_of n (prom_inc n' l w) = gauge_of n w;
  gauge_observe n n' l x w : gauge_of n (prom_observe n' l x w) = gauge_of n w;
  gauge_clock n w : gauge_of n (clock_now w).2 = gauge_of n w
}.

Section Facts.
Context {W : Type} `{!Prom W, !Clock W, PL : !PromLaws W} {B : Type}.
Abbreviation Handler := (Handler (W := W) (B := B)).
Abbreviation requests := (counter_of "http_requests_total").
Abbreviation active := (gauge_of "active_connections").

(** The metrics as declared, and the middleware over them. *)
Definition gateway_metrics : GatewayMetrics :=
  {| HTTPRequestsTotal := requests_total; HTTPRequestDuration := request_duration;
     ActiveConnections := active_connections |}.
Definition operator_metrics : OperatorMetrics :=
  {| CloudTaskCreatedTotal := created_total; CloudTaskCompletedTotal := completed_total;
     CloudTaskFailedTotal := failed_total; PodRestartsTotal := pod_restarts;
     CloudTaskDuration := task_duration; QueueDepth := queue_depth |}.
Definition gateway_middleware : MetricsMiddleware := NewMetricsMiddleware gateway_metrics.

Lemma vec_inc_run (d : MetricDesc) vs (w : W) :
  length vs = length (md_Labels d) -> vec_inc d vs w = (Ret tt, prom_inc (md_Name d) vs w).
Proof. intros H. unfold vec_inc, WithLabelValues. by rewrite decide_True. Qed.

Lemma vec_observe_run (d : MetricDesc) vs x (w : W) :
  length vs = length (md_Labels d) -> vec_observe d vs x w = (Ret tt, prom_observe (md_Name d) vs x w).
Proof. intros H. unfold vec_observe, WithLabelValues. by rewrite decide_True. Qed.

Lemma MetricsHandler_run (next : Handler) (r : Request) (w : W) (rw : ResponseWriter B) :
  rq_Path r <> "/metrics" ->
  exists w1, active w1 = active w + 1 /\ (forall l, requests l w1 = requests l w) /\
    let '(o, (w2, rw2)) := next r (w1, rw) in
    exists w', MetricsHandler gateway_middleware next r (w, rw) = (o, (w', rw2)) /\ active w' = active w2 - 1 /\
      forall l, requests l w' =
        match o with
        | Ret _ => if decide (l = [rq_Method r; normalizeEndpoint (rq_Path r);
                                   formatStatusCode (default StatusOK (rw_code rw2))])
                   then requests l w2 + 1 else requests l w2
        | Panic _ => requests l w2
        end.
Proof.
  intros Hp. unfold MetricsHandler. rewrite decide_False by done. rewrite on_world_bind.
  unfold IncActiveConnections, lift_unit. simpl md_Name. set (wa := prom_gauge_add _ 1 w).
  exists (clock_now wa).2.
  assert (active (clock_now wa).2 = active w + 1) as Hact.
  { rewrite gauge_clock. unfold wa. rewrite gauge_add. by rewrite decide_True. }
  split; [done|]. split; [intros l; by rewrite counter_clock; unfold wa; rewrite counter_gauge|].
  destruct (next r ((clock_now wa).2, rw)) as [o [w2 rw2]] eqn:En.
  unfold deferring. rewrite on_world_bind. unfold lift at 1.
  destruct (clock_now wa) as [start w1] eqn:Ec. simpl in En.
  rewrite (next_bind _ _ _ _ _ En). destruct o as [u|e].
  - rewrite on_world_bind. unfold lift at 1.
    pose proof (fun l => counter_clock "http_requests_total" l w2) as Hc.
    pose proof (gauge_clock "active_connections" w2) as Hg. destruct (clock_now w2) as [now w3].
    rewrite (next_bind read_status _ _ (Ret (default StatusOK (rw_code rw2))) (w3, rw2)) by done.
    unfold RecordHTTPRequest, RecordRequest, DecActiveConnections, on_world, lift_unit, mbind, GoM_bind.
    simpl in Hc, Hg |- *. destruct u. eexists. split; [done|]. split.
    + rewrite gauge_add, decide_True, gauge_observe, gauge_inc, Hg by done. lia.
    + intros l. rewrite counter_gauge, counter_observe, counter_inc, Hc.
      by destruct (decide (l = _)) as [->|Hne]; [rewrite !decide_True|rewrite !decide_False by naive_solver].
  - unfold DecActiveConnections, on_world, lift_unit. simpl.
    eexists. split; [done|]. split.
    + rewrite gauge_add, decide_True by done. lia.
    + intros l. by rewrite counter_gauge.
Qed.

(** the middleware around a handler that is not the metrics endpoint.  The gauge of
    active connections is one higher while the handler runs and is restored when
    it ends, also by a panic; a request that returns is counted once, under its
    method, endpoint and status class, and one that panics is not counted. *)
Theorem MetricsHandler_spec (next : Handler) (r : Request) (w : W) (rw : ResponseWriter B) :
  rq_Path r <> "/metrics" ->
  exists w1, active w1 = active w + 1 /\ (forall l, requests l w1 = requests l w) /\
    let '(o, (w2, rw2)) := next r (w1, rw) in
    exists w', MetricsHandler gateway_middleware next r (w, rw) = (o, (w', rw2)) /\ active w' = active w2 - 1 /\
      forall l, requests l w' =
        match o with
        | Ret _ => if decide (l = [rq_Method r; normalizeEndpoint (rq_Path r);
                                   formatStatusCode (default StatusOK (rw_code rw2))])
                   then requests l w2 + 1 else requests l w2
        | Panic _ => requests l w2
        end.
Proof. apply MetricsHandler_run. Qed.

(** No panic passes the recovery middleware: the client gets 500 if nothing was
    sent yet, and otherwise the status already sent. *)
Theorem RecoveryMiddleware_recovers (text : string -> B) (next : Handler) (r : Request) (st : HState) :
  exists st', RecoveryMiddleware text next r st = (Ret tt, st') /\
    match next r st with
    | (Ret _, st1) => st' = st1
    | (Panic _, (w1, rw1)) => st'.1 = w1 /\
        rw_code st'.2 = Some (default StatusInternalServerError (rw_code rw1)) /\
        rw_body st'.2 = rw_body rw1 ++ [text "Internal Server Error"]
    end.
Proof.
  unfold RecoveryMiddleware. destruct (next r st) as [[[]|e] [w1 rw1]]; [by eexists|].
  eexists. split; [reflexivity|]. destruct rw1 as [hs [code|] b]; done.
Qed.

(** In the order the file recommends (metrics, then recovery) a request whose handler
    panics is answered with 500 and is not counted at all. *)
Theorem panicking_request_not_counted (text : string -> B) (next : Handler) (r : Request) (w : W) e :
  rq_Path r <> "/metrics" ->
  (forall w1, exists w2, next r (w1, fresh_response) = (Panic e, (w2, fresh_response)) /\
     forall l, requests l w2 = requests l w1) ->
  let '(o, (w', rw')) := ChainMiddleware next [MetricsHandler gateway_middleware; RecoveryMiddleware text] r (w, fresh_response) in
  o = Ret tt /\ rw_code rw' = Some 500 /\ forall l, requests l w' = requests l w.
Proof.
  intros Hp Hpanic. unfold ChainMiddleware. cbn [foldl].
  destruct (MetricsHandler_run next r w fresh_response Hp) as (w1 & _ & Hr1 & Hm).
  destruct (Hpanic w1) as (w2 & En & Hr2). rewrite En in Hm. destruct Hm as (w' & Em & _ & Hr').
  unfold RecoveryMiddleware. rewrite Em. cbn. split_and!; [done|done|].
  intros l. by rewrite Hr', Hr2, Hr1.
Qed.

(** The last middleware of a chain is the one a request meets first. *)
Lemma ChainMiddleware_last (h : Handler) ms m :
  ChainMiddleware h (ms ++ [m]) = m (ChainMiddleware h ms).
Proof. unfold ChainMiddleware. by rewrite foldl_app. Qed.

(** Paths of the versioned API are grouped by their first ten characters, which for
    the task endpoints is their common prefix. *)
Theorem normalizeEndpoint_groups (id : string) :
  id <> "" -> normalizeEndpoint ("/v1/tasks/" +:+ id) = "/v1/tasks/".
Proof.
  intros Hid. unfold normalizeEndpoint.
  destruct id as [|c id]; [done|]. repeat (rewrite decide_False by done).
  assert (str_len ("/v1/tasks/" +:+ String c id) > 10) as Hl.
  { unfold str_len. rewrite length_append. simpl. lia. }
  rewrite decide_True by (split; [lia|done]). rewrite decide_True by done.
  reflexivity.
Qed.
End Facts.

(** ** The collector *)

Section Collector.
Context {W : Type} `{!Prom W}.
Variable value_of : string -> W -> option float64.
Hypothesis value_set : forall n n' x w,
  value_of n (prom_gauge_set n' x w) = if decide (n = n') then Some x else value_of n w.

(** Whatever the system does, every update exports zero for all four metrics. *)
Theorem updateMetrics_exports_zero (w : W) :
  exists w', updateMetrics w = (Ret tt, w') /\
    forall g, g ∈ collector_gauges -> value_of g w' = Some (f_of_Z 0).
Proof.
  eexists. split; [done|]. intros g Hg. rewrite !value_set.
  repeat (apply elem_of_cons in Hg as [->|Hg]; [done|]). by apply not_elem_of_nil in Hg.
Qed.

Theorem collector_Stop_once mc mc' :
  collector_Stop mc = Ret mc' -> collector_Stop mc' = Panic "close of closed channel".
Proof. unfold collector_Stop. destruct (mc_stopClosed mc); [done|]. by intros [= <-]. Qed.
End Collector.

(** ** Declared once, used as declared *)

Section Declared.
Context {W : Type} `{!Prom W}.
Variable registered : W -> gset string.
Hypothesis register_new : forall n w, n ∉ registered w ->
  exists w', prom_register n w = (None, w') /\ registered w' = {[n]} ∪ registered w.
Hypothesis register_again : forall n w, n ∈ registered w ->
  exists e w', prom_register n w = (Some e, w').

Lemma promauto_new_run d w :
  md_Name d ∉ registered w ->
  exists w', promauto_new d w = (Ret d, w') /\ registered w' = {[md_Name d]} ∪ registered w.
Proof.
  intros Hn. destruct (register_new _ _ Hn) as (w' & E & Hr). exists w'. split; [|done].
  unfold promauto_new. rewrite lift_bind, E. done.
Qed.

Lemma promauto_again d w (A : Type) (k : MetricDesc -> GoM W A) :
  md_Name d ∈ registered w -> exists msg w', (promauto_new d ≫= k) w = (Panic msg, w').
Proof.
  intros Hn. destruct (register_again _ _ Hn) as (e & w' & E). do 2 eexists.
  unfold promauto_new, mbind, GoM_bind, lift. rewrite E. reflexivity.
Qed.

(** The gateway's metrics can be made once: the first call registers them all, a
    second one panics. *)
Theorem NewGatewayMetrics_once w :
  "http_requests_total" ∉ registered w -> "http_request_duration_seconds" ∉ registered w ->
  "active_connections" ∉ registered w ->
  exists w', NewGatewayMetrics w = (Ret gateway_metrics, w') /\
    exists msg w'', NewGatewayMetrics w' = (Panic msg, w'').
Proof.
  intros H1 H2 H3. destruct (promauto_new_run requests_total w H1) as (w1 & E1 & R1).
  destruct (promauto_new_run request_duration w1) as (w2 & E2 & R2).
  { rewrite R1. simpl. apply not_elem_of_union. split; [by intros ?%elem_of_singleton|done]. }
  destruct (promauto_new_run active_connections w2) as (w3 & E3 & R3).
  { rewrite R2, R1. simpl. rewrite !not_elem_of_union, !not_elem_of_singleton. done. }
  exists w3. split.
  - unfold NewGatewayMetrics. by rewrite (GoM_bind_ret _ _ _ _ _ E1), (GoM_bind_ret _ _ _ _ _ E2),
      (GoM_bind_ret _ _ _ _ _ E3).
  - apply promauto_again. rewrite R3, R2, R1. simpl. rewrite !elem_of_union, !elem_of_singleton. auto.
Qed.
End Declared.

(** Every Record function gives its metric as many label values as were declared:
    with the metrics of the constructors none of them panics. *)
Theorem record_functions_return {W} `{!Prom W} (w : W) (a b c : string) (x : float64) (code depth : Z) :
  Forall (fun m : GoM W unit => exists w', m w = (Ret tt, w'))
    [RecordTaskCreated operator_metrics a b; RecordTaskCompleted operator_metrics a b;
     RecordTaskFailed operator_metrics a b c; RecordTaskDuration operator_metrics a b x;
     SetQueueDepth operator_metrics depth; RecordPodRestart operator_metrics a b;
     RecordRequest gateway_metrics a b c x; RecordHTTPRequest gateway_metrics a b code x;
     IncActiveConnections gateway_metrics; DecActiveConnections gateway_metrics].
Proof. repeat constructor; by eexists. Qed.

(** The buckets of both histograms increase, as Prometheus demands. *)
Fixpoint increasing (l : list Q) : bool :=
  match l with
  | x :: ((y :: _) as l') => Qle_bool x y && negb (Qeq_bool x y) && increasing l'
  | _ => true
  end.

Example buckets_increase :
  increasing (md_Buckets task_duration) && increasing (md_Buckets request_duration) = true.
Proof. reflexivity. Qed.

(** ** The response writer that captures the status *)

Module MetricsWriter.
Section Writer.
Context {B : Type}.
Abbreviation responseWriter := (LogWriter.ResponseWriter (B := B)).

Definition WriteHeader (code : Z) (rw : responseWriter) : responseWriter :=
  if LogWriter.written rw then rw
  else {| LogWriter.lw_inner := LogWriter.plain (LogWriter.lw_inner rw) (LogWriter.DoWriteHeader code);
          LogWriter.statusCode := code; LogWriter.written := true |}.

(** A first write sends the status 200. *)
Definition Write (b : B) (rw : responseWriter) : responseWriter :=
  let rw := if LogWriter.written rw then rw else WriteHeader StatusOK rw in
  {| LogWriter.lw_inner := LogWriter.plain (LogWriter.lw_inner rw) (LogWriter.DoWrite b);
     LogWriter.statusCode := LogWriter.statusCode rw; LogWriter.written := LogWriter.written rw |}.

Definition run (rw : responseWriter) (o : LogWriter.op) : responseWriter :=
  match o with
  | LogWriter.DoWriteHeader code => WriteHeader code rw
  | LogWriter.DoWrite b => Write b rw
  end.

(** On a writer that has been used through it, it is the logger's writer. *)
Lemma run_LogWriter rw o : LogWriter.agrees rw -> run rw o = LogWriter.run rw o.
Proof.
  destruct rw as [[hs code b] st wr]. unfold LogWriter.agrees. simpl. intros [-> ->].
  by destruct code, o.
Qed.

(** The client gets the plain writer's response for every sequence of writes, and the
    captured status is the one sent. *)
Theorem metrics_writer_transparent (ops : list LogWriter.op) :
  let rw := foldl run LogWriter.wrap_fresh ops in
  let r := foldl LogWriter.plain fresh_response ops in
  LogWriter.lw_inner rw = r /\ LogWriter.statusCode rw = default StatusOK (rw_code r).
Proof.
  cut (forall rw, LogWriter.agrees rw -> foldl run rw ops = foldl LogWriter.run rw ops).
  { intros H. cbn zeta. rewrite H by done. apply LogWriter.log_writer_transparent. }
  induction ops as [|o ops IH]; intros rw Hrw; [done|]. simpl. rewrite (run_LogWriter _ _ Hrw).
  apply IH. by destruct (LogWriter.run_agrees rw o Hrw).
Qed.
End Writer.
End MetricsWriter.

(** ** A registry in memory *)

Module MemProm.
Record Registry := { reg_counters : list (string * list string); reg_gauges : gmap string Z }.
#[export] Instance clock : Clock Registry := fun w => (0, w).
#[export] Instance prom : Prom Registry := {
  prom_inc n l w := {| reg_counters := (n, l) :: reg_counters w; reg_gauges := reg_gauges w |};
  prom_observe _ _ _ w := w;
  prom_gauge_add n z w := {| reg_counters := reg_counters w;
                             reg_gauges := <[n := default 0 (reg_gauges w !! n) + z]> (reg_gauges w) |};
  prom_gauge_set _ _ w := w;
  prom_register _ w := (None, w)
}.

Definition count (n : string) (l : list string) (w : Registry) : Z :=
  Z.of_nat (length (filter (fun p => p = (n, l)) (reg_counters w))).

#[export] Instance laws : PromLaws Registry.
Proof.
  unshelve econstructor; [exact count|exact (fun n w => default 0 (reg_gauges w !! n))|..]; simpl; try done.
  - intros n l n' l' w. unfold count. simpl. rewrite filter_cons. case_decide as H1; case_decide as H2.
    + rewrite length_cons. lia.
    + destruct H2. by simplify_eq.
    + destruct H1. by destruct H2 as [-> ->].
    + done.
  - intros n n' z w. rewrite lookup_insert. repeat case_decide; subst; done.
Defined.

Definition start : Registry := {| reg_counters := []; reg_gauges := ∅ |}.
End MemProm.

Section Witnesses.
Import MemProm.

Definition ok_handler : Handler (W := Registry) (B := string) := fun _ => write_body "ok".
Definition get_task : Request :=
  {| rq_Method := "GET"; rq_Path := "/v1/tasks/t1"; rq_RequestURI := "/v1/tasks/t1";
     rq_RemoteAddr := "10.0.0.9:4711"; rq_Query := ∅; rq_Headers := ∅; rq_Body := inr "";
     rq_Ctx := {| ctx_claims := None; ctx_request_id := None; ctx_log := ∅ |} |}.

(** A request is counted once and leaves no active connection. *)
Example counted_once :
  let w := (MetricsHandler gateway_middleware ok_handler get_task (start, fresh_response)).2.1 in
  counter_of "http_requests_total" ["GET"; "/v1/tasks/"; "2xx"] w = 1 /\
  gauge_of "active_connections" w = 0.
Proof. by vm_compute. Qed.

Lemma MetricsHandler_spec_witness :
  exists w1, gauge_of "active_connections" w1 = 1 /\
    exists w', MetricsHandler gateway_middleware ok_handler get_task (start, fresh_response) =
      (Ret tt, (w', {| rw_headers := ∅; rw_code := Some 200; rw_body := ["ok"] |})) /\
      gauge_of "active_connections" w' = gauge_of "active_connections" w1 - 1.
Proof.
  destruct (MetricsHandler_spec ok_handler get_task start fresh_response) as (w1 & Ha & _ & Hn); [done|].
  exists w1. split; [exact Ha|]. destruct Hn as (w' & E & Hg & _). exists w'. split; [exact E|exact Hg].
Defined.
End Witnesses.
