(* ===== verification/Module1Clients.v ===== *)
(** * The scheduler client interface and its implementations

    [pkg/grpc/client.go] (the interface [Module1Client] and [RealClient]) and
    [pkg/grpc/mock_client.go].  The interface is a type class over the state its
    implementation works on; [RealClient], [MockClient] and the client with the
    circuit breaker ([Module1Client]) are its instances.  The mock keeps pointers
    to its answers and hands the same pointers out: they are locations of a heap.
    [fmt.Sprintf] with a format of the caller is the parameter [sprintf_s]. *)

From S2P Require Import Prelude GoStrings GoTime Kube Module1Client.

Class Module1Client (S : Type) := {
  api_SubmitTask : SubmitTaskRequest -> GoM S (string + SubmitTaskResponse);
  api_GetTaskStatus : string -> GoM S (string + TaskStatusResponse);
  api_CancelTask : string -> GoM S (option string);
  api_GetQueueDepth : GoM S (string + QueueDepthResponse);
  api_Close : GoM S (option string)
}.

(** ** The client with the circuit breaker *)

#[export] Instance breaker_client {W} `{!Grpc W, !Clock W} : Module1Client (CState (W := W)) := {
  api_SubmitTask := SubmitTask;
  api_GetTaskStatus := GetTaskStatus;
  api_CancelTask := CancelTask;
  api_GetQueueDepth := GetQueueDepth;
  api_Close := Close
}.

(** [connectivity.State.String] and [GetConnectionState] *)
Definition ConnState_String (s : ConnState) : string :=
  match s with
  | Idle => "IDLE"
  | Connecting => "CONNECTING"
  | Ready => "READY"
  | TransientFailure => "TRANSIENT_FAILURE"
  | Shutdown => "SHUTDOWN"
  end.

Definition GetConnectionState {W} `{!Grpc W} : GoM (CState (W := W)) string :=
  c ← client;
  match m1_conn c with
  | None => mret "disconnected"
  | Some k => s ← outside (grpc_state k); mret (ConnState_String s)
  end.

(** ** [RealClient] *)

Module RealClient.
Section Client.
Context {W : Type} `{!Grpc W}.

Record RealClient := { rc_address : string; rc_conn : option Conn }.

Definition RState : Type := RealClient * W.

Definition outside {A} (op : W -> A * W) : GoM RState A := fun st =>
  let '(a, w') := op st.2 in (Ret a, (st.1, w')).
Definition client : GoM RState RealClient := fun st => (Ret st.1, st).
Definition set_conn (k : Conn) : GoM RState unit := fun st =>
  (Ret tt, ({| rc_address := rc_address st.1; rc_conn := Some k |}, st.2)).
Definition sleep (d : Z) : GoM RState unit := fun st => (Ret tt, (st.1, grpc_sleep d st.2)).

Definition maxAttempts : Z := 3.
Definition backoffDuration : Z := 2 * Second.

(** The loop from attempt [attempt] on; [n] attempts are left. *)
Fixpoint connect_loop (n : nat) (attempt : Z) : GoM RState (option string) :=
  match n with
  | O => mret (Some ("failed to connect to Module 1 after " +:+ pretty maxAttempts +:+ " attempts"))
  | S n' =>
      c ← client;
      r ← outside (grpc_dial (rc_address c));
      match r with
      | inr conn => _ ← set_conn conn; mret None
      | inl _ =>
          _ ← (if decide (attempt < maxAttempts) then sleep backoffDuration else mret tt);
          connect_loop n' (attempt + 1)
      end
  end.

Definition connectWithRetry : GoM RState (option string) := connect_loop (Z.to_nat maxAttempts) 1.

Definition NewRealClient (getenv : string -> string) (w : W) : outcome (string + RealClient) * W :=
  let a := getenv "MODULE1_GRPC_ADDRESS" in
  let address := if decide (a = "") then "localhost:50051" else a in
  match connectWithRetry ({| rc_address := address; rc_conn := None |}, w) with
  | (Ret (Some e), (_, w')) => (Ret (inl e), w')
  | (Ret None, (c, w')) => (Ret (inr c), w')
  | (Panic e, (_, w')) => (Panic e, w')
  end.

Definition ensureConnected : GoM RState (option string) :=
  c ← client;
  match rc_conn c with
  | None => mret (Some "client not connected")
  | Some k =>
      state ← outside (grpc_state k);
      match state with
      | TransientFailure | Shutdown => connectWithRetry
      | _ => mret None
      end
  end.

(** The four calls check the connection and answer a placeholder; the deadline
    they give their context is not used. *)
Definition placeholder {A} (a : A) : GoM RState (string + A) :=
  e ← ensureConnected;
  match e with
  | Some err => mret (inl err)
  | None => mret (inr a)
  end.

Definition SubmitTask (req : SubmitTaskRequest) : GoM RState (string + SubmitTaskResponse) :=
  placeholder {| sr_Accepted := true; sr_QueuePosition := 1; sr_EstimatedStartSeconds := 5;
                 sr_Reason := "" |}.

Definition GetTaskStatus (taskID : string) : GoM RState (string + TaskStatusResponse) :=
  placeholder {| ts_TaskID := taskID; ts_Status := "Running"; ts_PodName := taskID +:+ "-pod";
                 ts_StartedAt := 0; ts_CompletedAt := 0; ts_ExitCode := 0 |}.

Definition CancelTask (taskID : string) : GoM RState (option string) :=
  r ← placeholder tt;
  match r with
  | inl err => mret (Some err)
  | inr _ => mret None
  end.

Definition GetQueueDepth : GoM RState (string + QueueDepthResponse) :=
  placeholder {| qd_TotalQueued := 10; qd_PendingTasks := 5; qd_RunningTasks := 5 |}.

Definition Close : GoM RState (option string) :=
  c ← client;
  match rc_conn c with
  | Some k => outside (grpc_close k)
  | None => mret None
  end.

#[export] Instance real_client : Module1Client RState := {
  api_SubmitTask := SubmitTask;
  api_GetTaskStatus := GetTaskStatus;
  api_CancelTask := CancelTask;
  api_GetQueueDepth := GetQueueDepth;
  api_Close := Close
}.
End Client.
End RealClient.

(** ** [MockClient] *)

Class Sprintf := sprintf_s : string -> string -> string.

Module MockClient.
(** A pointer to a [TaskStatusResponse]. *)
Abbreviation loc := nat.

Section Client.
Context {W : Type} `{!Clock W, !Sprintf}.

Record MockClient := {
  queueDepth : Z;
  podNameFormat : string;
  submitedTasks : gmap string loc;
  failOnTasks : gmap string bool;
  heap : gmap loc TaskStatusResponse;
  next_loc : loc
}.

Definition NewMockClient : MockClient :=
  {| queueDepth := 5; podNameFormat := "%s-pod"; submitedTasks := ∅; failOnTasks := ∅;
     heap := ∅; next_loc := O |}.

Definition MState : Type := MockClient * W.

Definition client : GoM MState MockClient := fun st => (Ret st.1, st).
Definition update (f : MockClient -> MockClient) : GoM MState unit := fun st =>
  (Ret tt, (f st.1, st.2)).
(** [time.Now] *)
Definition now : GoM MState Z := fun st =>
  let '(t, w') := clock_now st.2 in (Ret t, (st.1, w')).

Definition set_heap (h : gmap loc TaskStatusResponse) (m : MockClient) : MockClient :=
  {| queueDepth := queueDepth m; podNameFormat := podNameFormat m;
     submitedTasks := submitedTasks m; failOnTasks := failOnTasks m; heap := h;
     next_loc := next_loc m |}.
(** [&TaskStatusResponse{...}] *)
Definition alloc (s : TaskStatusResponse) : GoM MState loc := fun st =>
  let m := st.1 in
  (Ret (next_loc m),
   ({| queueDepth := queueDepth m; podNameFormat := podNameFormat m;
       submitedTasks := submitedTasks m; failOnTasks := failOnTasks m;
       heap := <[next_loc m := s]> (heap m); next_loc := S (next_loc m) |}, st.2)).
Definition load (l : loc) : GoM MState TaskStatusResponse := fun st =>
  match heap st.1 !! l with
  | Some s => (Ret s, st)
  | None => (Panic "invalid memory address or nil pointer dereference", st)
  end.
Definition store (l : loc) (s : TaskStatusResponse) : GoM MState unit :=
  update (fun m => set_heap (<[l := s]> (heap m)) m).
Definition set_submited (t : gmap string loc) (m : MockClient) : MockClient :=
  {| queueDepth := queueDepth m; podNameFormat := podNameFormat m; submitedTasks := t;
     failOnTasks := failOnTasks m; heap := heap m; next_loc := next_loc m |}.

Definition SubmitTask (req : SubmitTaskRequest) : GoM MState (string + SubmitTaskResponse) :=
  m ← client;
  if default false (failOnTasks m !! sub_TaskID req) then
    mret (inr {| sr_Accepted := false; sr_QueuePosition := 0; sr_EstimatedStartSeconds := 0;
                 sr_Reason := "Task rejected for testing" |})
  else
    l ← alloc {| ts_TaskID := sub_TaskID req; ts_Status := "Pending";
                 ts_PodName := sprintf_s (podNameFormat m) (sub_TaskID req);
                 ts_StartedAt := 0; ts_CompletedAt := 0; ts_ExitCode := 0 |};
    _ ← update (fun m => set_submited (<[sub_TaskID req := l]> (submitedTasks m)) m);
    mret (inr {| sr_Accepted := true; sr_QueuePosition := 1; sr_EstimatedStartSeconds := 5;
                 sr_Reason := "" |}).

(** [time.Since(time.Unix(s, 0))]; a [Duration] saturates. *)
Definition since_unix (t s : Z) : Z :=
  Z.max (- 2 ^ 63) (Z.min (2 ^ 63 - 1) (t - s * Second)).

Definition GetTaskStatus (taskID : string) : GoM MState (string + loc) :=
  m ← client;
  match submitedTasks m !! taskID with
  | Some l =>
      s ← load l;
      _ ← (if decide (ts_Status s = "Pending") then
             t ← now;
             if decide (since_unix t (ts_StartedAt s) > 2 * Second) then
               t' ← now;
               store l {| ts_TaskID := ts_TaskID s; ts_Status := "Running";
                          ts_PodName := ts_PodName s; ts_StartedAt := t' / Second;
                          ts_CompletedAt := ts_CompletedAt s; ts_ExitCode := ts_ExitCode s |}
             else mret tt
           else mret tt);
      mret (inr l)
  | None =>
      t ← now;
      l ← alloc {| ts_TaskID := taskID; ts_Status := "Running";
                   ts_PodName := sprintf_s (podNameFormat m) taskID;
                   ts_StartedAt := t / Second; ts_CompletedAt := 0; ts_ExitCode := 0 |};
      mret (inr l)
  end.

Definition CancelTask (taskID : string) : GoM MState (option string) :=
  m ← client;
  match submitedTasks m !! taskID with
  | Some l =>
      s ← load l;
      t ← now;
      _ ← store l {| ts_TaskID := ts_TaskID s; ts_Status := "Cancelled";
                     ts_PodName := ts_PodName s; ts_StartedAt := ts_StartedAt s;
                     ts_CompletedAt := t / Second; ts_ExitCode := ts_ExitCode s |};
      mret None
  | None => mret None
  end.

Definition GetQueueDepth : GoM MState (string + QueueDepthResponse) :=
  m ← client;
  let pending := Z.quot (int32 (queueDepth m * 2)) 3 in
  mret (inr {| qd_TotalQueued := queueDepth m; qd_PendingTasks := pending;
               qd_RunningTasks := int32 (queueDepth m - pending) |}).

Definition Close : GoM MState (option string) := mret None.

Definition SetQueueDepth (depth : Z) : GoM MState unit := update (fun m =>
  {| queueDepth := depth; podNameFormat := podNameFormat m; submitedTasks := submitedTasks m;
     failOnTasks := failOnTasks m; heap := heap m; next_loc := next_loc m |}).

Definition GetMockQueueDepth : GoM MState Z := m ← client; mret (queueDepth m).

Definition SetPodNameFormat (format : string) : GoM MState unit := update (fun m =>
  {| queueDepth := queueDepth m; podNameFormat := format; submitedTasks := submitedTasks m;
     failOnTasks := failOnTasks m; heap := heap m; next_loc := next_loc m |}).

Definition SetTaskFailure (taskID : string) (shouldFail : bool) : GoM MState unit :=
  update (fun m =>
    {| queueDepth := queueDepth m; podNameFormat := podNameFormat m;
       submitedTasks := submitedTasks m;
       failOnTasks := if shouldFail then <[taskID := true]> (failOnTasks m)
                      else delete taskID (failOnTasks m);
       heap := heap m; next_loc := next_loc m |}).

(** A new map with the same pointers. *)
Definition GetSubmittedTasks : GoM MState (gmap string loc) := m ← client; mret (submitedTasks m).

Definition ResetState : GoM MState unit := update (fun m =>
  {| queueDepth := 5; podNameFormat := podNameFormat m; submitedTasks := ∅; failOnTasks := ∅;
     heap := heap m; next_loc := next_loc m |}).

(** The interface gives the caller what the pointer holds when the call returns. *)
#[export] Instance mock_client : Module1Client MState := {
  api_SubmitTask := SubmitTask;
  api_GetTaskStatus taskID :=
    r ← GetTaskStatus taskID;
    match r with inl e => mret (inl e) | inr l => s ← load l; mret (inr s) end;
  api_CancelTask := CancelTask;
  api_GetQueueDepth := GetQueueDepth;
  api_Close := Close
}.
End Client.
End MockClient.

#[export] Existing Instance RealClient.real_client.
#[export] Existing Instance MockClient.mock_client.
