(* ===== verification/Module1ClientsProofs.v ===== *)
(** * What the placeholder and the mock client guarantee

    [Module1Laws] is what a user of the interface may rely on: calls return, and a
    status is that of the task asked for; both clients promise it.  The mock's
    pointers, the finality of a cancellation, and the arithmetic of its queue
    depth. *)

From S2P Require Import Prelude GoStrings GoTime Kube Module1Client Module1Clients.

(** ** The contract of the interface *)

Class Module1Laws (S : Type) `{!Module1Client S} := {
  api_inv : S -> Prop;
  api_SubmitTask_ok q s :
    api_inv s -> exists r s', api_SubmitTask q s = (Ret r, s') /\ api_inv s';
  api_CancelTask_ok t s :
    api_inv s -> exists r s', api_CancelTask t s = (Ret r, s') /\ api_inv s';
  api_GetQueueDepth_ok s :
    api_inv s -> exists r s', api_GetQueueDepth s = (Ret r, s') /\ api_inv s';
  api_GetTaskStatus_ok t s :
    api_inv s -> exists r s', api_GetTaskStatus t s = (Ret r, s') /\ api_inv s' /\
      forall x, r = inr x -> ts_TaskID x = t
}.

(** ** [RealClient] *)

Section Real.
Context {W : Type} `{!Grpc W}.
Abbreviation RState := (RealClient.RState (W := W)).

Lemma connect_loop_returns n k (s : RState) :
  exists r s', RealClient.connect_loop n k s = (Ret r, s').
Proof.
  revert k s. induction n as [|n IH]; intros k s; [by do 2 eexists|].
  cbn [RealClient.connect_loop]. unfold mbind, GoM_bind, RealClient.client, RealClient.outside.
  destruct s as [c w]. cbn. destruct (grpc_dial _ w) as [[e|conn] w']; cbn; [|by do 2 eexists].
  case_decide; apply IH.
Qed.

Lemma ensureConnected_returns (s : RState) :
  exists r s', RealClient.ensureConnected s = (Ret r, s').
Proof.
  destruct s as [c w]. unfold RealClient.ensureConnected, mbind, GoM_bind, RealClient.client. cbn.
  destruct (RealClient.rc_conn c) as [k|]; [|by do 2 eexists].
  unfold RealClient.outside. cbn. destruct (grpc_state k w) as [[] w']; try (by do 2 eexists);
    apply connect_loop_returns.
Qed.

Lemma placeholder_returns {A} (a : A) (s : RState) :
  exists r s', RealClient.placeholder a s = (Ret r, s') /\ forall x, r = inr x -> x = a.
Proof.
  unfold RealClient.placeholder. destruct (ensureConnected_returns s) as (r & s' & E).
  rewrite (GoM_bind_ret _ _ _ _ _ E). destruct r; do 2 eexists; (split; [done|]); naive_solver.
Qed.

#[export] Instance real_laws : Module1Laws RState.
Proof.
  unshelve econstructor; [exact (fun _ => True)|..]; simpl.
  - intros q s _. unfold RealClient.SubmitTask.
    destruct (placeholder_returns {| sr_Accepted := true; sr_QueuePosition := 1;
      sr_EstimatedStartSeconds := 5; sr_Reason := "" |} s) as (r & s' & E & _). eauto.
  - intros t s _. unfold RealClient.CancelTask.
    destruct (placeholder_returns tt s) as ([e|[]] & s' & E & _);
      rewrite (GoM_bind_ret _ _ _ _ _ E); by do 2 eexists.
  - intros s _. unfold RealClient.GetQueueDepth.
    destruct (placeholder_returns {| qd_TotalQueued := 10; qd_PendingTasks := 5;
      qd_RunningTasks := 5 |} s) as (r & s' & E & _). eauto.
  - intros t s _. unfold RealClient.GetTaskStatus. set (x := Build_TaskStatusResponse _ _ _ _ _ _).
    destruct (placeholder_returns x s) as (r & s' & E & Hx).
    exists r, s'. split_and!; [done|done|]. intros y ->. by rewrite (Hx y eq_refl).
Defined.
End Real.

(** ** [MockClient] *)

Section Mock.
Context {W : Type} `{!Clock W, !Sprintf}.
Import MockClient.
Abbreviation MState := (MockClient.MState (W := W)).

Definition known_status (s : string) : Prop := s = "Pending" \/ s = "Running" \/ s = "Cancelled".

(** Every submitted task has its own cell, which holds its id. *)
Record mock_inv (m : MockClient) : Prop := {
  inv_cell id l : submitedTasks m !! id = Some l ->
    exists s, heap m !! l = Some s /\ ts_TaskID s = id /\ known_status (ts_Status s);
  inv_fresh l : is_Some (heap m !! l) -> (l < next_loc m)%nat
}.

Lemma new_mock_inv : mock_inv NewMockClient.
Proof. split; simpl; [by intros ??|by intros ? [??]]. Qed.

Lemma mock_inv_alloc m s :
  mock_inv m ->
  mock_inv {| queueDepth := queueDepth m; podNameFormat := podNameFormat m;
              submitedTasks := submitedTasks m; failOnTasks := failOnTasks m;
              heap := <[next_loc m := s]> (heap m); next_loc := S (next_loc m) |}.
Proof.
  intros [Hc Hf]. split; simpl.
  - intros id l Hl. destruct (Hc id l Hl) as (s0 & Hs & ?). exists s0. split; [|done].
    rewrite lookup_insert_ne; [done|]. intros <-. specialize (Hf _ (mk_is_Some _ _ Hs)). lia.
  - intros l. rewrite lookup_insert_is_Some. intros [<-|[_ Hl]]; [lia|]. specialize (Hf _ Hl). lia.
Qed.

Lemma mock_inv_store m l s s' :
  mock_inv m -> heap m !! l = Some s -> ts_TaskID s' = ts_TaskID s -> known_status (ts_Status s') ->
  mock_inv (set_heap (<[l := s']> (heap m)) m).
Proof.
  intros [Hc Hf] Hl Hid Hst. split; simpl.
  - intros id l' Hl'. destruct (Hc id l' Hl') as (s0 & Hs0 & Hid0 & ?).
    destruct (decide (l = l')) as [->|].
    + exists s'. rewrite lookup_insert_eq. split_and!; [done| |done]. congruence.
    + exists s0. by rewrite lookup_insert_ne.
  - intros l'. rewrite lookup_insert_is_Some. intros [<-|[_ ?]]; eauto.
Qed.

(** The calls of the mock, as data. *)
Inductive mock_call : Type :=
| CallSubmit (q : SubmitTaskRequest)
| CallStatus (id : string)
| CallCancel (id : string)
| CallDepth
| CallSetDepth (d : Z)
| CallSetFormat (f : string)
| CallSetFailure (id : string) (b : bool)
| CallList
| CallReset.

Definition run_call (c : mock_call) : GoM MState unit :=
  match c with
  | CallSubmit q => _ ← SubmitTask q; mret tt
  | CallStatus id => _ ← GetTaskStatus id; mret tt
  | CallCancel id => _ ← CancelTask id; mret tt
  | CallDepth => _ ← GetQueueDepth; mret tt
  | CallSetDepth d => SetQueueDepth d
  | CallSetFormat f => SetPodNameFormat f
  | CallSetFailure id b => SetTaskFailure id b
  | CallList => _ ← GetSubmittedTasks; mret tt
  | CallReset => ResetState
  end.

(** A task that was cancelled: its cell says so. *)
Definition cancelled_at (id : string) (l : loc) (m : MockClient) : Prop :=
  submitedTasks m !! id = Some l /\
  exists s, heap m !! l = Some s /\ ts_Status s = "Cancelled".

(** Calls that do not put the task into the map again, nor empty it. *)
Definition leaves_alone (id : string) (c : mock_call) : Prop :=
  match c with
  | CallSubmit q => sub_TaskID q <> id
  | CallReset => False
  | _ => True
  end.

Lemma cancelled_alloc id l m s0 :
  mock_inv m -> cancelled_at id l m ->
  cancelled_at id l {| queueDepth := queueDepth m; podNameFormat := podNameFormat m;
    submitedTasks := submitedTasks m; failOnTasks := failOnTasks m;
    heap := <[next_loc m := s0]> (heap m); next_loc := S (next_loc m) |}.
Proof.
  intros [_ Hf] [Hid (s & Hs & Hst)]. split; [done|]. exists s. split; [|done]. simpl.
  rewrite lookup_insert_ne; [done|]. intros <-. specialize (Hf _ (mk_is_Some _ _ Hs)). lia.
Qed.

(** Writing to the cell of a task leaves the others alone. *)
Lemma cancelled_store id l id' l' m s' :
  mock_inv m -> submitedTasks m !! id' = Some l' ->
  (id' = id -> ts_Status s' = "Cancelled") ->
  cancelled_at id l m -> cancelled_at id l (set_heap (<[l' := s']> (heap m)) m).
Proof.
  intros [Hc _] Hl' Hst [Hid (s & Hs & Hcan)]. split; [done|]. simpl.
  destruct (decide (l' = l)) as [->|].
  - exists s'. rewrite lookup_insert_eq. split; [done|]. apply Hst.
    destruct (Hc _ _ Hl') as (s1 & Hs1 & <- & _). destruct (Hc _ _ Hid) as (s2 & Hs2 & <- & _).
    congruence.
  - exists s. by rewrite lookup_insert_ne.
Qed.

(** *** One call *)

Lemma SubmitTask_run q m (w : W) :
  mock_inv m ->
  exists r m', SubmitTask q (m, w) = (Ret (inr r), (m', w)) /\ mock_inv m' /\
    (sr_Accepted r = true -> exists l, submitedTasks m' !! sub_TaskID q = Some l) /\
    forall id l, sub_TaskID q <> id -> cancelled_at id l m -> cancelled_at id l m'.
Proof.
  intros Hm. unfold SubmitTask, mbind, GoM_bind, client. cbn.
  destruct (default false (failOnTasks m !! sub_TaskID q)).
  { exists {| sr_Accepted := false; sr_QueuePosition := 0; sr_EstimatedStartSeconds := 0;
              sr_Reason := "Task rejected for testing" |}, m. split_and!; done. }
  unfold alloc, update. cbn. do 2 eexists. split; [done|]. split_and!.
  - set (s := Build_TaskStatusResponse _ _ _ _ _ _). destruct (mock_inv_alloc m s Hm) as [Hc Hf].
    split; [|done]. simpl. intros id l. rewrite lookup_insert_Some.
    intros [[<- <-]|[Hne Hl]]; [|by apply Hc].
    exists s. rewrite lookup_insert_eq. split_and!; [done|done|by left].
  - intros _. eexists. apply lookup_insert_eq.
  - intros id l Hne Hcan. apply (cancelled_alloc _ _ _ (Build_TaskStatusResponse (sub_TaskID q)
      "Pending" (sprintf_s (podNameFormat m) (sub_TaskID q)) 0 0 0) Hm) in Hcan as [Hid Hs].
    split; [|exact Hs]. simpl. by rewrite lookup_insert_ne.
Qed.

Lemma GetTaskStatus_run id m (w : W) :
  mock_inv m ->
  exists l m' w' s, GetTaskStatus id (m, w) = (Ret (inr l), (m', w')) /\ mock_inv m' /\
    heap m' !! l = Some s /\ ts_TaskID s = id /\
    (forall l0, submitedTasks m !! id = Some l0 -> l = l0) /\
    forall id' l', cancelled_at id' l' m -> cancelled_at id' l' m'.
Proof.
  intros Hm. unfold GetTaskStatus, mbind, GoM_bind, client. cbn.
  destruct (submitedTasks m !! id) as [l|] eqn:El; cbn.
  - destruct (inv_cell m Hm id l El) as (s & Hs & Hid & Hk). unfold load. cbn. rewrite Hs. cbn.
    case_decide as Hp; cbn; [|by exists l, m, w, s; split_and!; try done; naive_solver].
    unfold now. cbn. destruct (clock_now w) as [t w1]. cbn.
    case_decide; cbn; [|by exists l, m, w1, s; split_and!; try done; naive_solver].
    destruct (clock_now w1) as [t' w2]. cbn. do 4 eexists.
    split; [done|]. split_and!.
    + eapply mock_inv_store; [done|done|done|]. by right; left.
    + apply lookup_insert_eq.
    + done.
    + naive_solver.
    + intros id' l' Hc. eapply cancelled_store; [done|done| |done]. intros <-.
      destruct Hc as [El' (s' & Hs' & Hc)]. simplify_eq. congruence.
  - unfold now. cbn. destruct (clock_now w) as [t w1]. cbn. do 4 eexists.
    split; [done|]. split_and!.
    + by apply mock_inv_alloc.
    + apply lookup_insert_eq.
    + done.
    + done.
    + intros id' l' Hc. by apply cancelled_alloc.
Qed.

Lemma CancelTask_run id m (w : W) :
  mock_inv m ->
  exists m' w', CancelTask id (m, w) = (Ret None, (m', w')) /\ mock_inv m' /\
    (forall l, submitedTasks m !! id = Some l -> cancelled_at id l m') /\
    forall id' l', cancelled_at id' l' m -> cancelled_at id' l' m'.
Proof.
  intros Hm. unfold CancelTask, mbind, GoM_bind, client. cbn.
  destruct (submitedTasks m !! id) as [l|] eqn:El; cbn; [|by exists m, w].
  destruct (inv_cell m Hm id l El) as (s & Hs & Hid & Hk). unfold load, now. cbn. rewrite Hs. cbn.
  destruct (clock_now w) as [t w1]. cbn. do 2 eexists. split; [done|]. split_and!.
  - eapply mock_inv_store; [done|done|done|]. by right; right.
  - intros l0 [= <-]. split; [done|]. eexists. split; [apply lookup_insert_eq|done].
  - intros id' l' Hc. by eapply cancelled_store.
Qed.

Lemma api_status_run id m (w : W) :
  mock_inv m ->
  exists x m' w', api_GetTaskStatus id (m, w) = (Ret (inr x), (m', w')) /\ mock_inv m' /\
    ts_TaskID x = id /\ forall l, cancelled_at id l m -> heap m' !! l = Some x /\ ts_Status x = "Cancelled".
Proof.
  intros Hm. simpl. destruct (GetTaskStatus_run id m w Hm) as (l & m' & w' & s & E & Hm' & Hs & Hid & Hl & Hc).
  rewrite (GoM_bind_ret _ _ _ _ _ E). unfold load, mbind, GoM_bind. cbn. rewrite Hs.
  exists s, m', w'. split_and!; [done..|]. intros l0 Hcan.
  assert (l = l0) as -> by (apply Hl, Hcan). destruct (Hc _ _ Hcan) as [_ (s' & Hs' & ?)]. by simplify_eq.
Qed.

#[export] Instance mock_laws : Module1Laws MState.
Proof.
  unshelve econstructor; [exact (fun s => mock_inv s.1)|..].
  - intros q [m w] Hm. destruct (SubmitTask_run q m w Hm) as (r & m' & E & Hm' & _). eauto.
  - intros t [m w] Hm. destruct (CancelTask_run t m w Hm) as (m' & w' & E & Hm' & _). eauto.
  - intros [m w] Hm. by do 2 eexists.
  - intros t [m w] Hm. destruct (api_status_run t m w Hm) as (x & m' & w' & E & Hm' & Hx & _).
    do 2 eexists. split_and!; [exact E|exact Hm'|]. naive_solver.
Defined.

Lemma run_call_step c m (w : W) :
  mock_inv m ->
  exists m' w', run_call c (m, w) = (Ret tt, (m', w')) /\ mock_inv m' /\
    forall id l, leaves_alone id c -> cancelled_at id l m -> cancelled_at id l m'.
Proof.
  intros Hm. destruct c as [q|id|id| |d|f|id b| |]; cbn [run_call leaves_alone].
  - destruct (SubmitTask_run q m w Hm) as (r & m' & E & Hm' & _ & Hc).
    rewrite (GoM_bind_ret _ _ _ _ _ E). eauto 10.
  - destruct (GetTaskStatus_run id m w Hm) as (l & m' & w' & s & E & Hm' & _ & _ & _ & Hc).
    rewrite (GoM_bind_ret _ _ _ _ _ E). eauto 10.
  - destruct (CancelTask_run id m w Hm) as (m' & w' & E & Hm' & _ & Hc).
    rewrite (GoM_bind_ret _ _ _ _ _ E). eauto 10.
  - by exists m, w.
  - do 2 eexists. split_and!; [done|by destruct Hm|done].
  - do 2 eexists. split_and!; [done|by destruct Hm|done].
  - do 2 eexists. split_and!; [done|by destruct Hm|done].
  - by exists m, w.
  - do 2 eexists. split_and!; [done| |done].
    split; simpl; [by intros ??|apply (inv_fresh m Hm)].
Qed.

Fixpoint run_calls (cs : list mock_call) : GoM MState unit :=
  match cs with
  | [] => mret tt
  | c :: cs' => _ ← run_call c; run_calls cs'
  end.

Lemma run_calls_keep cs m (w : W) id l :
  mock_inv m -> Forall (leaves_alone id) cs -> cancelled_at id l m ->
  exists m' w', run_calls cs (m, w) = (Ret tt, (m', w')) /\ mock_inv m' /\ cancelled_at id l m'.
Proof.
  revert m w. induction cs as [|c cs IH]; intros m w Hm Hcs Hcan; [by exists m, w|].
  apply Forall_cons in Hcs as [Hc Hcs]. simpl.
  destruct (run_call_step c m w Hm) as (m1 & w1 & E & Hm1 & Hk).
  rewrite (GoM_bind_ret _ _ _ _ _ E). apply IH; auto.
Qed.

(** A cancelled task stays cancelled: whatever calls follow, as long as none
    submits the task again or resets the mock, its status is Cancelled, and so is
    what every pointer to it that was handed out before now holds. *)
Theorem mock_cancellation_final (m : MockClient) (w : W) (id : string) (l : loc) (cs : list mock_call) :
  mock_inv m -> submitedTasks m !! id = Some l -> Forall (leaves_alone id) cs ->
  exists x m' w',
    (_ ← CancelTask id; _ ← run_calls cs; api_GetTaskStatus id) (m, w) = (Ret (inr x), (m', w')) /\
    ts_TaskID x = id /\ ts_Status x = "Cancelled" /\ heap m' !! l = Some x.
Proof.
  intros Hm Hl Hcs.
  destruct (CancelTask_run id m w Hm) as (m1 & w1 & E1 & Hm1 & Hc & _).
  rewrite (GoM_bind_ret _ _ _ _ _ E1).
  destruct (run_calls_keep cs m1 w1 id l Hm1 Hcs (Hc l Hl)) as (m2 & w2 & E2 & Hm2 & Hcan).
  rewrite (GoM_bind_ret _ _ _ _ _ E2).
  destruct (api_status_run id m2 w2 Hm2) as (x & m3 & w3 & E3 & _ & Hid & Hx).
  destruct (Hx l Hcan). exists x, m3, w3. auto.
Qed.

(** The first status query of a submitted task finds it running, however soon it
    comes: the submission leaves its start at the epoch. *)
Theorem mock_runs_at_once (m : MockClient) (w : W) (q : SubmitTaskRequest) :
  mock_inv m -> default false (failOnTasks m !! sub_TaskID q) = false ->
  2 * Second < (clock_now w).1 < 2 ^ 63 ->
  exists x m' w', (_ ← SubmitTask q; api_GetTaskStatus (sub_TaskID q)) (m, w) = (Ret (inr x), (m', w')) /\
    ts_Status x = "Running".
Proof.
  intros Hm Hf Ht.
  assert (exists r m1 l, SubmitTask q (m, w) = (Ret (inr r), (m1, w)) /\
    submitedTasks m1 !! sub_TaskID q = Some l /\
    exists s, heap m1 !! l = Some s /\ ts_Status s = "Pending" /\ ts_StartedAt s = 0)
    as (r & m1 & l & E & El & s & Hs & Hp & H0).
  { unfold SubmitTask, mbind, GoM_bind, client. cbn -[default]. rewrite Hf. cbn. do 3 eexists.
    split; [done|]. cbn. split; [apply lookup_insert_eq|].
    eexists. split; [apply lookup_insert_eq|done]. }
  rewrite (GoM_bind_ret _ _ _ _ _ E). cbn [api_GetTaskStatus mock_client].
  unfold GetTaskStatus, mbind, GoM_bind, client. cbn. rewrite El. unfold load. cbn. rewrite Hs. cbn.
  rewrite decide_True by done. unfold now. cbn.
  destruct (clock_now w) as [t w1]. cbn. simpl in Ht.
  case_decide as Hd; [|exfalso; apply Hd; rewrite H0; unfold since_unix; lia].
  cbn. destruct (clock_now w1) as [t' w2]. cbn. rewrite lookup_insert_eq. cbn.
  do 3 eexists. split; done.
Qed.

(** The queue depth is split without loss as long as its double fits an int32. *)
Theorem mock_depth_split (m : MockClient) (w : W) :
  0 <= queueDepth m < 2 ^ 30 ->
  exists r, GetQueueDepth (m, w) = (Ret (inr r), (m, w)) /\
    qd_PendingTasks r + qd_RunningTasks r = qd_TotalQueued r /\
    0 <= qd_RunningTasks r <= qd_TotalQueued r /\ 0 <= qd_PendingTasks r.
Proof.
  intros Hd. eexists. split; [done|]. simpl.
  rewrite (wrap_id 32 (queueDepth m * 2)) by (unfold in_width; lia).
  pose proof (Z.quot_pos (queueDepth m * 2) 3). pose proof (Z.quot_div_nonneg (queueDepth m * 2) 3).
  assert (0 <= (queueDepth m * 2) / 3 <= queueDepth m) by (split; [apply Z.div_pos; lia|apply Z.div_le_upper_bound; lia]).
  rewrite wrap_id by (unfold in_width; lia). lia.
Qed.
End Mock.
