(* ===== verification/ApiServer.v ===== *)
(** * The API gateway program: [pkg/api/handlers.go] and [cmd/api-gateway/main.go]

    The handlers of [APIServer] and the program around them: the environment, the
    optional rate limiter and scheduler client, the routes and their middleware.
    [handlers.go] reads three fields of [CreateCloudTaskRequest] that [types.go]
    does not declare; they are the projections of [RequestFields].  The mux
    redirects a path that is not clean; the paths of requests here are.  Log
    lines of the legacy logger are not modelled. *)

From Stdlib Require Import Ascii.
From S2P Require Import Prelude GoStrings GoTime Kube Validators Http Auth RateLimiter.
From S2P Require Import TaskHandler Router Module1Client Module1Clients Logger.

Class RequestFields := {
  field_CPURequest : CreateCloudTaskRequest -> string;
  field_MemoryRequest : CreateCloudTaskRequest -> string;
  field_TimeoutSeconds : CreateCloudTaskRequest -> Z
}.

(** What the handlers write. *)
Inductive gw_body : Type :=
| GError (error message : string) (code : Z)
| GQueued (task_id status : string) (queue_position estimated_start_sec : Z) (message : string)
| GTask (name phase : string)
| GList (items : list CloudTaskResponse) (count : Z)
| GMessage (message : string)
| GHealth (status version kubeStatus : string)
| GAuthError (error : string) (status : Z)
| GText (s : string).

(** [http.StatusText], for the codes the handlers use *)
Definition StatusText (code : Z) : string :=
  if decide (code = 400) then "Bad Request"
  else if decide (code = 503) then "Service Unavailable" else "".

Definition newline : string := String (ascii_of_nat 10) "".

Section Server.
Context {G : GatewayLib} `{!RequestFields} {W : Type} `{!Module1Client W}.

Abbreviation Handler := (Handler (W := W) (B := gw_body)).
Abbreviation HM := (GoM (HState (W := W) (B := gw_body))).

(** ** [APIServer]: which of its two clients are set *)

Record APIServer := { as_kubeClient : bool; as_module1Client : bool }.

Definition NewAPIServer (kubeClient : bool) : APIServer :=
  {| as_kubeClient := kubeClient; as_module1Client := false |}.

Definition SetModule1Client (s : APIServer) : APIServer :=
  {| as_kubeClient := as_kubeClient s; as_module1Client := true |}.

Definition srv_writeJSON (statusCode : Z) (data : gw_body) : HM unit :=
  _ ← set_header "Content-Type" "application/json";
  _ ← write_header statusCode;
  write_body data.

Definition srv_writeError (statusCode : Z) (message : string) (err : option string) : HM unit :=
  let errorMsg := match err with Some e => message +:+ ": " +:+ e | None => message end in
  srv_writeJSON statusCode (GError (StatusText statusCode) errorMsg statusCode).

(** ** [HandleCreateTask] *)

Definition submit_request (req : CreateCloudTaskRequest) : SubmitTaskRequest :=
  {| sub_TaskID := req_Name req; sub_TenantID := req_TenantID req; sub_Image := req_Image req;
     sub_Command := req_Command req; sub_CPURequest := field_CPURequest req;
     sub_MemoryRequest := field_MemoryRequest req; sub_Priority := int32 (req_Priority req);
     sub_TimeoutSeconds := field_TimeoutSeconds req |}.

(** The call of the scheduler and its three answers.  The id is the request's
    name, which is not empty here. *)
Definition submit_and_answer (req : CreateCloudTaskRequest) : HM unit :=
  r ← on_world (api_SubmitTask (submit_request req));
  match r with
  | inl err =>
      _ ← set_header "Retry-After" "30";
      srv_writeError StatusServiceUnavailable "Module 1 scheduler communication failed" (Some err)
  | inr submitResp =>
      if sr_Accepted submitResp then
        srv_writeJSON StatusAccepted
          (GQueued (req_Name req) "Queued" (sr_QueuePosition submitResp)
             (sr_EstimatedStartSeconds submitResp) "Task accepted and queued")
      else
        _ ← set_header "Retry-After" (pretty (int64 (sr_EstimatedStartSeconds submitResp + 10)));
        srv_writeError StatusServiceUnavailable
          ("Module 1 rejected task: " +:+ sr_Reason submitResp) None
  end.

Definition HandleCreateTask (s : APIServer) : Handler := fun r =>
  match rq_Body r with
  | inl err => srv_writeError StatusBadRequest "Failed to read request body" (Some err)
  | inr content =>
      match unmarshal_create content with
      | inl err => srv_writeError StatusBadRequest "Invalid request format" (Some err)
      | inr req =>
          if decide (req_Name req = "") then
            srv_writeError StatusBadRequest "Task name is required" None
          else if decide (req_TenantID req = "") then
            srv_writeError StatusBadRequest "Tenant ID is required" None
          else if decide (req_Image req = "") then
            srv_writeError StatusBadRequest "Container image is required" None
          else if as_module1Client s then submit_and_answer req
          else
            _ ← set_header "Retry-After" "30";
            srv_writeError StatusServiceUnavailable "Module 1 scheduler service not available" None
      end
  end.

(** ** The other handlers *)

Definition HandleGetTask : Handler := fun r =>
  let name := query_get r "name" in
  if decide (name = "") then srv_writeError StatusBadRequest "Task name required" None
  else srv_writeJSON StatusOK (GTask name "Running").

Definition HandleListTasks : Handler := fun _ => srv_writeJSON StatusOK (GList [] 0).

Definition HandleDeleteTask : Handler := fun r =>
  let name := query_get r "name" in
  if decide (name = "") then srv_writeError StatusBadRequest "Task name required" None
  else srv_writeJSON StatusOK (GMessage "CloudTask deleted").

Definition HandleHealth : Handler := fun _ =>
  srv_writeJSON StatusOK (GHealth "healthy" "v1.0.0" "connected").

Definition HandleMetrics : Handler := fun _ =>
  _ ← set_header "Content-Type" "text/plain";
  _ ← write_header StatusOK;
  write_body (GText ("# HELP cloudtask_total Total CloudTasks" +:+ newline +:+
                     "# TYPE cloudtask_total counter" +:+ newline +:+
                     "cloudtask_total 0" +:+ newline)).

(** ** The program *)

Context `{!Clock W, !Redis W, !Zap W, !JwtLib}.

Definition withLogging (handler : Handler) : Handler := fun r =>
  _ ← on_world (lift clock_now);
  _ ← handler r;
  _ ← on_world (lift clock_now);
  mret tt.

(** [http.Error] *)
Definition http_Error (message : string) (code : Z) : HM unit :=
  _ ← set_header "Content-Type" "text/plain; charset=utf-8";
  _ ← set_header "X-Content-Type-Options" "nosniff";
  _ ← write_header code;
  write_body (GText (message +:+ newline)).

Definition withRateLimit (next : Handler) (rateLimiter : option RateLimiter) : Handler := fun r =>
  match rateLimiter with
  | None => next r
  | Some rl =>
      match GetTenantIDFromContext (rq_Ctx r) with
      | inl _ => http_Error "Internal server error" StatusInternalServerError
      | inr tenantID =>
          a ← on_world (Allow rl tenantID);
          match a with
          | (_, _, Some _) => http_Error "Internal server error" StatusInternalServerError
          | (false, retryAfter, None) =>
              _ ← set_header "Retry-After" (format_seconds retryAfter);
              _ ← set_header "Content-Type" "application/json";
              _ ← write_header StatusTooManyRequests;
              write_body (GAuthError "Rate limit exceeded" StatusTooManyRequests)
          | (true, _, None) => next r
          end
      end
  end.

(** What [main] sets up before it serves. *)
Record Gateway := {
  gw_jwt : JWTManager;
  gw_rateLimiter : option RateLimiter;
  gw_server : APIServer
}.

Definition task_route (g : Gateway) (h : Handler) : Handler :=
  AuthMiddleware GAuthError (gw_jwt g) (withRateLimit (withLogging h) (gw_rateLimiter g)).

(** The mux and the six routes of [main]. *)
Definition gw_mux (g : Gateway) : Handler := fun r =>
  let path := rq_Path r in
  if decide (path = "/health") then withLogging HandleHealth r
  else if decide (path = "/metrics") then withLogging HandleMetrics r
  else if decide (path = "/tasks") then task_route g HandleListTasks r
  else if decide (path = "/tasks/create") then task_route g (HandleCreateTask (gw_server g)) r
  else if decide (path = "/tasks/get") then task_route g HandleGetTask r
  else if decide (path = "/tasks/delete") then task_route g HandleDeleteTask r
  else _ ← set_header "Content-Type" "text/plain; charset=utf-8";
       _ ← set_header "X-Content-Type-Options" "nosniff";
       _ ← write_header StatusNotFound;
       write_body (GText ("404 page not found" +:+ newline)).

Definition gw_serve (g : Gateway) : Handler := RequestLoggingMiddleware (gw_mux g).
End Server.

(** ** Start-up *)

Class RedisPing (W : Type) := redis_ping : W -> option string * W.

Section Main.
Context {W : Type} `{!Clock W, !RedisPing W, !Grpc W, !JwtLib}.

(** The environment with the default secret: [os.Setenv] in [main]. *)
Definition jwt_algorithm (getenv : string -> string) : string :=
  let a := getenv "JWT_ALGORITHM" in if decide (a = "") then "HS256" else a.

Definition jwt_environment (getenv : string -> string) : string -> string := fun k =>
  if decide (k = "JWT_SECRET" /\ jwt_algorithm getenv = "HS256" /\ getenv "JWT_SECRET" = "")
  then "change-me-in-production" else getenv k.

(** [main] up to the routes: it ends the program when the JWT manager cannot be
    made, and goes on without a rate limiter or a scheduler client. *)
Definition gateway_setup (getenv : string -> string)
    : GoM W (auth_error + (Gateway * option (Module1RealClient (W := W)))) :=
  match NewJWTManager (jwt_environment getenv) (jwt_algorithm getenv) with
  | inl e => mret (inl e)
  | inr jwtManager =>
      p ← lift redis_ping;
      let rateLimiter := match p with Some _ => None | None => Some NewRateLimiter end in
      m ← NewModule1RealClient getenv;
      let apiServer := NewAPIServer false in
      mret (inr match m with
        | inl _ => ({| gw_jwt := jwtManager; gw_rateLimiter := rateLimiter;
                       gw_server := apiServer |}, None)
        | inr c => ({| gw_jwt := jwtManager; gw_rateLimiter := rateLimiter;
                       gw_server := SetModule1Client apiServer |}, Some c)
        end)
  end.
End Main.
