(* ===== verification/GatewayProofs.v ===== *)
(** * What the gateway program guarantees

    A task reaches the scheduler only through an authenticated request that the
    rate limiter let pass, and at most one per request; so that the limiter bounds
    the submissions of a tenant's tokens.  The tenant of a submission is the one
    the body names. *)

From Stdlib Require Import Ascii.
From S2P Require Import Prelude GoStrings GoTime Kube Validators Http Auth RateLimiter.
From S2P Require Import TaskHandler Router Module1Client Module1Clients Logger ApiServer.

(** The world of the gateway: what was submitted, the limiter's counters and the
    clock, and which calls touch them. *)
Class GatewayFrame (W : Type) `{!Module1Client W, !Clock W, !Redis W, !Zap W, !RedisLaws W} := {
  submitted : W -> list SubmitTaskRequest;
  time_of (w : W) : Z := (clock_now w).1;
  quiet (w w' : W) : Prop :=
    submitted w' = submitted w /\ redis_store w' = redis_store w /\ time_of w <= time_of w';
  quiet_clock w : quiet w (clock_now w).2;
  quiet_log e w : quiet w (zap_log e w);
  quiet_sync w : quiet w (zap_sync w).2;
  quiet_build c w : quiet w (zap_build c w).2;
  quiet_uuid w : quiet w (uuid_new w).2;
  frame_exec cs w :
    submitted (redis_exec cs w).2 = submitted w /\ time_of w <= time_of (redis_exec cs w).2;
  frame_submit q w : exists r w', api_SubmitTask q w = (Ret r, w') /\
    submitted w' = submitted w ++ [q] /\ redis_store w' = redis_store w /\ time_of w <= time_of w'
}.

Section Gateway.
Context {G : GatewayLib} `{!RequestFields, !JwtLib} {W : Type}.
Context `{!Module1Client W, !Clock W, !Redis W, !Zap W, !RedisLaws W, GF : !GatewayFrame W}.

Abbreviation Handler := (Handler (W := W) (B := gw_body)).

#[local] Instance quiet_preorder : PreOrder (quiet (W := W)).
Proof.
  split; [by intros w; split_and!|]. intros w1 w2 w3 (H1 & H2 & H3) (H4 & H5 & H6).
  split_and!; [congruence|congruence|lia].
Qed.

(** What a request of tenant [t] may do: count itself with the limiter and be
    refused, or be let pass and submit [qs]. *)
Inductive effect (rl : option RateLimiter) (t : string) (qs : list SubmitTaskRequest) (w w' : W) : Prop :=
| effect_refused limiter rem err w1 w2 :
    rl = Some limiter -> qs = [] -> quiet w w1 ->
    Allow limiter t w1 = (Ret (false, rem, err), w2) -> quiet w2 w' -> effect rl t qs w w'
| effect_allowed limiter rem w1 w2 w3 w4 :
    rl = Some limiter -> quiet w w1 -> Allow limiter t w1 = (Ret (true, rem, None), w2) ->
    quiet w2 w3 -> submitted w4 = submitted w3 ++ qs -> redis_store w4 = redis_store w3 ->
    time_of w3 <= time_of w4 -> quiet w4 w' -> effect rl t qs w w'
| effect_unlimited w3 w4 :
    rl = None -> quiet w w3 -> submitted w4 = submitted w3 ++ qs ->
    redis_store w4 = redis_store w3 -> time_of w3 <= time_of w4 -> quiet w4 w' ->
    effect rl t qs w w'.

Lemma effect_pre rl t qs w0 w w' : quiet w0 w -> effect rl t qs w w' -> effect rl t qs w0 w'.
Proof.
  intros Hq. destruct 1 as [l rem err w1 w2 -> Hqs H1 HA H2|l rem w1 w2 w3 w4 -> H1 HA|w3 w4 -> H1].
  - eapply (effect_refused _ _ _ _ _ l rem err w1 w2); try done; by etrans.
  - eapply (effect_allowed _ _ _ _ _ l rem w1 w2 w3 w4); try done; by etrans.
  - eapply (effect_unlimited _ _ _ _ _ w3 w4); try done; by etrans.
Qed.

Lemma effect_post rl t qs w w' w0 : effect rl t qs w w' -> quiet w' w0 -> effect rl t qs w w0.
Proof.
  destruct 1 as [l rem err w1 w2 -> Hqs H1 HA H2|l rem w1 w2 w3 w4 -> H1 HA|w3 w4 -> H1]; intros Hq.
  - eapply (effect_refused _ _ _ _ _ l rem err w1 w2); try done; by etrans.
  - eapply (effect_allowed _ _ _ _ _ l rem w1 w2 w3 w4); try done; by etrans.
  - eapply (effect_unlimited _ _ _ _ _ w3 w4); try done; by etrans.
Qed.

(** Handlers that may submit: at most one task, which satisfies [P]. *)
Definition at_most_one (P : SubmitTaskRequest -> Prop) (w : W)
    (res : outcome unit * HState (W := W) (B := gw_body)) : Prop :=
  exists w' rw' qs, res = (Ret tt, (w', rw')) /\ (qs = [] \/ exists q, qs = [q] /\ P q) /\
    submitted w' = submitted w ++ qs /\ redis_store w' = redis_store w /\ time_of w <= time_of w'.

Definition submits (P : Request -> SubmitTaskRequest -> Prop) (h : Handler) : Prop :=
  forall r w rw, at_most_one (P r) w (h r (w, rw)).

(** What a body submits. *)
Definition body_submits (s : APIServer) (r : Request) (q : SubmitTaskRequest) : Prop :=
  as_module1Client s = true /\
  exists content req, rq_Body r = inr content /\ unmarshal_create content = inr req /\
    req_Name req <> "" /\ req_TenantID req <> "" /\ req_Image req <> "" /\
    q = submit_request req.

Lemma at_most_one_none P w rw : at_most_one P w (Ret tt, (w, rw)).
Proof. exists w, rw, []. rewrite app_nil_r. split_and!; auto; lia. Qed.

(** A handler that only answers. *)
Ltac answers :=
  intros r w rw; unfold srv_writeError; repeat case_decide; apply at_most_one_none.

Lemma HandleGetTask_submits P : submits P HandleGetTask.
Proof. unfold HandleGetTask. answers. Qed.
Lemma HandleListTasks_submits P : submits P HandleListTasks.
Proof. unfold HandleListTasks. answers. Qed.
Lemma HandleDeleteTask_submits P : submits P HandleDeleteTask.
Proof. unfold HandleDeleteTask. answers. Qed.
Lemma HandleHealth_submits P : submits P HandleHealth.
Proof. unfold HandleHealth. answers. Qed.
Lemma HandleMetrics_submits P : submits P HandleMetrics.
Proof. unfold HandleMetrics. answers. Qed.

Lemma HandleCreateTask_submits s : submits (body_submits s) (HandleCreateTask s).
Proof.
  intros r w rw. unfold HandleCreateTask.
  destruct (rq_Body r) as [e|content] eqn:Eb; [apply at_most_one_none|].
  destruct (unmarshal_create content) as [e|req] eqn:Eu; [apply at_most_one_none|].
  case_decide; [apply at_most_one_none|]. case_decide; [apply at_most_one_none|].
  case_decide; [apply at_most_one_none|].
  destruct (as_module1Client s) eqn:Em; [|apply at_most_one_none].
  unfold submit_and_answer. rewrite on_world_bind.
  destruct (frame_submit (submit_request req) w) as (a & w' & -> & Hs & Hr & Ht).
  assert (body_submits s r (submit_request req)) as Hb by (split; [done|by exists content, req]).
  assert (forall rw', at_most_one (body_submits s r) w (Ret tt, (w', rw'))) as Hone.
  { intros rw'. exists w', rw', [submit_request req]. split_and!; eauto. }
  destruct a as [e|resp]; [apply Hone|]. destruct (sr_Accepted resp); apply Hone.
Qed.

Lemma withLogging_submits P h : submits P h -> submits P (withLogging h).
Proof.
  intros Hh r w rw. unfold withLogging. rewrite on_world_bind. unfold lift at 1.
  pose proof (quiet_clock w) as Hq. destruct (clock_now w) as [t w1]. simpl in Hq.
  destruct (Hh r w1 rw) as (w2 & rw2 & qs & E & Hqs & Hs & Hr & Ht).
  rewrite (GoM_bind_ret _ _ _ _ _ E), on_world_bind. unfold lift.
  pose proof (quiet_clock w2) as Hq2. destruct (clock_now w2) as [t2 w3]. simpl in *.
  destruct Hq as (Ha & Hb & Hc), Hq2 as (Ha2 & Hb2 & Hc2).
  exists w3, rw2, qs. split_and!; [done|done|congruence|congruence|lia].
Qed.

(** *** The limiter in front of a handler *)

Definition route_effect (rl : option RateLimiter) (t : string) (P : Request -> SubmitTaskRequest -> Prop)
    (r : Request) (w w' : W) : Prop :=
  exists qs, effect rl t qs w w' /\ (qs = [] \/ exists q, qs = [q] /\ P r q).

Lemma Allow_returns_quiet limiter t w :
  exists allowed rem err w', Allow limiter t w = (Ret (allowed, rem, err), w') /\
    (is_Some err -> allowed = false).
Proof.
  destruct (Allow_spec limiter t w) as (a & rem & err & w' & E & _ & Hs).
  exists a, rem, err, w'. split; [done|]. intros [e ->]. by destruct Hs.
Qed.

Lemma withRateLimit_effect P h rl r c w rw :
  submits P h -> ctx_claims (rq_Ctx r) = Some c ->
  exists st', withRateLimit h rl r (w, rw) = (Ret tt, st') /\
    route_effect rl (cl_TenantID c) P r w st'.1.
Proof.
  intros Hh Hc. unfold withRateLimit. destruct rl as [rl|].
  - unfold GetTenantIDFromContext, GetClaimsFromContext. rewrite Hc, on_world_bind.
    destruct (Allow_returns_quiet rl (cl_TenantID c) w) as (al & rem & err & w1 & E & Herr).
    rewrite E. destruct err as [e|].
    { assert (al = false) as -> by eauto. eexists. split; [done|]. exists []. split; [|by left].
      eapply effect_refused; [done|done|reflexivity|exact E|reflexivity]. }
    destruct al.
    + destruct (Hh r w1 rw) as (w2 & rw2 & qs & E2 & Hqs & Hs & Hr & Ht).
      exists (w2, rw2). split; [done|]. exists qs. split; [|done].
      eapply effect_allowed; [done|reflexivity|exact E|reflexivity|done|done|done|reflexivity].
    + eexists. split; [done|]. exists []. split; [|by left].
      eapply effect_refused; [done|done|reflexivity|exact E|reflexivity].
  - destruct (Hh r w rw) as (w2 & rw2 & qs & E2 & Hqs & Hs & Hr & Ht).
    exists (w2, rw2). split; [done|]. exists qs. split; [|done].
    by eapply effect_unlimited; [done|reflexivity|..].
Qed.

(** The request was authenticated as tenant [t]. *)
Definition authenticated (g : Gateway) (r : Request) (t : string) : Prop :=
  exists c w1 w2, ValidateToken (gw_jwt g) (auth_extractBearerToken r) w1 = (Ret (inr c), w2 : W) /\
    cl_TenantID c = t.

Lemma ValidateToken_quiet jm s (w : W) :
  exists r w', ValidateToken jm s w = (Ret r, w') /\ quiet w w'.
Proof.
  unfold ValidateToken. case_decide; [by do 2 eexists|]. rewrite lift_bind.
  pose proof (quiet_clock w) as Hq. destruct (clock_now w) as [t w1]. simpl in Hq.
  destruct (ParseWithClaims _ _ _) as [[[] e]|[c []]]; try (by do 2 eexists).
  case_decide; by do 2 eexists.
Qed.

Definition gw_effect (g : Gateway) (P : Request -> SubmitTaskRequest -> Prop) (r : Request) (w w' : W) : Prop :=
  quiet w w' \/
  exists t qs, authenticated g r t /\ effect (gw_rateLimiter g) t qs w w' /\
    (qs = [] \/ exists q, qs = [q] /\ P r q).

Lemma task_route_effect g P h r w rw :
  submits P h -> (forall x r' q, P (with_ctx x r') q -> P r' q) ->
  exists st', task_route g h r (w, rw) = (Ret tt, st') /\ gw_effect g P r w st'.1.
Proof.
  intros Hh HP. unfold task_route, AuthMiddleware.
  case_decide as He.
  { eexists. split; [done|]. by left. }
  rewrite on_world_bind.
  destruct (ValidateToken_quiet (gw_jwt g) (auth_extractBearerToken r) w) as (v & w1 & E & Hq).
  rewrite E. destruct v as [err|c].
  { eexists. split; [done|]. by left. }
  destruct (withRateLimit_effect P (withLogging h) (gw_rateLimiter g)
    (with_ctx (ctx_with_claims c (rq_Ctx r)) r) c w1 rw) as (st' & E2 & qs & Heff & Hqs).
  { by apply withLogging_submits. }
  { done. }
  exists st'. split; [done|]. right. exists (cl_TenantID c), qs.
  split_and!; [by exists c, w, w1|by eapply effect_pre|].
  destruct Hqs as [->|(q & -> & Hq')]; [by left|right]. eauto.
Qed.

Definition mux_submits (g : Gateway) (r : Request) (q : SubmitTaskRequest) : Prop :=
  rq_Path r = "/tasks/create" /\ body_submits (gw_server g) r q.

Lemma gw_effect_mono g (P Q : Request -> SubmitTaskRequest -> Prop) r w w' :
  (forall q, P r q -> Q r q) -> gw_effect g P r w w' -> gw_effect g Q r w w'.
Proof. unfold gw_effect. naive_solver. Qed.

Lemma gw_effect_quiet g P r w w' : quiet w w' -> gw_effect g P r w w'.
Proof. by left. Qed.

Lemma submits_quiet h r w rw :
  submits (fun _ _ => False) h -> exists st', h r (w, rw) = (Ret tt, st') /\ quiet w st'.1.
Proof.
  intros Hh. destruct (Hh r w rw) as (w' & rw' & qs & E & Hqs & Hs & Hr & Ht).
  exists (w', rw'). split; [done|]. destruct Hqs as [->|(q & _ & [])].
  rewrite app_nil_r in Hs. by split_and!.
Qed.

Lemma read_route_effect g h r w rw :
  submits (fun _ _ => False) h ->
  exists st', task_route g h r (w, rw) = (Ret tt, st') /\ gw_effect g (mux_submits g) r w st'.1.
Proof.
  intros Hh. destruct (task_route_effect g (fun _ _ => False) h r w rw Hh) as (st' & E & He); [done|].
  exists st'. split; [done|]. by eapply gw_effect_mono; [|exact He].
Qed.

Lemma gw_mux_effect g r w rw :
  exists st', gw_mux g r (w, rw) = (Ret tt, st') /\ gw_effect g (mux_submits g) r w st'.1.
Proof.
  unfold gw_mux. case_decide; [|case_decide]; [| |case_decide; [|case_decide as Hp]].
  - destruct (submits_quiet (withLogging HandleHealth) r w rw) as (st' & E & Hq).
    { apply withLogging_submits, HandleHealth_submits. }
    eauto using gw_effect_quiet.
  - destruct (submits_quiet (withLogging HandleMetrics) r w rw) as (st' & E & Hq).
    { apply withLogging_submits, HandleMetrics_submits. }
    eauto using gw_effect_quiet.
  - apply read_route_effect, HandleListTasks_submits.
  - destruct (task_route_effect g (body_submits (gw_server g)) (HandleCreateTask (gw_server g)) r w rw)
      as (st' & E & He); [apply HandleCreateTask_submits|done|].
    exists st'. split; [done|]. eapply gw_effect_mono; [|exact He]. by split.
  - case_decide; [apply read_route_effect, HandleGetTask_submits|].
    case_decide; [apply read_route_effect, HandleDeleteTask_submits|].
    eexists. split; [done|]. by apply gw_effect_quiet.
Qed.

(** *** The logging middleware around the mux *)

Lemma gw_effect_around g P r w0 w w' w1 :
  quiet w0 w -> gw_effect g P r w w' -> quiet w' w1 -> gw_effect g P r w0 w1.
Proof.
  intros H1 [Hq|(t & qs & Ha & He & Hqs)] H2; [left; by do 2 (etrans; [eassumption|])|right].
  exists t, qs. split_and!; [done| |done]. by eapply effect_post; [eapply effect_pre|].
Qed.

Lemma or_uuid_quiet s (w : W) : exists id w', or_uuid s w = (Ret id, w') /\ quiet w w'.
Proof.
  unfold or_uuid. case_decide; [|by exists s, w]. unfold lift. pose proof (quiet_uuid w) as Hq.
  destruct (uuid_new w) as [id w']. eauto.
Qed.

Lemma GetLogger_quiet ctx (w : W) : exists o w', GetLogger ctx w = (o, w') /\ quiet w w'.
Proof.
  unfold GetLogger, NewLogger, mbind, GoM_bind, lift.
  pose proof (quiet_build (logger_config "production") w) as Hq.
  destruct (zap_build _ w) as [[e|] w']; eauto.
Qed.

Lemma logged_quiet l ctx lvl msg kvs (w : W) :
  exists w', LogWithContext l ctx lvl msg kvs w = (Ret tt, w') /\ quiet w w'.
Proof. eexists. split; [done|]. apply quiet_log. Qed.

(** What the request does to the world is what the mux does, quietly enclosed. *)
Lemma RequestLogging_quiet (next : Handler) r w rw :
  exists o w' rw', RequestLoggingMiddleware next r (w, rw) = (o, (w', rw')) /\
    (quiet w w' \/ exists ctx w1 o2 w2 rw2, quiet w w1 /\
       next (with_ctx ctx r) (w1, rw) = (o2, (w2, rw2)) /\ quiet w2 w').
Proof.
  unfold RequestLoggingMiddleware. rewrite on_world_bind. unfold lift at 1.
  pose proof (quiet_clock w) as H1. destruct (clock_now w) as [start w1]. simpl in H1.
  rewrite on_world_bind. destruct (or_uuid_quiet (header_get r "X-Request-ID") w1) as (rid & w2 & -> & H2).
  rewrite on_world_bind. destruct (or_uuid_quiet (header_get r "X-Trace-ID") w2) as (tid & w3 & -> & H3).
  rewrite on_world_bind. set (ctx := request_context r rid tid).
  destruct (GetLogger_quiet ctx w3) as (o & w4 & -> & H4).
  assert (quiet w w4) as Hpre by (do 3 (etrans; [eassumption|]); done).
  destruct o as [l|e]; [|by do 3 eexists; split; [|left]].
  set (m := _ ≫= _). destruct (m (w4, rw)) as [om [wm rwm]] eqn:Em.
  rewrite (deferring_sync _ _ _ _ _ _ Em). do 3 eexists. split; [done|]. right.
  unfold m in Em. rewrite on_world_bind in Em. unfold InfoWithContext in Em.
  match type of Em with context [LogWithContext l ctx InfoLevel ?a ?b w4] =>
    destruct (logged_quiet l ctx InfoLevel a b w4) as (w5 & E5 & H5) end.
  rewrite E5 in Em. destruct (next (with_ctx ctx r) (w5, rw)) as [o6 [w6 rw6]] eqn:E6.
  exists ctx, w5, o6, w6, rw6. split; [by etrans|]. split; [done|].
  rewrite (next_bind _ _ _ _ _ E6) in Em.
  destruct o6 as [u|e]; [|simplify_eq; apply quiet_sync].
  rewrite on_world_bind in Em. unfold lift in Em. pose proof (quiet_clock w6) as H7.
  destruct (clock_now w6) as [now w7]. simpl in H7.
  rewrite (next_bind read_status _ _ (Ret (default StatusOK (rw_code rw6))) (w7, rw6)) in Em by done.
  rewrite on_world_bind in Em. 
  match type of Em with context [LogWithContext l ctx ?v ?a ?b w7] =>
    destruct (logged_quiet l ctx v a b w7) as (w8 & E8 & H8) end.
  rewrite E8 in Em. cbn in Em. injection Em as <- <- <-.
  do 2 (etrans; [eassumption|]). apply quiet_sync.
Qed.

Lemma gw_serve_effect g r w :
  gw_effect g (mux_submits g) r w (gw_serve g r (w, fresh_response)).2.1.
Proof.
  unfold gw_serve.
  destruct (RequestLogging_quiet (gw_mux g) r w fresh_response) as (o & w' & rw' & -> & Hc). simpl.
  destruct Hc as [Hq|(ctx & w1 & o2 & w2 & rw2 & H1 & E & H2)]; [by apply gw_effect_quiet|].
  destruct (gw_mux_effect g (with_ctx ctx r) w1 fresh_response) as (st' & E' & He).
  rewrite E in E'. injection E' as -> <-. simpl in He.
  eapply gw_effect_around in He; [|exact H1|exact H2]. exact He.
Qed.

(** C12: a task reaches the scheduler only through the gateway's create endpoint, in
    a request whose bearer token the JWT manager validates and which the rate
    limiter, if there is one, allows for the token's tenant; it is then exactly the
    task of the body, and it is the only one of the request.  What is counted are
    the calls of the scheduler's client, which may send one task again when it fails. *)
Theorem gateway_submits_authorised (g : Gateway) (r : Request) (w : W) :
  let w' := (gw_serve g r (w, fresh_response)).2.1 in
  quiet w w' \/
  exists t qs, authenticated g r t /\ effect (gw_rateLimiter g) t qs w w' /\
    (qs = [] \/ exists q, qs = [q] /\ mux_submits g r q).
Proof. apply gw_serve_effect. Qed.

(** *** The rate limit of the whole gateway *)

Lemma Allow_frame rl t w x w' :
  Allow rl t w = (x, w') -> submitted w' = submitted w /\ time_of w <= time_of w'.
Proof.
  set (I := fun v => submitted v = submitted w /\ time_of w <= time_of v). intros E.
  assert (preserves I (lift clock_now)) as Hclock.
  { intros v [Hs Ht]. unfold lift. pose proof (quiet_clock v) as (? & _ & ?).
    destruct (clock_now v) as [n v']. simpl in *. split; [congruence|lia]. }
  assert (forall cs, preserves I (lift (redis_exec cs))) as Hexec.
  { intros cs v [Hs Ht]. unfold lift. pose proof (frame_exec cs v) as [? ?].
    destruct (redis_exec cs v) as [n v']. simpl in *. split; [congruence|lia]. }
  assert (preserves I (Allow rl t)) as Hall.
  { unfold Allow, int_result, until_next. preserves_auto. }
  specialize (Hall w). rewrite E in Hall. destruct x; apply Hall; split; [done|lia|done|lia].
Qed.

Lemma effect_frame rl t qs w w' :
  effect rl t qs w w' -> submitted w' = submitted w ++ qs /\ time_of w <= time_of w'.
Proof.
  destruct 1 as [l rem err w1 w2 -> -> (? & ? & ?) HA%Allow_frame (? & ? & ?)
    |l rem w1 w2 w3 w4 -> (? & ? & ?) HA%Allow_frame (? & ? & ?) H4 _ ? (? & ? & ?)
    |w3 w4 -> (? & ? & ?) H4 _ ? (? & ? & ?)].
  - destruct HA. rewrite app_nil_r. split; [congruence|lia].
  - destruct HA. split; [congruence|lia].
  - split; [congruence|lia].
Qed.

(** The tenant a request's token names. *)
Definition token_tenant (r : Request) : option string :=
  (fun mc => cl_TenantID mc.2) <$> jwt_decode (auth_extractBearerToken r).

Definition minute_of (w : W) : Z := Z.quot (time_of w / Second) 60.

(** [gateway_run g t m w k w']: from [w] to [w'], in minute [m], requests with
    tokens of tenant [t] have submitted [k] tasks.  Between them anything may
    happen that does not lower the tenant's counter of that minute. *)
Inductive gateway_run (g : Gateway) (t : string) (m : Z) : W -> Z -> W -> Prop :=
| gw_start w : gateway_run g t m w 0 w
| gw_request w k w1 r w2 :
    gateway_run g t m w k w1 -> token_tenant r = Some t ->
    minute_of w1 = m -> w2 = (gw_serve g r (w1, fresh_response)).2.1 -> minute_of w2 = m ->
    gateway_run g t m w
      (k + (Z.of_nat (length (submitted w2)) - Z.of_nat (length (submitted w1)))) w2
| gw_other w k w1 w2 :
    gateway_run g t m w k w1 ->
    counter (redis_store w1) (minuteWindow t (60 * m)) <=
      counter (redis_store w2) (minuteWindow t (60 * m)) ->
    gateway_run g t m w k w2.

Context {JL : JwtLaws}.

Lemma authenticated_tenant g r t : authenticated g r t -> token_tenant r = Some t.
Proof.
  intros (c & w1 & w2 & (m & k & Hd & _)%ValidateToken_accepts & <-).
  unfold token_tenant. by rewrite Hd.
Qed.

Lemma minute_between w1 w w2 m :
  minute_of w1 = m -> minute_of w2 = m -> time_of w1 <= time_of w <= time_of w2 -> minute_of w = m.
Proof.
  unfold minute_of. intros H1 H2 Ht. apply Z.le_antisymm.
  - rewrite <- H2. apply Z.quot_le_mono; [lia|]. apply Z.div_le_mono; [done|lia].
  - rewrite <- H1. apply Z.quot_le_mono; [lia|]. apply Z.div_le_mono; [done|lia].
Qed.

(** One request of the tenant is at most one more call of the limiter. *)
Lemma effect_minute_run rl t m qs w0 n a w w' :
  minute_run rl t m w0 n a w -> minute_of w = m -> minute_of w' = m ->
  effect (Some rl) t qs w w' -> (length qs <= 1)%nat ->
  exists n' a', minute_run rl t m w0 n' a' w' /\ a + Z.of_nat (length qs) <= a'.
Proof.
  intros Hrun Hm Hm' Heff Hqs. pose proof (effect_frame _ _ _ _ _ Heff) as [_ Hle].
  destruct Heff as [l rem err w1 w2 [= <-] -> (_ & H1 & Ht1) HA (_ & H2 & Ht2)
    |l rem w1 w2 w3 w4 [= <-] (_ & H1 & Ht1) HA (_ & H2 & Ht2) H4 H5 Ht4 (_ & H6 & Ht6)|]; [| |done].
  all: pose proof (Allow_frame _ _ _ _ _ HA) as [_ Ht].
  all: assert (minute_of w1 = m) as Hm1 by (apply (minute_between w w1 w' m); [done|done|lia]).
  all: eapply run_env in Hrun; [|by rewrite H1].
  all: eapply run_call in Hrun; [|exact Hm1|exact HA].
  all: do 2 eexists; split; [eapply run_env; [exact Hrun|]; apply Z.eq_le_incl; congruence|simpl in *; lia].
Qed.

Lemma gateway_minute_run g rl t m w k w' :
  gw_rateLimiter g = Some rl -> gateway_run g t m w k w' ->
  exists n a, minute_run rl t m w n a w' /\ 0 <= k <= a.
Proof.
  intros Hrl. induction 1 as [w|w k w1 r w2 _ (n & a & Hrun & Hk) Htok Hm1 -> Hm2|w k w1 w2 _ (n & a & Hrun & Hk) Hst].
  - exists 0, 0. split; [constructor|lia].
  - destruct (gw_serve_effect g r w1) as [(Hs & Hr & Ht)|(t' & qs & Ha & He & Hqs)].
    + exists n, a. split; [eapply run_env; [exact Hrun|by rewrite Hr]|]. rewrite Hs. lia.
    + apply authenticated_tenant in Ha. rewrite Htok in Ha. injection Ha as <-. rewrite Hrl in He.
      destruct (effect_minute_run rl t m qs w n a w1 _ Hrun Hm1 Hm2 He) as (n' & a' & Hrun' & Ha').
      { destruct Hqs as [->|(q & -> & _)]; simpl; lia. }
      exists n', a'. split; [done|]. destruct (effect_frame _ _ _ _ _ He) as [-> _].
      rewrite length_app. lia.
  - exists n, a. split; [by eapply run_env|done].
Qed.

(** C13: the rate limit bounds what reaches the scheduler.  When the gateway has a
    limiter, requests with tokens of one tenant submit at most perMinuteLimit tasks
    within one clock minute, less the requests that minute already counted, as long as
    nothing (such as a reset) lowers the tenant's counter in between.  A submission is
    one call of the scheduler's client, which may send it again when it fails. *)
Theorem gateway_rate_limit (g : Gateway) (rl : RateLimiter) (t : string) (m : Z) (w : W) (k : Z) (w' : W) :
  gw_rateLimiter g = Some rl -> gateway_run g t m w k w' ->
  0 <= k <= Z.max 0 (perMinuteLimit rl - counter (redis_store w) (minuteWindow t (60 * m))).
Proof.
  intros Hrl Hrun. destruct (gateway_minute_run _ _ _ _ _ _ _ Hrl Hrun) as (n & a & Hmr & Hk).
  apply minute_run_counter in Hmr. simpl in Hmr. lia.
Qed.

(** *** Answers *)

Ltac refused :=
  do 2 eexists; split; [done|]; split;
  [ split; [by intros [=]|];
    intros (? & ? & (? & ? & ? & ? & ? & ? & ? & ? & ->) & ? & ?); exfalso; simplify_eq; congruence
  | intros _; simpl; by eauto ].

(** the create handler always answers: 202 exactly when the scheduler accepted the
    task of the body; otherwise 400 for a bad request, or 503 with a delay to retry
    after when there is no scheduler, it cannot be reached, or it rejects the task. *)
Theorem HandleCreateTask_answers (s : APIServer) (r : Request) (w : W) :
  exists w' rw', HandleCreateTask s r (w, fresh_response) = (Ret tt, (w', rw')) /\
    (rw_code rw' = Some StatusAccepted <->
       exists q resp, body_submits s r q /\ api_SubmitTask q w = (Ret (inr resp), w') /\
         sr_Accepted resp = true) /\
    (rw_code rw' <> Some StatusAccepted ->
       rw_code rw' = Some StatusBadRequest \/
       rw_code rw' = Some StatusServiceUnavailable /\ is_Some (rw_headers rw' !! "Retry-After")).
Proof.
  unfold HandleCreateTask, body_submits.
  destruct (rq_Body r) as [e|content] eqn:Eb; [refused|].
  destruct (unmarshal_create content) as [e|req] eqn:Eu; [refused|].
  case_decide; [refused|]. case_decide; [refused|]. case_decide; [refused|].
  destruct (as_module1Client s); [|refused].
  unfold submit_and_answer. rewrite on_world_bind.
  destruct (frame_submit (submit_request req) w) as (a & w' & E & _). rewrite E.
  destruct a as [e|resp]; [refused|]. destruct (sr_Accepted resp) eqn:Ea; [|refused].
  do 2 eexists. split; [done|]. split; [|by intros []]. split; [|done]. intros _.
  exists (submit_request req), resp. split; [|done]. split; [done|]. by exists content, req.
Qed.
End Gateway.

(** ** Start-up *)

Section Setup.
Context {W : Type} `{!Clock W, !RedisPing W, !Grpc W, !JwtLib}.

Lemma m1_connect_loop_returns n k (c : Module1RealClient (W := W)) (w : W) :
  exists r st', connect_loop n k (c, w) = (Ret r, st').
Proof.
  revert k c w. induction n as [|n IH]; intros k c w; [by do 2 eexists|].
  cbn [connect_loop]. unfold mbind, GoM_bind, client, outside. cbn.
  destruct (grpc_dial _ w) as [[e|conn] w']; cbn; [|by do 2 eexists].
  case_decide; apply IH.
Qed.

Lemma NewModule1RealClient_returns getenv (w : W) :
  exists r w', NewModule1RealClient getenv w = (Ret r, w').
Proof.
  unfold NewModule1RealClient, connectWithRetry, mbind, GoM_bind, client. cbn.
  match goal with |- context [connect_loop ?n ?k (?c, w)] =>
    destruct (m1_connect_loop_returns n k c w) as ([e|] & [c' w'] & E) end;
  rewrite E; by do 2 eexists.
Qed.

(** Without a configured secret the gateway runs with a public one, and without
    Redis it runs without a rate limit. *)
Theorem gateway_setup_defaults (getenv : string -> string) (w : W) :
  getenv "JWT_ALGORITHM" = "" -> getenv "JWT_SECRET" = "" ->
  exists g c w', gateway_setup getenv w = (Ret (inr (g, c)), w') /\
    jm_algorithm (gw_jwt g) = "HS256" /\ jm_secretKey (gw_jwt g) = "change-me-in-production" /\
    (gw_rateLimiter g = None <-> is_Some (redis_ping w).1) /\
    (as_module1Client (gw_server g) = true <-> is_Some c).
Proof.
  intros Ha Hs. unfold gateway_setup.
  assert (NewJWTManager (jwt_environment getenv) (jwt_algorithm getenv) =
    inr {| jm_secretKey := "change-me-in-production"; jm_publicKey := None;
           jm_algorithm := "HS256" |}) as ->.
  { unfold NewJWTManager, jwt_environment, jwt_algorithm. rewrite Ha, Hs. done. }
  rewrite lift_bind. destruct (redis_ping w) as [p w1].
  destruct (NewModule1RealClient_returns getenv w1) as (m & w2 & E).
  rewrite (GoM_bind_ret _ _ _ _ _ E).
  destruct m as [e|c]; do 3 eexists; (split; [done|]); simpl; split_and!; try done;
    destruct p; simpl; split; try done; by intros [].
Qed.
End Setup.

(** ** The theorems at work *)

Module GwMem.
#[local] Existing Instance mr_clock.
#[local] Existing Instance mr_redis.
#[local] Existing Instance mr_laws.
#[export] Existing Instance toy_jwt.
#[export] Existing Instance toy_jwt_laws.

(** A world of a clock, counters, a log and a scheduler that accepts everything. *)
Record World := {
  gm_redis : MemRedis;
  gm_submitted : list SubmitTaskRequest;
  gm_log : list LogEntry
}.

Definition on_redis {A} (f : MemRedis -> A * MemRedis) (w : World) : A * World :=
  let '(a, m) := f (gm_redis w) in
  (a, {| gm_redis := m; gm_submitted := gm_submitted w; gm_log := gm_log w |}).

#[export] Instance clock : Clock World := on_redis clock_now.
#[export] Instance redis : Redis World := {
  redis_exec cs := on_redis (redis_exec cs);
  redis_scan c p n := on_redis (redis_scan c p n);
  redis_del ks := on_redis (redis_del ks)
}.
#[export] Instance zap : Zap World := {
  zap_build _ w := (None, w);
  zap_log e w := {| gm_redis := gm_redis w; gm_submitted := gm_submitted w;
                    gm_log := gm_log w ++ [e] |};
  zap_sync w := (None, w);
  uuid_new w := ("id-" +:+ pretty (length (gm_log w)), w);
  sprint_v v := match v with LStr s => s | LInt z => pretty z | LFloat _ => "f" end;
  forwarded_hosts s := split ","%char s
}.
#[export] Instance scheduler : Module1Client World := {
  api_SubmitTask q w :=
    (Ret (inr {| sr_Accepted := true; sr_QueuePosition := 1; sr_EstimatedStartSeconds := 5;
                 sr_Reason := "" |}),
     {| gm_redis := gm_redis w; gm_submitted := gm_submitted w ++ [q]; gm_log := gm_log w |});
  api_GetTaskStatus t w := (Ret (inl "unknown"), w);
  api_CancelTask t w := (Ret None, w);
  api_GetQueueDepth w := (Ret (inl "unknown"), w);
  api_Close w := (Ret None, w)
}.

#[export] Instance redis_laws : RedisLaws World.
Proof.
  unshelve econstructor; [exact (fun w => mr_store (gm_redis w))|..]; simpl; unfold on_redis.
  - intros cs w rs w'. simpl. destruct (redis_run _ cs). by intros [= <- <-].
  - intros cs w e w'. simpl. by destruct (redis_run _ cs).
  - done.
Defined.

#[export] Instance zap_laws : ZapLaws (W := World).
Proof. unshelve econstructor; [exact gm_log|..]; done. Defined.

#[export] Instance frame : GatewayFrame World.
Proof.
  unshelve econstructor; [exact gm_submitted|..]; try (intros; split_and!; simpl; [done|done|lia]).
  - intros cs w. simpl. unfold on_redis. simpl. destruct (redis_run _ cs). simpl. split; [done|].
    unfold clock_now, clock, on_redis. simpl. lia.
  - intros q w. do 2 eexists. split; [done|]. split_and!; simpl; [done|done|lia].
Defined.

Definition create_request (name tenant : string) : CreateCloudTaskRequest :=
  {| req_Name := name; req_Image := "busybox:latest"; req_Command := ["ls"]; req_Args := [];
     req_TenantID := tenant; req_Resources := None; req_Retries := 0; req_Timeout := "";
     req_Priority := 1 |}.

(** A body is the tenant its task is for. *)
#[export] Instance decoder : GatewayLib := {
  unmarshal_create s := inr (create_request "t1" s);
  time_String t := pretty t;
  responseResources _ := {| rrq_Requests := None; rrq_Limits := None |}
}.
#[export] Instance fields : RequestFields := {
  field_CPURequest _ := "1"; field_MemoryRequest _ := "64Mi"; field_TimeoutSeconds _ := 60 }.

Definition gateway : Gateway :=
  {| gw_jwt := toy_manager; gw_rateLimiter := Some NewRateLimiter;
     gw_server := SetModule1Client (NewAPIServer false) |}.

Definition start : World :=
  {| gm_redis := {| mr_time := 5 * Second; mr_store := ∅ |}; gm_submitted := []; gm_log := [] |}.

(** A request to create a task, with the token of tenant acme. *)
Definition post (tenant : string) : Request :=
  {| rq_Method := "POST"; rq_Path := "/tasks/create"; rq_RequestURI := "/tasks/create";
     rq_RemoteAddr := "10.0.0.9:4711"; rq_Query := ∅;
     rq_Headers := {["Authorization" := "Bearer hs256.k1"]}; rq_Body := inr tenant;
     rq_Ctx := {| ctx_claims := None; ctx_request_id := None; ctx_log := ∅ |} |}.

Definition after (r : Request) : World := (gw_serve gateway r (start, fresh_response)).2.1.
End GwMem.

Section Witnesses.
Import GwMem.

(** The tenant of the token is not compared with the tenant of the task: a token
    of tenant acme submits a task of another tenant. *)
Theorem submission_for_other_tenant :
  token_tenant (post "victim") = Some "acme" /\
  sub_TenantID <$> submitted (after (post "victim")) = ["victim"] /\
  rw_code (gw_serve gateway (post "victim") (start, fresh_response)).2.2 = Some StatusAccepted.
Proof. by vm_compute. Qed.

(** The request id is not among the headers that are sent. *)
Example request_id_not_sent :
  rw_headers (gw_serve gateway (post "acme") (start, fresh_response)).2.2 !! "X-Request-ID" = None.
Proof. by vm_compute. Qed.

Lemma gateway_submits_authorised_witness :
  let w' := after (post "acme") in
  submitted w' <> [] /\
  (quiet start w' \/
   exists t qs, authenticated (W := World) gateway (post "acme") t /\
     effect (gw_rateLimiter gateway) t qs start w' /\
     (qs = [] \/ exists q, qs = [q] /\ mux_submits gateway (post "acme") q)).
Proof. split; [by vm_compute|]. exact (gateway_submits_authorised gateway (post "acme") start). Defined.

Lemma HandleCreateTask_answers_witness :
  exists w' rw', HandleCreateTask (gw_server gateway) (post "acme") (start, fresh_response) =
      (Ret tt, (w', rw')) /\ rw_code rw' = Some StatusAccepted.
Proof.
  destruct (HandleCreateTask_answers (gw_server gateway) (post "acme") start) as (w' & rw' & E & Hc & _).
  exists w', rw'. split; [exact E|]. apply Hc. do 2 eexists. split; [|split].
  - split; [reflexivity|]. by do 2 eexists.
  - by vm_compute in E |- *; injection E as <- _.
  - reflexivity.
Defined.

(** The line of a completed request has the status that was sent. *)
Lemma RequestLoggingMiddleware_spec_witness :
  exists requestID traceID w1,
    zap_entries w1 = [started_entry (request_context (post "acme") requestID traceID) (post "acme")].
Proof.
  destruct (RequestLoggingMiddleware_spec (gw_mux gateway) (post "acme") start) as (rid & tid & w1 & _ & E & _).
  exists rid, tid, w1. exact E.
Defined.

Lemma gateway_rate_limit_witness :
  gateway_run gateway "acme" 0 start 1 (after (post "acme")) /\
  0 <= 1 <= Z.max 0 (100 - counter (redis_store start) (minuteWindow "acme" (60 * 0))).
Proof.
  assert (gateway_run gateway "acme" 0 start 1 (after (post "acme"))) as Hrun.
  { assert (Z.of_nat (length (submitted (after (post "acme")))) = 1) as Hone by (by vm_compute).
    replace 1 with (0 + (Z.of_nat (length (submitted (after (post "acme")))) -
      Z.of_nat (length (submitted start)))) by (rewrite Hone; reflexivity).
    apply (gw_request gateway "acme" 0 start 0 start (post "acme") (after (post "acme")));
      [constructor|by vm_compute|by vm_compute|reflexivity|by vm_compute]. }
  split; [exact Hrun|].
  exact (gateway_rate_limit gateway NewRateLimiter "acme" 0 start 1 (after (post "acme")) eq_refl Hrun).
Defined.
End Witnesses.
