(* ===== verification/PubSub.v ===== *)
(** * Redis publish/subscribe: [pkg/pubsub/redis_pubsub.go] and [pkg/pubsub/types.go]

    The subscribers of a topic are a Go slice: a length and a pointer to a backing
    array, which [append] writes to in place when it has room and which
    [Unsubscribe] shifts in place.  A publisher takes the slice under the lock and
    then reads the array without it, so that the arrays are an explicit store
    ([ps_arrays]) and the loop over the subscribers is a sequence of single
    deliveries ([deliver_one]).  The growth of arrays is the runtime's choice
    ([grow_cap]).  Redis, the JSON encoder, the callers' channels and contexts are
    the class [PubSubEnv].  The fields guarded by the mutex are read and written
    by the functions below as the code does in its critical sections. *)

From S2P Require Import Prelude GoStrings Float64 GoTime Kube.

(** ** Events *)

Definition ChannelTaskCompleted : string := "tasks:completed".
Definition ChannelTaskFailed : string := "tasks:failed".
Definition ChannelScalingEvent : string := "scaling:event".
Definition ChannelPodStateChange : string := "pods:state-change".

Record TaskCompletionEvent := {
  tc_EventType : string; tc_TaskID : string; tc_PodName : string; tc_Namespace : string;
  tc_TenantID : string; tc_ExitCode : Z; tc_DurationMs : Z; tc_Timestamp : Z
}.

Record TaskFailureEvent := {
  tf_EventType : string; tf_TaskID : string; tf_PodName : string; tf_Namespace : string;
  tf_TenantID : string; tf_Reason : string; tf_Message : string; tf_ExitCode : Z;
  tf_DurationMs : Z; tf_Timestamp : Z; tf_RetryAttempt : Z; tf_MaxRetries : Z
}.

(** A zero [Timestamp] is [None]. *)
Record ScalingEvent := {
  se_EventType : string; se_ScalingAction : string; se_Namespace : string;
  se_DeploymentName : string; se_CurrentReplicas : Z; se_DesiredReplicas : Z;
  se_Metric : string; se_MetricValue : float64; se_Threshold : float64;
  se_Timestamp : option Z; se_Reason : string
}.

Record PodStateChangeEvent := {
  pe_EventType : string; pe_PodName : string; pe_Namespace : string; pe_TaskID : string;
  pe_OldState : string; pe_NewState : string; pe_StateReason : string;
  pe_Timestamp : option Z; pe_ContainerID : string; pe_RestartCount : Z
}.

Record QueueDepthEvent := {
  qe_EventType : string; qe_TenantID : string; qe_Depth : Z; qe_Timestamp : Z
}.

Inductive Event : Type :=
| EvCompleted (e : TaskCompletionEvent)
| EvFailed (e : TaskFailureEvent)
| EvScaling (e : ScalingEvent)
| EvPod (e : PodStateChangeEvent)
| EvDepth (e : QueueDepthEvent).

(** ** The outside *)

(** A Go channel of a caller. *)
Abbreviation chan := nat.

(** How a [select] with a send, a context and a default ends; a send on a closed
    channel panics. *)
Inductive select_result : Type := Sent | Done (err : string) | NotReady | SendOnClosed.

#[export] Instance select_result_eq_dec : EqDecision select_result.
Proof. solve_decision. Defined.

Class PubSubEnv (W : Type) := {
  pr_ping : string -> string -> W -> option string * W;
  pr_publish : string -> string -> W -> option string * W;
  pr_set : string -> Z -> Z -> W -> option string * W;
  (** [Get(...).Int64()]: [inl None] is [redis.Nil] *)
  pr_get : string -> W -> (option string + Z) * W;
  pr_reconnect : string -> string -> W -> W;
  pr_close : W -> option string * W;
  marshal_event : Event -> string + string;
  select_send : option chan -> Event -> W -> select_result * W;
  (** the capacity [append] gives a new array for at least [n] elements *)
  grow_cap : nat -> nat -> nat
}.

(** ** The client and the arrays *)

Record slice := { sl_arr : nat; sl_len : nat }.

Record RedisPubSub := {
  rp_addr : string;
  rp_password : string;
  rp_closed : bool;
  rp_reconnectCount : Z;
  rp_subscribers : gmap string slice
}.

Section PubSub.
Context {W : Type} `{!PubSubEnv W, !Clock W}.

Record PState := {
  ps_client : RedisPubSub;
  ps_arrays : gmap nat (list (option chan));
  ps_next : nat;
  ps_world : W
}.
Abbreviation M := (GoM PState).

Definition client : M RedisPubSub := fun st => (Ret (ps_client st), st).
Definition update (f : RedisPubSub -> RedisPubSub) : M unit := fun st =>
  (Ret tt, {| ps_client := f (ps_client st); ps_arrays := ps_arrays st; ps_next := ps_next st;
              ps_world := ps_world st |}).
Definition outside {A} (op : W -> A * W) : M A := fun st =>
  let '(a, w') := op (ps_world st) in
  (Ret a, {| ps_client := ps_client st; ps_arrays := ps_arrays st; ps_next := ps_next st;
             ps_world := w' |}).
Definition set_subscribers (s : gmap string slice) (r : RedisPubSub) : RedisPubSub :=
  {| rp_addr := rp_addr r; rp_password := rp_password r; rp_closed := rp_closed r;
     rp_reconnectCount := rp_reconnectCount r; rp_subscribers := s |}.

(** *** Slices *)

Definition array (st : PState) (a : nat) : list (option chan) := default [] (ps_arrays st !! a).
Definition put_array (a : nat) (cells : list (option chan)) : M unit := fun st =>
  (Ret tt, {| ps_client := ps_client st; ps_arrays := <[a := cells]> (ps_arrays st);
              ps_next := ps_next st; ps_world := ps_world st |}).
Definition new_array (cells : list (option chan)) : M nat := fun st =>
  (Ret (ps_next st),
   {| ps_client := ps_client st; ps_arrays := <[ps_next st := cells]> (ps_arrays st);
      ps_next := S (ps_next st); ps_world := ps_world st |}).
Definition get_array (a : nat) : M (list (option chan)) := fun st => (Ret (array st a), st).

(** [append(s, ch)] *)
Definition append_one (s : slice) (ch : chan) : M slice :=
  cells ← get_array (sl_arr s);
  if decide (sl_len s < length cells)%nat then
    _ ← put_array (sl_arr s) (<[sl_len s := Some ch]> cells);
    mret {| sl_arr := sl_arr s; sl_len := S (sl_len s) |}
  else
    let cap := Nat.max (S (sl_len s)) (grow_cap (length cells) (S (sl_len s))) in
    a ← new_array (take (sl_len s) cells ++ Some ch :: replicate (cap - S (sl_len s)) None);
    mret {| sl_arr := a; sl_len := S (sl_len s) |}.

(** [append(s[:i], s[i+1:]...)]: the room is there, the elements after [i] move one
    to the left and the last cell keeps its value. *)
Definition remove_at (s : slice) (i : nat) : M slice :=
  cells ← get_array (sl_arr s);
  _ ← put_array (sl_arr s)
        (take i cells ++ take (sl_len s - S i) (drop (S i) cells) ++ drop (pred (sl_len s)) cells);
  mret {| sl_arr := sl_arr s; sl_len := pred (sl_len s) |}.

(** *** [Subscribe] and [Unsubscribe] *)

Definition Subscribe (channel : string) (ch : chan) : M unit :=
  r ← client;
  s ← match rp_subscribers r !! channel with
      | Some s => mret s
      | None => a ← new_array []; mret {| sl_arr := a; sl_len := 0 |}
      end;
  s' ← append_one s ch;
  update (fun r => set_subscribers (<[channel := s']> (rp_subscribers r)) r).

(** The index of the first element that is the channel. *)
Fixpoint index_of (ch : chan) (cells : list (option chan)) : option nat :=
  match cells with
  | [] => None
  | c :: cells' => if decide (c = Some ch) then Some O else S <$> index_of ch cells'
  end.

Definition Unsubscribe (channel : string) (ch : chan) : M unit :=
  r ← client;
  match rp_subscribers r !! channel with
  | None => mret tt
  | Some s =>
      cells ← get_array (sl_arr s);
      match index_of ch (take (sl_len s) cells) with
      | None => mret tt
      | Some i =>
          s' ← remove_at s i;
          update (fun r => set_subscribers (<[channel := s']> (rp_subscribers r)) r)
      end
  end.

(** *** [publish] *)

(** The body of the loop over the subscribers at index [i] of the slice: [Some e]
    when the function returns [e]. *)
Definition deliver_one (s : slice) (i : nat) (message : Event) : M (option string) :=
  cells ← get_array (sl_arr s);
  r ← outside (select_send (mjoin (cells !! i)) message);
  match r with
  | Sent | NotReady => mret None
  | Done err => mret (Some err)
  | SendOnClosed => go_panic "send on closed channel"
  end.

Fixpoint deliver_loop (n i : nat) (s : slice) (message : Event) : M (option string) :=
  match n with
  | O => mret None
  | S n' =>
      e ← deliver_one s i message;
      match e with
      | Some err => mret (Some err)
      | None => deliver_loop n' (S i) s message
      end
  end.

Definition nil_slice : slice := {| sl_arr := 0; sl_len := 0 |}.

Definition publish (channel : string) (message : Event) : M (option string) :=
  r ← client;
  if rp_closed r then mret (Some "pubsub client is closed")
  else
    match marshal_event message with
    | inl err => mret (Some ("failed to marshal event: " +:+ err))
    | inr data =>
        e ← outside (pr_publish channel data);
        match e with
        | Some err => mret (Some ("failed to publish to " +:+ channel +:+ ": " +:+ err))
        | None =>
            r ← client;
            let subs := default nil_slice (rp_subscribers r !! channel) in
            deliver_loop (sl_len subs) 0 subs message
        end
    end.

(** *** The publishing methods *)

Definition duration_ms (d : Z) : Z := Z.quot d Millisecond.

Definition PublishTaskCompletion (taskID podName namespace tenantID : string)
    (exitCode duration : Z) : M (option string) :=
  now ← outside clock_now;
  publish ChannelTaskCompleted (EvCompleted
    {| tc_EventType := "task.completed"; tc_TaskID := taskID; tc_PodName := podName;
       tc_Namespace := namespace; tc_TenantID := tenantID; tc_ExitCode := exitCode;
       tc_DurationMs := duration_ms duration; tc_Timestamp := now |}).

Definition PublishTaskFailure (taskID podName namespace tenantID reason message : string)
    (exitCode duration retryAttempt maxRetries : Z) : M (option string) :=
  now ← outside clock_now;
  publish ChannelTaskFailed (EvFailed
    {| tf_EventType := "task.failed"; tf_TaskID := taskID; tf_PodName := podName;
       tf_Namespace := namespace; tf_TenantID := tenantID; tf_Reason := reason;
       tf_Message := message; tf_ExitCode := exitCode; tf_DurationMs := duration_ms duration;
       tf_Timestamp := now; tf_RetryAttempt := retryAttempt; tf_MaxRetries := maxRetries |}).

(** A timestamp that is set is kept. *)
Definition timestamp_or_now (t : option Z) : M Z :=
  match t with Some t => mret t | None => outside clock_now end.

Definition PublishScalingEvent (event : ScalingEvent) : M (option string) :=
  t ← timestamp_or_now (se_Timestamp event);
  publish ChannelScalingEvent (EvScaling
    {| se_EventType := "scaling.event"; se_ScalingAction := se_ScalingAction event;
       se_Namespace := se_Namespace event; se_DeploymentName := se_DeploymentName event;
       se_CurrentReplicas := se_CurrentReplicas event;
       se_DesiredReplicas := se_DesiredReplicas event; se_Metric := se_Metric event;
       se_MetricValue := se_MetricValue event; se_Threshold := se_Threshold event;
       se_Timestamp := Some t; se_Reason := se_Reason event |}).

Definition PublishPodStateChange (event : PodStateChangeEvent) : M (option string) :=
  t ← timestamp_or_now (pe_Timestamp event);
  publish ChannelPodStateChange (EvPod
    {| pe_EventType := "pod.state_change"; pe_PodName := pe_PodName event;
       pe_Namespace := pe_Namespace event; pe_TaskID := pe_TaskID event;
       pe_OldState := pe_OldState event; pe_NewState := pe_NewState event;
       pe_StateReason := pe_StateReason event; pe_Timestamp := Some t;
       pe_ContainerID := pe_ContainerID event; pe_RestartCount := pe_RestartCount event |}).

Definition depth_key (tenantID : string) : string := "queue:depth:" +:+ tenantID.

Definition PublishQueueDepth (tenantID : string) (depth : Z) : M (option string) :=
  now ← outside clock_now;
  e ← outside (pr_set (depth_key tenantID) depth (5 * Minute));
  match e with
  | Some err => mret (Some ("failed to set queue depth: " +:+ err))
  | None =>
      publish "queue:depth" (EvDepth {| qe_EventType := "queue.depth"; qe_TenantID := tenantID;
                                        qe_Depth := depth; qe_Timestamp := now |})
  end.

Definition GetCurrentQueueDepth (tenantID : string) : M (Z * option string) :=
  r ← outside (pr_get (depth_key tenantID));
  match r with
  | inr depth => mret (depth, None)
  | inl None => mret (0, None)
  | inl (Some err) => mret (0, Some ("failed to get queue depth: " +:+ err))
  end.

(** *** Connection *)

Definition NewRedisPubSub (addr password : string) (w : W) : (string + RedisPubSub) * W :=
  let '(e, w') := pr_ping addr password w in
  (match e with
   | Some err => inl ("failed to connect to Redis at " +:+ addr +:+ ": " +:+ err)
   | None => inr {| rp_addr := addr; rp_password := password; rp_closed := false;
                    rp_reconnectCount := 0; rp_subscribers := ∅ |}
   end, w').

Definition SetAddress (addr : string) : M unit :=
  _ ← outside pr_close;
  _ ← update (fun r => {| rp_addr := addr; rp_password := rp_password r; rp_closed := rp_closed r;
                          rp_reconnectCount := int64 (rp_reconnectCount r + 1);
                          rp_subscribers := rp_subscribers r |});
  r ← client;
  outside (fun w => (tt, pr_reconnect addr (rp_password r) w)).

Definition GetReconnectCount : M Z := r ← client; mret (rp_reconnectCount r).

Definition Close : M (option string) :=
  r ← client;
  if rp_closed r then mret None
  else
    _ ← update (fun r => {| rp_addr := rp_addr r; rp_password := rp_password r; rp_closed := true;
                            rp_reconnectCount := rp_reconnectCount r;
                            rp_subscribers := rp_subscribers r |});
    outside pr_close.
End PubSub.
Arguments PState W : clear implicits.
