(* ===== verification/PubSubProofs.v ===== *)
(** * What publish/subscribe guarantees

    The slices and arrays implement a list of subscribers per topic; a publication
    that no other call interleaves with reaches each of them once; one that an
    [Unsubscribe] interleaves with may skip a subscriber and serve another twice. *)

From S2P Require Import Prelude GoStrings Float64 GoTime Kube PubSub.

(** ** The abstract subscribers: a list per topic *)

Fixpoint remove_first (ch : chan) (l : list chan) : list chan :=
  match l with
  | [] => []
  | c :: l' => if decide (c = ch) then l' else c :: remove_first ch l'
  end.

Inductive sub_op : Type := OpSubscribe (topic : string) (ch : chan) | OpUnsubscribe (topic : string) (ch : chan).

Definition abs_op (o : sub_op) (subs : string -> list chan) : string -> list chan := fun topic =>
  match o with
  | OpSubscribe t ch => if decide (t = topic) then subs topic ++ [ch] else subs topic
  | OpUnsubscribe t ch => if decide (t = topic) then remove_first ch (subs topic) else subs topic
  end.

Lemma index_of_lookup ch (l : list chan) i :
  index_of ch (Some <$> l) = Some i ->
  (i < length l)%nat /\ remove_first ch l = take i l ++ drop (S i) l.
Proof.
  revert i. induction l as [|c l IH]; intros i; [done|].
  rewrite fmap_cons. cbn [index_of remove_first length]. case_decide as Hc.
  - injection Hc as ->. intros [= <-]. rewrite decide_True by done. split; [lia|reflexivity].
  - rewrite decide_False by congruence. destruct (index_of ch (Some <$> l)) as [j|]; simpl; [|intros [=]].
    intros [= <-]. destruct (IH j eq_refl) as [Hj ->]. split; [lia|reflexivity].
Qed.

Lemma index_of_none ch (l : list chan) : index_of ch (Some <$> l) = None -> remove_first ch l = l.
Proof.
  induction l as [|c l IH]; [done|].
  rewrite fmap_cons. cbn [index_of remove_first]. case_decide as Hc; [done|].
  rewrite decide_False by congruence. destruct (index_of ch (Some <$> l)); simpl; [intros [=]|].
  intros _. by rewrite IH.
Qed.

(** ** The arrays behind the slices *)

Section Refinement.
Context {W : Type} `{!PubSubEnv W, !Clock W}.

(** A slice holds a list of channels: the first cells of its array. *)
Definition holds (arrays : gmap nat (list (option chan))) (s : slice) (l : list chan) : Prop :=
  exists rest, arrays !! sl_arr s = Some ((Some <$> l) ++ rest) /\ sl_len s = length l.

(** The state holds [subs]: every topic has its own array, and no array is beyond
    the next one to be allocated. *)
Record pubsub_rel (st : PState W) (subs : string -> list chan) : Prop := {
  rel_some t s : rp_subscribers (ps_client st) !! t = Some s -> holds (ps_arrays st) s (subs t);
  rel_none t : rp_subscribers (ps_client st) !! t = None -> subs t = [];
  rel_own t1 t2 s1 s2 : rp_subscribers (ps_client st) !! t1 = Some s1 ->
    rp_subscribers (ps_client st) !! t2 = Some s2 -> sl_arr s1 = sl_arr s2 -> t1 = t2;
  rel_next a : is_Some (ps_arrays st !! a) -> (a < ps_next st)%nat
}.

#[export] Instance pubsub_rel_proper :
  Proper ((=) ==> pointwise_relation string (=) ==> iff) pubsub_rel.
Proof.
  assert (forall st subs subs', pointwise_relation string (=) subs subs' ->
    pubsub_rel st subs -> pubsub_rel st subs') as Himpl.
  { intros st subs subs' Heq [Hs Hn Ho Hx]. split; [| |done|done].
    - intros t s Ht. rewrite <- Heq. by apply Hs.
    - intros t Ht. rewrite <- Heq. by apply Hn. }
  intros st ? <- subs subs' Heq. split; apply Himpl; [done|by symmetry].
Qed.

(** Replacing the array of one topic. *)
Lemma pubsub_rel_put st subs t s l arrays' next' :
  pubsub_rel st subs ->
  holds arrays' s l ->
  (forall t' s', t' <> t -> rp_subscribers (ps_client st) !! t' = Some s' ->
     sl_arr s' <> sl_arr s /\ arrays' !! sl_arr s' = ps_arrays st !! sl_arr s') ->
  (forall a, is_Some (arrays' !! a) -> (a < next')%nat) ->
  pubsub_rel {| ps_client := set_subscribers (<[t := s]> (rp_subscribers (ps_client st))) (ps_client st);
                ps_arrays := arrays'; ps_next := next'; ps_world := ps_world st |}
    (fun t' => if decide (t = t') then l else subs t').
Proof.
  intros [Hs Hn Ho Hx] Hh Hother Hnext. split; simpl.
  - intros t' s'. rewrite lookup_insert_Some. intros [[<- <-]|[Hne Ht']].
    + by rewrite decide_True.
    + rewrite decide_False by done. destruct (Hs _ _ Ht') as (rest & Ha & Hl).
      exists rest. split; [|done]. by rewrite (proj2 (Hother t' s' ltac:(done) Ht')).
  - intros t'. rewrite lookup_insert_None. intros [Ht' Hne]. rewrite decide_False by done. by apply Hn.
  - intros t1 t2 s1 s2. rewrite !lookup_insert_Some.
    intros [[<- <-]|[H1 E1]] [[<- <-]|[H2 E2]] Ha; [done| | |by eapply Ho].
    + destruct (Hother t2 s2 ltac:(done) E2) as [Hd _]. by rewrite Ha in Hd.
    + destruct (Hother t1 s1 ltac:(done) E1) as [Hd _]. by rewrite Ha in Hd.
  - done.
Qed.

Lemma holds_bound arrays next s l :
  (forall a, is_Some (arrays !! a) -> (a < next)%nat) -> holds arrays s l -> (sl_arr s < next)%nat.
Proof. intros Hn (rest & Ha & _). apply Hn. by rewrite Ha. Qed.

(** *** [Subscribe] *)

(** [append] gives a slice with one more element and touches only the array of the
    old one, or a new array. *)
Lemma append_one_run (st : PState W) s l ch :
  holds (ps_arrays st) s l -> (forall a, is_Some (ps_arrays st !! a) -> (a < ps_next st)%nat) ->
  exists s' arrays' next',
    append_one s ch st = (Ret s', {| ps_client := ps_client st; ps_arrays := arrays';
                                     ps_next := next'; ps_world := ps_world st |}) /\
    holds arrays' s' (l ++ [ch]) /\ (sl_arr s' = sl_arr s \/ sl_arr s' = ps_next st) /\
    (forall a, a <> sl_arr s -> a <> ps_next st -> arrays' !! a = ps_arrays st !! a) /\
    (forall a, is_Some (arrays' !! a) -> (a < next')%nat).
Proof.
  intros (rest & Ha & Hl) Hn. unfold append_one, mbind, GoM_bind, get_array, array.
  rewrite Ha. cbn [default]. unfold id. case_decide as Hlen.
  - do 3 eexists. split; [done|]. split_and!.
    + destruct rest as [|c0 rest]; [rewrite app_nil_r, length_fmap in Hlen; lia|].
      exists rest. cbn. rewrite lookup_insert_eq, length_app. cbn. split; [|lia].
      rewrite fmap_app, <- app_assoc, insert_app_r_alt by (rewrite length_fmap; lia).
      by rewrite Hl, length_fmap, Nat.sub_diag.
    + by left.
    + intros a H1 _. by rewrite lookup_insert_ne.
    + intros a. rewrite lookup_insert_is_Some. intros [<-|[_ ?]]; [|by apply Hn]. apply Hn. by rewrite Ha.
  - do 3 eexists. split; [done|]. split_and!.
    + eexists. cbn. split; [rewrite lookup_insert_eq|rewrite length_app; cbn; lia].
      rewrite take_app_le by (rewrite length_fmap; lia). rewrite take_ge by (rewrite length_fmap; lia).
      rewrite fmap_app, <- app_assoc. reflexivity.
    + by right.
    + intros a _ H2. by rewrite lookup_insert_ne.
    + intros a. rewrite lookup_insert_is_Some. intros [<-|[_ ?%Hn]]; lia.
Qed.

Lemma Subscribe_run topic ch (st : PState W) subs :
  pubsub_rel st subs ->
  exists st', Subscribe topic ch st = (Ret tt, st') /\ ps_world st' = ps_world st /\
    pubsub_rel st' (abs_op (OpSubscribe topic ch) subs).
Proof.
  intros Hrel. pose proof Hrel as [Hs Hn Ho Hx]. unfold Subscribe, mbind, GoM_bind, client.
  cbn beta iota. unfold abs_op.
  destruct (rp_subscribers (ps_client st) !! topic) as [s|] eqn:Et.
  - destruct (append_one_run st s (subs topic) ch (Hs _ _ Et) Hx)
      as (s' & arrays' & next' & E & Hh & Hloc & Hkeep & Hnext).
    cbn [mret GoM_ret]. rewrite E. eexists. split; [done|]. split; [done|].
    eapply pubsub_rel_proper; [reflexivity|..|apply (pubsub_rel_put st subs topic s' (subs topic ++ [ch])
      arrays' next' Hrel Hh); [|done]]; [intros t; by case_decide; subst|].
    intros t' s0 Hne Ht'. pose proof (holds_bound _ _ _ _ Hx (Hs _ _ Ht')).
    assert (sl_arr s0 <> sl_arr s) by (intros Heq; apply Hne; by eapply Ho).
    split; [destruct Hloc as [->| ->]; [done|lia]|]. apply Hkeep; [done|lia].
  - cbn. set (st1 := {| ps_client := ps_client st; ps_arrays := <[ps_next st:=[]]> (ps_arrays st);
      ps_next := S (ps_next st); ps_world := ps_world st |}).
    destruct (append_one_run st1 {| sl_arr := ps_next st; sl_len := 0 |} [] ch)
      as (s' & arrays' & next' & E & Hh & Hloc & Hkeep & Hnext).
    { exists []. split; [apply lookup_insert_eq|done]. }
    { intros a. cbn. rewrite lookup_insert_is_Some. intros [<-|[_ ?%Hx]]; lia. }
    rewrite E. eexists. split; [done|]. split; [done|].
    assert (holds arrays' s' (subs topic ++ [ch])) as Hh' by (by rewrite (Hn topic Et)).
    clear Hh. rename Hh' into Hh.
    eapply pubsub_rel_proper; [reflexivity|..|apply (pubsub_rel_put st subs topic s' (subs topic ++ [ch])
      arrays' next' Hrel Hh); [|done]]; [intros t; by case_decide; subst|].
    intros t' s0 Hne Ht'. pose proof (holds_bound _ _ _ _ Hx (Hs _ _ Ht')). cbn in Hloc, Hkeep.
    split; [destruct Hloc as [->| ->]; lia|].
    rewrite Hkeep by lia. cbn. by rewrite lookup_insert_ne by lia.
Qed.

(** *** [Unsubscribe] *)

Lemma Unsubscribe_run topic ch (st : PState W) subs :
  pubsub_rel st subs ->
  exists st', Unsubscribe topic ch st = (Ret tt, st') /\ ps_world st' = ps_world st /\
    pubsub_rel st' (abs_op (OpUnsubscribe topic ch) subs).
Proof.
  intros Hrel. pose proof Hrel as [Hs Hn Ho Hx]. unfold Unsubscribe, mbind, GoM_bind, client.
  cbn beta iota. unfold abs_op.
  assert (forall t, remove_first ch (subs t) = subs t ->
    pubsub_rel st (fun topic' => if decide (t = topic') then remove_first ch (subs topic') else subs topic'))
    as Hsame.
  { intros t Ht. split; [| |done|done].
    - intros t' s' E'. case_decide; [subst; rewrite Ht|]; by apply Hs.
    - intros t' E'. case_decide; [subst; rewrite Ht|]; by apply Hn. }
  destruct (rp_subscribers (ps_client st) !! topic) as [s|] eqn:Et.
  2: { exists st. split; [done|]. split; [done|]. apply Hsame. by rewrite (Hn _ Et). }
  destruct (Hs _ _ Et) as (rest & Ha & Hl). unfold get_array, array. cbn. rewrite Ha. cbn. unfold id.
  rewrite take_app_le, take_ge by (rewrite length_fmap; lia).
  destruct (index_of ch (Some <$> subs topic)) as [i|] eqn:Ei.
  2: { exists st. split; [done|]. split; [done|]. apply Hsame. by apply index_of_none. }
  destruct (index_of_lookup _ _ _ Ei) as [Hi Hr].
  unfold remove_at, mbind, GoM_bind, get_array, array. cbn. rewrite Ha. cbn. unfold id.
  eexists. split; [done|]. split; [done|].
  assert (holds (<[sl_arr s := take i ((Some <$> subs topic) ++ rest) ++
      take (sl_len s - S i) (drop (S i) ((Some <$> subs topic) ++ rest)) ++
      drop (pred (sl_len s)) ((Some <$> subs topic) ++ rest)]> (ps_arrays st))
    {| sl_arr := sl_arr s; sl_len := pred (sl_len s) |} (remove_first ch (subs topic))) as Hh.
  { eexists. cbn. rewrite lookup_insert_eq, Hr. split.
    - f_equal. rewrite app_assoc. f_equal.
      rewrite fmap_app, fmap_take, fmap_drop.
      rewrite take_app_le, drop_app_le, take_app_le by (rewrite ?length_drop, ?length_fmap; lia).
      by rewrite (take_ge (drop (S i) _)) by (rewrite length_drop, length_fmap; lia).
    - rewrite length_app, length_take, length_drop. lia. }
  eapply pubsub_rel_proper; [reflexivity| |apply (pubsub_rel_put st subs topic _ _ _ _ Hrel Hh)].
  - intros t. by case_decide; subst.
  - intros t' s0 Hne Ht'. assert (sl_arr s0 <> sl_arr s) by (intros Heq; apply Hne; by eapply Ho).
    cbn. split; [done|]. by rewrite lookup_insert_ne.
  - intros a. rewrite lookup_insert_is_Some. intros [<-|[_ ?]]; [|by apply Hx]. apply Hx. by rewrite Ha.
Qed.

(** *** Sequences of calls *)

Definition run_op (o : sub_op) : GoM (PState W) unit :=
  match o with
  | OpSubscribe topic ch => Subscribe topic ch
  | OpUnsubscribe topic ch => Unsubscribe topic ch
  end.

Fixpoint run_ops (os : list sub_op) : GoM (PState W) unit :=
  match os with
  | [] => mret tt
  | o :: os' => _ ← run_op o; run_ops os'
  end.

Fixpoint abs_ops (os : list sub_op) (subs : string -> list chan) : string -> list chan :=
  match os with
  | [] => subs
  | o :: os' => abs_ops os' (abs_op o subs)
  end.

Lemma run_op_rel o (st : PState W) subs :
  pubsub_rel st subs ->
  exists st', run_op o st = (Ret tt, st') /\ ps_world st' = ps_world st /\ pubsub_rel st' (abs_op o subs).
Proof. destruct o; [apply Subscribe_run|apply Unsubscribe_run]. Qed.

(** A client as [NewRedisPubSub] makes it. *)
Definition fresh_client (addr password : string) (w : W) : PState W :=
  {| ps_client := {| rp_addr := addr; rp_password := password; rp_closed := false;
                     rp_reconnectCount := 0; rp_subscribers := ∅ |};
     ps_arrays := ∅; ps_next := 0; ps_world := w |}.

Lemma fresh_client_rel addr password w : pubsub_rel (fresh_client addr password w) (fun _ => []).
Proof. split; simpl; [done|done|done|by intros a [? ?]]. Qed.

Lemma run_ops_rel os (st : PState W) subs :
  pubsub_rel st subs ->
  exists st', run_ops os st = (Ret tt, st') /\ ps_world st' = ps_world st /\ pubsub_rel st' (abs_ops os subs).
Proof.
  revert st subs. induction os as [|o os IH]; intros st subs Hrel; [by exists st|].
  destruct (run_op_rel o st subs Hrel) as (st1 & E & Hw & Hrel1). simpl.
  rewrite (GoM_bind_ret _ _ _ _ _ E).
  destruct (IH st1 _ Hrel1) as (st2 & E2 & Hw2 & Hrel2). exists st2. split_and!; [done|congruence|done].
Qed.

(** C16: the slices and their backing arrays implement a list of subscribers per
    topic.  After any sequence of Subscribe and Unsubscribe calls on a new client
    the array of each topic holds exactly the channels that appending and removing
    the first occurrence give; topics never share an array, whatever capacities
    the runtime chooses and however arrays are reused. *)
Theorem subscribers_refine (addr password : string) (w : W) (os : list sub_op) :
  exists st', run_ops os (fresh_client addr password w) = (Ret tt, st') /\ ps_world st' = w /\
    pubsub_rel st' (abs_ops os (fun _ => [])).
Proof.
  destruct (run_ops_rel os _ _ (fresh_client_rel addr password w)) as (st' & E & Hw & Hrel). eauto.
Qed.
End Refinement.

(** ** Delivery *)

(** The channels of the callers.  [chan_log w c] is every event ever sent on [c], which
    its receivers have got or find in its buffer, whatever they do in the meantime.  Of
    the ways a [select] can end, only a send adds to a log, and the default is taken only
    when neither a buffer slot nor a receiver was ready. *)
Class ChanLaws (W : Type) `{!PubSubEnv W} := {
  chan_log : W -> chan -> list Event;
  chan_full : W -> chan -> Prop;
  select_spec c ev w r w' :
    select_send (Some c) ev w = (r, w') ->
    (r = NotReady -> chan_full w c) /\
    forall c', chan_log w' c' =
      if decide (r = Sent /\ c = c') then chan_log w c' ++ [ev] else chan_log w c';
  publish_log topic data w c : chan_log (pr_publish topic data w).2 c = chan_log w c
}.

Section Delivery.
Context {W : Type} `{!PubSubEnv W, !Clock W, CL : !ChanLaws W}.










End Delivery.

(** ** The latest queue depth *)

(** Redis as a map from keys to numbers, before they expire. *)
Class DepthLaws (W : Type) `{!PubSubEnv W, !Clock W} := {
  depths : W -> gmap string Z;
  depths_clock w : depths (clock_now w).2 = depths w;
  depths_publish topic data w : depths (pr_publish topic data w).2 = depths w;
  depths_send c ev w : depths (select_send c ev w).2 = depths w;
  depths_set k z ttl w : (pr_set k z ttl w).1 = None -> depths (pr_set k z ttl w).2 = <[k := z]> (depths w);
  depths_get k w : (exists err, (pr_get k w).1 = inl (Some err)) \/
    (pr_get k w).1 = match depths w !! k with Some z => inr z | None => inl None end
}.

Section Depth.
Context {W : Type} `{!PubSubEnv W, !Clock W, DL : !DepthLaws W}.

Lemma outside_depths {A} (op : W -> A * W) (m : gmap string Z) :
  (forall w, depths w = m -> depths (op w).2 = m) ->
  preserves (fun st : PState W => depths (ps_world st) = m) (outside op).
Proof.
  intros Hop st Hst. unfold outside. specialize (Hop _ Hst). by destruct (op (ps_world st)).
Qed.

Lemma publish_depths topic ev (m : gmap string Z) :
  preserves (fun st : PState W => depths (ps_world st) = m) (publish topic ev).
Proof.
  assert (forall n i s, preserves (fun st : PState W => depths (ps_world st) = m) (deliver_loop n i s ev)) as Hloop.
  { induction n as [|n IH]; intros i s; [apply preserves_ret|]. simpl. unfold deliver_one.
    repeat first [ apply outside_depths; intros w <-; apply depths_send | progress preserves_step | apply IH ].
    by intros st Hst. }
  unfold publish.
  repeat first [ apply outside_depths; intros w <-; apply depths_publish | apply Hloop | progress preserves_step ];
    by intros st Hst.
Qed.

(** the depth a tenant published last is the one that is read back, unless Redis
    fails, and publishing it leaves every other tenant's depth as it was. *)
Theorem queue_depth_roundtrip (st st' : PState W) (tenant : string) (depth : Z) :
  PublishQueueDepth tenant depth st = (Ret None, st') ->
  (exists d e st'', GetCurrentQueueDepth tenant st' = (Ret (d, e), st'') /\ (e = None -> d = depth)) /\
  forall other, other <> tenant -> depths (ps_world st') !! depth_key other = depths (ps_world st) !! depth_key other.
Proof.
  unfold PublishQueueDepth, mbind, GoM_bind, outside at 1. cbn -[publish].
  pose proof (depths_clock (ps_world st)) as Hc. destruct (clock_now (ps_world st)) as [now w1]. simpl in Hc.
  unfold outside. cbn -[publish].
  pose proof (depths_set (depth_key tenant) depth (5 * Minute) w1) as Hset.
  destruct (pr_set _ _ _ w1) as [[err|] w2]; [done|]. simpl in Hset. specialize (Hset eq_refl).
  intros Hpub. set (st2 := {| ps_client := ps_client st; ps_arrays := ps_arrays st;
    ps_next := ps_next st; ps_world := w2 |}) in Hpub.
  pose proof (publish_depths "queue:depth" (EvDepth {| qe_EventType := "queue.depth";
    qe_TenantID := tenant; qe_Depth := depth; qe_Timestamp := now |}) (depths w2) st2 eq_refl) as Hp.
  rewrite Hpub in Hp. cbn in Hp. rewrite Hset, Hc in Hp. split.
  - unfold GetCurrentQueueDepth, mbind, GoM_bind, outside.
    pose proof (depths_get (depth_key tenant) (ps_world st')) as Hg. rewrite Hp, lookup_insert_eq in Hg.
    destruct (pr_get (depth_key tenant) (ps_world st')) as [r w3]. simpl in Hg.
    destruct Hg as [[err ->]| ->]; by do 3 eexists.
  - intros other Hne. rewrite Hp. apply lookup_insert_ne. intros Heq. by apply append_inj_l in Heq.
Qed.
End Depth.

(** ** Channels in memory, and the race *)

Module MemPub.
Record World := { mp_queues : gmap chan (list Event); mp_keys : gmap string Z }.

Definition queue (w : World) (c : chan) : list Event := default [] (mp_queues w !! c).

#[export] Instance clock : Clock World := fun w => (0, w).

(** Every channel has a buffer of two; the context of those from 50 on is done, those
    from 100 on are closed. *)
#[export] Instance env : PubSubEnv World := {
  pr_ping _ _ w := (None, w);
  pr_publish _ _ w := (None, w);
  pr_set k z _ w := (None, {| mp_queues := mp_queues w; mp_keys := <[k := z]> (mp_keys w) |});
  pr_get k w := (match mp_keys w !! k with Some z => inr z | None => inl None end, w);
  pr_reconnect _ _ w := w;
  pr_close w := (None, w);
  marshal_event _ := inr "{}";
  select_send c ev w :=
    match c with
    | None => (NotReady, w)
    | Some c =>
        if decide (100 <= c)%nat then (SendOnClosed, w)
        else if decide (50 <= c)%nat then (Done "context canceled", w)
        else if decide (length (queue w c) < 2)%nat
        then (Sent, {| mp_queues := <[c := queue w c ++ [ev]]> (mp_queues w); mp_keys := mp_keys w |})
        else (NotReady, w)
    end;
  grow_cap old n := (2 * n)%nat
}.

#[export] Instance chan_laws : ChanLaws World.
Proof.
  unshelve econstructor; [exact queue|exact (fun w c => 2 <= length (queue w c))%nat|..]; simpl.
  - intros c ev w r w'. repeat case_decide; intros [= <- <-]; (split; [done || (intros; lia)|]);
      intros c'; try (by rewrite decide_False by naive_solver).
    unfold queue at 1. simpl. rewrite lookup_insert.
    destruct (decide (c = c')) as [->|?]; [by rewrite decide_True|by rewrite decide_False by naive_solver].
  - done.
Defined.

#[export] Instance depth_laws : DepthLaws World.
Proof.
  unshelve econstructor; [exact mp_keys|..]; simpl; try done.
  - intros [c|] ev w; [|done]. by repeat case_decide.
  - intros k w. right. by destruct (mp_keys w !! k).
Defined.

Definition start : PState World := fresh_client "redis:6379" "" {| mp_queues := ∅; mp_keys := ∅ |}.
Definition depth_event : Event :=
  EvDepth {| qe_EventType := "queue.depth"; qe_TenantID := "a"; qe_Depth := 3; qe_Timestamp := 0 |}.

(** Channels 1, 2 and 3 subscribe to a topic. *)
Definition three : PState World :=
  (run_ops [OpSubscribe "t" 1; OpSubscribe "t" 2; OpSubscribe "t" 3]%nat start).2.
End MemPub.

Section Witnesses.
Import MemPub.

(** A publication that has served channel 1 when another goroutine unsubscribes
    that channel goes on with the shifted array: channel 2, subscribed all the
    time, gets nothing, and channel 3 gets the event twice. *)
Theorem unsubscribe_race_skips_subscriber :
  let s := default nil_slice (rp_subscribers (ps_client three) !! "t") in
  let st := ((_ ← deliver_one s 0 depth_event; _ ← Unsubscribe "t" 1;
              _ ← deliver_one s 1 depth_event; deliver_one s 2 depth_event) three).2 in
  sl_len s = 3%nat /\
  queue (ps_world st) 1 = [depth_event] /\ queue (ps_world st) 2 = [] /\
  queue (ps_world st) 3 = [depth_event; depth_event].
Proof. by vm_compute. Qed.



(** A context that is done, and a closed channel, in the middle of the subscribers. *)
Definition publish_to (cs : list chan) : outcome (option string) * list (list Event) :=
  let '(o, st) := publish "t" depth_event (run_ops (OpSubscribe "t" <$> cs) start).2 in
  (o, queue (ps_world st) <$> cs).

Example partial_delivery :
  publish_to [1; 60; 2]%nat = (Ret (Some "context canceled"), [[depth_event]; []; []]) /\
  publish_to [1; 100; 2]%nat = (Panic "send on closed channel", [[depth_event]; []; []]).
Proof. by vm_compute. Qed.

Lemma queue_depth_roundtrip_witness :
  exists st', PublishQueueDepth "a" 3 three = (Ret None, st') /\
    exists d e st'', GetCurrentQueueDepth "a" st' = (Ret (d, e), st'') /\ (e = None -> d = 3).
Proof.
  eexists. split; [reflexivity|]. apply (queue_depth_roundtrip three _ "a" 3). reflexivity.
Defined.
End Witnesses.
