(* ===== verification/WorkQueue.v ===== *)
(** * The work queues that drive the operators

    Both controllers are registered with a manager ([SetupWithManager]) that calls
    [Reconcile] for the names in a work queue.  The queue is controller-runtime's;
    what is modelled is its documented contract, as the step relation [loop_step]:
    - an event on a watched object that passes the controller's filter puts its
      name in the queue; more names may get there (resynchronisation, events of
      pods), none gets lost;
    - a name is taken out and reconciled; it goes back, at once or after a delay,
      when the call reports an error, asks for it with [RequeueAfter], or panics
      (the manager recovers, or the program ends and starts again);
    - a program that starts, or starts again after a crash in the middle of a call,
      lists all objects.
    A name that waits for its delay counts as queued.

    The controllers give up the periodic look at an object by returning neither an
    error nor a delay.  [Settling] states when that is right, and [queue_covers] is
    what follows for every history: an object the queue does not hold is settled.
    The instances are the CloudTask operator, whose filter drops every event that
    leaves the generation alone, and the TaskJob operator, which has no filter. *)

From S2P Require Import Prelude GoStrings GoTime Kube CloudTaskApi CloudTaskController.
From S2P Require Import TaskJobController MemKube CloudTaskProofs TaskJobProofs.

(** ** Any controller *)

Section Loop.
Context {W T E : Type} (store : W -> gmap NamespacedName T).
Variable reconcile : NamespacedName -> GoM W (Result * option E).
(** An update of an object that the filter lets through. *)
Variable passes : T -> T -> Prop.
(** What others may do to the cluster in one step. *)
Variable env : W -> W -> Prop.

Abbreviation queue := (gset NamespacedName).

(** The events between two states of the cluster that reach the queue. *)
Definition delivered (w w' : W) (k : NamespacedName) : Prop :=
  match store w !! k, store w' !! k with
  | Some o, Some o' => passes o o'
  | None, None => False
  | _, _ => True
  end.

(** The name of this call goes back into the queue. *)
Definition again (o : outcome (Result * option E)) : Prop :=
  match o with
  | Ret (res, None) => 0 < RequeueAfter res
  | _ => True
  end.

#[export] Instance again_dec o : Decision (again o).
Proof. destruct o as [[res [e|]]|]; simpl; apply _. Defined.

Inductive loop_step : W * queue -> W * queue -> Prop :=
| loop_env w w' (Q Q' : queue) :
    env w w' -> Q ⊆ Q' -> (forall k, delivered w w' k -> k ∈ Q') ->
    loop_step (w, Q) (w', Q')
| loop_reconcile k w o w' (Q Q' : queue) :
    k ∈ Q -> reconcile k w = (o, w') -> Q ∖ {[k]} ⊆ Q' ->
    (forall k', delivered w w' k' -> k' ∈ Q') -> (again o -> k ∈ Q') ->
    loop_step (w, Q) (w', Q')
| loop_restart w w' (Q : queue) : loop_step (w, Q) (w', dom (store w')).

(** When a controller may stop looking at an object. *)
Class Settling (settled : T -> Prop) : Prop := {
  reconcile_confined k w o w' k' :
    reconcile k w = (o, w') -> k' <> k -> store w' !! k' = store w !! k';
  reconcile_settles k w o w' t :
    reconcile k w = (o, w') -> ~ again o -> store w' !! k = Some t -> settled t;
  env_settled w w' k t t' :
    env w w' -> store w !! k = Some t -> store w' !! k = Some t' -> settled t ->
    passes t t' \/ settled t'
}.

Definition covered (settled : T -> Prop) (s : W * queue) : Prop :=
  forall k t, store s.1 !! k = Some t -> k ∈ s.2 \/ settled t.

Context {settled : T -> Prop} `{!Settling settled}.

Lemma loop_step_covered s s' : loop_step s s' -> covered settled s -> covered settled s'.
Proof.
  intros [w w' Q Q' He HQ Hd|k0 w o w' Q Q' Hk0 Hr HQ Hd Ha|w w' Q] HI k t Ht; simpl in *.
  - destruct (store w !! k) as [t0|] eqn:Hk;
      [|left; apply Hd; unfold delivered; by rewrite Hk, Ht].
    destruct (HI k t0 Hk) as [?|Hs]; [left; set_solver|].
    destruct (env_settled _ _ _ _ _ He Hk Ht Hs) as [Hp|]; [|by right].
    left. apply Hd. unfold delivered. by rewrite Hk, Ht.
  - destruct (decide (k = k0)) as [->|Hne].
    + destruct (decide (again o)) as [Hag|Hag]; [by left; auto|].
      right. by eapply reconcile_settles.
    + rewrite (reconcile_confined _ _ _ _ _ Hr Hne) in Ht.
      destruct (HI k t Ht) as [?|?]; [left; set_solver|by right].
  - left. by apply elem_of_dom_2 in Ht.
Qed.

Lemma queue_covers w0 s :
  rtc loop_step (w0, dom (store w0)) s -> covered settled s.
Proof.
  assert (covered settled (w0, dom (store w0))) as H0
    by (intros k t Ht; left; by apply elem_of_dom_2 in Ht).
  intros Hrun. induction Hrun; eauto using loop_step_covered.
Qed.
End Loop.

(** ** How the two controllers are registered *)

Inductive event_filter : Type := AllEvents | GenerationChangedPredicate.

(** [ctrl.NewControllerManagedBy(mgr).For(...).Owns(...).WithEventFilter(...)]. *)
Record ControllerSpec := {
  cs_For : string;
  cs_Owns : list string;
  cs_Filter : event_filter
}.

Definition cloudtask_controller : ControllerSpec :=
  {| cs_For := "CloudTask"; cs_Owns := ["Pod"]; cs_Filter := GenerationChangedPredicate |}.

Definition taskjob_controller : ControllerSpec :=
  {| cs_For := "TaskJob"; cs_Owns := ["Pod"]; cs_Filter := AllEvents |}.

(** An update passes when its generation changed, or always. *)
Definition filter_passes (f : event_filter) (generation_changed changed : Prop) : Prop :=
  match f with
  | AllEvents => changed
  | GenerationChangedPredicate => generation_changed
  end.

(** ** The CloudTask operator *)

Section CloudTasks.
Context {K : K8sTypes} {A : Admission} {W : Type}.
Context `{!Client W CloudTask, !Client W Pod, !Clock W, !Recorder W, OR : !OwnerRefs CloudTask}.
Context `{LT : !ClientLaws W CloudTask, LP : !ClientLaws W Pod}.
Context `{FTP : !ClientFrame W CloudTask Pod c_store, FPT : !ClientFrame W Pod CloudTask c_store}.
Context `{ET : !EnvFrame W CloudTask c_store, EP : !EnvFrame W Pod c_store}.

Abbreviation tasks := (c_store (T := CloudTask)).

(** The server counts the generation of an object up when its spec changes and
    when it is marked for deletion; a write of the status or of other metadata
    leaves it alone. *)
Definition generation_changed (t t' : CloudTask) : Prop :=
  task_Spec t' <> task_Spec t \/
  om_DeletionTimestamp (task_Meta t') <> om_DeletionTimestamp (task_Meta t).

Definition task_passes (t t' : CloudTask) : Prop :=
  filter_passes (cs_Filter cloudtask_controller) (generation_changed t t') (t' <> t).

(** The phase of a task is final: it completed, or failed with its retries used up. *)
Definition phase_final (t : CloudTask) : Prop :=
  st_Phase (task_Status t) = PhaseCompleted \/
  (st_Phase (task_Status t) = PhaseFailed /\
   spec_Retries (task_Spec t) <= st_RetryCount (task_Status t)).

(** What users, the kubelet and other controllers may do: anything to pods, and
    create, delete and change tasks.  Of the writes that leave the generation alone,
    nobody can add a finalizer to a task marked for deletion (the server's rule), and
    the statuses that tenants may write do not take a task in a final phase back
    (an assumption: [reopened_task_forgotten] shows what happens otherwise). *)
Definition task_env (w w' : W) : Prop :=
  forall k t t', tasks w !! k = Some t -> tasks w' !! k = Some t' ->
    generation_changed t t' \/
    (task_Spec t' = task_Spec t /\ (phase_final t -> phase_final t') /\
     om_DeletionTimestamp (task_Meta t') = om_DeletionTimestamp (task_Meta t) /\
     (om_DeletionTimestamp (task_Meta t) <> None ->
      om_Finalizers (task_Meta t') ⊆ om_Finalizers (task_Meta t))).

(** Nothing is left to do: the task is marked for deletion and released, or it
    completed, or it failed and its retries are used up. *)
Definition task_settled (t : CloudTask) : Prop :=
  match om_DeletionTimestamp (task_Meta t) with
  | Some _ => cloudTaskFinalizerKey ∉ om_Finalizers (task_Meta t)
  | None => phase_final t
  end.

Lemma after_again s : 0 < s -> again (E := api_error) (Ret (after s, None)).
Proof. intros. simpl. assert (Second = 1000000000) by done. lia. Qed.

Lemma ensurePod_again t w : again (ensurePod t w).1.
Proof.
  unfold ensurePod. case_decide; [|by apply after_again].
  destruct (SetControllerReference t (constructPod t)) as [e|p]; [done|].
  rewrite lift_bind. destruct (c_create p w) as [[e|p'] w1]; [done|].
  rewrite lift_unit_bind, lift_bind. destruct (clock_now _) as [now w2].
  rewrite lift_bind. destruct (c_update_status _ w2) as [[e|t'] w3]; [done|].
  by apply after_again.
Qed.

Lemma handlePhase_settles t w h w' :
  om_DeletionTimestamp (task_Meta t) = None -> tasks w !! task_key t = Some t ->
  handlePhase t w = (Ret (Some h), w') ->
  again (Ret h) \/ (tasks w' !! task_key t = Some t /\ task_settled t).
Proof.
  intros Hd Ht. unfold handlePhase, task_settled, phase_final. rewrite Hd.
  case_decide; [intros [= <- <-]; right; rewrite (proj1 (event_view _ _ _ _)); auto|].
  case_decide; [|case_decide; [intros [= <- <-]; left; by apply after_again|done]].
  case_decide; [|intros [= <- <-]; right; rewrite (proj1 (event_view _ _ _ _));
    split; [done|right; split; [done|lia]]].
  rewrite lift_unit_bind, lift_bind. destruct (c_update_status _ _) as [[e|t'] w1];
    intros [= <- <-]; left; [done|by apply after_again].
Qed.

Lemma react_settles t w o w' :
  om_DeletionTimestamp (task_Meta t) = None -> tasks w !! task_key t = Some t ->
  (h ← handlePhase t;
   match h with Some res => mret res | None => mret (after 30, None) end) w = (o, w') ->
  ~ again o -> tasks w' !! task_key t = Some t /\ task_settled t.
Proof.
  intros Hd Ht E Ha. destruct (handlePhase_effect t w Ht) as (h & w1 & Eh & _).
  rewrite (GoM_bind_ret _ _ _ _ _ Eh) in E. destruct h as [h|]; injection E as <- <-.
  - by destruct (handlePhase_settles _ _ _ _ Hd Ht Eh).
  - destruct Ha. by apply after_again.
Qed.

Lemma reconcilePod_settles t pod w o w' :
  om_DeletionTimestamp (task_Meta t) = None -> tasks w !! task_key t = Some t ->
  reconcilePod t pod w = (o, w') -> ~ again o ->
  exists t', tasks w' !! task_key t = Some t' /\ task_settled t'.
Proof.
  intros Hd Ht E Ha. unfold reconcilePod in E.
  destruct (updateStatusFromPod_frame t pod w)
    as (b & t1 & w1 & Eu & Ht1 & _ & Hm & Hsp & _ & _ & Hb).
  rewrite (GoM_bind_ret _ _ _ _ _ Eu) in E.
  assert (t1 = set_status (task_Status t1) t) as Et1 by (destruct t1, t; simpl in *; by subst).
  assert (task_key t1 = task_key t) as Hk by (unfold task_key; by rewrite Hm).
  assert (om_DeletionTimestamp (task_Meta t1) = None) as Hd1 by (by rewrite Hm).
  rewrite <- Hk. destruct b; cycle 1.
  - specialize (Hb eq_refl) as ->. rewrite GoM_mret_bind in E.
    exists t. eapply (react_settles t w1); [done|congruence|exact E|done].
  - rewrite lift_bind in E. destruct (c_update_status t1 w1) as [r w2] eqn:Hu.
    rewrite Et1 in Hu. apply update_status_current in Hu as [_ Hr]; [|congruence].
    rewrite <- Et1 in Hr. destruct r as [e|t2]; [injection E as <- <-; by destruct Ha|].
    destruct Hr as [-> Hr]. exists t1. eapply (react_settles t1 w2); [done| |exact E|done].
    rewrite Hr, Hk. apply lookup_insert_eq.
Qed.

Lemma reconcileLive_settles t w o w' :
  om_DeletionTimestamp (task_Meta t) = None -> tasks w !! task_key t = Some t ->
  reconcileLive t w = (o, w') -> ~ again o ->
  exists t', tasks w' !! task_key t = Some t' /\ task_settled t'.
Proof.
  intros Hd Ht. unfold reconcileLive.
  assert (forall w1, ensurePod t w1 = (o, w') -> ~ again o ->
    exists t', tasks w' !! task_key t = Some t' /\ task_settled t') as Hens.
  { intros w1 E []. pose proof (ensurePod_again t w1) as Ha. by rewrite E in Ha. }
  case_decide; [|by apply Hens].
  rewrite lift_bind. destruct (c_get _ w) as [r w1] eqn:Hg.
  apply get_pod_view in Hg as (Ht1 & _ & _).
  destruct r as [[| |m]|pod]; [by apply Hens|by intros [= <- <-] []..|].
  case_decide; [|by apply Hens]. apply reconcilePod_settles; [done|congruence].
Qed.

(** The deletion branch, and the whole handler. *)
Lemma reconcileDelete_settles t w o w' t' :
  om_DeletionTimestamp (task_Meta t) <> None -> tasks w !! task_key t = Some t ->
  reconcileDelete t w = (o, w') -> ~ again o -> tasks w' !! task_key t = Some t' ->
  task_settled t'.
Proof.
  intros Hd Ht. unfold reconcileDelete, task_settled.
  destruct (ContainsFinalizer t _) eqn:Hf; cycle 1.
  { intros [= <- <-] _ Ht'. assert (t' = t) as -> by congruence.
    destruct (om_DeletionTimestamp (task_Meta t)); [|done]. by apply bool_decide_eq_false in Hf. }
  destruct (deleteExternalResources_effect t w) as (e & w1 & E & Ht1 & _).
  rewrite (GoM_bind_ret _ _ _ _ _ E). destruct e as [e|]; [by intros [= <- <-] []|].
  rewrite lift_bind. destruct (c_update _ w1) as [r w2] eqn:Hu.
  apply update_task_view in Hu as [_ Hr]. destruct r as [e|t2]; [by intros [= <- <-] []|].
  intros [= <- <-] _ Ht'. destruct Hr as (old & Hold & (Hfin & Hdel & _) & _ & Hs).
  change (task_key (RemoveFinalizer _ t)) with (task_key t) in *.
  assert (old = t) as -> by congruence. rewrite Hs in Ht'.
  destruct (obj_gone t2); [by rewrite lookup_delete_eq in Ht'|].
  rewrite lookup_insert_eq in Ht'. injection Ht' as <-. rewrite Hdel.
  destruct (om_DeletionTimestamp (task_Meta t)); [|done].
  rewrite Hfin. simpl. rewrite list_elem_of_filter. naive_solver.
Qed.

Lemma Reconcile_settles k w o w' t' :
  Reconcile k w = (o, w') -> ~ again o -> tasks w' !! k = Some t' -> task_settled t'.
Proof.
  unfold Reconcile. rewrite lift_bind. destruct (c_get k w) as [r w1] eqn:Hg.
  apply get_task_view in Hg as (Ht1 & _ & Hr).
  destruct r as [[| |m]|t]; [|by intros [= <- <-] []..|].
  { intros [= <- <-] _ Ht'. congruence. }
  assert (task_key t = k) as <- by exact (c_store_key (T := CloudTask) w k t Hr).
  rewrite <- Ht1 in Hr. case_decide as Hd; [by apply reconcileDelete_settles|].
  assert (om_DeletionTimestamp (task_Meta t) = None) as Hd0
    by (by destruct (om_DeletionTimestamp (task_Meta t)); [destruct Hd|]).
  intros E Ha Ht'. destruct (ContainsFinalizer t _).
  { destruct (reconcileLive_settles t w1 o w' Hd0 Hr E Ha) as (t2 & Ht2 & ?).
    by assert (t2 = t') as -> by congruence. }
  rewrite lift_bind in E. destruct (c_update _ w1) as [r w2] eqn:Hu.
  apply update_task_view in Hu as [_ Hr2]. destruct r as [e|t2].
  { injection E as <- <-. by destruct Ha. }
  destruct Hr2 as (old & Hold & Hupd & Hk & Hs).
  change (task_key (AddFinalizer _ t)) with (task_key t) in *.
  assert (old = t) as -> by congruence.
  destruct (AddFinalizer_updated _ _ Hupd Hk Hd0) as [_ Hng]. rewrite Hng in Hs.
  destruct (reconcileLive_settles t2 w2 o w') as (t3 & Ht3 & ?); [|by rewrite Hs, Hk, lookup_insert_eq|done..|].
  { destruct Hupd as (_ & -> & _). done. }
  rewrite Hk in Ht3. by assert (t3 = t') as -> by congruence.
Qed.

Lemma Reconcile_elsewhere k w o w' k' :
  owner_refs_ok CloudTask -> Reconcile k w = (o, w') -> k' <> k -> tasks w' !! k' = tasks w !! k'.
Proof.
  intros Hown E Hne. destruct (tasks w !! k) as [t|] eqn:Ht.
  - destruct (Reconcile_effect k w t Hown Ht) as (res & w2 & E' & He).
    rewrite E in E'. injection E' as _ <-.
    destruct He as [t' _ _ [->|(s & -> & _)] _|_ [->|[->|(t' & -> & _)]] _]; try done;
      by rewrite ?lookup_insert_ne, ?lookup_delete_ne.
  - revert E. unfold Reconcile. rewrite lift_bind. destruct (c_get k w) as [r w1] eqn:Hg.
    apply get_task_view in Hg as (Ht1 & _ & Hr).
    destruct r as [[| |m]|t]; [intros [= _ <-]; by rewrite Ht1..|congruence].
Qed.

Lemma task_settling_ok :
  owner_refs_ok CloudTask -> Settling tasks Reconcile task_passes task_env task_settled.
Proof.
  intros Hown. split.
  - intros k w o w' k'. by apply Reconcile_elsewhere.
  - apply Reconcile_settles.
  - intros w w' k t t' He Hk Hk' Hs.
    destruct (He k t t' Hk Hk') as [?|(Hsp & Hst & Hd & Hfin)]; [by left|right].
    unfold task_settled in *. rewrite Hd. destruct (om_DeletionTimestamp _); [|by auto].
    intros ?. apply Hs. by apply Hfin.
Qed.

(** C21: no task is forgotten.  In every history of the cluster and the operator's
    work queue in which nobody else takes the status of a completed or finally failed
    task back (tenants are allowed to), although the filter drops every event of a pod
    and every change of a status, a stored task is in the queue, now or after a delay, unless there is
    nothing left to do for it: it completed, or failed with its retries used up,
    or is marked for deletion and released by the operator. *)
Theorem no_task_forgotten (w0 w : W) (Q : gset NamespacedName) :
  owner_refs_ok CloudTask ->
  rtc (loop_step tasks Reconcile task_passes task_env) (w0, dom (tasks w0)) (w, Q) ->
  forall k t, tasks w !! k = Some t -> k ∈ Q \/ task_settled t.
Proof.
  intros Hown Hrun. pose proof (task_settling_ok Hown). exact (queue_covers _ _ _ _ _ _ Hrun).
Qed.
End CloudTasks.

(** ** The TaskJob operator *)

Section TaskJobs.
Context {K : K8sTypes} {TF : TimeFormat} {W : Type}.
Context `{!Client W TaskJob, !Client W Pod, !Clock W, !Recorder W, OR : !OwnerRefs TaskJob}.
Context `{LJ : !ClientLaws W TaskJob, LP : !ClientLaws W Pod}.
Context `{FJP : !ClientFrame W TaskJob Pod c_store, FPJ : !ClientFrame W Pod TaskJob c_store}.
Context `{EJ : !EnvFrame W TaskJob c_store, EP : !EnvFrame W Pod c_store}.

Abbreviation jobs := (c_store (T := TaskJob)).

(** Of the updates, those that change the phase are enough. *)
Definition job_passes (j j' : TaskJob) : Prop :=
  filter_passes (cs_Filter taskjob_controller)
    (job_Spec j' <> job_Spec j) (job_phase j' <> job_phase j).

(** Others may do anything to the cluster. *)
Definition job_env (w w' : W) : Prop := True.

Lemma finish_settles s j ok w o w' j' :
  jobs w !! job_key j = Some j -> finish (set_job_status s j) ok w = (o, w') ->
  ~ again o -> jobs w' !! job_key j = Some j' ->
  0 < RequeueAfter ok \/ jst_Phase s = JobCompleted \/ jst_Phase s = JobFailed -> terminal j'.
Proof.
  intros Hj. unfold finish. rewrite lift_bind. destruct (c_update_status _ w) as [r w1] eqn:Hu.
  apply update_job_status in Hu as [_ Hr]; [|done].
  destruct r as [e|j1]; [by intros [= <- <-] []|]. intros [= <- <-] Ha Hj' [?|Ht]; [done|].
  rewrite Hr, lookup_insert_eq in Hj'. by injection Hj' as <-.
Qed.

Lemma syncStatus_settles j pod w o w' j' :
  jobs w !! job_key j = Some j -> syncStatus j pod w = (o, w') -> ~ again o ->
  jobs w' !! job_key j = Some j' -> terminal j'.
Proof.
  intros Hj E Ha Hj'. destruct (phase_of_pod (pst_Phase (pod_Status pod))) as [ph|] eqn:Hph.
  - destruct (syncStatus_finish j pod w ph Hph) as (s & ok & w1 & Es & [Hj1 _] & Hs & Hrq & _ & Hpos).
    rewrite Es in E. eapply (finish_settles s j ok w1); eauto; [congruence|].
    destruct (decide (RequeueAfter ok = 0)) as [Hz|?]; [right|left; lia].
    rewrite Hs. by apply Hrq.
  - unfold phase_of_pod, syncStatus in *. repeat (case_decide; simplify_eq).
    injection E as <- <-. by destruct Ha.
Qed.

Lemma startPod_settles j w o w' j' :
  jobs w !! job_key j = Some j -> startPod j w = (o, w') -> ~ again o ->
  jobs w' !! job_key j = Some j' -> owner_refs_ok TaskJob -> terminal j'.
Proof.
  intros Hj E Ha Hj' Hown. unfold startPod in E.
  case_decide; [eapply finish_settles; eauto|].
  pose proof (buildPod_cases j Hown) as Hb. destruct (buildPod j) as [pod|e];
    [|injection E as <- <-; by destruct Ha].
  rewrite lift_bind in E. destruct (c_create pod w) as [r w1] eqn:Hc. destruct r as [e|p].
  - rewrite lift_bind in E. destruct (c_update_status _ w1) as [[e2|j2] w2];
      injection E as <- <-; by destruct Ha.
  - pose proof (frame_create (T := Pod) (st := jobs) pod w) as F. rewrite Hc in F. simpl in F.
    eapply (finish_settles _ j (requeue 5) w1); eauto; [congruence|]. by left.
Qed.

Lemma tj_Reconcile_settles k w o w' j' :
  owner_refs_ok TaskJob -> tj_Reconcile k w = (o, w') -> ~ again o ->
  jobs w' !! k = Some j' -> terminal j'.
Proof.
  intros Hown E Ha Hj'. unfold tj_Reconcile in E. rewrite lift_bind in E.
  destruct (c_get k w) as [r w1] eqn:Hg. apply get_job_view in Hg as [[Hj1 _] Hr].
  destruct r as [[| |]|j]; [injection E as <- <-; congruence|
    injection E as <- <-; by destruct Ha..|].
  assert (job_key j = k) as <- by exact (c_store_key (T := TaskJob) w k j Hr).
  case_decide as Hterm; [injection E as <- <-; by assert (j' = j) as -> by congruence|].
  destruct (checkDependencies_spec (job_Namespace j) (js_DependsOn (job_Spec j)) w1)
    as (b & e & w2 & Ed & [Hj2 _] & _).
  rewrite (GoM_bind_ret _ _ _ _ _ Ed) in E. destruct e as [err|];
    [injection E as <- <-; by destruct Ha|].
  destruct b; [|eapply (finish_settles _ j (requeue 10) w2); eauto; [congruence|by left]].
  destruct (findPod_spec j w2) as (r & w3 & Ef & [Hj3 _] & _).
  rewrite (GoM_bind_ret _ _ _ _ _ Ef) in E. destruct r as [err|[pod|]];
    [injection E as <- <-; by destruct Ha| |].
  - eapply (syncStatus_settles j pod w3); eauto. congruence.
  - eapply (startPod_settles j w3); eauto. congruence.
Qed.

Lemma tj_Reconcile_elsewhere k w o w' k' :
  owner_refs_ok TaskJob -> tj_Reconcile k w = (o, w') -> k' <> k -> jobs w' !! k' = jobs w !! k'.
Proof.
  intros Hown E Hne. destruct (jobs w !! k) as [j|] eqn:Hj;
    [|by destruct (tj_Reconcile_absent _ _ _ _ Hj E) as [-> _]].
  assert (job_key j = k) as Hk by exact (c_store_key (T := TaskJob) w k j Hj).
  assert (job_moved j (fun _ => True) (jobs w) (jobs w')) as [->|(s & _ & ->)]; [|done|].
  { destruct (tj_Reconcile_effect k w j o w' Hown Hj E) as [[-> _]|_ _ _ Hm _|_ _ _ Hm _];
      [by left|by eapply job_moved_weaken; [|exact Hm]..]. }
  by rewrite lookup_insert_ne by congruence.
Qed.

Lemma job_settling_ok :
  owner_refs_ok TaskJob -> Settling jobs tj_Reconcile job_passes job_env terminal.
Proof.
  intros Hown. split.
  - intros k w o w' k'. by apply tj_Reconcile_elsewhere.
  - intros k w o w' t. by apply tj_Reconcile_settles.
  - intros w w' k j j' _ _ _ Ht. unfold job_passes. simpl.
    destruct (decide (job_phase j' = job_phase j)) as [E|]; [|by left].
    right. unfold terminal in *. by rewrite E.
Qed.

(** no job is forgotten.  Whatever happens to the cluster, a stored job is in the
    work queue of the operator, now or after a delay, unless it has completed or
    failed: waiting for dependencies, a pod that cannot be created and a panic of
    the controller all lead to another look. *)
Theorem no_job_forgotten (w0 w : W) (Q : gset NamespacedName) :
  owner_refs_ok TaskJob ->
  rtc (loop_step jobs tj_Reconcile job_passes job_env) (w0, dom (jobs w0)) (w, Q) ->
  forall k j, jobs w !! k = Some j -> k ∈ Q \/ terminal j.
Proof.
  intros Hown Hrun. pose proof (job_settling_ok Hown). exact (queue_covers _ _ _ _ _ _ Hrun).
Qed.
End TaskJobs.

(** ** The queues at work on the in-memory server *)

Section Witnesses.
#[local] Existing Instance webhook_admission.

Definition w_succeeded : MemWorld := ex_world [t_failed] [ex_pod "t1-pod" "ns" PodSucceeded ∅].
Definition w_completed : MemWorld := (Reconcile ex_key w_succeeded).2.
Definition t_completed : CloudTask := default t_failed (c_store w_completed !! ex_key).

Lemma w_succeeded_store : c_store w_succeeded = {[ex_key := t_failed]}.
Proof. reflexivity. Qed.
Lemma w_completed_store : c_store w_completed = {[ex_key := t_completed]}.
Proof. reflexivity. Qed.

(** The call that completes a task takes it out of the queue. *)
Lemma w_completed_step env :
  loop_step c_store Reconcile task_passes env
    (w_succeeded, dom (c_store (T := CloudTask) w_succeeded)) (w_completed, ∅).
Proof.
  eapply (loop_reconcile _ _ _ _ ex_key).
  - rewrite w_succeeded_store. set_solver.
  - apply surjective_pairing.
  - rewrite w_succeeded_store. set_solver.
  - intros k'. change (Reconcile ex_key w_succeeded).2 with w_completed.
    unfold delivered. rewrite w_succeeded_store, w_completed_store.
    destruct (decide (k' = ex_key)) as [->|Hne].
    + rewrite !lookup_singleton_eq. intros [Hc|Hc]; destruct Hc; reflexivity.
    + rewrite !lookup_singleton_ne by done. done.
  - intros Ha. exfalso. revert Ha. vm_compute. discriminate.
Qed.

Lemma no_task_forgotten_witness :
  c_store w_completed !! ex_key = Some t_completed /\ task_settled t_completed.
Proof.
  split; [reflexivity|].
  destruct (no_task_forgotten w_succeeded w_completed ∅ mem_owner_task_ok)
    with (k := ex_key) (t := t_completed) as [Hin|Hs]; [|reflexivity|set_solver|exact Hs].
  apply rtc_once, w_completed_step.
Defined.

(** The condition on others is needed.  A tenant sets the status of the completed task
    back to Pending: the generation stays as it is, the filter drops the event, and the
    task is neither queued nor settled. *)
Definition t_reopened : CloudTask := set_status (ex_status PhasePending "" 0) t_completed.
Definition w_reopened : MemWorld := ex_world [t_reopened] (mw_pods w_completed).

Lemma w_reopened_store : c_store w_reopened = {[ex_key := t_reopened]}.
Proof. reflexivity. Qed.

Lemma reopened_task_forgotten :
  rtc (loop_step c_store Reconcile task_passes (fun _ _ => True))
    (w_succeeded, dom (c_store (T := CloudTask) w_succeeded)) (w_reopened, ∅) /\
  c_store w_reopened !! ex_key = Some t_reopened /\ ~ task_settled t_reopened.
Proof.
  split_and!; [|reflexivity|intros [Hs|[Hs _]]; vm_compute in Hs; discriminate].
  eapply rtc_l; [apply w_completed_step|]. apply rtc_once, loop_env; [done|done|].
  intros k. unfold delivered. rewrite w_completed_store, w_reopened_store.
  destruct (decide (k = ex_key)) as [->|Hne].
  - rewrite !lookup_singleton_eq. intros [Hc|Hc]; destruct Hc; reflexivity.
  - by rewrite !lookup_singleton_ne.
Qed.

(** The call that starts a job leaves it in the queue. *)
Lemma no_job_forgotten_witness :
  exists j, c_store (tj_Reconcile ("ns", "a") w_fresh).2 !! ("ns", "a") = Some j /\
    (("ns", "a") ∈ ({[("ns", "a")]} : gset NamespacedName) \/ terminal j).
Proof.
  exists j_started. split; [reflexivity|].
  apply (no_job_forgotten w_fresh (tj_Reconcile ("ns", "a") w_fresh).2 {[("ns", "a")]} mem_owner_job_ok);
    [|reflexivity].
  change (c_store w_fresh) with ({[("ns", "a") := j_new]} : gmap NamespacedName TaskJob).
  apply rtc_once. eapply (loop_reconcile _ _ _ _ ("ns", "a")).
  - rewrite dom_singleton_L. set_solver.
  - apply surjective_pairing.
  - rewrite dom_singleton_L. set_solver.
  - intros k'. unfold delivered.
    change (c_store w_fresh) with ({[("ns", "a") := j_new]} : gmap NamespacedName TaskJob).
    change (c_store (tj_Reconcile ("ns", "a") w_fresh).2)
      with ({[("ns", "a") := j_started]} : gmap NamespacedName TaskJob).
    destruct (decide (k' = ("ns", "a"))) as [->|Hne]; [set_solver|].
    rewrite !lookup_singleton_ne by done. done.
  - set_solver.
Defined.
End Witnesses.
