(* ===== verification/Memory.v ===== *)
(** * Memory with pointers, slices and maps, and what a deep copy is

    The generated [DeepCopy] methods are about aliasing, so they are modelled on a
    store: a heap maps locations to cells, a pointer is an optional location, a
    slice an optional window of an array, a map an optional location.

    [DeepView T V] gives, for a Go type [T], the value [V] a piece of data denotes in
    a heap ([None] when it dangles) and the locations it reaches; both depend on the
    reached locations only.  [copies share copy] is the contract of a copying
    function: it always returns, only allocates, its result denotes the same value
    and reaches new locations only, apart from those of [share], which original and
    copy both reach.  The contract is
    closed under pairs, lists, slices, pointers and structures, which is how the
    methods of [DeepCopy] are put together. *)

From stdpp Require Import infinite.
From S2P Require Import Prelude Kube.

(** A window of an array of [T]s, and a pointer to a [T]. *)
Record slice (T : Type) := { gs_arr : nat; gs_off : nat; gs_len : nat }.
Arguments gs_arr {T}. Arguments gs_off {T}. Arguments gs_len {T}.
Record ptr (T : Type) := { gp_loc : nat }.
Arguments gp_loc {T}.

Section Memory.
Context {C : Type}.

Abbreviation heap := (gmap nat C).

Class Cell (T : Type) := {
  to_cell : T -> C;
  of_cell : C -> option T;
  of_to_cell x : of_cell (to_cell x) = Some x
}.

Class DeepView (T V : Type) := {
  view : heap -> T -> option V;
  reach : heap -> T -> gset nat;
  view_local h h' x v :
    view h x = Some v -> (forall l, l ∈ reach h x -> h' !! l = h !! l) ->
    view h' x = Some v /\ reach h' x = reach h x;
  reach_dom h x v : view h x = Some v -> reach h x ⊆ dom h
}.
Hint Mode DeepView ! - : typeclass_instances.

Lemma view_grows {T V} `{!DeepView T V} (h h' : heap) (x : T) v :
  view h x = Some v -> h ⊆ h' -> view h' x = Some v /\ reach h' x = reach h x.
Proof.
  intros Hv Hh. apply (view_local h); [done|]. intros l Hl.
  apply (reach_dom h x v Hv), elem_of_dom in Hl as [c Hc]. rewrite Hc. by eapply lookup_weaken.
Qed.

(** ** Allocation and reading *)

Definition alloc {T} `{!Cell T} (x : T) : GoM heap nat := fun h =>
  let l := fresh (dom h) in (Ret l, <[l := to_cell x]> h).

Definition deref_panic : string := "invalid memory address or nil pointer dereference".

Definition load {T} `{!Cell T} (l : nat) : GoM heap T := fun h =>
  match h !! l ≫= of_cell with
  | Some x => (Ret x, h)
  | None => (Panic deref_panic, h)
  end.

Lemma alloc_run {T} `{!Cell T} (x : T) (h : heap) :
  exists l, alloc x h = (Ret l, <[l := to_cell x]> h) /\ l ∉ dom h.
Proof. eexists. split; [done|]. apply is_fresh. Qed.

Lemma load_run {T} `{!Cell T} (l : nat) (x : T) (h : heap) :
  h !! l ≫= of_cell = Some x -> load l h = (Ret x, h).
Proof. intros E. unfold load. by rewrite E. Qed.

(** ** The contract of a copy *)

Definition nothing {T} (_ : heap) (_ : T) : gset nat := ∅.

Section Contract.
Context {T V : Type} `{!DeepView T V}.

Definition stable (share : heap -> T -> gset nat) : Prop :=
  forall h h' x v, view h x = Some v -> h ⊆ h' -> share h' x = share h x.

Definition copies (share : heap -> T -> gset nat) (copy : T -> GoM heap T) : Prop :=
  stable share /\
  forall x h v, view h x = Some v ->
    exists y h', copy x h = (Ret y, h') /\ h ⊆ h' /\ view h' y = Some v /\
      reach h' y ⊆ (dom h' ∖ dom h) ∪ share h x /\ share h x ⊆ reach h x ∩ reach h' y.

Lemma copies_ext share share' copy :
  stable share' -> (forall h x, share h x = share' h x) ->
  copies share copy -> copies share' copy.
Proof.
  intros Hst Heq [_ Hc]. split; [done|]. intros x h v Hv. rewrite <-Heq. by apply Hc.
Qed.

Lemma stable_reach : stable reach.
Proof. intros h h' x v Hv Hh. by apply (view_grows h h' x v). Qed.

(** [*out = *in] shares everything. *)
Lemma assignment_copies : copies reach mret.
Proof.
  split; [apply stable_reach|]. intros x h v Hv. exists x, h.
  split_and!; [done|done|done|set_solver..].
Qed.

(** Writing outside what a piece of data reaches does not change it. *)
Lemma view_write h (x : T) v l c :
  view h x = Some v -> l ∉ reach h x -> view (<[l := c]> h) x = Some v.
Proof.
  intros Hv Hl. apply (view_local h); [done|]. intros l' Hl'.
  apply lookup_insert_ne. congruence.
Qed.

(** Original and copy after the copy. *)
Lemma copies_independent share copy (x : T) h v :
  copies share copy -> view h x = Some v ->
  exists y h', copy x h = (Ret y, h') /\ view h' x = Some v /\ view h' y = Some v /\
    reach h' x ∩ reach h' y = share h x /\
    (forall l c, l ∈ reach h' y -> l ∉ share h x -> view (<[l := c]> h') x = Some v) /\
    (forall l c, l ∈ reach h' x -> l ∉ share h x -> view (<[l := c]> h') y = Some v).
Proof.
  intros [_ Hcp] Hv. destruct (Hcp x h v Hv) as (y & h' & E & Hh & Hy & Hr & Hs).
  destruct (view_grows h h' x v Hv Hh) as [Hx Hrx].
  pose proof (reach_dom h x v Hv) as Hd.
  exists y, h'. split_and!; [done..|set_solver| |]; intros l c Hl Hns; apply view_write; try done; set_solver.
Qed.
End Contract.

(** ** Plain data *)

Definition plain_view {T} : DeepView T T.
Proof.
  refine {| view := fun _ x => Some x; reach := fun _ _ => ∅ |}; [done|set_solver].
Defined.

(** ** Pairs *)

#[export] Instance pair_view {A VA B VB} `{!DeepView A VA, !DeepView B VB}
    : DeepView (A * B) (VA * VB).
Proof.
  refine {| view := fun h x => va ← view h x.1; vb ← view h x.2; Some (va, vb);
            reach := fun h x => reach h x.1 ∪ reach h x.2 |}.
  - intros h h' [a b] [va vb] Hv Hl. simpl in *.
    destruct (view h a) as [va'|] eqn:Ha; [|done]. destruct (view h b) as [vb'|] eqn:Hb; [|done].
    destruct (view_local h h' a va' Ha) as [-> ->]; [set_solver|].
    destruct (view_local h h' b vb' Hb) as [-> ->]; [set_solver|]. done.
  - intros h [a b] [va vb] Hv. simpl in *.
    destruct (view h a) as [va'|] eqn:Ha; [|done]. destruct (view h b) as [vb'|] eqn:Hb; [|done].
    pose proof (reach_dom h a va' Ha). pose proof (reach_dom h b vb' Hb). set_solver.
Defined.

(** Plain data is copied by assignment. *)
Lemma plain_copies {T} : @copies T T plain_view nothing mret.
Proof.
  split; [done|]. intros x h v Hv. exists x, h. split_and!; [done..|set_solver|set_solver].
Qed.

Definition copy_pair {A B} (ca : A -> GoM heap A) (cb : B -> GoM heap B) (x : A * B)
    : GoM heap (A * B) :=
  a ← ca x.1; b ← cb x.2; mret (a, b).

Definition share_pair {A B} (sa : heap -> A -> gset nat) (sb : heap -> B -> gset nat)
    (h : heap) (x : A * B) : gset nat := sa h x.1 ∪ sb h x.2.

Lemma pair_view_Some {A VA B VB} `{!DeepView A VA, !DeepView B VB} h (x : A * B) v :
  view h x = Some v <-> view h x.1 = Some v.1 /\ view h x.2 = Some v.2.
Proof.
  simpl. destruct (view h x.1), (view h x.2), v; simpl; naive_solver.
Qed.

Lemma copies_pair {A VA B VB} `{!DeepView A VA, !DeepView B VB} sa sb ca cb :
  copies sa ca -> copies sb cb -> copies (T := A * B) (share_pair sa sb) (copy_pair ca cb).
Proof.
  intros [Hsa Ha] [Hsb Hb]. split.
  { intros h h' x v [H1 H2]%pair_view_Some Hh. unfold share_pair.
    by rewrite (Hsa _ _ _ _ H1 Hh), (Hsb _ _ _ _ H2 Hh). }
  intros [a b] h [va vb] [H1 H2]%pair_view_Some. simpl in *.
  destruct (Ha a h va H1) as (a' & h1 & Ea & Hh1 & Hva & Hra & Hsa').
  destruct (view_grows h h1 b vb H2 Hh1) as [H2' Hrb'].
  destruct (Hb b h1 vb H2') as (b' & h2 & Eb & Hh2 & Hvb & Hrb & Hsb').
  destruct (view_grows h1 h2 a' va Hva Hh2) as [Hva2 Hra2].
  pose proof (subseteq_dom _ _ Hh1) as Hd1. pose proof (subseteq_dom _ _ Hh2) as Hd2.
  exists (a', b'), h2. unfold copy_pair, share_pair. simpl.
  rewrite (GoM_bind_ret _ _ _ _ _ Ea), (GoM_bind_ret _ _ _ _ _ Eb).
  rewrite Hra2. rewrite (Hsb _ _ _ _ H2 Hh1) in Hrb, Hsb'. rewrite Hrb' in Hsb'.
  split_and!; [done|by etrans|by rewrite Hva2, Hvb|set_solver +Hra Hrb Hd1 Hd2|set_solver +Hsa' Hsb'].
Qed.

(** ** Structures: plain fields, and the fields that refer to memory *)

Definition struct_view {S P T V} `{!DeepView T V} (plain : S -> P) (refs : S -> T)
    : DeepView S (P * V).
Proof.
  refine {| view := fun h x => v ← view h (refs x); Some (plain x, v);
            reach := fun h x => reach h (refs x) |}.
  - intros h h' x [p v] Hv Hl. destruct (view h (refs x)) as [v'|] eqn:E; [|done].
    by destruct (view_local h h' (refs x) v' E Hl) as [-> ->].
  - intros h x [p v] Hv. destruct (view h (refs x)) as [v'|] eqn:E; [|done]. by eapply reach_dom.
Defined.

Lemma copies_struct {S P T V} `{!DeepView T V} (plain : S -> P) (refs : S -> T)
    (set : S -> T -> S) (share : heap -> T -> gset nat) copy copyS :
  (forall x t, refs (set x t) = t) -> (forall x t, plain (set x t) = plain x) ->
  copies share copy ->
  (forall x h, copyS x h = (t ← copy (refs x); mret (set x t)) h) ->
  @copies S _ (struct_view plain refs) (fun h x => share h (refs x)) copyS.
Proof.
  intros Hrefs Hplain [Hst Hc] HS. split.
  - intros h h' x v Hv Hh. simpl in Hv. destruct (view h (refs x)) eqn:E; [|done].
    by eapply Hst.
  - intros x h [p v] Hv. simpl in Hv. destruct (view h (refs x)) as [v'|] eqn:E; [|done].
    simplify_eq/=. destruct (Hc (refs x) h v E) as (t & h' & Et & Hh & Ht & Hr & Hs).
    exists (set x t), h'. rewrite HS, (GoM_bind_ret _ _ _ _ _ Et). simpl.
    rewrite Hrefs, Ht, Hplain. by split_and!.
Qed.

(** ** Lists: the elements of an array *)

Section Lists.
Context {T V : Type} `{!DeepView T V}.

Definition reach_list (f : heap -> T -> gset nat) (h : heap) (xs : list T) : gset nat :=
  ⋃ (f h <$> xs).

Lemma reach_list_cons f h x xs : reach_list f h (x :: xs) = f h x ∪ reach_list f h xs.
Proof. done. Qed.

#[export] Instance list_view : DeepView (list T) (list V).
Proof.
  refine {| view := fun h xs => mapM (view h) xs; reach := reach_list reach |}.
  - intros h h' xs. induction xs as [|x xs IH]; intros vs Hv Hl; simpl in *; [by simplify_eq|].
    destruct (view h x) as [v|] eqn:Hx; [|done].
    destruct (mapM (view h) xs) as [vs'|] eqn:Hxs; [|done]. simplify_eq/=.
    rewrite reach_list_cons in *.
    destruct (view_local h h' x v Hx) as [-> ->]; [set_solver|].
    destruct (IH vs' eq_refl) as [-> ->]; [intros l Hin; apply Hl; set_solver|]. done.
  - intros h xs. induction xs as [|x xs IH]; intros vs Hv; simpl in *; [apply empty_subseteq|].
    destruct (view h x) as [v|] eqn:Hx; [|done].
    destruct (mapM (view h) xs) as [vs'|] eqn:Hxs; [|done].
    pose proof (reach_dom h x v Hx). pose proof (IH vs' eq_refl).
    rewrite reach_list_cons. set_solver.
Defined.

Lemma list_view_cons h x xs vs :
  view h (x :: xs) = Some vs <->
  exists v vs', vs = v :: vs' /\ view h x = Some v /\ view h xs = Some vs'.
Proof.
  simpl. destruct (view h x) as [v|]; simpl; [|by split; [|intros (? & ? & _ & ? & _)]].
  destruct (mapM (view h) xs) as [vs'|]; simpl; [|by split; [|intros (? & ? & _ & _ & ?)]].
  split; [intros [= <-]; eauto|]. by intros (? & ? & -> & [= <-] & [= <-]).
Qed.

Lemma stable_list share : stable share -> stable (T := list T) (reach_list share).
Proof.
  intros Hst h h' xs. induction xs as [|x xs IH]; intros vs; [done|].
  intros (v & vs' & -> & Hx & Hxs)%list_view_cons Hh.
  by rewrite !reach_list_cons, (Hst _ _ _ _ Hx Hh), (IH _ Hxs Hh).
Qed.

Lemma copies_list share (copy : T -> GoM heap T) :
  copies share copy -> copies (T := list T) (reach_list share) (mapM copy).
Proof.
  intros [Hst Hc]. pose proof (stable_list share Hst) as Hst'. split; [done|].
  intros xs. induction xs as [|x xs IH]; intros h vs Hv.
  { exists [], h. simpl in *. simplify_eq. split_and!; [done..|set_solver|set_solver]. }
  apply list_view_cons in Hv as (v & vs' & -> & Hx & Hxs).
  destruct (Hc x h v Hx) as (y & h1 & E1 & Hh1 & Hy & Hr1 & Hs1).
  destruct (view_grows h h1 xs vs' Hxs Hh1) as [Hxs1 Hrx1].
  destruct (IH h1 vs' Hxs1) as (ys & h2 & E2 & Hh2 & Hys & Hr2 & Hs2).
  destruct (view_grows h1 h2 y v Hy Hh2) as [Hy2 Hry2].
  exists (y :: ys), h2. simpl mapM.
  rewrite (GoM_bind_ret _ _ _ _ _ E1), (GoM_bind_ret _ _ _ _ _ E2).
  change (reach h2 (y :: ys)) with (reach h2 y ∪ reach h2 ys).
  change (reach h (x :: xs)) with (reach h x ∪ reach h xs).
  rewrite reach_list_cons, Hry2. rewrite (Hst' _ _ _ _ Hxs Hh1) in Hr2, Hs2. rewrite Hrx1 in Hs2.
  pose proof (subseteq_dom _ _ Hh1) as Hd1. pose proof (subseteq_dom _ _ Hh2) as Hd2.
  split_and!; [done|by etrans|apply list_view_cons; by do 2 eexists| |].
  - set_solver +Hr1 Hr2 Hd1 Hd2.
  - set_solver +Hs1 Hs2.
Qed.
End Lists.

(** ** Slices *)

Section Slices.
Context {T V : Type} `{!DeepView T V, !Cell (list T)}.

(** The elements of a slice: its window of the array. *)
Definition elements (h : heap) (s : slice T) : option (list T) :=
  xs ← h !! gs_arr s ≫= of_cell;
  if decide (gs_off s + gs_len s <= length xs)%nat
  then Some (take (gs_len s) (drop (gs_off s) xs)) else None.

#[export] Instance slice_view : DeepView (option (slice T)) (option (list V)).
Proof.
  refine {| view := fun h s => match s with
                               | None => Some None
                               | Some s => xs ← elements h s; Some <$> view h xs
                               end;
            reach := fun h s => match s with
                                | None => ∅
                                | Some s => {[gs_arr s]} ∪ reach h (default [] (elements h s))
                                end |}.
  - intros h h' [s|] v Hv Hl; [|done].
    assert (elements h' s = elements h s) as ->.
    { unfold elements. by rewrite (Hl (gs_arr s)) by set_solver. }
    destruct (elements h s) as [xs|]; [|done]. simpl in *.
    destruct (mapM (view h) xs) as [vs|] eqn:Hxs; [|done].
    change (mapM (view h) xs) with (view h xs) in Hxs.
    destruct (view_local h h' xs vs Hxs) as [Hv' Hr']; [set_solver|]. simpl in Hv', Hr'.
    by rewrite Hv', Hr'.
  - intros h [s|] v Hv; [|set_solver].
    destruct (elements h s) as [xs|] eqn:Es; [|done]. simpl in *.
    destruct (mapM (view h) xs) as [vs|] eqn:Hxs; [|done].
    pose proof (reach_dom h xs vs Hxs) as Hr. simpl in Hr.
    assert (gs_arr s ∈ dom h); [|set_solver].
    unfold elements in Es. apply elem_of_dom. destruct (h !! gs_arr s); [eauto|done].
Defined.

(** [make] and a loop that copies the elements; nil stays nil. *)
Definition copy_slice (copy : T -> GoM heap T) (s : option (slice T)) : GoM heap (option (slice T)) :=
  match s with
  | None => mret None
  | Some s =>
      arr ← load (T := list T) (gs_arr s);
      ys ← mapM copy (take (gs_len s) (drop (gs_off s) arr));
      a ← alloc ys;
      mret (Some {| gs_arr := a; gs_off := 0; gs_len := length ys |})
  end.

Definition share_slice (share : heap -> T -> gset nat) (h : heap) (s : option (slice T)) : gset nat :=
  match s with
  | None => ∅
  | Some s => reach_list share h (default [] (elements h s))
  end.

Lemma elements_new h a ys :
  h !! a = Some (to_cell ys) ->
  elements h {| gs_arr := a; gs_off := 0; gs_len := length ys |} = Some ys.
Proof.
  intros Ha. unfold elements. simpl. rewrite Ha. simpl. rewrite of_to_cell. simpl.
  rewrite decide_True by done. by rewrite drop_0, firstn_all.
Qed.

Lemma slice_view_Some h (s : slice T) v :
  view h (Some s) = Some v <->
  exists xs vs, elements h s = Some xs /\ view h xs = Some vs /\ v = Some vs.
Proof.
  simpl. destruct (elements h s) as [xs|]; simpl; [|by split; [|intros (? & ? & ? & _)]].
  destruct (mapM (view h) xs) as [vs|] eqn:Hxs; simpl.
  - split; [intros [= <-]; eauto|]. by intros (? & ? & [= <-] & E & ->); simplify_eq/=.
  - split; [done|]. intros (? & ? & [= <-] & E & _). by simplify_eq/=.
Qed.

Lemma elements_grows h h' (s : slice T) xs : elements h s = Some xs -> h ⊆ h' -> elements h' s = Some xs.
Proof.
  unfold elements. intros E Hh. destruct (h !! gs_arr s) as [c|] eqn:Ha; [|done].
  by rewrite (lookup_weaken _ _ _ _ Ha Hh).
Qed.

Lemma copies_slice share copy :
  copies share copy -> copies (T := option (slice T)) (share_slice share) (copy_slice copy).
Proof.
  intros Hc. destruct (copies_list share copy Hc) as [Hst Hcl]. split.
  - intros h h' [s|] v Hv Hh; [|done]. apply slice_view_Some in Hv as (xs & vs & Es & Hxs & ->).
    simpl. rewrite Es, (elements_grows _ _ _ _ Es Hh). simpl. by eapply Hst.
  - intros [s|] h v Hv; cycle 1.
    { exists None, h. simpl in *. simplify_eq. split_and!; [done..|set_solver|set_solver]. }
    apply slice_view_Some in Hv as (xs & vs & Es & Hxs & ->).
    destruct (Hcl xs h vs Hxs) as (ys & h1 & E1 & Hh1 & Hys & Hr1 & Hs1).
    destruct (alloc_run ys h1) as (a & Ea & Hfresh). apply not_elem_of_dom in Hfresh as Hna.
    set (h2 := <[a := to_cell ys]> h1) in *.
    assert (h1 ⊆ h2) as Hh2 by (by apply insert_subseteq).
    destruct (view_grows h1 h2 ys vs Hys Hh2) as [Hys2 Hr2].
    assert (elements h2 {| gs_arr := a; gs_off := 0; gs_len := length ys |} = Some ys) as En
      by (apply elements_new, lookup_insert_eq).
    eexists (Some _), h2. split_and!.
    + unfold copy_slice. unfold elements in Es.
      destruct (h !! gs_arr s ≫= of_cell) as [arr|] eqn:El; [|done]. simpl in Es.
      case_decide; [|done]. injection Es as <-.
      rewrite (GoM_bind_ret _ _ _ _ _ (load_run _ _ _ El)), (GoM_bind_ret _ _ _ _ _ E1),
        (GoM_bind_ret _ _ _ _ _ Ea). done.
    + by etrans.
    + apply slice_view_Some. by do 2 eexists.
    + simpl. rewrite En, Es. simpl. simpl in Hr2, Hr1. rewrite Hr2.
      pose proof (subseteq_dom _ _ Hh1). pose proof (subseteq_dom _ _ Hh2).
      assert (a ∈ dom h2) by (apply elem_of_dom; eexists; apply lookup_insert_eq). set_solver.
    + simpl. rewrite En, Es. simpl. simpl in Hr2, Hs1. rewrite Hr2. set_solver +Hs1.
Qed.
End Slices.

(** ** Pointers *)

Section Pointers.
Context {T V : Type} `{!DeepView T V, !Cell T}.

Definition target (h : heap) (p : ptr T) : option T := h !! gp_loc p ≫= of_cell.

#[export] Instance ptr_view : DeepView (option (ptr T)) (option V).
Proof.
  refine {| view := fun h p => match p with
                               | None => Some None
                               | Some p => x ← target h p; Some <$> view h x
                               end;
            reach := fun h p => match p with
                                | None => ∅
                                | Some p => {[gp_loc p]} ∪
                                    match target h p with Some x => reach h x | None => ∅ end
                                end |}.
  - intros h h' [p|] v Hv Hl; [|done].
    assert (target h' p = target h p) as ->.
    { unfold target. by rewrite (Hl (gp_loc p)) by set_solver. }
    destruct (target h p) as [x|]; [|done]. simpl in *.
    destruct (view h x) as [vx|] eqn:Hx; [|done].
    destruct (view_local h h' x vx Hx) as [-> ->]; [set_solver|]. done.
  - intros h [p|] v Hv; [|set_solver]. destruct (target h p) as [x|] eqn:Ep; [|done].
    simpl in *. destruct (view h x) as [vx|] eqn:Hx; [|done].
    pose proof (reach_dom h x vx Hx). assert (gp_loc p ∈ dom h); [|set_solver].
    unfold target in Ep. apply elem_of_dom. destruct (h !! gp_loc p); [eauto|done].
Defined.

(** [new] and the copy of the target; nil stays nil. *)
Definition copy_ptr (copy : T -> GoM heap T) (p : option (ptr T)) : GoM heap (option (ptr T)) :=
  match p with
  | None => mret None
  | Some p =>
      x ← load (T := T) (gp_loc p);
      y ← copy x;
      l ← alloc y;
      mret (Some {| gp_loc := l |})
  end.

Definition share_ptr (share : heap -> T -> gset nat) (h : heap) (p : option (ptr T)) : gset nat :=
  match p with
  | None => ∅
  | Some p => match target h p with Some x => share h x | None => ∅ end
  end.

Lemma ptr_view_Some h (p : ptr T) v :
  view h (Some p) = Some v <->
  exists x vx, target h p = Some x /\ view h x = Some vx /\ v = Some vx.
Proof.
  simpl. destruct (target h p) as [x|]; simpl; [|by split; [|intros (? & ? & ? & _)]].
  destruct (view h x) as [vx|] eqn:Hx; simpl.
  - split; [intros [= <-]; eauto|]. intros (? & ? & [= <-] & E & ->). by simplify_eq.
  - split; [done|]. intros (? & ? & [= <-] & E & _). by simplify_eq.
Qed.

Lemma copies_ptr share copy :
  copies share copy -> copies (T := option (ptr T)) (share_ptr share) (copy_ptr copy).
Proof.
  intros [Hst Hc]. split.
  - intros h h' [p|] v Hv Hh; [|done]. apply ptr_view_Some in Hv as (x & vx & Ep & Hx & ->).
    simpl. assert (target h' p = Some x) as ->.
    { unfold target in *. destruct (h !! gp_loc p) as [c|] eqn:Ec; [|done].
      by rewrite (lookup_weaken _ _ _ _ Ec Hh). }
    rewrite Ep. by eapply Hst.
  - intros [p|] h v Hv; cycle 1.
    { exists None, h. simpl in *. simplify_eq. split_and!; [done..|set_solver|set_solver]. }
    apply ptr_view_Some in Hv as (x & vx & Ep & Hx & ->).
    destruct (Hc x h vx Hx) as (y & h1 & E1 & Hh1 & Hy & Hr1 & Hs1).
    destruct (alloc_run y h1) as (l & Ea & Hfresh). apply not_elem_of_dom in Hfresh as Hnl.
    set (h2 := <[l := to_cell y]> h1) in *.
    assert (h1 ⊆ h2) as Hh2 by (by apply insert_subseteq).
    destruct (view_grows h1 h2 y vx Hy Hh2) as [Hy2 Hr2].
    assert (target h2 {| gp_loc := l |} = Some y) as En.
    { unfold target. simpl. unfold h2. rewrite lookup_insert_eq. apply of_to_cell. }
    eexists (Some _), h2. split_and!.
    + unfold copy_ptr. rewrite (GoM_bind_ret _ _ _ _ _ (load_run _ _ _ Ep)),
        (GoM_bind_ret _ _ _ _ _ E1), (GoM_bind_ret _ _ _ _ _ Ea). done.
    + by etrans.
    + apply ptr_view_Some. by do 2 eexists.
    + simpl. rewrite En, Ep, Hr2.
      pose proof (subseteq_dom _ _ Hh1). pose proof (subseteq_dom _ _ Hh2).
      assert (l ∈ dom h2) by (apply elem_of_dom; eexists; apply lookup_insert_eq). set_solver.
    + simpl. rewrite En, Ep, Hr2. set_solver +Hs1.
Qed.
End Pointers.
End Memory.
