(* ===== verification/DeepCopy.v ===== *)
(** * The DeepCopy methods of both APIs

    [api/v1/zz_generated.deepcopy.go] of the CloudTask operator and of the TaskJob
    operator, on the memory of [Memory].  The structures have their pointers, slices
    and maps as references; the fields that are plain data are kept as in the other
    files.  [DeepCopyInto] takes the structure [in] points to and gives the one
    written to [out]; where the code makes an array and then fills it, the elements
    are copied first and the array is allocated with them.

    The types of the Kubernetes libraries and their own methods are the class
    [ApiMachinery]; [ApiMachineryLaws] says that those methods are deep copies.
    [corev1.VolumeMount] has pointers too, but the code copies it by assignment. *)

From S2P Require Import Prelude Kube CloudTaskApi TaskJobController Memory.

Record TypeMeta := { tm_Kind : string; tm_APIVersion : string }.

(** Types of the libraries, and the cells of their own memory. *)
Class GoTypes := {
  GoObjectMeta : Type;
  GoListMeta : Type;
  GoEnvVar : Type;
  GoVolumeMount : Type;
  GoCondition : Type;
  GoCell : Type
}.

Abbreviation strmap := (ptr (gmap string string)).

Section DeepCopy.
Context {G : GoTypes}.

(** ** The structures *)

Record GoResourceRequirements := {
  gr_Requests : option (ptr ResourceList);
  gr_Limits : option (ptr ResourceList)
}.

Record GoCloudTaskSpec := {
  g_Image : string;
  g_Command : option (slice string);
  g_Args : option (slice string);
  g_Resources : option (ptr GoResourceRequirements);
  g_Retries : Z;
  g_Timeout : string;
  g_TenantID : string;
  g_Priority : Z;
  g_Env : option (slice GoEnvVar);
  g_VolumeMounts : option (slice GoVolumeMount);
  g_Labels : option strmap;
  g_Annotations : option strmap
}.

Record GoCloudTaskStatus := {
  g_Phase : string;
  g_PodName : string;
  g_StartTime : option (ptr Z);
  g_CompletionTime : option (ptr Z);
  g_RetryCount : Z;
  g_Message : string;
  g_LastUpdateTime : option (ptr Z);
  g_Conditions : option (slice GoCondition)
}.

Record GoCloudTask := {
  gt_TypeMeta : TypeMeta;
  gt_ObjectMeta : GoObjectMeta;
  gt_Spec : GoCloudTaskSpec;
  gt_Status : GoCloudTaskStatus
}.

Record GoCloudTaskList := {
  gtl_TypeMeta : TypeMeta;
  gtl_ListMeta : GoListMeta;
  gtl_Items : option (slice GoCloudTask)
}.

Record GoTaskJobSpec := {
  gj_Name : string;
  gj_Image : string;
  gj_Command : option (slice string);
  gj_Args : option (slice string);
  gj_Priority : string;
  gj_Algorithm : string;
  gj_EstimatedDurationSec : Z;
  gj_CPURequest : string;
  gj_MemoryRequest : string;
  gj_DependsOn : option (slice string);
  gj_Schedule : string;
  gj_Env : option (slice JobEnvVar)
}.

Record GoTaskJobStatus := {
  gj_Phase : string;
  gj_PodName : string;
  gj_StartTime : string;
  gj_EndTime : string;
  gj_ExitCode : Z;
  gj_Message : string;
  gj_Conditions : option (slice GoCondition)
}.

Record GoTaskJob := {
  gtj_TypeMeta : TypeMeta;
  gtj_ObjectMeta : GoObjectMeta;
  gtj_Spec : GoTaskJobSpec;
  gtj_Status : GoTaskJobStatus
}.

Record GoTaskJobList := {
  gjl_TypeMeta : TypeMeta;
  gjl_ListMeta : GoListMeta;
  gjl_Items : option (slice GoTaskJob)
}.

(** ** Memory *)

Inductive cell : Type :=
| CStrings (l : list string)
| CMap (m : gmap string string)
| CTime (t : Z)
| CResourceList (r : ResourceList)
| CResources (r : GoResourceRequirements)
| CEnv (l : list GoEnvVar)
| CMounts (l : list GoVolumeMount)
| CConditions (l : list GoCondition)
| CSpec (s : GoCloudTaskSpec)
| CStatus (s : GoCloudTaskStatus)
| CTask (t : GoCloudTask)
| CTasks (l : list GoCloudTask)
| CTaskList (l : GoCloudTaskList)
| CJobEnvVar (e : JobEnvVar)
| CJobEnv (l : list JobEnvVar)
| CJobSpec (s : GoTaskJobSpec)
| CJobStatus (s : GoTaskJobStatus)
| CJob (j : GoTaskJob)
| CJobs (l : list GoTaskJob)
| CJobList (l : GoTaskJobList)
| COther (c : GoCell).

Abbreviation heap := (gmap nat cell).
Abbreviation M := (GoM heap).

#[export] Instance cell_Strings : Cell (C := cell) (list string).
Proof. by refine {| to_cell := CStrings; of_cell := fun c => match c with CStrings x => Some x | _ => None end |}. Defined.
#[export] Instance cell_Map : Cell (C := cell) (gmap string string).
Proof. by refine {| to_cell := CMap; of_cell := fun c => match c with CMap x => Some x | _ => None end |}. Defined.
#[export] Instance cell_Time : Cell (C := cell) (Z).
Proof. by refine {| to_cell := CTime; of_cell := fun c => match c with CTime x => Some x | _ => None end |}. Defined.
#[export] Instance cell_ResourceList : Cell (C := cell) (ResourceList).
Proof. by refine {| to_cell := CResourceList; of_cell := fun c => match c with CResourceList x => Some x | _ => None end |}. Defined.
#[export] Instance cell_Resources : Cell (C := cell) (GoResourceRequirements).
Proof. by refine {| to_cell := CResources; of_cell := fun c => match c with CResources x => Some x | _ => None end |}. Defined.
#[export] Instance cell_Env : Cell (C := cell) (list GoEnvVar).
Proof. by refine {| to_cell := CEnv; of_cell := fun c => match c with CEnv x => Some x | _ => None end |}. Defined.
#[export] Instance cell_Mounts : Cell (C := cell) (list GoVolumeMount).
Proof. by refine {| to_cell := CMounts; of_cell := fun c => match c with CMounts x => Some x | _ => None end |}. Defined.
#[export] Instance cell_Conditions : Cell (C := cell) (list GoCondition).
Proof. by refine {| to_cell := CConditions; of_cell := fun c => match c with CConditions x => Some x | _ => None end |}. Defined.
#[export] Instance cell_Spec : Cell (C := cell) (GoCloudTaskSpec).
Proof. by refine {| to_cell := CSpec; of_cell := fun c => match c with CSpec x => Some x | _ => None end |}. Defined.
#[export] Instance cell_Status : Cell (C := cell) (GoCloudTaskStatus).
Proof. by refine {| to_cell := CStatus; of_cell := fun c => match c with CStatus x => Some x | _ => None end |}. Defined.
#[export] Instance cell_Task : Cell (C := cell) (GoCloudTask).
Proof. by refine {| to_cell := CTask; of_cell := fun c => match c with CTask x => Some x | _ => None end |}. Defined.
#[export] Instance cell_Tasks : Cell (C := cell) (list GoCloudTask).
Proof. by refine {| to_cell := CTasks; of_cell := fun c => match c with CTasks x => Some x | _ => None end |}. Defined.
#[export] Instance cell_TaskList : Cell (C := cell) (GoCloudTaskList).
Proof. by refine {| to_cell := CTaskList; of_cell := fun c => match c with CTaskList x => Some x | _ => None end |}. Defined.
#[export] Instance cell_JobEnvVar : Cell (C := cell) (JobEnvVar).
Proof. by refine {| to_cell := CJobEnvVar; of_cell := fun c => match c with CJobEnvVar x => Some x | _ => None end |}. Defined.
#[export] Instance cell_JobEnv : Cell (C := cell) (list JobEnvVar).
Proof. by refine {| to_cell := CJobEnv; of_cell := fun c => match c with CJobEnv x => Some x | _ => None end |}. Defined.
#[export] Instance cell_JobSpec : Cell (C := cell) (GoTaskJobSpec).
Proof. by refine {| to_cell := CJobSpec; of_cell := fun c => match c with CJobSpec x => Some x | _ => None end |}. Defined.
#[export] Instance cell_JobStatus : Cell (C := cell) (GoTaskJobStatus).
Proof. by refine {| to_cell := CJobStatus; of_cell := fun c => match c with CJobStatus x => Some x | _ => None end |}. Defined.
#[export] Instance cell_Job : Cell (C := cell) (GoTaskJob).
Proof. by refine {| to_cell := CJob; of_cell := fun c => match c with CJob x => Some x | _ => None end |}. Defined.
#[export] Instance cell_Jobs : Cell (C := cell) (list GoTaskJob).
Proof. by refine {| to_cell := CJobs; of_cell := fun c => match c with CJobs x => Some x | _ => None end |}. Defined.
#[export] Instance cell_JobList : Cell (C := cell) (GoTaskJobList).
Proof. by refine {| to_cell := CJobList; of_cell := fun c => match c with CJobList x => Some x | _ => None end |}. Defined.

#[export] Instance view_string : DeepView (C := cell) string string := plain_view.
#[export] Instance view_map : DeepView (C := cell) (gmap string string) (gmap string string) := plain_view.
#[export] Instance view_time : DeepView (C := cell) Z Z := plain_view.
#[export] Instance view_resource_list : DeepView (C := cell) ResourceList ResourceList := plain_view.
#[export] Instance view_job_env : DeepView (C := cell) JobEnvVar JobEnvVar := plain_view.

(** What the libraries' data denotes and their copying methods. *)
Class ApiMachinery := {
  meta_value : Type;
  listmeta_value : Type;
  env_value : Type;
  mount_value : Type;
  condition_value : Type;
  meta_view :: DeepView (C := cell) GoObjectMeta meta_value;
  listmeta_view :: DeepView (C := cell) GoListMeta listmeta_value;
  env_view :: DeepView (C := cell) GoEnvVar env_value;
  mount_view :: DeepView (C := cell) GoVolumeMount mount_value;
  condition_view :: DeepView (C := cell) GoCondition condition_value;
  ObjectMeta_DeepCopyInto : GoObjectMeta -> M GoObjectMeta;
  ListMeta_DeepCopyInto : GoListMeta -> M GoListMeta;
  EnvVar_DeepCopyInto : GoEnvVar -> M GoEnvVar;
  Condition_DeepCopyInto : GoCondition -> M GoCondition;
  Time_DeepCopy : option (ptr Z) -> M (option (ptr Z))
}.
Context {AM : ApiMachinery}.

Class ApiMachineryLaws := {
  ObjectMeta_copies : copies nothing ObjectMeta_DeepCopyInto;
  ListMeta_copies : copies nothing ListMeta_DeepCopyInto;
  EnvVar_copies : copies nothing EnvVar_DeepCopyInto;
  Condition_copies : copies nothing Condition_DeepCopyInto;
  Time_copies : copies nothing Time_DeepCopy
}.

(** ** CloudTask *)

Definition ResourceList_DeepCopyInto (in_ : ResourceList) : M ResourceList := mret in_.

Definition ResourceRequirements_DeepCopyInto (in_ : GoResourceRequirements) : M GoResourceRequirements :=
  requests ← copy_ptr mret (gr_Requests in_);
  limits ← copy_ptr mret (gr_Limits in_);
  mret {| gr_Requests := requests; gr_Limits := limits |}.

Definition CloudTaskSpec_DeepCopyInto (in_ : GoCloudTaskSpec) : M GoCloudTaskSpec :=
  command ← copy_slice mret (g_Command in_);
  args ← copy_slice mret (g_Args in_);
  resources ← copy_ptr ResourceRequirements_DeepCopyInto (g_Resources in_);
  env ← copy_slice EnvVar_DeepCopyInto (g_Env in_);
  mounts ← copy_slice mret (g_VolumeMounts in_);
  labels ← copy_ptr mret (g_Labels in_);
  annotations ← copy_ptr mret (g_Annotations in_);
  mret {| g_Image := g_Image in_; g_Command := command; g_Args := args;
          g_Resources := resources; g_Retries := g_Retries in_; g_Timeout := g_Timeout in_;
          g_TenantID := g_TenantID in_; g_Priority := g_Priority in_; g_Env := env;
          g_VolumeMounts := mounts; g_Labels := labels; g_Annotations := annotations |}.

(** A time that is set is copied by the library. *)
Definition copy_time (t : option (ptr Z)) : M (option (ptr Z)) :=
  match t with
  | None => mret None
  | Some p => Time_DeepCopy (Some p)
  end.

Definition CloudTaskStatus_DeepCopyInto (in_ : GoCloudTaskStatus) : M GoCloudTaskStatus :=
  start ← copy_time (g_StartTime in_);
  completion ← copy_time (g_CompletionTime in_);
  update ← copy_time (g_LastUpdateTime in_);
  conditions ← copy_slice Condition_DeepCopyInto (g_Conditions in_);
  mret {| g_Phase := g_Phase in_; g_PodName := g_PodName in_; g_StartTime := start;
          g_CompletionTime := completion; g_RetryCount := g_RetryCount in_;
          g_Message := g_Message in_; g_LastUpdateTime := update; g_Conditions := conditions |}.

Definition CloudTask_DeepCopyInto (in_ : GoCloudTask) : M GoCloudTask :=
  meta ← ObjectMeta_DeepCopyInto (gt_ObjectMeta in_);
  spec ← CloudTaskSpec_DeepCopyInto (gt_Spec in_);
  status ← CloudTaskStatus_DeepCopyInto (gt_Status in_);
  mret {| gt_TypeMeta := gt_TypeMeta in_; gt_ObjectMeta := meta; gt_Spec := spec; gt_Status := status |}.

Definition CloudTaskList_DeepCopyInto (in_ : GoCloudTaskList) : M GoCloudTaskList :=
  meta ← ListMeta_DeepCopyInto (gtl_ListMeta in_);
  items ← copy_slice CloudTask_DeepCopyInto (gtl_Items in_);
  mret {| gtl_TypeMeta := gtl_TypeMeta in_; gtl_ListMeta := meta; gtl_Items := items |}.

(** The [DeepCopy] methods: a nil receiver gives nil, otherwise [new] and
    [DeepCopyInto].  [DeepCopyObject] is the same pointer as an interface. *)
Definition ResourceList_DeepCopy : option (ptr ResourceList) -> M (option (ptr ResourceList)) :=
  copy_ptr ResourceList_DeepCopyInto.
Definition ResourceRequirements_DeepCopy
    : option (ptr GoResourceRequirements) -> M (option (ptr GoResourceRequirements)) :=
  copy_ptr ResourceRequirements_DeepCopyInto.
Definition CloudTaskSpec_DeepCopy : option (ptr GoCloudTaskSpec) -> M (option (ptr GoCloudTaskSpec)) :=
  copy_ptr CloudTaskSpec_DeepCopyInto.
Definition CloudTaskStatus_DeepCopy
    : option (ptr GoCloudTaskStatus) -> M (option (ptr GoCloudTaskStatus)) :=
  copy_ptr CloudTaskStatus_DeepCopyInto.
Definition CloudTask_DeepCopy : option (ptr GoCloudTask) -> M (option (ptr GoCloudTask)) :=
  copy_ptr CloudTask_DeepCopyInto.
Definition CloudTaskList_DeepCopy : option (ptr GoCloudTaskList) -> M (option (ptr GoCloudTaskList)) :=
  copy_ptr CloudTaskList_DeepCopyInto.

Definition CloudTask_DeepCopyObject (in_ : option (ptr GoCloudTask)) : M (option (ptr GoCloudTask)) :=
  c ← CloudTask_DeepCopy in_;
  match c with Some p => mret (Some p) | None => mret None end.
Definition CloudTaskList_DeepCopyObject (in_ : option (ptr GoCloudTaskList))
    : M (option (ptr GoCloudTaskList)) :=
  c ← CloudTaskList_DeepCopy in_;
  match c with Some p => mret (Some p) | None => mret None end.

(** ** TaskJob *)

Definition JobEnvVar_DeepCopyInto (in_ : JobEnvVar) : M JobEnvVar := mret in_.

Definition TaskJobSpec_DeepCopyInto (in_ : GoTaskJobSpec) : M GoTaskJobSpec :=
  command ← copy_slice mret (gj_Command in_);
  args ← copy_slice mret (gj_Args in_);
  depends ← copy_slice mret (gj_DependsOn in_);
  env ← copy_slice mret (gj_Env in_);
  mret {| gj_Name := gj_Name in_; gj_Image := gj_Image in_; gj_Command := command;
          gj_Args := args; gj_Priority := gj_Priority in_; gj_Algorithm := gj_Algorithm in_;
          gj_EstimatedDurationSec := gj_EstimatedDurationSec in_;
          gj_CPURequest := gj_CPURequest in_; gj_MemoryRequest := gj_MemoryRequest in_;
          gj_DependsOn := depends; gj_Schedule := gj_Schedule in_; gj_Env := env |}.

Definition TaskJobStatus_DeepCopyInto (in_ : GoTaskJobStatus) : M GoTaskJobStatus :=
  conditions ← copy_slice Condition_DeepCopyInto (gj_Conditions in_);
  mret {| gj_Phase := gj_Phase in_; gj_PodName := gj_PodName in_;
          gj_StartTime := gj_StartTime in_; gj_EndTime := gj_EndTime in_;
          gj_ExitCode := gj_ExitCode in_; gj_Message := gj_Message in_;
          gj_Conditions := conditions |}.

Definition TaskJob_DeepCopyInto (in_ : GoTaskJob) : M GoTaskJob :=
  meta ← ObjectMeta_DeepCopyInto (gtj_ObjectMeta in_);
  spec ← TaskJobSpec_DeepCopyInto (gtj_Spec in_);
  status ← TaskJobStatus_DeepCopyInto (gtj_Status in_);
  mret {| gtj_TypeMeta := gtj_TypeMeta in_; gtj_ObjectMeta := meta; gtj_Spec := spec;
          gtj_Status := status |}.

Definition TaskJobList_DeepCopyInto (in_ : GoTaskJobList) : M GoTaskJobList :=
  meta ← ListMeta_DeepCopyInto (gjl_ListMeta in_);
  items ← copy_slice TaskJob_DeepCopyInto (gjl_Items in_);
  mret {| gjl_TypeMeta := gjl_TypeMeta in_; gjl_ListMeta := meta; gjl_Items := items |}.

Definition JobEnvVar_DeepCopy : option (ptr JobEnvVar) -> M (option (ptr JobEnvVar)) :=
  copy_ptr JobEnvVar_DeepCopyInto.
Definition TaskJobSpec_DeepCopy : option (ptr GoTaskJobSpec) -> M (option (ptr GoTaskJobSpec)) :=
  copy_ptr TaskJobSpec_DeepCopyInto.
Definition TaskJobStatus_DeepCopy : option (ptr GoTaskJobStatus) -> M (option (ptr GoTaskJobStatus)) :=
  copy_ptr TaskJobStatus_DeepCopyInto.
Definition TaskJob_DeepCopy : option (ptr GoTaskJob) -> M (option (ptr GoTaskJob)) :=
  copy_ptr TaskJob_DeepCopyInto.
Definition TaskJobList_DeepCopy : option (ptr GoTaskJobList) -> M (option (ptr GoTaskJobList)) :=
  copy_ptr TaskJobList_DeepCopyInto.
Definition TaskJob_DeepCopyObject (in_ : option (ptr GoTaskJob)) : M (option (ptr GoTaskJob)) :=
  c ← TaskJob_DeepCopy in_;
  match c with Some p => mret (Some p) | None => mret None end.
Definition TaskJobList_DeepCopyObject (in_ : option (ptr GoTaskJobList)) : M (option (ptr GoTaskJobList)) :=
  c ← TaskJobList_DeepCopy in_;
  match c with Some p => mret (Some p) | None => mret None end.
End DeepCopy.
