(* ===== verification/DeepCopyProofs.v ===== *)
(** * What the DeepCopy methods copy and what they share

    Every method meets the contract [copies] of [Memory].  All but those of the
    CloudTask's spec share nothing with the original; a copied CloudTask shares what
    the mounts of its volumes point to. *)

From S2P Require Import Prelude Kube CloudTaskApi TaskJobController Memory DeepCopy.

Section Proofs.
Context {G : GoTypes} {AM : ApiMachinery} {AL : ApiMachineryLaws}.

Abbreviation heap := (gmap nat cell).

(** ** The parts that share nothing *)

Lemma stable_nothing {T V} `{!DeepView (C := cell) T V} : stable (C := cell) (T := T) nothing.
Proof. done. Qed.

Lemma share_slice_nothing {T} `{!Cell (C := cell) (list T)} (h : heap) (s : option (slice T)) :
  share_slice nothing h s = ∅.
Proof.
  destruct s as [s|]; [|done]. simpl. unfold reach_list.
  generalize (default [] (elements h s)). intros l. induction l; [done|]. set_solver.
Qed.

Lemma share_ptr_nothing {T} `{!Cell (C := cell) T} (h : heap) (p : option (ptr T)) :
  share_ptr nothing h p = ∅.
Proof. destruct p as [p|]; [|done]. simpl. by destruct (target h p). Qed.

Lemma copies_slice_nothing {T V} `{!DeepView (C := cell) T V, !Cell (list T)} copy :
  copies nothing copy -> copies (C := cell) (T := option (slice T)) nothing (copy_slice copy).
Proof.
  intros Hc. eapply copies_ext; [apply stable_nothing| |by apply copies_slice].
  intros h x. by rewrite share_slice_nothing.
Qed.

Lemma copies_ptr_nothing {T V} `{!DeepView (C := cell) T V, !Cell T} copy :
  copies nothing copy -> copies (C := cell) (T := option (ptr T)) nothing (copy_ptr copy).
Proof.
  intros Hc. eapply copies_ext; [apply stable_nothing| |by apply copies_ptr].
  intros h x. by rewrite share_ptr_nothing.
Qed.

Lemma copies_pair_nothing {A VA B VB} `{!DeepView (C := cell) A VA, !DeepView (C := cell) B VB} ca cb :
  copies nothing ca -> copies nothing cb -> copies (C := cell) (T := A * B) nothing (copy_pair ca cb).
Proof.
  intros Ha Hb. eapply copies_ext; [apply stable_nothing| |by apply copies_pair].
  intros h x. unfold share_pair, nothing. set_solver.
Qed.

Lemma copies_time : copies nothing copy_time.
Proof.
  destruct Time_copies as [_ Hc]. split; [apply stable_nothing|].
  intros [p|] h v Hv; [by apply Hc|]. exists None, h. simpl in Hv. simplify_eq.
  split_and!; [done..|set_solver|set_solver].
Qed.

Create HintDb copies.
Hint Resolve copies_slice_nothing copies_ptr_nothing copies_pair_nothing copies_time : copies.
Hint Resolve plain_copies EnvVar_copies Condition_copies ObjectMeta_copies ListMeta_copies : copies.

(** A method that copies its fields one by one is the copy of their tuple. *)
Ltac copy_fields :=
  intros; unfold copy_pair, mbind, GoM_bind; cbn [fst snd];
  repeat (case_match; simplify_eq/=);
  repeat match goal with
  | H : mret _ _ = _ |- _ => unfold mret, GoM_ret in H; simplify_eq
  end; done.

Definition resources_refs (x : GoResourceRequirements) := (gr_Requests x, gr_Limits x).

#[export] Instance view_resources :
  DeepView (C := cell) GoResourceRequirements (unit * (option ResourceList * option ResourceList)) :=
  struct_view (fun _ => tt) resources_refs.

Lemma ResourceRequirements_copies : copies nothing ResourceRequirements_DeepCopyInto.
Proof.
  eapply (copies_struct _ resources_refs
    (fun _ t => {| gr_Requests := t.1; gr_Limits := t.2 |}) nothing
    (copy_pair (copy_ptr mret) (copy_ptr mret))); [by intros ? []|done| |].
  - auto 20 with copies.
  - intros x h. unfold ResourceRequirements_DeepCopyInto. copy_fields.
Qed.

Definition status_refs (x : GoCloudTaskStatus) :=
  (g_StartTime x, (g_CompletionTime x, (g_LastUpdateTime x, g_Conditions x))).
Definition status_plain (x : GoCloudTaskStatus) :=
  (g_Phase x, g_PodName x, g_RetryCount x, g_Message x).

#[export] Instance view_status : DeepView (C := cell) GoCloudTaskStatus _ :=
  struct_view status_plain status_refs.

Lemma CloudTaskStatus_copies : copies nothing CloudTaskStatus_DeepCopyInto.
Proof.
  eapply (copies_struct status_plain status_refs
    (fun x t => {| g_Phase := g_Phase x; g_PodName := g_PodName x; g_StartTime := t.1;
       g_CompletionTime := t.2.1; g_RetryCount := g_RetryCount x; g_Message := g_Message x;
       g_LastUpdateTime := t.2.2.1; g_Conditions := t.2.2.2 |}) nothing
    (copy_pair copy_time (copy_pair copy_time (copy_pair copy_time (copy_slice Condition_DeepCopyInto)))));
    [by intros ? [? [? []]]|done|auto 20 with copies|].
  unfold CloudTaskStatus_DeepCopyInto. copy_fields.
Qed.

(** ** The spec of a CloudTask *)

Definition spec_refs (x : GoCloudTaskSpec) :=
  (g_Command x, (g_Args x, (g_Resources x, (g_Env x, (g_VolumeMounts x, (g_Labels x, g_Annotations x)))))).
Definition spec_plain (x : GoCloudTaskSpec) :=
  (g_Image x, g_Retries x, g_Timeout x, g_TenantID x, g_Priority x).

#[export] Instance view_spec : DeepView (C := cell) GoCloudTaskSpec _ :=
  struct_view spec_plain spec_refs.

(** What the mounts of a spec point to. *)
Definition mounts_shared (h : heap) (x : GoCloudTaskSpec) : gset nat :=
  share_slice reach h (g_VolumeMounts x).

(** The mounts with the fields after them, and a field before them. *)
Lemma copies_pair_first {A VA B VB} `{!DeepView (C := cell) A VA, !DeepView (C := cell) B VB} sa ca cb :
  copies sa ca -> copies nothing cb ->
  copies (C := cell) (T := A * B) (fun h t => sa h t.1) (copy_pair ca cb).
Proof.
  intros Ha Hb. eapply copies_ext; [|intros h x|by apply copies_pair].
  - intros h h' x v [Hv _]%pair_view_Some Hh. by eapply (proj1 Ha).
  - unfold share_pair, nothing. set_solver.
Qed.

Lemma copies_pair_second {A VA B VB} `{!DeepView (C := cell) A VA, !DeepView (C := cell) B VB} sb ca cb :
  copies nothing ca -> copies sb cb ->
  copies (C := cell) (T := A * B) (fun h t => sb h t.2) (copy_pair ca cb).
Proof.
  intros Ha Hb. eapply copies_ext; [|intros h x|by apply copies_pair].
  - intros h h' x v [_ Hv]%pair_view_Some Hh. by eapply (proj1 Hb).
  - unfold share_pair, nothing. set_solver.
Qed.

Lemma CloudTaskSpec_copies : copies mounts_shared CloudTaskSpec_DeepCopyInto.
Proof.
  eapply (copies_struct spec_plain spec_refs
    (fun x t => {| g_Image := g_Image x; g_Command := t.1; g_Args := t.2.1;
       g_Resources := t.2.2.1; g_Retries := g_Retries x; g_Timeout := g_Timeout x;
       g_TenantID := g_TenantID x; g_Priority := g_Priority x; g_Env := t.2.2.2.1;
       g_VolumeMounts := t.2.2.2.2.1; g_Labels := t.2.2.2.2.2.1;
       g_Annotations := t.2.2.2.2.2.2 |}) (fun h t => share_slice reach h t.2.2.2.2.1)
    (copy_pair (copy_slice mret) (copy_pair (copy_slice mret)
      (copy_pair (copy_ptr ResourceRequirements_DeepCopyInto)
        (copy_pair (copy_slice EnvVar_DeepCopyInto)
          (copy_pair (copy_slice mret) (copy_pair (copy_ptr mret) (copy_ptr mret))))))));
    [by intros ? (? & ? & ? & ? & ? & ? & ?)|done| |].
  - pose proof ResourceRequirements_copies.
    apply (copies_pair_second (fun h t => share_slice reach h t.2.2.2.1)); [auto 20 with copies|].
    apply (copies_pair_second (fun h t => share_slice reach h t.2.2.1)); [auto 20 with copies|].
    apply (copies_pair_second (fun h t => share_slice reach h t.2.1)); [auto 20 with copies|].
    apply (copies_pair_second (fun h t => share_slice reach h t.1)); [auto 20 with copies|].
    apply (copies_pair_first (share_slice reach)); [|auto 20 with copies].
    apply copies_slice, assignment_copies.
  - unfold CloudTaskSpec_DeepCopyInto. copy_fields.
Qed.

(** ** The objects and their lists *)

Definition task_refs (x : GoCloudTask) := (gt_ObjectMeta x, (gt_Spec x, gt_Status x)).

#[export] Instance view_task : DeepView (C := cell) GoCloudTask _ :=
  struct_view gt_TypeMeta task_refs.

Definition task_shared (h : heap) (x : GoCloudTask) : gset nat := mounts_shared h (gt_Spec x).

Lemma CloudTask_copies : copies task_shared CloudTask_DeepCopyInto.
Proof.
  eapply (copies_struct gt_TypeMeta task_refs
    (fun x t => {| gt_TypeMeta := gt_TypeMeta x; gt_ObjectMeta := t.1; gt_Spec := t.2.1;
       gt_Status := t.2.2 |}) (fun h t => mounts_shared h t.2.1)
    (copy_pair ObjectMeta_DeepCopyInto
      (copy_pair CloudTaskSpec_DeepCopyInto CloudTaskStatus_DeepCopyInto)));
    [by intros ? (? & ? & ?)|done| |].
  - apply (copies_pair_second (fun h t => mounts_shared h t.1)); [auto with copies|].
    apply (copies_pair_first mounts_shared); [apply CloudTaskSpec_copies|apply CloudTaskStatus_copies].
  - unfold CloudTask_DeepCopyInto. copy_fields.
Qed.

Definition task_list_refs (x : GoCloudTaskList) := (gtl_ListMeta x, gtl_Items x).

#[export] Instance view_task_list : DeepView (C := cell) GoCloudTaskList _ :=
  struct_view gtl_TypeMeta task_list_refs.

Definition task_list_shared (h : heap) (x : GoCloudTaskList) : gset nat :=
  share_slice task_shared h (gtl_Items x).

Lemma CloudTaskList_copies : copies task_list_shared CloudTaskList_DeepCopyInto.
Proof.
  eapply (copies_struct gtl_TypeMeta task_list_refs
    (fun x t => {| gtl_TypeMeta := gtl_TypeMeta x; gtl_ListMeta := t.1; gtl_Items := t.2 |})
    (fun h t => share_slice task_shared h t.2)
    (copy_pair ListMeta_DeepCopyInto (copy_slice CloudTask_DeepCopyInto)));
    [by intros ? (? & ?)|done| |].
  - apply (copies_pair_second (share_slice task_shared)); [auto with copies|].
    apply copies_slice, CloudTask_copies.
  - unfold CloudTaskList_DeepCopyInto. copy_fields.
Qed.

Definition job_spec_refs (x : GoTaskJobSpec) :=
  (gj_Command x, (gj_Args x, (gj_DependsOn x, gj_Env x))).
Definition job_spec_plain (x : GoTaskJobSpec) :=
  (gj_Name x, gj_Image x, gj_Priority x, gj_Algorithm x, gj_EstimatedDurationSec x,
   gj_CPURequest x, gj_MemoryRequest x, gj_Schedule x).

#[export] Instance view_job_spec : DeepView (C := cell) GoTaskJobSpec _ :=
  struct_view job_spec_plain job_spec_refs.

Lemma TaskJobSpec_copies : copies nothing TaskJobSpec_DeepCopyInto.
Proof.
  eapply (copies_struct job_spec_plain job_spec_refs
    (fun x t => {| gj_Name := gj_Name x; gj_Image := gj_Image x; gj_Command := t.1;
       gj_Args := t.2.1; gj_Priority := gj_Priority x; gj_Algorithm := gj_Algorithm x;
       gj_EstimatedDurationSec := gj_EstimatedDurationSec x; gj_CPURequest := gj_CPURequest x;
       gj_MemoryRequest := gj_MemoryRequest x; gj_DependsOn := t.2.2.1;
       gj_Schedule := gj_Schedule x; gj_Env := t.2.2.2 |}) nothing
    (copy_pair (copy_slice mret) (copy_pair (copy_slice mret)
      (copy_pair (copy_slice mret) (copy_slice mret)))));
    [by intros ? (? & ? & ? & ?)|done|auto 20 with copies|].
  unfold TaskJobSpec_DeepCopyInto. copy_fields.
Qed.

Definition job_status_plain (x : GoTaskJobStatus) :=
  (gj_Phase x, gj_PodName x, gj_StartTime x, gj_EndTime x, gj_ExitCode x, gj_Message x).

#[export] Instance view_job_status : DeepView (C := cell) GoTaskJobStatus _ :=
  struct_view job_status_plain gj_Conditions.

Lemma TaskJobStatus_copies : copies nothing TaskJobStatus_DeepCopyInto.
Proof.
  eapply (copies_struct job_status_plain gj_Conditions
    (fun x t => {| gj_Phase := gj_Phase x; gj_PodName := gj_PodName x;
       gj_StartTime := gj_StartTime x; gj_EndTime := gj_EndTime x; gj_ExitCode := gj_ExitCode x;
       gj_Message := gj_Message x; gj_Conditions := t |}) nothing
    (copy_slice Condition_DeepCopyInto)); [done|done|auto 20 with copies|done].
Qed.

Definition job_refs (x : GoTaskJob) := (gtj_ObjectMeta x, (gtj_Spec x, gtj_Status x)).

#[export] Instance view_job : DeepView (C := cell) GoTaskJob _ :=
  struct_view gtj_TypeMeta job_refs.

Lemma TaskJob_copies : copies nothing TaskJob_DeepCopyInto.
Proof.
  eapply (copies_struct gtj_TypeMeta job_refs
    (fun x t => {| gtj_TypeMeta := gtj_TypeMeta x; gtj_ObjectMeta := t.1; gtj_Spec := t.2.1;
       gtj_Status := t.2.2 |}) nothing
    (copy_pair ObjectMeta_DeepCopyInto
      (copy_pair TaskJobSpec_DeepCopyInto TaskJobStatus_DeepCopyInto)));
    [by intros ? (? & ? & ?)|done| |].
  - auto using TaskJobSpec_copies, TaskJobStatus_copies with copies.
  - unfold TaskJob_DeepCopyInto. copy_fields.
Qed.

Definition job_list_refs (x : GoTaskJobList) := (gjl_ListMeta x, gjl_Items x).

#[export] Instance view_job_list : DeepView (C := cell) GoTaskJobList _ :=
  struct_view gjl_TypeMeta job_list_refs.

Lemma TaskJobList_copies : copies nothing TaskJobList_DeepCopyInto.
Proof.
  eapply (copies_struct gjl_TypeMeta job_list_refs
    (fun x t => {| gjl_TypeMeta := gjl_TypeMeta x; gjl_ListMeta := t.1; gjl_Items := t.2 |}) nothing
    (copy_pair ListMeta_DeepCopyInto (copy_slice TaskJob_DeepCopyInto)));
    [by intros ? (? & ?)|done| |].
  - auto using TaskJob_copies with copies.
  - unfold TaskJobList_DeepCopyInto. copy_fields.
Qed.

(** C23: a copied CloudTask is independent of the original, except for what its volume
    mounts point to.  [DeepCopy] always returns; the copy denotes the same value; the
    locations both reach are exactly those the mounts point to; a write to any other
    location one of the two reaches leaves the value of the other as it was. *)
Theorem CloudTask_DeepCopy_independent (p : ptr GoCloudTask) (h : heap) v :
  view h (Some p) = Some v ->
  exists q h', CloudTask_DeepCopy (Some p) h = (Ret q, h') /\
    view h' (Some p) = Some v /\ view h' q = Some v /\
    reach h' (Some p) ∩ reach h' q = share_ptr task_shared h (Some p) /\
    (forall l c, l ∈ reach h' q -> l ∉ share_ptr task_shared h (Some p) ->
       view (<[l := c]> h') (Some p) = Some v) /\
    (forall l c, l ∈ reach h' (Some p) -> l ∉ share_ptr task_shared h (Some p) ->
       view (<[l := c]> h') q = Some v).
Proof. apply copies_independent, copies_ptr, CloudTask_copies. Qed.

(** the copy of a list of TaskJobs is independent of the original: [DeepCopy]
    always returns, the copy denotes the same list, no location is reached by both,
    and no write to a location one of them reaches changes the other. *)
Theorem TaskJobList_DeepCopy_independent (p : ptr GoTaskJobList) (h : heap) v :
  view h (Some p) = Some v ->
  exists q h', TaskJobList_DeepCopy (Some p) h = (Ret q, h') /\
    view h' (Some p) = Some v /\ view h' q = Some v /\
    reach h' (Some p) ∩ reach h' q = ∅ /\
    (forall l c, l ∈ reach h' q -> view (<[l := c]> h') (Some p) = Some v) /\
    (forall l c, l ∈ reach h' (Some p) -> view (<[l := c]> h') q = Some v).
Proof.
  intros Hv. destruct (copies_independent nothing TaskJobList_DeepCopy (Some p) h v)
    as (q & h' & E & Hp & Hq & Hr & H1 & H2); [|done|].
  - apply copies_ptr_nothing, TaskJobList_copies.
  - exists q, h'. split_and!; [exact E|exact Hp|exact Hq|exact Hr| |]; intros l c Hl;
      [apply H1|apply H2]; try exact Hl; apply not_elem_of_empty.
Qed.

(** The interface value is the copy itself, nil for nil. *)
Lemma CloudTask_DeepCopyObject_run p (h : heap) :
  CloudTask_DeepCopyObject p h = CloudTask_DeepCopy p h.
Proof.
  unfold CloudTask_DeepCopyObject, mbind, GoM_bind.
  by destruct (CloudTask_DeepCopy p h) as [[[q|]|e] h'].
Qed.

Lemma TaskJobList_DeepCopyObject_run p (h : heap) :
  TaskJobList_DeepCopyObject p h = TaskJobList_DeepCopy p h.
Proof.
  unfold TaskJobList_DeepCopyObject, mbind, GoM_bind.
  by destruct (TaskJobList_DeepCopy p h) as [[[q|]|e] h'].
Qed.
End Proofs.

(** ** Concrete types of the libraries

    A volume mount with its mount path and its mount propagation, a pointer; the
    other types as plain data. *)
Module Concrete.

#[export] Instance types : GoTypes :=
  {| GoObjectMeta := string; GoListMeta := string; GoEnvVar := string * string;
     GoVolumeMount := string * option (ptr string); GoCondition := string; GoCell := string |}.

#[export] Instance cell_propagation : Cell (C := cell) string.
Proof.
  by refine {| to_cell := COther; of_cell := fun c => match c with COther x => Some x | _ => None end |}.
Defined.

#[export] Instance machinery : ApiMachinery.
Proof.
  refine {| meta_value := string; listmeta_value := string; env_value := string * string;
            mount_value := string * option string; condition_value := string;
            meta_view := plain_view; listmeta_view := plain_view; env_view := plain_view;
            mount_view := pair_view (A := string) (B := option (ptr string));
            condition_view := plain_view;
            ObjectMeta_DeepCopyInto := mret; ListMeta_DeepCopyInto := mret;
            EnvVar_DeepCopyInto := mret; Condition_DeepCopyInto := mret;
            Time_DeepCopy := copy_ptr mret |}.
Defined.

#[export] Instance machinery_laws : ApiMachineryLaws.
Proof. split; try apply plain_copies. apply copies_ptr_nothing, plain_copies. Qed.

(** A task with one mount, at location 0; its mount propagation is at location 2. *)
Definition spec : GoCloudTaskSpec :=
  {| g_Image := "busybox"; g_Command := None; g_Args := None; g_Resources := None;
     g_Retries := 3; g_Timeout := "1h"; g_TenantID := "tenant-a"; g_Priority := 5; g_Env := None;
     g_VolumeMounts := Some {| gs_arr := 1; gs_off := 0; gs_len := 1 |};
     g_Labels := Some {| gp_loc := 3 |}; g_Annotations := None |}.

Definition status : GoCloudTaskStatus :=
  {| g_Phase := "Pending"; g_PodName := ""; g_StartTime := Some {| gp_loc := 4 |};
     g_CompletionTime := None; g_RetryCount := 0; g_Message := ""; g_LastUpdateTime := None;
     g_Conditions := None |}.

Definition task : GoCloudTask :=
  {| gt_TypeMeta := {| tm_Kind := "CloudTask"; tm_APIVersion := "cloudos.yourdomain.com/v1" |};
     gt_ObjectMeta := "train"; gt_Spec := spec; gt_Status := status |}.

Definition memory : gmap nat cell :=
  list_to_map [(0%nat, CTask task); (1%nat, CMounts [("/data", Some {| gp_loc := 2 |})]);
    (2%nat, COther "HostToContainer"); (3%nat, CMap {["app" := "train"]}); (4%nat, CTime 1700000000)].

Definition p : option (ptr GoCloudTask) := Some {| gp_loc := 0 |}.

Definition copied := CloudTask_DeepCopy p memory.

Lemma memory_shared : share_ptr task_shared memory p = {[2%nat]}.
Proof. vm_compute. reflexivity. Qed.

(** The mount propagation of the original and of its copy is one location: written
    through the one, it changes in the other. *)
Definition rewritten : gmap nat cell := <[2%nat := COther (G := types) "None"]> copied.2.

Lemma mount_propagation_aliased :
  exists q, copied.1 = Ret q /\ view rewritten q = view rewritten p /\
    view rewritten p <> view copied.2 p.
Proof.
  exists (Some {| gp_loc := 8 |}). split; [by vm_compute|]. split; [by vm_compute|].
  by vm_compute.
Qed.

(** The labels of the copy are its own: writing them leaves the original alone. *)
Lemma CloudTask_DeepCopy_independent_witness :
  exists q h', CloudTask_DeepCopy p memory = (Ret q, h') /\
    reach h' p ∩ reach h' q = {[2%nat]} /\
    view (<[3%nat := CMap ∅]> h') q = view memory p.
Proof.
  destruct (CloudTask_DeepCopy_independent {| gp_loc := 0 |} memory
    (default None (view memory p))) as (q & h' & E & Hp & Hq & Hr & _ & H2); [by vm_compute|].
  exists q, h'. split; [exact E|]. split; [exact (eq_trans Hr memory_shared)|].
  rewrite (H2 3%nat (CMap ∅)); [by vm_compute| |].
  - assert (h' = copied.2) as -> by (unfold copied, p; by rewrite E).
    apply (bool_decide_unpack (3%nat ∈ reach copied.2 p)). by vm_compute.
  - change (3%nat ∉ share_ptr task_shared memory p). rewrite memory_shared.
    by intros ?%elem_of_singleton.
Defined.
End Concrete.
