(* ===== verification/Flags.v ===== *)
(** * Command-line flags

    What the three programs with flags use of Go's package [flag]: declarations with
    a default, [flag.Parse] over the arguments, and its error handling
    ([ExitOnError]: status 0 after a request for help, 2 after any other error).
    A flag set is the map of its flags to their current values; the kind of a flag
    is the kind of its value.  [FOther] is a flag of another package with a [Set]
    method of its own, [flag_accepts]. *)

From Stdlib Require Import Ascii.
From S2P Require Import Prelude GoStrings.

Inductive flag_value : Type :=
| FStr (s : string)
| FBool (b : bool)
| FInt (z : Z)
| FOther (s : string).

Abbreviation flags := (gmap string flag_value).

(** [Set] of a flag that another package declares: the values it accepts. *)
Class FlagVars := flag_accepts : string -> string -> bool.

(** ** Values *)

(** [strconv.ParseBool]. *)
Definition parse_bool (s : string) : option bool :=
  if decide (s ∈ ["1"; "t"; "T"; "true"; "TRUE"; "True"]) then Some true
  else if decide (s ∈ ["0"; "f"; "F"; "false"; "FALSE"; "False"]) then Some false
  else None.

(** [strconv.ParseInt(s, 0, 64)]: a sign, a base prefix, digits of that base; single
    underscores may separate digits, or the prefix from them, and only there. *)
Definition base_digit (a : ascii) : option Z :=
  if is_digit a then Some (digit_val a)
  else if is_lower a then Some (Z.of_nat (nat_of_ascii a) - 87)
  else if is_upper a then Some (Z.of_nat (nat_of_ascii a) - 55)
  else None.

Fixpoint parse_base (base : Z) (acc : Z) (underscore : bool) (s : string) : option Z :=
  match s with
  | EmptyString => if underscore then None else Some acc
  | String a s' =>
      if decide (a = "_"%char) then
        if underscore then None else parse_base base acc true s'
      else
        d ← base_digit a;
        if decide (d < base) then parse_base base (base * acc + d) false s' else None
  end.

(** After a base prefix an underscore may come first. *)
Definition parse_prefixed (base : Z) (s : string) : option Z :=
  match s with
  | EmptyString => None
  | _ => parse_base base 0 false s
  end.

Definition parse_unsigned0 (s : string) : option Z :=
  match s with
  | EmptyString => None
  | String a rest =>
      if decide (a = "0"%char) then
        match rest with
        | EmptyString => Some 0
        | String b rest' =>
            if decide (b = "x"%char \/ b = "X"%char) then parse_prefixed 16 rest'
            else if decide (b = "b"%char \/ b = "B"%char) then parse_prefixed 2 rest'
            else if decide (b = "o"%char \/ b = "O"%char) then parse_prefixed 8 rest'
            else parse_base 8 0 false rest
        end
      else if decide (a = "_"%char) then None
      else parse_base 10 0 false s
  end.

Definition parse_int0 (s : string) : option Z :=
  let '(neg, body) :=
    match s with
    | String a s' =>
        if decide (a = "-"%char) then (true, s')
        else if decide (a = "+"%char) then (false, s')
        else (false, s)
    | EmptyString => (false, s)
    end in
  n ← parse_unsigned0 body;
  let z := if neg : bool then - n else n in
  if decide (in_width 64 z) then Some z else None.

(** [Set]: a new value of the kind of the old one. *)
Definition flag_set `{!FlagVars} (name : string) (old : flag_value) (s : string) : option flag_value :=
  match old with
  | FStr _ => Some (FStr s)
  | FBool _ => FBool <$> parse_bool s
  | FInt _ => FInt <$> parse_int0 s
  | FOther _ => if flag_accepts name s then Some (FOther s) else None
  end.

(** ** Arguments *)

(** The name and, after the first equals sign, the value. *)
Fixpoint cut_equals (s : string) : string * option string :=
  match s with
  | EmptyString => ("", None)
  | String a s' =>
      if decide (a = "="%char) then ("", Some s')
      else (String a (cut_equals s').1, (cut_equals s').2)
  end.

Inductive flag_arg : Type :=
| NotAFlag
| EndOfFlags
| BadSyntax
| AFlag (name : string) (value : option string).

(** After the minus signs; an equals sign cannot be first. *)
Definition read_name (s : string) : flag_arg :=
  match s with
  | EmptyString => BadSyntax
  | String a s' =>
      if decide (a = "-"%char \/ a = "="%char) then BadSyntax
      else AFlag (String a (cut_equals s').1) (cut_equals s').2
  end.

Definition read_arg (s : string) : flag_arg :=
  match s with
  | String a (String b s') =>
      if decide (a = "-"%char) then
        if decide (b = "-"%char) then
          if decide (s' = "") then EndOfFlags else read_name s'
        else read_name (String b s')
      else NotAFlag
  | _ => NotAFlag
  end.

Inductive flag_outcome : Type :=
| FlagsOk (fs : flags)
| FlagsHelp
| FlagsError.

(** [flag.Parse]; the arguments after the flags are not used by the programs. *)
Fixpoint flag_parse `{!FlagVars} (fs : flags) (args : list string) : flag_outcome :=
  match args with
  | [] => FlagsOk fs
  | arg :: rest =>
      match read_arg arg with
      | NotAFlag | EndOfFlags => FlagsOk fs
      | BadSyntax => FlagsError
      | AFlag name value =>
          match fs !! name with
          | None => if decide (name = "help" \/ name = "h") then FlagsHelp else FlagsError
          | Some (FBool b) =>
              match flag_set name (FBool b) (default "true" value) with
              | Some v => flag_parse (<[name := v]> fs) rest
              | None => FlagsError
              end
          | Some old =>
              match value with
              | Some s =>
                  match flag_set name old s with
                  | Some v => flag_parse (<[name := v]> fs) rest
                  | None => FlagsError
                  end
              | None =>
                  match rest with
                  | [] => FlagsError
                  | s :: rest' =>
                      match flag_set name old s with
                      | Some v => flag_parse (<[name := v]> fs) rest'
                      | None => FlagsError
                      end
                  end
              end
          end
      end
  end.

(** Reading a variable after the parse. *)
Definition str_flag (fs : flags) (name : string) : string :=
  match fs !! name with Some (FStr s) => s | _ => "" end.
Definition bool_flag (fs : flags) (name : string) : bool :=
  match fs !! name with Some (FBool b) => b | _ => false end.
Definition int_flag (fs : flags) (name : string) : Z :=
  match fs !! name with Some (FInt z) => z | _ => 0 end.

(** ** Facts *)

Definition same_kind (v v' : flag_value) : Prop :=
  match v, v' with
  | FStr _, FStr _ | FBool _, FBool _ | FInt _, FInt _ | FOther _, FOther _ => True
  | _, _ => False
  end.

(** An argument that names a flag, as [-name], [--name], [-name=...] or [--name=...]. *)
Definition names (name arg : string) : Prop := exists v, read_arg arg = AFlag name v.

Section Facts.
Context `{!FlagVars}.

Lemma flag_set_kind name old s v : flag_set name old s = Some v -> same_kind old v.
Proof.
  destruct old; simpl; intros Hs; try (apply fmap_Some in Hs as (? & _ & ->)); simplify_eq; try done.
  by destruct (flag_accepts name s); simplify_eq.
Qed.

(** What parsing keeps: an invariant of one [Set] is one of the parse. *)
Lemma flag_parse_ind (P : flags -> Prop) args fs fs' :
  (forall fs arg name v old s new,
     arg ∈ args -> read_arg arg = AFlag name v -> fs !! name = Some old ->
     flag_set name old s = Some new -> P fs -> P (<[name := new]> fs)) ->
  flag_parse fs args = FlagsOk fs' -> P fs -> P fs'.
Proof.
  remember (length args) as n eqn:Hn. revert args Hn fs.
  induction (lt_wf n) as [n _ IH]. intros args -> fs Hstep E Hfs.
  destruct args as [|arg rest]; simpl in E; [by simplify_eq|].
  assert (forall args' fs1, (length args' < length (arg :: rest))%nat ->
    (forall a, a ∈ args' -> a ∈ arg :: rest) ->
    flag_parse fs1 args' = FlagsOk fs' -> P fs1 -> P fs') as Hrec.
  { intros args' fs1 Hl Hin E1 H1. eapply (IH (length args')); eauto. }
  destruct (read_arg arg) as [| | |name value] eqn:Ea; simplify_eq; try done.
  destruct (fs !! name) as [old|] eqn:Eo; [|by case_decide].
  assert (forall s new, flag_set name old s = Some new -> P (<[name := new]> fs)) as Hset.
  { intros s new Es. eapply Hstep; [left|..]; eauto. }
  repeat (case_match; simplify_eq); try done;
    (eapply Hrec; [..|exact E|eapply Hset; eassumption]); simpl; try lia; set_solver.
Qed.

(** A flag keeps its kind, and its value when no argument names it. *)
Lemma flag_parse_kind args fs fs' name v :
  flag_parse fs args = FlagsOk fs' -> fs !! name = Some v ->
  exists v', fs' !! name = Some v' /\ same_kind v v'.
Proof.
  intros E Hv. eapply (flag_parse_ind (fun fs => exists v', fs !! name = Some v' /\ same_kind v v'));
    [|exact E|exists v; split; [done|by destruct v]].
  intros fs0 arg n0 v0 old s new _ _ Ho Hs (v' & Hv' & Hk).
  destruct (decide (n0 = name)) as [->|]; [|by rewrite lookup_insert_ne; eauto].
  rewrite lookup_insert_eq. exists new. split; [done|].
  assert (v' = old) as -> by congruence. apply flag_set_kind in Hs. by destruct v, old, new.
Qed.

Lemma flag_parse_default args fs fs' name :
  flag_parse fs args = FlagsOk fs' -> (forall arg, arg ∈ args -> ~ names name arg) ->
  fs' !! name = fs !! name.
Proof.
  intros E Hn. eapply (flag_parse_ind (fun fs0 => fs0 !! name = fs !! name)); [|exact E|done].
  intros fs0 arg n0 v0 old s new Hin Ha _ _ <-. apply lookup_insert_ne.
  intros ->. eapply Hn; [done|]. by exists v0.
Qed.
End Facts.

(** Examples from the package's documentation and tests. *)
Section Examples.
#[local] Instance no_vars : FlagVars := fun _ _ => false.

Example flag_forms :
  let fs := {["n" := FInt 1]} ∪ {["b" := FBool false]} ∪ {["s" := FStr ""]} : flags in
  flag_parse fs ["-n=0x10"; "--b"; "-s"; "v"; "x"; "-b=false"]
  = FlagsOk (<["n" := FInt 16]> (<["b" := FBool true]> (<["s" := FStr "v"]> fs))).
Proof. vm_compute. reflexivity. Qed.

Example flag_errors :
  flag_parse ∅ ["-h"] = FlagsHelp /\ flag_parse ∅ ["-q"] = FlagsError /\
  flag_parse ∅ ["--=3"] = FlagsError /\ flag_parse {["n" := FInt 1]} ["-n"] = FlagsError /\
  flag_parse {["n" := FInt 1]} ["-n"; "1__0"] = FlagsError.
Proof. vm_compute. tauto. Qed.
End Examples.
