(* ===== verification/Process.v ===== *)
(** * Processes: programs that may end with a status

    A [main] function runs on the outside world and either goes on or ends the
    process: [os.Exit] and the [Fatal] methods of the loggers end it with status 1,
    an unrecovered panic with status 2, and [main] that returns with status 0.
    Deferred calls do not run when the process is ended.

    [runs] is the proof rule for what a program asks of its libraries: given a
    [journal] that records the calls made so far, it speaks of the calls added by a
    run and of how the run ends.  The file also has the legacy logger of
    [pkg/utils/logger.go], which both programs of module 2 set up. *)

From S2P Require Import Prelude GoStrings Kube Flags.

Inductive ending (A : Type) : Type :=
| Goes (a : A)
| Exits (status : Z).
Arguments Goes {A}. Arguments Exits {A}.

Definition Proc (W A : Type) : Type := W -> ending A * W.

#[export] Instance Proc_ret W : MRet (Proc W) := fun A a w => (Goes a, w).
#[export] Instance Proc_bind W : MBind (Proc W) := fun A B k m w =>
  match m w with
  | (Goes a, w') => k a w'
  | (Exits s, w') => (Exits s, w')
  end.

Definition os_exit {W A} (status : Z) : Proc W A := fun w => (Exits status, w).

(** A call, and a function that may panic. *)
Definition proc_call {W A} (op : W -> A * W) : Proc W A := fun w =>
  let '(a, w') := op w in (Goes a, w').
Definition proc_go {W A} (m : GoM W A) : Proc W A := fun w =>
  match m w with
  | (Ret a, w') => (Goes a, w')
  | (Panic _, w') => (Exits 2, w')
  end.

Lemma proc_call_bind {W A B} (op : W -> A * W) (k : A -> Proc W B) w :
  (proc_call op ≫= k) w = k (op w).1 (op w).2.
Proof. unfold mbind, Proc_bind, proc_call. by destruct (op w). Qed.

Lemma proc_go_bind {W A B} (m : GoM W A) (k : A -> Proc W B) w a w' :
  m w = (Ret a, w') -> (proc_go m ≫= k) w = k a w'.
Proof. intros E. unfold mbind, Proc_bind, proc_go. by rewrite E. Qed.

(** [if err := f(); err != nil { log.Fatalf(...) }]. *)
Definition or_fatal {W} (m : Proc W (option string)) : Proc W unit :=
  e ← m;
  match e with
  | Some _ => os_exit 1
  | None => mret tt
  end.

(** [utilruntime.Must]. *)
Definition or_panic {W} (m : Proc W (option string)) : Proc W unit :=
  e ← m;
  match e with
  | Some _ => os_exit 2
  | None => mret tt
  end.

Definition parse_flags {W} `{!FlagVars} (fs : flags) (args : list string) : Proc W flags :=
  match flag_parse fs args with
  | FlagsOk fs' => mret fs'
  | FlagsHelp => os_exit 0
  | FlagsError => os_exit 2
  end.

(** The status of the process. *)
Definition exit_status (o : ending unit) : Z :=
  match o with
  | Goes _ => 0
  | Exits s => s
  end.

(** ** The legacy logger *)

Inductive log_formatter : Type :=
| TextFormatter
| JSONFormatter (timestamp : string).

Record LogrusLogger (level : Type) := {
  ll_Level : level;
  ll_Formatter : log_formatter;
  ll_Output : string
}.
Arguments ll_Level {_}. Arguments ll_Formatter {_}. Arguments ll_Output {_}.

Class Logrus := {
  LogrusLevel : Type;
  LogrusInfo : LogrusLevel;
  ParseLevel : string -> option LogrusLevel;
  logrus_New : LogrusLogger LogrusLevel
}.

Definition SetLevel `{!Logrus} (l : LogrusLevel) (g : LogrusLogger LogrusLevel) :=
  {| ll_Level := l; ll_Formatter := ll_Formatter g; ll_Output := ll_Output g |}.
Definition SetFormatter `{!Logrus} (f : log_formatter) (g : LogrusLogger LogrusLevel) :=
  {| ll_Level := ll_Level g; ll_Formatter := f; ll_Output := ll_Output g |}.
Definition SetOutput `{!Logrus} (o : string) (g : LogrusLogger LogrusLevel) :=
  {| ll_Level := ll_Level g; ll_Formatter := ll_Formatter g; ll_Output := o |}.

Definition InitializeLogger `{!Logrus} (logLevel : string) : LogrusLogger LogrusLevel :=
  let log := logrus_New in
  let level := match ParseLevel logLevel with Some l => l | None => LogrusInfo end in
  let log := SetLevel level log in
  let log := SetFormatter (JSONFormatter "2006-01-02T15:04:05Z07:00") log in
  SetOutput "stdout" log.

Definition utils_NewLogger `{!Logrus} (context : string) : LogrusLogger LogrusLevel := logrus_New.

(** ** What a run asks of the libraries *)

Section Runs.
Context {W E : Type} (journal : W -> list E).

Definition runs {A} (p : Proc W A) (Q : list E -> ending A -> Prop) : Prop :=
  forall w, exists o w' t, p w = (o, w') /\ journal w' = journal w ++ t /\ Q t o.

Lemma runs_mono {A} (p : Proc W A) (Q Q' : list E -> ending A -> Prop) :
  runs p Q -> (forall t o, Q t o -> Q' t o) -> runs p Q'.
Proof. intros Hp HQ w. destruct (Hp w) as (o & w' & t & Ep & Et & H). exists o, w', t. auto. Qed.

Lemma runs_ret {A} (a : A) (Q : list E -> ending A -> Prop) : Q [] (Goes a) -> runs (mret a) Q.
Proof. intros H w. exists (Goes a), w, []. by rewrite app_nil_r. Qed.

Lemma runs_exit {A} s (Q : list E -> ending A -> Prop) : Q [] (Exits s) -> runs (os_exit s) Q.
Proof. intros H w. exists (Exits s), w, []. by rewrite app_nil_r. Qed.

Lemma runs_bind {A B} (p : Proc W A) (k : A -> Proc W B) Q1 (Q : list E -> ending B -> Prop) :
  runs p Q1 ->
  (forall t s, Q1 t (Exits s) -> Q t (Exits s)) ->
  (forall t a, Q1 t (Goes a) -> runs (k a) (fun t' o => Q (t ++ t') o)) ->
  runs (p ≫= k) Q.
Proof.
  intros Hp Hexit Hk w. destruct (Hp w) as ([a|s] & w1 & t1 & E1 & T1 & H1).
  - destruct (Hk t1 a H1 w1) as (o & w2 & t2 & E2 & T2 & H2). exists o, w2, (t1 ++ t2).
    unfold mbind, Proc_bind. rewrite E1, T2, T1. by rewrite (assoc_L (++)).
  - exists (Exits s), w1, t1. unfold mbind, Proc_bind. rewrite E1. auto.
Qed.
End Runs.
