(* ===== verification/Operators.v ===== *)
(** * The operators' programs

    [cmd/operator/main.go] (CloudTask) and [cmd/main.go] (TaskJob) from start to
    end, with the registration of their types ([groupversion_info.go] and the [init]
    functions), of their controllers ([SetupWithManager]) and of the admission
    webhook ([SetupWebhookWithManager]).

    The manager of controller-runtime is the class [Manager]: every call the
    programs make that can fail is a [mgr_call], answered with an error or not.
    The options a program gives to the manager are data, so that what the servers
    are told can be stated; options for TLS are functions on the configuration, as
    in the code.  Every call of the manager is taken to answer, also its start, which
    runs until a signal arrives; that a second signal ends the process at once (inside
    [SetupSignalHandler]) is not modelled.  Log lines are left out; what ends the
    process is not. *)

From S2P Require Import Prelude GoStrings Kube CloudTaskApi CloudTaskController Http.
From S2P Require Import Logger WorkQueue Flags Process.

(** ** Types of an API group *)

Record GroupVersion := { gv_Group : string; gv_Version : string }.

Definition gv_String (gv : GroupVersion) : string :=
  if decide (gv_Group gv = "") then gv_Version gv else gv_Group gv +:+ "/" +:+ gv_Version gv.

Record SchemeBuilder := { sb_GroupVersion : GroupVersion; sb_Kinds : list string }.

Definition Register (kinds : list string) (b : SchemeBuilder) : SchemeBuilder :=
  {| sb_GroupVersion := sb_GroupVersion b; sb_Kinds := sb_Kinds b ++ kinds |}.

Definition tasksv1_GroupVersion : GroupVersion :=
  {| gv_Group := "tasks.orchestrator.dev"; gv_Version := "v1" |}.
Definition tasksv1_SchemeBuilder : SchemeBuilder :=
  Register ["CloudTask"; "CloudTaskList"]
    {| sb_GroupVersion := tasksv1_GroupVersion; sb_Kinds := [] |}.

Definition schedulerv1_GroupVersion : GroupVersion :=
  {| gv_Group := "scheduler.cloudos.io"; gv_Version := "v1" |}.
Definition schedulerv1_SchemeBuilder : SchemeBuilder :=
  Register ["TaskJob"; "TaskJobList"]
    {| sb_GroupVersion := schedulerv1_GroupVersion; sb_Kinds := [] |}.

Definition apiGVStr : string := gv_String tasksv1_GroupVersion.

(** ** Options of the manager *)

Record TLSConfig := { tls_NextProtos : list string }.

Definition disableHTTP2 (c : TLSConfig) : TLSConfig := {| tls_NextProtos := ["http/1.1"] |}.

Inductive FilterProvider : Type := NoFilter | WithAuthenticationAndAuthorization.

Record MetricsServerOptions := {
  ms_BindAddress : string;
  ms_SecureServing : bool;
  ms_TLSOpts : list (TLSConfig -> TLSConfig);
  ms_FilterProvider : FilterProvider;
  ms_CertDir : string;
  ms_CertName : string;
  ms_KeyName : string
}.

Record WebhookServerOptions := {
  ws_TLSOpts : list (TLSConfig -> TLSConfig);
  ws_CertDir : string;
  ws_CertName : string;
  ws_KeyName : string
}.

Record ManagerOptions := {
  mo_Metrics : MetricsServerOptions;
  mo_WebhookServer : option WebhookServerOptions;
  mo_HealthProbeBindAddress : string;
  mo_LeaderElection : bool;
  mo_LeaderElectionID : string
}.

(** The servers run the options on their configuration, in order. *)
Definition apply_tls (opts : list (TLSConfig -> TLSConfig)) (c : TLSConfig) : TLSConfig :=
  foldl (fun c o => o c) c opts.

(** ** Calls of the manager *)

Section Calls.
Context {K : K8sTypes}.

Inductive mgr_call : Type :=
| AddClientGoScheme
| AddToScheme (b : SchemeBuilder)
| GetConfig
| NewManager (o : ManagerOptions)
| IndexField (kind key : string) (f : Pod -> list string)
| CompleteController (c : ControllerSpec) (recorder : option string)
| CompleteWebhook (kind : string)
| AddHealthzCheck (name : string)
| AddReadyzCheck (name : string)
| StartManager.
End Calls.

(** [SetLogger] takes the development mode of controller-runtime's own logger;
    [zap_flags] are the flags it declares besides [zap-devel]. *)
Class Manager {K : K8sTypes} (W : Type) := {
  m_call : mgr_call -> W -> option string * W;
  SetLogger : bool -> W -> W;
  zap_flags : flags
}.

Section Programs.
Context {K : K8sTypes} {W : Type} `{!Manager W, !Zap W, !FlagVars, !Logrus}.

Abbreviation P := (Proc W).

Definition mgr (c : mgr_call) : P (option string) := proc_call (m_call c).

(** [BindFlags]: the development mode and the other flags of the logger. *)
Definition BindFlags (development : bool) (fs : flags) : flags :=
  <["zap-devel" := FBool development]> fs ∪ zap_flags.

(** ** The CloudTask operator *)

(** The name of the CloudTask that controls a pod. *)
Definition pod_owner_index (pod : Pod) : list string :=
  match om_Owner (pod_Meta pod) with
  | None => []
  | Some owner =>
      if or_Controller owner then
        if decide (or_APIVersion owner <> apiGVStr \/ or_Kind owner <> "CloudTask") then []
        else [or_Name owner]
      else []
  end.

Definition cloudTaskOwnerKey : string := ".metadata.controller".

Definition SetupWithManager : P (option string) :=
  let recorder := Some "cloudtask-controller" in
  e ← mgr (IndexField "Pod" cloudTaskOwnerKey pod_owner_index);
  match e with
  | Some err => mret (Some err)
  | None => mgr (CompleteController cloudtask_controller recorder)
  end.

Definition SetupWebhookWithManager : P (option string) := mgr (CompleteWebhook "CloudTask").

Definition init_scheme (b : SchemeBuilder) : P unit :=
  _ ← or_panic (mgr AddClientGoScheme);
  or_panic (mgr (AddToScheme b)).

Definition operator_flag_defaults : flags :=
  list_to_map [("metrics-bind-address", FStr ":8080"); ("health-probe-bind-address", FStr ":8081");
    ("leader-elect", FBool false); ("log-level", FStr "info"); ("env", FStr "production")].

(** The level that decides the development mode is read before the flags are
    parsed: it is the default. *)
Definition operator_flags : flags :=
  BindFlags (bool_decide (str_flag operator_flag_defaults "log-level" = "debug"))
    operator_flag_defaults.

Definition operator_options (fs : flags) : ManagerOptions :=
  {| mo_Metrics :=
       {| ms_BindAddress := str_flag fs "metrics-bind-address"; ms_SecureServing := false;
          ms_TLSOpts := []; ms_FilterProvider := NoFilter; ms_CertDir := ""; ms_CertName := "";
          ms_KeyName := "" |};
     mo_WebhookServer := None;
     mo_HealthProbeBindAddress := str_flag fs "health-probe-bind-address";
     mo_LeaderElection := bool_flag fs "leader-elect";
     mo_LeaderElectionID := "cloudtask-operator.orchestrator.dev" |}.

(** [main] once the flags are read. *)
Definition operator_run (getenv : string -> string) (fs : flags) : P unit :=
  _ ← proc_call (fun w => (tt, SetLogger (bool_flag fs "zap-devel") w));
  l ← proc_go (NewLogger (str_flag fs "env"));
  match l with
  | inl _ => os_exit 1
  | inr structuredLogger =>
      let legacyLog := InitializeLogger (str_flag fs "log-level") in
      _ ← or_fatal (mgr GetConfig);
      _ ← or_fatal (mgr (NewManager (operator_options fs)));
      _ ← or_fatal SetupWithManager;
      _ ← (if decide (getenv "ENABLE_WEBHOOKS" <> "false")
           then _ ← SetupWebhookWithManager; mret tt
           else mret tt);
      _ ← or_fatal (mgr (AddHealthzCheck "healthz"));
      _ ← or_fatal (mgr (AddReadyzCheck "readyz"));
      _ ← or_fatal (mgr StartManager);
      _ ← proc_call zap_sync;
      mret tt
  end.

Definition operator_main (getenv : string -> string) (args : list string) : P unit :=
  _ ← init_scheme tasksv1_SchemeBuilder;
  fs ← parse_flags operator_flags args;
  operator_run getenv fs.

(** ** The TaskJob operator *)

Definition job_SetupWithManager : P (option string) :=
  mgr (CompleteController taskjob_controller None).

Definition manager_flag_defaults : flags :=
  list_to_map [("metrics-bind-address", FStr "0"); ("health-probe-bind-address", FStr ":8081");
    ("leader-elect", FBool false); ("metrics-secure", FBool true);
    ("webhook-cert-path", FStr ""); ("webhook-cert-name", FStr "tls.crt");
    ("webhook-cert-key", FStr "tls.key"); ("metrics-cert-path", FStr "");
    ("metrics-cert-name", FStr "tls.crt"); ("metrics-cert-key", FStr "tls.key");
    ("enable-http2", FBool false)].

Definition manager_flags : flags := BindFlags true manager_flag_defaults.

Definition manager_tlsOpts (fs : flags) : list (TLSConfig -> TLSConfig) :=
  if bool_flag fs "enable-http2" then [] else [disableHTTP2].

Definition manager_webhook_options (fs : flags) : WebhookServerOptions :=
  let o := {| ws_TLSOpts := manager_tlsOpts fs; ws_CertDir := ""; ws_CertName := "";
              ws_KeyName := "" |} in
  if decide (str_len (str_flag fs "webhook-cert-path") > 0)
  then {| ws_TLSOpts := ws_TLSOpts o; ws_CertDir := str_flag fs "webhook-cert-path";
          ws_CertName := str_flag fs "webhook-cert-name";
          ws_KeyName := str_flag fs "webhook-cert-key" |}
  else o.

Definition manager_metrics_options (fs : flags) : MetricsServerOptions :=
  let o := {| ms_BindAddress := str_flag fs "metrics-bind-address";
              ms_SecureServing := bool_flag fs "metrics-secure"; ms_TLSOpts := manager_tlsOpts fs;
              ms_FilterProvider := if bool_flag fs "metrics-secure"
                                   then WithAuthenticationAndAuthorization else NoFilter;
              ms_CertDir := ""; ms_CertName := ""; ms_KeyName := "" |} in
  if decide (str_len (str_flag fs "metrics-cert-path") > 0)
  then {| ms_BindAddress := ms_BindAddress o; ms_SecureServing := ms_SecureServing o;
          ms_TLSOpts := ms_TLSOpts o; ms_FilterProvider := ms_FilterProvider o;
          ms_CertDir := str_flag fs "metrics-cert-path";
          ms_CertName := str_flag fs "metrics-cert-name";
          ms_KeyName := str_flag fs "metrics-cert-key" |}
  else o.

Definition manager_options (fs : flags) : ManagerOptions :=
  {| mo_Metrics := manager_metrics_options fs;
     mo_WebhookServer := Some (manager_webhook_options fs);
     mo_HealthProbeBindAddress := str_flag fs "health-probe-bind-address";
     mo_LeaderElection := bool_flag fs "leader-elect";
     mo_LeaderElectionID := "82ed545a.cloudos.io" |}.

Definition manager_run (fs : flags) : P unit :=
  _ ← proc_call (fun w => (tt, SetLogger (bool_flag fs "zap-devel") w));
  _ ← or_fatal (mgr GetConfig);
  _ ← or_fatal (mgr (NewManager (manager_options fs)));
  _ ← or_fatal job_SetupWithManager;
  _ ← or_fatal (mgr (AddHealthzCheck "healthz"));
  _ ← or_fatal (mgr (AddReadyzCheck "readyz"));
  or_fatal (mgr StartManager).

Definition manager_main (args : list string) : P unit :=
  _ ← init_scheme schedulerv1_SchemeBuilder;
  fs ← parse_flags manager_flags args;
  manager_run fs.
End Programs.
