(* ===== verification/OperatorsProofs.v ===== *)
(** * When the operators run, and what their servers are told

    Both programs are scripts of calls to the manager: a call that fails ends the
    process, but for the one that sets up the admission webhook.  [script_run] is
    that specification, and [operator_start_up] and [manager_start_up] the
    consequences for every answer of the libraries.  [manager_http2_off] and
    [metrics_guarded] are about the options of the TaskJob operator's servers. *)

From S2P Require Import Prelude GoStrings Kube CloudTaskApi CloudTaskController Http.
From S2P Require Import Logger WorkQueue Flags Process Operators MemKube CloudTaskProofs.

Class ManagerLaws {K : K8sTypes} (W : Type) `{!Manager W, !Zap W} := {
  mgr_log : W -> list (mgr_call * option string);
  m_call_log c w : mgr_log (m_call c w).2 = mgr_log w ++ [(c, (m_call c w).1)];
  SetLogger_log b w : mgr_log (SetLogger b w) = mgr_log w;
  zap_build_log c w : mgr_log (zap_build c w).2 = mgr_log w;
  zap_sync_log w : mgr_log (zap_sync w).2 = mgr_log w
}.

Section Proofs.
Context {K : K8sTypes} {W : Type} `{MG : !Manager W, ZP : !Zap W, FV : !FlagVars, LG : !Logrus, ML : !ManagerLaws W}.

Abbreviation trace := (list (mgr_call * option string)).
Abbreviation runs := (runs mgr_log).

(** ** Scripts: a call with the status its failure ends the process with, if any *)

Definition step : Type := option Z * mgr_call.

Inductive script_run : list step -> trace -> ending unit -> Prop :=
| script_done : script_run [] [] (Goes tt)
| script_ok s c ss t o : script_run ss t o -> script_run ((s, c) :: ss) ((c, None) :: t) o
| script_ignored c e ss t o : script_run ss t o -> script_run ((None, c) :: ss) ((c, Some e) :: t) o
| script_failed s c e ss : script_run ((Some s, c) :: ss) [(c, Some e)] (Exits s).

Fixpoint run_script (ss : list step) : Proc W unit :=
  match ss with
  | [] => mret tt
  | (s, c) :: ss' =>
      e ← mgr c;
      match e, s with
      | Some _, Some status => os_exit status
      | _, _ => run_script ss'
      end
  end.

Lemma runs_mgr c (Q : trace -> ending (option string) -> Prop) :
  (forall e, Q [(c, e)] (Goes e)) -> runs (mgr c) Q.
Proof.
  intros H w. pose proof (m_call_log c w) as HL. unfold mgr, proc_call.
  destruct (m_call c w) as [e w'] eqn:E. exists (Goes e), w', [(c, e)]. auto.
Qed.

Lemma run_script_spec ss : runs (run_script ss) (script_run ss).
Proof.
  induction ss as [|[s c] ss IH]; [apply runs_ret; constructor|].
  eapply runs_bind; [apply (runs_mgr c (fun t o => exists e, t = [(c, e)] /\ o = Goes e)); eauto| |].
  - by intros t s' (e & _ & ?).
  - intros t e (e' & -> & [= <-]). destruct e as [e|]; [destruct s as [s|]|].
    + apply runs_exit. constructor.
    + eapply runs_mono; [apply IH|]. by constructor.
    + eapply runs_mono; [apply IH|]. by constructor.
Qed.

(** No call without a [None] status failed. *)
Definition only_ignored (ss : list step) (t : trace) : Prop :=
  forall c e, (c, Some e) ∈ t -> (None, c) ∈ ss.

Lemma script_run_goes ss t o :
  script_run ss t o -> o = Goes tt -> t.*1 = ss.*2 /\ only_ignored ss t.
Proof.
  induction 1 as [|s c ss t o H IH|c e ss t o H IH|]; intros E; simplify_eq/=.
  - split; [done|]. by intros c e ?%not_elem_of_nil.
  - destruct (IH eq_refl) as [-> Hi]. split; [done|]. intros c' e' [|]%elem_of_cons; [done|].
    right. by eapply Hi.
  - destruct (IH eq_refl) as [-> Hi]. split; [done|]. intros c' e' [[= -> ->]|]%elem_of_cons; [left|].
    right. by eapply Hi.
Qed.

Lemma script_run_exits ss t s :
  script_run ss t (Exits s) ->
  exists t0 c e ss0 ss1, t = t0 ++ [(c, Some e)] /\ ss = ss0 ++ (Some s, c) :: ss1 /\
    t0.*1 = ss0.*2 /\ only_ignored ss0 t0.
Proof.
  remember (Exits s) as o eqn:Eo. induction 1 as [|s' c ss t o H IH|c e ss t o H IH|s' c e ss]; simplify_eq.
  - destruct (IH eq_refl) as (t0 & c0 & e0 & ss0 & ss1 & -> & -> & Ht & Hi).
    exists ((c, None) :: t0), c0, e0, ((s', c) :: ss0), ss1. split_and!; [done..|exact (f_equal (cons c) Ht)|].
    intros c' e' [|]%elem_of_cons; [done|]. right. by eapply Hi.
  - destruct (IH eq_refl) as (t0 & c0 & e0 & ss0 & ss1 & -> & -> & Ht & Hi).
    exists ((c, Some e) :: t0), c0, e0, ((None, c) :: ss0), ss1.
    split_and!; [done..|exact (f_equal (cons c) Ht)|].
    intros c' e' [[= -> ->]|]%elem_of_cons; [left|]. right. by eapply Hi.
  - exists [], c, e, [], ss. split_and!; [done..|]. by intros c' e' ?%not_elem_of_nil.
Qed.

(** ** Programs: the scheme, the flags, the logger, the script *)

Definition init_steps (b : SchemeBuilder) : list step :=
  [(Some 2, AddClientGoScheme); (Some 2, AddToScheme b)].

Definition init_done (b : SchemeBuilder) : trace := [(AddClientGoScheme, None); (AddToScheme b, None)].

(** Zap could not build a logger in some state of the world. *)
Definition logger_failed (fs : flags) : Prop :=
  exists w e, (zap_build (logger_config (str_flag fs "env")) w).1 = Some e.

Inductive program_run (b : SchemeBuilder) (fs0 : flags) (args : list string)
    (steps : flags -> list step) : trace -> ending unit -> Prop :=
| program_scheme t : script_run (init_steps b) t (Exits 2) -> program_run b fs0 args steps t (Exits 2)
| program_help : flag_parse fs0 args = FlagsHelp -> program_run b fs0 args steps (init_done b) (Exits 0)
| program_flags : flag_parse fs0 args = FlagsError -> program_run b fs0 args steps (init_done b) (Exits 2)
| program_logger fs :
    flag_parse fs0 args = FlagsOk fs -> logger_failed fs ->
    program_run b fs0 args steps (init_done b) (Exits 1)
| program_script fs t o :
    flag_parse fs0 args = FlagsOk fs -> script_run (steps fs) t o ->
    program_run b fs0 args steps (init_done b ++ t) o.

(** What the script does once the flags are read. *)
Definition after_flags (fs : flags) (steps : flags -> list step) (t : trace) (o : ending unit) : Prop :=
  (t = [] /\ o = Exits 1 /\ logger_failed fs) \/ script_run (steps fs) t o.

Lemma program_runs b fs0 args steps (body : flags -> Proc W unit) :
  (forall fs, runs (body fs) (after_flags fs steps)) ->
  runs (_ ← init_scheme b; fs ← parse_flags fs0 args; body fs) (program_run b fs0 args steps).
Proof.
  intros Hbody. eapply (runs_bind _ _ _ (script_run (init_steps b))).
  - intros w. destruct (run_script_spec (init_steps b) w) as (o & w' & t & E & Ht & Hr).
    exists o, w', t. split; [|done]. rewrite <-E. unfold init_scheme, or_panic, run_script, init_steps,
      mgr, proc_call, mbind, Proc_bind. destruct (m_call AddClientGoScheme w) as [[e|] w1]; simpl; [done|].
    destruct (m_call (AddToScheme b) w1) as [[e|] w2]; done.
  - intros t s Hr. destruct (script_run_exits _ _ _ Hr) as (t0 & c & e & ss0 & ss1 & _ & Hss & _).
    assert (s = 2) as -> by (unfold init_steps in Hss; by destruct ss0 as [|? [|? [|]]]; simplify_eq/=).
    by constructor.
  - intros t [] Hr. assert (t = init_done b) as ->.
    { unfold init_steps in Hr. inversion Hr as [|? ? ? ? ? Hr'| |]; simplify_eq.
      inversion Hr' as [|? ? ? ? ? Hr''| |]; simplify_eq. by inversion Hr''. }
    unfold parse_flags. destruct (flag_parse fs0 args) as [fs| |] eqn:Ef.
    + eapply runs_mono; [apply Hbody|]. intros t' o [(-> & -> & Hl)|Hs].
      * rewrite app_nil_r. by eapply program_logger.
      * by eapply program_script.
    + apply runs_exit. rewrite app_nil_r. by constructor.
    + apply runs_exit. rewrite app_nil_r. by constructor.
Qed.

(** Scripts that end by starting the manager: every other call is ignored when it
    fails, or ends the process with status 1. *)
Definition starts_last (ss : list step) : Prop :=
  exists ss0, ss = ss0 ++ [(Some 1, StartManager)] /\
    forall s c, (s, c) ∈ ss0 -> (s = None \/ s = Some 1) /\ c <> StartManager.

Definition ends_well (b : SchemeBuilder) (fs0 : flags) (args : list string)
    (steps : flags -> list step) (t : trace) (o : ending unit) : Prop :=
  (** the manager starts only when all that was asked before was done *)
  (StartManager ∈ t.*1 -> exists fs, flag_parse fs0 args = FlagsOk fs /\
     t.*1 = (init_done b).*1 ++ (steps fs).*2 /\
     forall c e, (c, Some e) ∈ t -> c = StartManager \/ (None, c) ∈ steps fs) /\
  (** status 0: it stopped without an error, or help was asked for *)
  (exit_status o = 0 <-> (StartManager, None) ∈ t \/ (flag_parse fs0 args = FlagsHelp /\ t = init_done b)) /\
  (** status 1: the last call failed, or there was no logger *)
  (exit_status o = 1 -> exists fs, flag_parse fs0 args = FlagsOk fs /\
     ((t = init_done b /\ logger_failed fs) \/ exists t0 c e, t = t0 ++ [(c, Some e)])) /\
  (exit_status o = 0 \/ exit_status o = 1 \/ exit_status o = 2).

Lemma init_done_no_start b r : (StartManager, r) ∈ init_done b -> False.
Proof. unfold init_done. rewrite !elem_of_cons. intros [|[|?%not_elem_of_nil]]; done. Qed.

Lemma init_done_calls b : StartManager ∈ (init_done b).*1 -> False.
Proof.
  intros ([c r] & Hc & Hin)%list_elem_of_fmap. simpl in Hc. subst c. by apply init_done_no_start in Hin.
Qed.

Lemma init_run_no_start b t s : script_run (init_steps b) t (Exits s) -> StartManager ∈ t.*1 -> False.
Proof.
  intros (t0 & c & e & ss0 & ss1 & -> & Hss & Ht0 & _)%script_run_exits Hin.
  rewrite fmap_app, Ht0 in Hin. assert (StartManager ∈ (init_steps b).*2) as Hin'.
  { rewrite Hss, fmap_app. simpl. set_solver. }
  unfold init_steps in Hin'. simpl in Hin'. rewrite !elem_of_cons in Hin'.
  by destruct Hin' as [|[|?%not_elem_of_nil]].
Qed.

(** A script that starts the manager last. *)
Lemma starts_last_run ss t o :
  starts_last ss -> script_run ss t o ->
  (StartManager ∈ t.*1 -> t.*1 = ss.*2 /\
     forall c e, (c, Some e) ∈ t -> c = StartManager \/ (None, c) ∈ ss) /\
  (o = Goes tt /\ (StartManager, None) ∈ t \/
   o = Exits 1 /\ ~ ((StartManager, None) ∈ t) /\ exists t0 c e, t = t0 ++ [(c, Some e)]).
Proof.
  intros (ss0 & -> & Hpre) Hr. destruct o as [[]|s].
  - destruct (script_run_goes _ _ _ Hr eq_refl) as [Ht Hi]. split; [eauto|]. left. split; [done|].
    assert (StartManager ∈ t.*1) as ([c r] & Hc & Hin)%list_elem_of_fmap.
    { rewrite Ht, fmap_app. set_solver. }
    simpl in Hc. subst c.
    destruct r as [e|]; [|done]. apply Hi in Hin. apply elem_of_app in Hin as [Hin|Hin].
    + by apply Hpre in Hin as [_ ?].
    + by apply list_elem_of_singleton in Hin.
  - destruct (script_run_exits _ _ _ Hr) as (t0 & c & e & sa & sb & -> & Hss & Ht0 & Hi).
    assert ((sb = [] /\ ss0 = sa /\ s = 1 /\ c = StartManager) \/
            (exists sb', ss0 = sa ++ (Some s, c) :: sb')) as Hcase.
    { destruct sb as [|x sb _] using rev_ind.
      - apply app_inj_2 in Hss as [-> [= <- <-]]; [by left|done].
      - right. exists sb. rewrite app_comm_cons, (assoc_L (++)) in Hss. by apply app_inj_2 in Hss as [-> _]. }
    assert (StartManager ∉ t0.*1) as Hn.
    { rewrite Ht0. intros ([s' c'] & Hc & Hin)%list_elem_of_fmap. simpl in Hc. subst c'.
      assert ((s', StartManager) ∈ ss0) as [_ ?]%Hpre; [|done].
      destruct Hcase as [(_ & -> & _)|[sb' ->]]; set_solver. }
    split; cycle 1.
    + right. split.
      * f_equal. destruct Hcase as [(_ & _ & -> & _)|[sb' ->]]; [done|].
        destruct (Hpre (Some s) c) as [[?|?] _]; [set_solver|congruence..].
      * split; [|eauto]. rewrite elem_of_app, list_elem_of_singleton. intros [Hin|?]; [|done].
        apply Hn, list_elem_of_fmap. by exists (StartManager, None).
    + intros Hin. rewrite fmap_app, elem_of_app in Hin. destruct Hin as [|Hin]; [done|].
      apply list_elem_of_singleton in Hin. simpl in Hin. subst c.
      destruct Hcase as [(-> & -> & -> & _)|[sb' ->]]; cycle 1.
      { by destruct (Hpre (Some s) StartManager) as [_ ?]; [set_solver|]. }
      rewrite fmap_app, Ht0, fmap_app. split; [done|]. intros c' e' Hin.
      apply elem_of_app in Hin as [Hin|Hin].
      * right. apply elem_of_app. left. by eapply Hi.
      * apply list_elem_of_singleton in Hin. left. congruence.
Qed.

Lemma program_ends_well b fs0 args steps t o :
  (forall fs, starts_last (steps fs)) -> program_run b fs0 args steps t o ->
  ends_well b fs0 args steps t o.
Proof.
  intros Hsl [t' Hr|Hf|Hf|fs Hf Hl|fs t' o' Hf Hr].
  - split_and!; [intros Hin; by destruct (init_run_no_start _ _ _ Hr Hin)| |done|auto].
    split; [done|]. intros [Hin|[Hf ->]]; exfalso.
    + eapply init_run_no_start; [done|]. apply list_elem_of_fmap. by exists (StartManager, None).
    + apply script_run_exits in Hr as (t0 & c & e & ? & ? & Heq & _).
      unfold init_done in Heq. by destruct t0 as [|? [|? [|]]].
  - split_and!; [by intros ?%init_done_calls|split; auto|done|auto].
  - split_and!; [by intros ?%init_done_calls| |done|auto].
    split; [done|]. intros [?%init_done_no_start|[? _]]; [done|congruence].
  - split_and!; [by intros ?%init_done_calls| |eauto|auto].
    split; [done|]. intros [?%init_done_no_start|[? _]]; [done|congruence].
  - destruct (starts_last_run _ _ _ (Hsl fs) Hr) as [Hstart Hend]. split_and!.
    + intros Hin. rewrite fmap_app, elem_of_app in Hin. destruct Hin as [[]%init_done_calls|Hin].
      destruct (Hstart Hin) as [Heq Hi]. exists fs. split; [done|]. split; [by rewrite fmap_app, Heq|].
      intros c e Hce. apply elem_of_app in Hce as [Hce|Hce]; [|by eapply Hi].
      unfold init_done in Hce. rewrite !elem_of_cons in Hce. by destruct Hce as [|[|?%not_elem_of_nil]].
    + destruct Hend as [[-> Hin]|(-> & Hnin & _)].
      * split; [|done]. intros _. left. set_solver.
      * split; [done|]. intros [[?%init_done_no_start|?]%elem_of_app|[? _]]; [done..|congruence].
    + intros Hs. exists fs. split; [done|]. right.
      destruct Hend as [[-> _]|(_ & _ & t0 & c & e & ->)]; [done|].
      exists (init_done b ++ t0), c, e. by rewrite (assoc_L (++)).
    + destruct Hend as [[-> _]|[-> _]]; auto.
Qed.

(** ** The CloudTask operator *)

Definition operator_steps (getenv : string -> string) (fs : flags) : list step :=
  [(Some 1, GetConfig); (Some 1, NewManager (operator_options fs));
   (Some 1, IndexField "Pod" cloudTaskOwnerKey pod_owner_index);
   (Some 1, CompleteController cloudtask_controller (Some "cloudtask-controller"))] ++
  (if decide (getenv "ENABLE_WEBHOOKS" <> "false") then [(None, CompleteWebhook "CloudTask")] else []) ++
  [(Some 1, AddHealthzCheck "healthz"); (Some 1, AddReadyzCheck "readyz"); (Some 1, StartManager)].

Lemma operator_steps_start getenv fs : starts_last (operator_steps getenv fs).
Proof.
  unfold operator_steps. case_decide;
    [exists [(Some 1, GetConfig); (Some 1, NewManager (operator_options fs));
       (Some 1, IndexField "Pod" cloudTaskOwnerKey pod_owner_index);
       (Some 1, CompleteController cloudtask_controller (Some "cloudtask-controller"));
       (None, CompleteWebhook "CloudTask");
       (Some 1, AddHealthzCheck "healthz"); (Some 1, AddReadyzCheck "readyz")]
    |exists [(Some 1, GetConfig); (Some 1, NewManager (operator_options fs));
       (Some 1, IndexField "Pod" cloudTaskOwnerKey pod_owner_index);
       (Some 1, CompleteController cloudtask_controller (Some "cloudtask-controller"));
       (Some 1, AddHealthzCheck "healthz"); (Some 1, AddReadyzCheck "readyz")]];
    (split; [done|]); intros s c Hin; rewrite !elem_of_cons, elem_of_nil in Hin;
    destruct_or? Hin; simplify_eq; auto.
Qed.

(** Both sides make the same calls: split on the answers, in order. *)
Ltac same_calls :=
  cbn [run_script app]; unfold or_fatal, mgr, proc_call, mbind, Proc_bind, mret, Proc_ret, os_exit;
  repeat (simpl; match goal with
    |- context [m_call ?c ?w] => destruct (m_call c w) as [[?|] ?]; try done end);
  simpl; try done.

Lemma NewLogger_run env (w : W) :
  NewLogger env w = (Ret match (zap_build (logger_config env) w).1 with
    | Some err => inl ("failed to create logger: " +:+ err)
    | None => inr {| lg_fields := [("service", LStr ServiceName)] |}
    end, (zap_build (logger_config env) w).2).
Proof. unfold NewLogger. rewrite lift_bind. by destruct (zap_build _ w) as [[e|] w']. Qed.

Lemma operator_run_runs getenv fs :
  runs (operator_run getenv fs) (after_flags fs (operator_steps getenv)).
Proof.
  intros w1. unfold operator_run. rewrite proc_call_bind. simpl.
  pose proof (SetLogger_log (bool_flag fs "zap-devel") w1) as L1.
  set (w2 := SetLogger (bool_flag fs "zap-devel") w1) in *.
  rewrite (proc_go_bind _ _ _ _ _ (NewLogger_run _ w2)).
  pose proof (zap_build_log (logger_config (str_flag fs "env")) w2) as L2.
  destruct (zap_build (logger_config (str_flag fs "env")) w2) as [[e|] w3] eqn:Ez; simpl in *.
  - exists (Exits 1), w3, []. rewrite app_nil_r, L2, L1. split; [done|]. split; [done|]. left.
    split; [done|]. split; [done|]. exists w2, e. by rewrite Ez.
  - destruct (run_script_spec (operator_steps getenv fs) w3) as (o & w4 & t & E & Ht & Hr).
    exists o, (match o with Goes _ => (zap_sync w4).2 | Exits _ => w4 end), t.
    split; [|split; [|by right]]; [|destruct o; by rewrite ?zap_sync_log, Ht, L2, L1].
    clear Ht Hr L1 L2 Ez. revert E.
    unfold operator_steps, SetupWithManager, SetupWebhookWithManager.
    case_decide; same_calls; intros [= <- <-]; try done.
    all: match goal with |- context [zap_sync ?w] => by destruct (zap_sync w) end.
Qed.

(** C22: start-up of the CloudTask operator, whatever the libraries answer.  When the
    calls of the libraries return, among them the start of the manager, which returns
    when a signal stops it, the program ends.  The manager is started only after the flags were read and
    every call before it succeeded, in the order of the code, except for the call
    that sets up the admission webhook, whose failure stops nothing.  The status is
    0 exactly when the manager stopped without an error or help was asked for; it is
    1 only when the last call failed or zap could not build the logger. *)
Theorem operator_start_up (getenv : string -> string) (args : list string) (w : W) :
  exists o w' t, operator_main getenv args w = (o, w') /\ mgr_log w' = mgr_log w ++ t /\
    ends_well tasksv1_SchemeBuilder operator_flags args (operator_steps getenv) t o.
Proof.
  eapply (runs_mono _ (operator_main getenv args)); [apply program_runs|].
  2:{ intros t o Hr. apply program_ends_well; [apply operator_steps_start|exact Hr]. }
  apply operator_run_runs.
Qed.

(** ** The TaskJob operator *)

Definition manager_steps (fs : flags) : list step :=
  [(Some 1, GetConfig); (Some 1, NewManager (manager_options fs));
   (Some 1, CompleteController taskjob_controller None);
   (Some 1, AddHealthzCheck "healthz"); (Some 1, AddReadyzCheck "readyz"); (Some 1, StartManager)].

Lemma manager_run_runs fs : runs (manager_run fs) (after_flags fs manager_steps).
Proof.
  intros w1. unfold manager_run. rewrite proc_call_bind. simpl.
  pose proof (SetLogger_log (bool_flag fs "zap-devel") w1) as L1.
  set (w2 := SetLogger (bool_flag fs "zap-devel") w1) in *.
  destruct (run_script_spec (manager_steps fs) w2) as (o & w3 & t & E & Ht & Hr).
  exists o, w3, t. split; [|split; [by rewrite Ht, L1|by right]].
  rewrite <-E. unfold manager_steps, job_SetupWithManager. same_calls.
Qed.

Lemma manager_program_runs args :
  runs (manager_main args)
    (program_run schedulerv1_SchemeBuilder manager_flags args manager_steps).
Proof. apply program_runs, manager_run_runs. Qed.

(** The flags of the manager, whatever the command line. *)
Lemma manager_flag_http2 args fs :
  flag_parse manager_flags args = FlagsOk fs ->
  (forall arg, arg ∈ args -> ~ names "enable-http2" arg) -> bool_flag fs "enable-http2" = false.
Proof.
  intros Hf Hn. unfold bool_flag. rewrite (flag_parse_default _ _ _ _ Hf Hn).
  unfold manager_flags, BindFlags. by rewrite (lookup_union_Some_l _ _ _ (FBool false)).
Qed.

(** Any call to make a manager carries the options of the parsed flags. *)
Lemma manager_made args t o opts r :
  program_run schedulerv1_SchemeBuilder manager_flags args manager_steps t o ->
  (NewManager opts, r) ∈ t ->
  exists fs, flag_parse manager_flags args = FlagsOk fs /\ opts = manager_options fs.
Proof.
  intros Hr Hin. assert (forall b, (NewManager opts, r) ∈ init_done b -> False) as Hno.
  { intros b. unfold init_done. rewrite !elem_of_cons. intros [|[|?%not_elem_of_nil]]; done. }
  destruct Hr as [t Hr| | | |fs t o Hf Hr]; try by apply Hno in Hin.
  - apply script_run_exits in Hr as (t0 & c & e & ss0 & ss1 & -> & Hss & Ht0 & _).
    assert (NewManager opts ∈ (init_steps schedulerv1_SchemeBuilder).*2) as Hin'.
    { apply (list_elem_of_fmap_2 fst) in Hin. rewrite fmap_app, Ht0 in Hin.
      rewrite Hss, fmap_app. simpl in *. set_solver. }
    unfold init_steps in Hin'. simpl in Hin'. rewrite !elem_of_cons in Hin'.
    by destruct Hin' as [|[|?%not_elem_of_nil]].
  - exists fs. split; [done|]. apply elem_of_app in Hin as [[]%Hno|Hin].
    apply (list_elem_of_fmap_2 fst) in Hin. simpl in Hin.
    assert (NewManager opts ∈ (manager_steps fs).*2) as Hin'.
    { destruct o as [[]|s].
      - by destruct (script_run_goes _ _ _ Hr eq_refl) as [<- _].
      - apply script_run_exits in Hr as (t0 & c & e & ss0 & ss1 & -> & Hss & Ht0 & _).
        rewrite Hss, fmap_app. rewrite fmap_app, Ht0 in Hin. simpl in *. set_solver. }
    unfold manager_steps in Hin'. simpl in Hin'. rewrite !elem_of_cons in Hin'.
    by destruct Hin' as [|[[= ->]|[|[|[|[|?%not_elem_of_nil]]]]]].
Qed.

(** C24: the servers of the TaskJob operator, for every command line and every answer
    of the libraries.  The program always ends, and whenever it asks for a manager:
    unless an argument names enable-http2, the TLS options leave both the metrics
    server and the webhook server with HTTP/1.1 only, whatever their configuration
    was; unless an argument names metrics-secure, metrics are served over TLS; and
    metrics served over TLS are behind authentication and authorization. *)
Theorem manager_servers_guarded (args : list string) (w : W) :
  exists o w' t, manager_main args w = (o, w') /\ mgr_log w' = mgr_log w ++ t /\
    forall opts r, (NewManager opts, r) ∈ t ->
      ((forall arg, arg ∈ args -> ~ names "enable-http2" arg) ->
         forall c, tls_NextProtos (apply_tls (ms_TLSOpts (mo_Metrics opts)) c) = ["http/1.1"] /\
           exists ws, mo_WebhookServer opts = Some ws /\
             tls_NextProtos (apply_tls (ws_TLSOpts ws) c) = ["http/1.1"]) /\
      ((forall arg, arg ∈ args -> ~ names "metrics-secure" arg) ->
         ms_SecureServing (mo_Metrics opts) = true) /\
      (ms_SecureServing (mo_Metrics opts) = true ->
         ms_FilterProvider (mo_Metrics opts) = WithAuthenticationAndAuthorization).
Proof.
  eapply (runs_mono _ (manager_main args)); [apply manager_program_runs|].
  intros t o Hr opts r Hin. destruct (manager_made _ _ _ _ _ Hr Hin) as (fs & Hf & ->). split_and!.
  - intros Hn c. pose proof (manager_flag_http2 _ _ Hf Hn) as Hb. simpl.
    unfold manager_metrics_options, manager_webhook_options, manager_tlsOpts. rewrite Hb.
    split; [by case_decide|]. eexists. split; [done|]. by case_decide.
  - intros Hn. assert (bool_flag fs "metrics-secure" = true) as Hb.
    { unfold bool_flag. rewrite (flag_parse_default _ _ _ _ Hf Hn).
      unfold manager_flags, BindFlags. by rewrite (lookup_union_Some_l _ _ _ (FBool true)). }
    simpl. unfold manager_metrics_options. by case_decide.
  - simpl. unfold manager_metrics_options. case_decide; simpl; by intros ->.
Qed.

(** Start-up of the TaskJob operator, as for the other one. *)
Theorem manager_start_up (args : list string) (w : W) :
  exists o w' t, manager_main args w = (o, w') /\ mgr_log w' = mgr_log w ++ t /\
    ends_well schedulerv1_SchemeBuilder manager_flags args manager_steps t o.
Proof.
  eapply (runs_mono _ (manager_main args)); [apply manager_program_runs|].
  intros t o Hr. apply program_ends_well; [|exact Hr]. intros fs. unfold manager_steps.
  exists [(Some 1, GetConfig); (Some 1, NewManager (manager_options fs));
   (Some 1, CompleteController taskjob_controller None);
   (Some 1, AddHealthzCheck "healthz"); (Some 1, AddReadyzCheck "readyz")].
  split; [done|]. intros s c Hin. rewrite !elem_of_cons, elem_of_nil in Hin.
  destruct_or? Hin; simplify_eq; auto.
Qed.

(** The log level given on the command line does not decide the development mode:
    without [zap-devel] it is off. *)
Lemma operator_development args fs :
  flag_parse operator_flags args = FlagsOk fs ->
  (forall arg, arg ∈ args -> ~ names "zap-devel" arg) -> bool_flag fs "zap-devel" = false.
Proof.
  intros Hf Hn. unfold bool_flag. rewrite (flag_parse_default _ _ _ _ Hf Hn).
  unfold operator_flags, BindFlags. by rewrite (lookup_union_Some_l _ _ _ (FBool false)).
Qed.
End Proofs.

(** The pods a CloudTask controls are found under its name, and no others. *)
Lemma pod_owner_index_spec {K : K8sTypes} (pod : Pod) (name : string) :
  name ∈ pod_owner_index pod <->
  om_Owner (pod_Meta pod) = Some {| or_APIVersion := "tasks.orchestrator.dev/v1";
    or_Kind := "CloudTask"; or_Name := name; or_Controller := true |}.
Proof.
  unfold pod_owner_index. change apiGVStr with "tasks.orchestrator.dev/v1".
  destruct (om_Owner (pod_Meta pod)) as [[v k n []]|]; simpl; [case_decide as Hne| |].
  - split; [by intros ?%not_elem_of_nil|]. intros [= -> -> ->]. by destruct Hne.
  - rewrite list_elem_of_singleton. apply Decidable.not_or in Hne as [Hv Hk].
    apply dec_stable in Hv as ->. apply dec_stable in Hk as ->. split; [by intros ->|by intros [= ->]].
  - split; [by intros ?%not_elem_of_nil|done].
  - split; [by intros ?%not_elem_of_nil|done].
Qed.

(** ** A manager in memory: it records the calls and fails those it is told to *)
Module MemManager.

Record World := { mw_log : list (mgr_call * option string); mw_fails : mgr_call -> bool }.

#[export] Instance manager : Manager World := {
  m_call c w :=
    let r := if mw_fails w c then Some "refused" else None in
    (r, {| mw_log := mw_log w ++ [(c, r)]; mw_fails := mw_fails w |});
  SetLogger _ w := w;
  zap_flags := {["zap-log-level" := FOther "info"]}
}.

#[export] Instance zap : Zap World := {
  zap_build _ w := (None, w);
  zap_log _ w := w;
  zap_sync w := (None, w);
  uuid_new w := ("id", w);
  sprint_v v := match v with LStr s => s | LInt z => pretty z | LFloat _ => "f" end;
  forwarded_hosts s := [s]
}.

#[export] Instance vars : FlagVars := fun _ s => bool_decide (s ∈ ["debug"; "info"; "error"]).

#[export] Instance logrus : Logrus :=
  {| LogrusLevel := nat; LogrusInfo := 4%nat;
     ParseLevel s := if decide (s = "debug") then Some 5%nat else if decide (s = "info") then Some 4%nat else None;
     logrus_New := {| ll_Level := 4%nat; ll_Formatter := TextFormatter; ll_Output := "stderr" |} |}.

#[export] Program Instance laws : ManagerLaws World := {| mgr_log := mw_log |}.
Solve All Obligations with done.

(** The webhook cannot be set up, the rest can. *)
Definition no_webhook : World :=
  {| mw_log := []; mw_fails c := match c with CompleteWebhook _ => true | _ => false end |}.

(** It runs without admission: the manager starts although the webhook failed. *)
Lemma operator_start_up_witness :
  exists o w', operator_main (fun _ => "") ["--leader-elect"] no_webhook = (o, w') /\
    exit_status o = 0 /\ (CompleteWebhook "CloudTask", Some "refused") ∈ mw_log w' /\
    (StartManager, None) ∈ mw_log w'.
Proof.
  destruct (operator_start_up (fun _ => "") ["--leader-elect"] no_webhook)
    as (o & w' & t & E & Ht & _ & [Hz _] & _).
  exists o, w'. split; [exact E|]. simpl in Ht. rewrite Ht.
  assert (exit_status o = 0) as H0 by (vm_compute in E; by injection E as <- _).
  split; [exact H0|]. split.
  - change t with ([] ++ t). rewrite <-Ht. vm_compute in E. injection E as _ <-.
    simpl. do 6 right. left.
  - destruct (Hz H0) as [Hs|[Hh _]]; [exact Hs|]. vm_compute in Hh. discriminate.
Defined.

Lemma manager_servers_guarded_witness :
  exists o w' opts, manager_main ["--metrics-bind-address=:8443"] no_webhook = (o, w') /\
    (NewManager opts, None) ∈ mw_log w' /\
    ms_FilterProvider (mo_Metrics opts) = WithAuthenticationAndAuthorization.
Proof.
  destruct (manager_servers_guarded ["--metrics-bind-address=:8443"] no_webhook)
    as (o & w' & t & E & Ht & Hall). simpl in Ht.
  assert (exists opts, (NewManager opts, None) ∈ t) as [opts Hin].
  { rewrite <-Ht. unfold manager_main, manager_run in E. vm_compute in E. injection E as _ <-.
    eexists. simpl. do 3 right. left. }
  exists o, w', opts. split; [exact E|]. split; [by rewrite Ht|].
  destruct (Hall opts None Hin) as (_ & Hsec & Hfilter). apply Hfilter, Hsec.
  intros arg ->%list_elem_of_singleton (v & Hv). vm_compute in Hv. discriminate.
Defined.
End MemManager.
