(* ===== verification/Programs.v ===== *)
(** * The programs of module 2 that serve requests

    [cmd/api-gateway/main.go] from the flags to the end of the graceful shutdown,
    around [gateway_setup] and [gw_serve] of [ApiServer], and
    [cmd/mock-scheduler/main.go] around [main_service] of [Scenario].

    The network is the class [Host].  The gateway's server runs in a goroutine while
    [main] waits for a signal; [await] says which of the two comes first: the
    server's error or the signal.  The mock scheduler's [main] and its
    [handleShutdown] goroutine meet only in the gRPC server, and are the step
    relation [mock_step]. *)

From S2P Require Import Prelude GoStrings GoTime Kube Http Auth RateLimiter.
From S2P Require Import TaskHandler Router Module1Client Logger ApiServer MockScheduler Scenario.
From S2P Require Import Flags Process.

(** [http.Server], the handler apart. *)
Record HttpServer := {
  hs_Addr : string;
  hs_ReadTimeout : Z;
  hs_WriteTimeout : Z;
  hs_IdleTimeout : Z
}.

Inductive wait_result : Type :=
| ServerFailed (err : string)
| SignalReceived.

Class Host `{!JwtLib} (W : Type) := {
  await : HttpServer -> Gateway -> W -> wait_result * W;
  http_Shutdown : Z -> W -> option string * W;
  redis_Close : W -> option string * W;
  (** the local address of a UDP socket to this address *)
  dial_udp : string -> W -> option string * W
}.

(** ** The API gateway *)

Section GatewayProgram.
Context {W : Type} `{!Clock W, !RedisPing W, !Grpc W, !JwtLib, !Zap W, !FlagVars, !Logrus, !Host W}.

Definition gateway_flags : flags :=
  list_to_map [("port", FInt 8000); ("log-level", FStr "info"); ("env", FStr "production")].

Definition getLocalIP : GoM W string :=
  ip ← lift (dial_udp "8.8.8.8:80");
  mret (default "localhost" ip).

Definition gateway_server (port : Z) : HttpServer :=
  {| hs_Addr := ":" +:+ pretty port; hs_ReadTimeout := 15 * Second;
     hs_WriteTimeout := 15 * Second; hs_IdleTimeout := 60 * Second |}.

(** The deferred [Close] of the scheduler client, whose error is dropped. *)
Definition close_module1 (c : option (Module1RealClient (W := W))) : Proc W unit :=
  match c with
  | None => mret tt
  | Some c => proc_go (fun w => let '(o, (_, w')) := Close (c, w) in
      (match o with Ret _ => Ret tt | Panic e => Panic e end, w'))
  end.

(** After the signal: the server, Redis, then the deferred calls; a failed shutdown is
    only logged. *)
Definition gateway_shutdown (g : Gateway) (module1Client : option (Module1RealClient (W := W)))
    : Proc W unit :=
  _ ← proc_call (http_Shutdown (10 * Second));
  _ ← (match gw_rateLimiter g with
       | Some _ => _ ← proc_call redis_Close; mret tt
       | None => mret tt
       end);
  _ ← close_module1 module1Client;
  _ ← proc_call zap_sync;
  mret tt.

Definition gateway_main (getenv : string -> string) (args : list string) : Proc W unit :=
  fs ← parse_flags gateway_flags args;
  l ← proc_go (NewLogger (str_flag fs "env"));
  match l with
  | inl _ => os_exit 1
  | inr structuredLogger =>
      let log := InitializeLogger (str_flag fs "log-level") in
      s ← proc_go (gateway_setup getenv);
      match s with
      | inl _ => os_exit 1
      | inr (g, module1Client) =>
          _ ← proc_go getLocalIP;
          r ← proc_call (await (gateway_server (int_flag fs "port")) g);
          match r with
          | ServerFailed _ => os_exit 1
          | SignalReceived => gateway_shutdown g module1Client
          end
      end
  end.
End GatewayProgram.

(** ** The mock scheduler *)

(** [main] up to [Serve]: the listener can fail, and gRPC can refuse the service, which
    is a panic. *)
Definition mock_start (getenv : string -> string) (listen : Z -> option string)
    (register : SchedulerService -> option string) (now : Z) : ending SchedulerService :=
  let config := parseConfig getenv in
  match listen (cf_Port config) with
  | Some _ => Exits 1
  | None =>
      let service := main_service config now in
      match register service with
      | Some _ => Exits 2
      | None => Goes service
      end
  end.

Inductive grpc_server : Type := Serving | Draining | Stopped.

Inductive shutdown_state : Type := WaitSignal | WaitDone | Returned.

(** The gRPC server, the [handleShutdown] goroutine, and the status of the process
    once [main] is left. *)
Record MockProcess := {
  mp_server : grpc_server;
  mp_shutdown : shutdown_state;
  mp_status : option Z
}.

Definition mock_serving : MockProcess :=
  {| mp_server := Serving; mp_shutdown := WaitSignal; mp_status := None |}.

Inductive mock_step : MockProcess -> MockProcess -> Prop :=
(** a signal: the goroutine that calls [GracefulStop] is started *)
| mock_signal s :
    mock_step {| mp_server := s; mp_shutdown := WaitSignal; mp_status := None |}
              {| mp_server := match s with Serving => Draining | _ => s end;
                 mp_shutdown := WaitDone; mp_status := None |}
(** the calls under way finish: [GracefulStop] returns *)
| mock_drained sh :
    mock_step {| mp_server := Draining; mp_shutdown := sh; mp_status := None |}
              {| mp_server := Stopped; mp_shutdown := sh; mp_status := None |}
(** the [select]: done, or ten seconds have passed and [Stop] is called *)
| mock_graceful :
    mock_step {| mp_server := Stopped; mp_shutdown := WaitDone; mp_status := None |}
              {| mp_server := Stopped; mp_shutdown := Returned; mp_status := None |}
| mock_timeout s :
    mock_step {| mp_server := s; mp_shutdown := WaitDone; mp_status := None |}
              {| mp_server := Stopped; mp_shutdown := Returned; mp_status := None |}
(** [Serve] returns: nil after a stop, an error otherwise *)
| mock_return sh :
    mock_step {| mp_server := Stopped; mp_shutdown := sh; mp_status := None |}
              {| mp_server := Stopped; mp_shutdown := sh; mp_status := Some 0 |}
| mock_serve_error sh :
    mock_step {| mp_server := Serving; mp_shutdown := sh; mp_status := None |}
              {| mp_server := Serving; mp_shutdown := sh; mp_status := Some 1 |}.

(** ** Facts *)

(** The number of steps left once the signal has come. *)
Definition mock_measure (p : MockProcess) : nat :=
  match mp_status p with
  | Some _ => 0
  | None =>
      S (match mp_server p with Serving => 2 | Draining => 1 | Stopped => 0 end +
         match mp_shutdown p with WaitSignal => 2 | WaitDone => 1 | Returned => 0 end)%nat
  end.

Lemma mock_step_decreases p p' : mock_step p p' -> (mock_measure p' < mock_measure p)%nat.
Proof. destruct 1; simpl; unfold mock_measure; simpl; try lia; destruct s; simpl; lia. Qed.

Definition mock_inv (p : MockProcess) : Prop :=
  (mp_shutdown p = WaitSignal -> mp_server p = Serving) /\
  (mp_shutdown p = Returned -> mp_server p = Stopped) /\
  (mp_status p = Some 0 -> mp_server p = Stopped /\ mp_shutdown p <> WaitSignal).

Lemma mock_step_inv p p' : mock_step p p' -> mock_inv p -> mock_inv p'.
Proof.
  unfold mock_inv. destruct 1; simpl; intros (H1 & H2 & H3); split_and!; try done; intros Hs;
    try (by destruct s); try (by specialize (H2 Hs)); try (by specialize (H1 Hs)).
  split; [done|]. intros ->. by specialize (H1 eq_refl).
Qed.

Lemma mock_reach_inv p p' : rtc mock_step p p' -> mock_inv p -> mock_inv p'.
Proof. induction 1; eauto using mock_step_inv. Qed.

(** Every history of the mock scheduler is finite and goes on until the process
    ends; it ends with status 0 only after a signal, with the server stopped. *)
Theorem mock_shutdown_terminates :
  well_founded (flip mock_step) /\
  forall p, rtc mock_step mock_serving p ->
    (mp_status p = None -> exists p', mock_step p p') /\
    (mp_status p = Some 0 -> mp_server p = Stopped /\ mp_shutdown p <> WaitSignal).
Proof.
  split.
  - apply (wf_projected lt mock_measure); [|apply lt_wf]. intros p p'. apply mock_step_decreases.
  - intros p Hp. assert (mock_inv p) as (H1 & H2 & H3) by (eapply mock_reach_inv; [done|by split_and!]).
    split; [|done]. destruct p as [[] sh [st|]]; simpl; try done; intros _.
    + eexists. apply mock_serve_error.
    + eexists. apply mock_drained.
    + eexists. apply mock_return.
Qed.

Section GatewayFacts.
Context {W : Type} `{!Clock W, !RedisPing W, !Grpc W, !JwtLib, !Zap W, !FlagVars, !Logrus, !Host W}.

Lemma proc_bind_goes {A B} (m : Proc W A) (k : A -> Proc W B) w b w' :
  (m ≫= k) w = (Goes b, w') -> exists a w1, m w = (Goes a, w1) /\ k a w1 = (Goes b, w').
Proof. unfold mbind, Proc_bind. destruct (m w) as [[a|s] w1]; [eauto|done]. Qed.

Lemma proc_go_goes {A} (m : GoM W A) w a w' : proc_go m w = (Goes a, w') -> m w = (Ret a, w').
Proof. unfold proc_go. destruct (m w) as [[a'|e] w1]; congruence. Qed.

Lemma gateway_setup_jwt getenv w g c w' :
  gateway_setup getenv w = (Ret (inr (g, c)), w') ->
  NewJWTManager (jwt_environment getenv) (jwt_algorithm getenv) = inr (gw_jwt g).
Proof.
  unfold gateway_setup. destruct (NewJWTManager _ _) as [e|j]; [intros E; go_run_in E|].
  rewrite lift_bind. destruct (redis_ping w) as [p w1]. unfold mbind, GoM_bind.
  destruct (NewModule1RealClient getenv w1) as [[[e|m]|e] w2]; intros E; go_run_in E; done.
Qed.

(** The gateway ends without an error only when a signal stopped a server that had
    the JWT manager of the environment and listened on the port of the flags. *)
Theorem gateway_main_served getenv args w w' :
  gateway_main getenv args w = (Goes tt, w') ->
  exists fs g w1, flag_parse gateway_flags args = FlagsOk fs /\
    NewJWTManager (jwt_environment getenv) (jwt_algorithm getenv) = inr (gw_jwt g) /\
    (await (gateway_server (int_flag fs "port")) g w1).1 = SignalReceived.
Proof.
  intros (fs & w1 & E1 & E)%proc_bind_goes. unfold parse_flags in E1.
  destruct (flag_parse gateway_flags args) as [fs'| |] eqn:Ef; [|done..]. injection E1 as -> _.
  apply proc_bind_goes in E as ([e|l] & w2 & _ & E); [done|].
  apply proc_bind_goes in E as ([e|[g c]] & w3 & Es & E); [done|].
  apply proc_go_goes, gateway_setup_jwt in Es.
  apply proc_bind_goes in E as (ip & w4 & _ & E).
  apply proc_bind_goes in E as (r & w5 & Er & E). exists fs, g, w4. split_and!; [done..|].
  unfold proc_call in Er. destruct (await _ g w4) as [r' w5'] eqn:Ea. injection Er as -> ->.
  by destruct r.
Qed.

End GatewayFacts.
