(* ===== verification/EndToEnd.v ===== *)
(** * From the request to the pod

    The gateway and the operator meet in the stored CloudTask.  The theorem follows
    a request through the router, its middleware and [CreateTask] to the stored
    object, and from there through [Reconcile] to the pod: a task that was answered
    with 201 runs in the namespace of the token's tenant with the image, command and
    arguments of the request. *)

From Stdlib Require Import Ascii.
From S2P Require Import Prelude GoStrings GoTime Kube CloudTaskApi CloudTaskController Validators Http.
From S2P Require Import Auth RateLimiter TaskHandler Router MemKube CloudTaskProofs TaskHandlerProofs.
From S2P Require Import RouterProofs.

Section EndToEnd.
Context {K : K8sTypes} {A : Admission} {G : GatewayLib} `{!JwtLib} {W : Type}.
Context `{!Client W CloudTask, !Client W Pod, !Clock W, !Recorder W, OR : !OwnerRefs CloudTask}.
Context `{!Redis W, !Probes W}.
Context `{LT : !ClientLaws W CloudTask, LP : !ClientLaws W Pod}.
Context `{FTP : !ClientFrame W CloudTask Pod c_store, FPT : !ClientFrame W Pod CloudTask c_store}.
Context `{ET : !EnvFrame W CloudTask c_store, EP : !EnvFrame W Pod c_store}.

Abbreviation tasks := (c_store (T := CloudTask)).
Abbreviation pods := (c_store (T := Pod)).

(** What the error writers leave as the status. *)
Lemma writeError_code code msg err (w : W) rw o w' rw' :
  rw_code rw = None -> writeError code msg err (w, rw) = (o, (w', rw')) -> rw_code rw' = Some code.
Proof.
  intros Hrw E. unfold writeError, set_header, write_header in E. rewrite !rw_update_bind in E.
  destruct err; injection E as _ _ <-; simpl; rewrite Hrw; done.
Qed.

(** The answer 201 is given for a created task only. *)
Lemma CreateTask_created r w rw w' rw' :
  rw_code rw = None -> CreateTask r (w, rw) = (Ret tt, (w', rw')) ->
  rw_code rw' = Some StatusCreated ->
  exists tenant req t, acceptable r tenant req /\
    c_create (task_of_request tenant (taskID_of req) req) w = (inr t, w').
Proof.
  intros Hrw E Hcode. unfold CreateTask in E.
  assert (forall code msg err st, st.2 = rw -> code <> StatusCreated ->
    writeError code msg err st <> (Ret tt, (w', rw'))) as Hno.
  { intros code msg err [w0 rw0] Hst Hne Ew. simpl in Hst. subst rw0. apply (writeError_code _ _ _ _ _ _ _ _ Hrw) in Ew. congruence. }
  destruct (GetTenantIDFromContext (rq_Ctx r)) as [err|tenant] eqn:Ht; [by apply Hno in E|].
  destruct (rq_Body r) as [err|content] eqn:Hb; [by apply Hno in E|].
  destruct (unmarshal_create content) as [err|req] eqn:Hu; [by apply Hno in E|]. cbn zeta in E.
  case_decide as Hv.
  { exfalso. injection E as _ <-. simpl in Hcode. by rewrite Hrw in Hcode. }
  case_decide as Hten; [by apply Hno in E|].
  destruct (ValidateTaskID (taskID_of req)) as [err|] eqn:Hid; [by apply Hno in E|].
  rewrite on_world_bind in E. unfold lift in E.
  destruct (c_create _ w) as [[e|t] w1] eqn:Ec.
  { exfalso. destruct e; by apply Hno in E. }
  exists tenant, req, t. split; [by split_and!; eauto|]. unfold writeJSON, set_header, write_header in E.
  rewrite !rw_update_bind in E. injection E as -> _. done.
Qed.

(** Through the router: a POST to the collection that is answered with 201. *)
Lemma serve_created rt req w w' rw' :
  (forall w, tasks (clock_now w).2 = tasks w) ->
  rq_Method req = "POST" -> rq_Path req = "/v1/tasks" ->
  ctx_claims (rq_Ctx req) = None ->
  serve rt req (w, fresh_response) = (Ret tt, (w', rw')) -> rw_code rw' = Some StatusCreated ->
  exists c w1 w2 w3 r content t,
    w1 = (clock_now (clock_now w).2).2 /\ tasks w2 = tasks w /\ tasks w' = tasks w3 /\
    ValidateToken (rt_jwtManager rt) (router_extractBearerToken req) w1 = (Ret (inr c), w2) /\
    rq_Body req = inr content /\ unmarshal_create content = inr r /\
    req_TenantID r = cl_TenantID c /\
    c_create (task_of_request (cl_TenantID c) (taskID_of r) r) w2 = (inr t, w3).
Proof.
  intros Hclock Hm Hp Hc E Hcode. unfold serve, SetupRoutes in E. rewrite Hp, Hm in E. simpl in E.
  destruct (v1_chain_run Hclock rt CreateTask req w fresh_response Hc)
    as [(? & _ & Ho)|(w1 & rw1 & req1 & Hw1 & Hclk & (Hh & _ & _ & Hb) & Hrw & Er)]; [congruence|].
  rewrite Er in E. specialize (Hrw eq_refl).
  assert (router_extractBearerToken req1 = router_extractBearerToken req) as Htok
    by (unfold router_extractBearerToken, header_get; by rewrite Hh).
  destruct (authMiddleware_guards Hclock rt CreateTask req1 w1 rw1)
    as [(w2 & rw2 & Ea & _ & Hn)|(c & w2 & Ev & Hw2 & Ea)].
  { exfalso. rewrite (GoM_bind_ret _ _ _ _ _ Ea), on_world_bind in E. unfold lift in E.
    destruct (clock_now w2). injection E as _ <-. by apply Hn. }
  unfold mbind, GoM_bind in E. rewrite Ea in E.
  destruct (CreateTask _ (w2, rw1)) as [[[]|e] [w3 rw3]] eqn:Ec; [|done].
  unfold on_world, lift in E. simpl in E. pose proof (Hclock w3) as H3.
  destruct (clock_now w3) as [now w4]. injection E as <- <-.
  destruct (CreateTask_created _ _ _ _ _ Hrw Ec Hcode)
    as (tenant & r & t & (Ht & (content & Hcont & Hu) & _ & Hten & _) & Hcreate).
  simpl in Ht. injection Ht as <-. simpl in Hcont.
  exists c, w1, w2, w3, r, content, t. rewrite <-Htok. split_and!; try done; congruence.
Qed.

(** The pod of a task runs what its spec says, whether or not admission rewrote it. *)
Lemma built_for_container t p :
  (forall s : CloudTaskSpec, admit_spec s = s \/ admit_spec s = default_spec s) -> built_for t p ->
  exists ct, ps_Containers (pod_Spec p) = [ct] /\ ct_Image ct = spec_Image (task_Spec t) /\
    ct_Command ct = spec_Command (task_Spec t) /\ ct_Args ct = spec_Args (task_Spec t).
Proof.
  intros Hadm (s & Hs & [_ Hc _ _] & _). simpl in Hc.
  apply Forall2_cons_inv_l in Hc as (ct & l & Hct & Hl & Hps). apply Forall2_nil_inv_l in Hl as ->.
  exists ct. split; [done|]. rewrite (ca_Image _ _ Hct), (ca_Command _ _ Hct), (ca_Args _ _ Hct).
  simpl. destruct Hs as [->| ->]; [done|]. by destruct (Hadm (task_Spec t)) as [->| ->].
Qed.

(** C20: from the request to the pod.  When the gateway answers a POST to the task
    collection with 201, the bearer token was valid when it was served, the body asked for a task of
    the token's tenant, and the task is stored under its name in the tenant's
    namespace; and a call of [Reconcile] that reports no error, made while
    the stored task still has the spec it was created with, is not being deleted and
    has neither a pod name nor a phase other than Pending, makes, in the same
    namespace, a pod that was not there, with one container that has the image,
    command and arguments of the request (as the server's defaulting and admission
    keep them), and leaves the task Running.  The admission of CloudTasks is
    assumed to be the webhook's defaults or the identity. *)
Theorem created_task_runs rt req w w' rw' :
  owner_refs_ok CloudTask ->
  (forall s, admit_spec s = s \/ admit_spec s = default_spec s) ->
  rq_Method req = "POST" -> rq_Path req = "/v1/tasks" ->
  ctx_claims (rq_Ctx req) = None ->
  serve rt req (w, fresh_response) = (Ret tt, (w', rw')) -> rw_code rw' = Some StatusCreated ->
  exists c w2 content r t,
    ValidateToken (rt_jwtManager rt) (router_extractBearerToken req)
      (clock_now (clock_now w).2).2 = (Ret (inr c), w2) /\
    rq_Body req = inr content /\ unmarshal_create content = inr r /\
    req_TenantID r = cl_TenantID c /\
    let ns := tenant_namespace (cl_TenantID c) in
    tasks w' = <[(ns, taskID_of r) := t]> (tasks w) /\
    forall w3 t3 res w4, tasks w3 !! (ns, taskID_of r) = Some t3 ->
      task_Spec t3 = task_Spec t -> om_DeletionTimestamp (task_Meta t3) = None ->
      st_Phase (task_Status t3) = "" \/ st_Phase (task_Status t3) = PhasePending ->
      st_PodName (task_Status t3) = "" ->
      Reconcile (ns, taskID_of r) w3 = (Ret (res, None), w4) ->
      pods w3 !! (ns, taskID_of r +:+ "-pod") = None /\
      (exists p ct, pods w4 !! (ns, taskID_of r +:+ "-pod") = Some p /\
        ps_Containers (pod_Spec p) = [ct] /\ ct_Image ct = req_Image r /\
        ct_Command ct = req_Command r /\ ct_Args ct = req_Args r) /\
      exists t', tasks w4 !! (ns, taskID_of r) = Some t' /\
        st_Phase (task_Status t') = PhaseRunning.
Proof.
  intros Hown Hadm Hm Hp Hc E Hcode.
  destruct (serve_created rt req w w' rw' frame_clock Hm Hp Hc E Hcode)
    as (c & w1 & w2 & w3 & r & content & t & -> & Hw2 & Hw3 & Hv & Hb & Hu & Hten & Hcr).
  apply c_create_spec in Hcr as (_ & (_ & _ & Hd & Hsp & Hst) & Hk & Hs).
  exists c, w2, content, r, t. split_and!; [done..|].
  cbn zeta. split; [by rewrite Hw3, Hs, Hw2|]. intros u t3 res u' Hu3 Hsp3 Hd3 Hph3 Hpn3 Er.
  pose proof (c_store_key (T := CloudTask) _ _ _ Hu3) as Hk3.
  destruct (Reconcile_new_task _ _ _ _ _ Hown Hu3 Hd3 Hph3 Hpn3 Er)
    as (_ & Hfree & (p & Hpod & Hbuilt) & t' & Ht' & Hph & _).
  assert (own_pod_key t3 = (tenant_namespace (cl_TenantID c), taskID_of r +:+ "-pod")) as Hok
    by (unfold own_pod_key, task_Namespace, task_Name; by injection Hk3 as -> ->).
  rewrite Hok in Hfree, Hpod. split; [done|]. split; [|by exists t'].
  destruct (built_for_container t3 p Hadm Hbuilt) as (ct & Hct & Hi & Hcm & Ha).
  exists p, ct. rewrite Hi, Hcm, Ha, Hsp3, Hsp.
  destruct (Hadm (task_Spec (task_of_request (cl_TenantID c) (taskID_of r) r))) as [->| ->]; done.
Qed.
End EndToEnd.

(** ** A request through both programs, on the in-memory server *)

Section Witnesses.
#[local] Existing Instance toy_jwt.
#[local] Existing Instance toy_gateway.
#[local] Existing Instance no_webhook.
#[local] Existing Instance no_redis.
#[local] Existing Instance good_probes.

Definition w_created : MemWorld := (serve ex_router r_create (gw_world [], fresh_response)).2.1.
Definition w_started : MemWorld := (Reconcile ("tenant-acme", "t1") w_created).2.

Lemma created_task_runs_witness :
  exists p ct, c_store (T := Pod) w_started !! ("tenant-acme", "t1-pod") = Some p /\
    ps_Containers (pod_Spec p) = [ct] /\ ct_Image ct = "busybox:latest" /\ ct_Command ct = ["ls"].
Proof.
  destruct (created_task_runs ex_router r_create (gw_world []) w_created
    (serve ex_router r_create (gw_world [], fresh_response)).2.2 mem_owner_task_ok)
    as (c & w2 & content & r & t & Hv & Hb & Hu & Hten & Hs & Hrun);
    [intros s; by left|reflexivity|reflexivity|reflexivity| |by vm_compute|].
  { assert ((serve ex_router r_create (gw_world [], fresh_response)).1 = Ret tt) as Eo by by vm_compute.
    unfold w_created. destruct (serve _ _ _) as [o [w rw]]. simpl in *. by subst o. }
  injection Hb as <-. injection Hu as <-. simpl in Hten. rewrite <-Hten in Hs, Hrun.
  assert (task_Status t = emptyStatus /\ om_DeletionTimestamp (task_Meta t) = None) as [Hst Hd].
  { assert (c_store (T := CloudTask) w_created !! ("tenant-acme", "t1") = Some t) as Ht
      by exact (eq_trans (f_equal (lookup _) Hs) (lookup_insert_eq _ _ _)).
    vm_compute in Ht. injection Ht as <-. by split. }
  destruct (Hrun w_created t (after 30) w_started) as (_ & (p & ct & Hp & Hct & Hi & Hc & _) & _).
  - by rewrite Hs, lookup_insert_eq.
  - done.
  - done.
  - rewrite Hst. by left.
  - by rewrite Hst.
  - change (tenant_namespace "acme", taskID_of (ex_req "t1" 3)) with ("tenant-acme", "t1").
    assert ((Reconcile ("tenant-acme", "t1") w_created).1 = Ret (after 30, None)) as Eo by by vm_compute.
    unfold w_started. destruct (Reconcile _ _) as [o w]. simpl in *. by subst o.
  - exists p, ct. by split_and!.
Defined.
End Witnesses.
