(* ===== verification/System.v ===== *)
(** * The whole system: gateway, operator and cluster together

    Requests through the router, calls of [Reconcile] and what the cluster does by
    itself, in any order and number.  [tenant_footprint] is the isolation of tenants
    for the system: nothing appears in a namespace unless a request with a valid
    token of its tenant was served, somebody created an object there without the
    gateway, or a task was there to begin with. *)

From S2P Require Import Prelude GoStrings GoTime Kube CloudTaskApi CloudTaskController Validators Http.
From S2P Require Import Auth RateLimiter TaskHandler Router MemKube CloudTaskProofs TaskHandlerProofs.
From S2P Require Import RouterProofs EndToEnd.

Section System.
Context {K : K8sTypes} {A : Admission} {G : GatewayLib} `{!JwtLib} {W : Type}.
Context `{!Client W CloudTask, !Client W Pod, !Clock W, !Recorder W, OR : !OwnerRefs CloudTask}.
Context `{!Redis W, !Probes W}.
Context `{LT : !ClientLaws W CloudTask, LP : !ClientLaws W Pod}.
Context `{FTP : !ClientFrame W CloudTask Pod c_store, FPT : !ClientFrame W Pod CloudTask c_store}.
Context `{ET : !EnvFrame W CloudTask c_store, EP : !EnvFrame W Pod c_store}.

Abbreviation tasks := (c_store (T := CloudTask)).
Abbreviation pods := (c_store (T := Pod)).

(** The kubelet, the garbage collector and the users of the cluster: tasks and pods
    change or go away, and new ones appear in the namespaces [ns] only (the tenants'
    role lets them create tasks without the gateway). *)
Definition cluster_env (ns : list string) (w w' : W) : Prop :=
  (forall k, k ∈ dom (tasks w') -> k ∈ dom (tasks w) \/ k.1 ∈ ns) /\
  (forall k, k ∈ dom (pods w') -> k ∈ dom (pods w) \/ k.1 ∈ ns).

(** [sys_run rt w rs ds w']: from [w] the system gets to [w'] and has served the requests
    [rs], each with the world it arrived in, the last one first; [ds] are the namespaces
    in which others have created objects. *)
Inductive sys_run (rt : Router) (w : W) : list (W * Request) -> list string -> W -> Prop :=
| sys_start : sys_run rt w [] [] w
| sys_request rs ds w1 req :
    sys_run rt w rs ds w1 -> ctx_claims (rq_Ctx req) = None -> ctx_request_id (rq_Ctx req) = None ->
    sys_run rt w ((w1, req) :: rs) ds (serve rt req (w1, fresh_response)).2.1
| sys_reconcile rs ds w1 k : sys_run rt w rs ds w1 -> sys_run rt w rs ds (Reconcile k w1).2
| sys_env rs ds w1 ns w2 :
    sys_run rt w rs ds w1 -> cluster_env ns w1 w2 -> sys_run rt w rs (ns ++ ds) w2.

(** A served request whose token the manager accepted, with these claims, when it was
    served: after the two clock readings that come before authentication. *)
Definition validated (rt : Router) (sr : W * Request) (c : Claims) : Prop :=
  exists w', ValidateToken (rt_jwtManager rt) (router_extractBearerToken sr.2)
    (clock_now (clock_now sr.1).2).2 = (Ret (inr c), w').

(** ** The gateway and pods *)

Section GatewayPods.
Variable P : gmap NamespacedName Pod.
Abbreviation same_pods := (fun st : HState (W := W) (B := body) => pods st.1 = P).

Lemma preserves_on_world {X} (m : GoM W X) :
  (forall w, pods (m w).2 = pods w) -> preserves same_pods (on_world m).
Proof.
  intros Hm [w rw] Hw. pose proof (Hm w) as Hp. unfold on_world. simpl in *.
  destruct (m w) as [[x|e] w']; simpl in *; congruence.
Qed.

Lemma preserves_lift {X} (op : W -> X * W) :
  (forall w, pods (op w).2 = pods w) -> preserves same_pods (on_world (lift op)).
Proof. intros Hop. apply preserves_on_world. intros w. unfold lift. specialize (Hop w). by destruct (op w). Qed.

Lemma handlers_keep_pods h r : h ∈ task_handlers -> preserves same_pods (h r).
Proof.
  assert (forall f, preserves same_pods (rw_update f)) as Hrw by (by intros f [w rw]).
  pose proof (fun k => preserves_lift (c_get (T := CloudTask) k) (frame_get k)).
  pose proof (fun t : CloudTask => preserves_lift (c_create t) (frame_create t)).
  pose proof (fun t : CloudTask => preserves_lift (c_delete t) (frame_delete t)).
  pose proof (fun ns sel lim => preserves_lift (c_list (T := CloudTask) ns sel lim) (frame_list ns sel lim)).
  unfold task_handlers. rewrite !elem_of_cons, elem_of_nil.
  intros [->|[->|[->|[->|[->|[]]]]]];
    unfold CreateTask, ListTasks, GetTask, DeleteTask, GetTaskLogs, with_own_task, writeError, writeJSON,
      writeValidationErrors, set_header, write_header, write_body;
    repeat first [progress preserves_step | apply Hrw | done].
Qed.
End GatewayPods.


Lemma serve_keeps_pods rt req w :
  ctx_claims (rq_Ctx req) = None -> ctx_request_id (rq_Ctx req) = None ->
  pods (serve rt req (w, fresh_response)).2.1 = pods w.
Proof.
  intros Hc Hid.
  destruct (serve_cases (frame_clock (U := CloudTask)) rt req w Hc Hid) as [(o & w' & rw' & -> & Hw)|(h & Hh & ->)].
  { destruct Hw as [->| ->]; [done|apply (frame_clock (U := Pod))]. }
  destruct (v1_chain_run (frame_clock (U := CloudTask)) rt h req w fresh_response Hc)
    as [(rw1 & -> & _)|(w1 & rw1 & req1 & _ & Hw1 & _ & _ & ->)]; [done|].
  assert (pods w1 = pods w) as Hp by (by rewrite Hw1, !(frame_clock (U := Pod))).
  assert (preserves (fun st : HState (W := W) (B := body) => pods st.1 = pods w)
    (authMiddleware rt h req1 ≫= fun _ => on_world (lift clock_now) ≫= fun _ => mret tt)) as Hpres.
  { assert (preserves (fun st : HState (W := W) (B := body) => pods st.1 = pods w)
      (on_world (lift clock_now))) as Hcl by (apply preserves_lift, (frame_clock (U := Pod))).
    apply preserves_bind; [|intros _; apply preserves_bind; [done|intros; apply preserves_ret]].
    unfold authMiddleware, set_header, write_header, write_body.
    repeat first [progress preserves_step | by intros [? ?] | by apply handlers_keep_pods].
    apply preserves_on_world. intros w0. unfold ValidateToken. case_decide; [done|]. rewrite lift_bind.
    pose proof (frame_clock (U := Pod) w0) as Hw0. destruct (clock_now w0) as [now w2]. simpl in Hw0.
    by repeat case_match. }
  specialize (Hpres (w1, rw1) Hp). revert Hpres.
  match goal with |- match ?x with _ => _ end -> _ => by destruct x as [[u|e] st] end.
Qed.

(** ** The operator *)

Lemma Reconcile_footprint k w :
  owner_refs_ok CloudTask ->
  let w' := (Reconcile k w).2 in
  dom (tasks w') ⊆ dom (tasks w) /\
  forall kp, kp ∈ dom (pods w') -> kp ∈ dom (pods w) \/ exists k0, k0 ∈ dom (tasks w) /\ k0.1 = kp.1.
Proof.
  intros Hown. destruct (Reconcile k w) as [o w'] eqn:E. simpl.
  destruct (tasks w !! k) as [t|] eqn:Ht; cycle 1.
  { unfold Reconcile in E. rewrite lift_bind in E. destruct (c_get k w) as [r w1] eqn:Hg.
    apply get_task_view in Hg as (Ht1 & Hp1 & Hr).
    destruct r as [[| |m]|t]; [injection E as _ <-; rewrite Ht1, Hp1; auto..|congruence]. }
  assert (k ∈ dom (tasks w)) as Hk by (apply elem_of_dom; eauto).
  assert (task_key t = k) as Hkey by exact (c_store_key (T := CloudTask) w k t Ht).
  assert (task_Namespace t = k.1) as Hns by (by rewrite <-Hkey).
  destruct (Reconcile_effect k w t Hown Ht) as (res & w2 & E' & He).
  rewrite E' in E. injection E as _ ->. split.
  - destruct He as [t' _ _ [->|(s & -> & _)] _|_ [->|[->|(t' & -> & _)]] _]; try done; set_solver.
  - intros kp. destruct He as [t' _ Hsame _ [->|(_ & _ & p & _ & _ & ->)]|_ _ [->|Hdel]]; [by left|..|by left|].
    + rewrite dom_insert, elem_of_union, elem_of_singleton. intros [->|?]; [|by left]. right.
      exists k. split; [done|]. destruct Hsame as (Hk' & _). rewrite <-Hns.
      unfold own_pod_key, task_Namespace. simpl. unfold task_key, meta_key in Hk'. by injection Hk' as -> _.
    + destruct Hdel as (_ & [->|(p & _ & ->)]); [set_solver|].
      rewrite dom_insert, elem_of_union, elem_of_singleton. intros [->|?]; [|by left]. right.
      exists k. split; [done|]. by rewrite <-Hns.
Qed.

(** ** The footprint of a tenant *)

(** C19: tenants are isolated in the system as a whole.  Whatever requests are served,
    in whatever order the operator runs and whatever the cluster does by itself,
    every task that was not there at the start lies in the namespace of a tenant
    whose token came with one of the requests and was valid when that request was
    served, or in a namespace where others created objects without the gateway, and
    every pod that was not there lies in such a namespace or in one that had a task at
    the start. *)
Theorem tenant_footprint rt w rs ds w' :
  owner_refs_ok CloudTask -> sys_run rt w rs ds w' ->
  (forall k, k ∈ dom (tasks w') -> k ∈ dom (tasks w) \/ k.1 ∈ ds \/
     exists sr c, sr ∈ rs /\ validated rt sr c /\ k.1 = tenant_namespace (cl_TenantID c)) /\
  (forall kp, kp ∈ dom (pods w') -> kp ∈ dom (pods w) \/
     (exists k, k ∈ dom (tasks w) /\ k.1 = kp.1) \/ kp.1 ∈ ds \/
     exists sr c, sr ∈ rs /\ validated rt sr c /\ kp.1 = tenant_namespace (cl_TenantID c)).
Proof.
  intros Hown. induction 1 as [|rs ds w1 req Hrun IH Hc Hid|rs ds w1 k Hrun IH|rs ds w1 ns w2 Hrun IH [Ht Hp]].
  - split; auto.
  - destruct IH as [IHt IHp]. rewrite (serve_keeps_pods rt req w1 Hc Hid). split.
    + intros k Hk. assert (k ∈ dom (tasks w1) \/ exists c, validated rt (w1, req) c /\
        k.1 = tenant_namespace (cl_TenantID c)) as [Hin|(c & Hv & Hns)].
      { destruct (serve_isolates (frame_clock (U := CloudTask)) rt req w1 Hc Hid) as [Heq|(c & wa & wb & _ & -> & Hv & Hiso)].
        - left. by rewrite Heq in Hk.
        - destruct (decide (k.1 = tenant_namespace (cl_TenantID c))); [right; exists c; split; [by exists wb|done]|].
          left. rewrite elem_of_dom, Hiso in Hk by done. by apply elem_of_dom. }
      * destruct (IHt k Hin) as [?|[?|(r & c & Hr & ?)]]; [by left|by right; left|].
        right. right. exists r, c. set_solver.
      * right. right. exists (w1, req), c. set_solver.
    + intros kp Hkp. destruct (IHp kp Hkp) as [?|[?|[?|(r & c & Hr & ?)]]]; [by left|by right; left|
        by right; right; left|]. right. right. right. exists r, c. set_solver.
  - destruct IH as [IHt IHp]. destruct (Reconcile_footprint k w1 Hown) as [Ht Hp]. split.
    + intros k' Hk'. apply IHt. set_solver.
    + intros kp [Hin|(k0 & Hk0 & <-)]%Hp; [by apply IHp|]. right.
      destruct (IHt k0 Hk0) as [?|?]; [left; by exists k0|by right].
  - destruct IH as [IHt IHp]. split.
    + intros k [Hk|Hns]%Ht; [|right; left; set_solver].
      destruct (IHt k Hk) as [?|[?|?]]; [by left|right; left; set_solver|by right; right].
    + intros k [Hk|Hns]%Hp; [|right; right; left; set_solver].
      destruct (IHp k Hk) as [?|[?|[?|?]]]; [by left|by right; left|right; right; left; set_solver|
        by right; right; right].
Qed.
End System.

(** ** A request, then a call of the operator *)

Section Witnesses.
#[local] Existing Instance toy_jwt.
#[local] Existing Instance toy_gateway.
#[local] Existing Instance no_webhook.
#[local] Existing Instance no_redis.
#[local] Existing Instance good_probes.

(** The pod of the new task is there because of the token of the request. *)
Lemma tenant_footprint_witness :
  ("tenant-acme", "t1-pod") ∈ dom (c_store (T := Pod) w_started) /\
  exists c, validated ex_router (gw_world [], r_create) c /\
    "tenant-acme" = tenant_namespace (cl_TenantID c).
Proof.
  assert (("tenant-acme", "t1-pod") ∈ dom (c_store (T := Pod) w_started)) as Hin.
  { apply elem_of_dom. vm_compute. eauto. }
  split; [exact Hin|].
  assert (sys_run ex_router (gw_world []) [(gw_world [], r_create)] [] w_started) as Hrun.
  { apply sys_reconcile, sys_request; [apply sys_start|reflexivity|reflexivity]. }
  destruct (tenant_footprint ex_router (gw_world []) [(gw_world [], r_create)] [] w_started mem_owner_task_ok Hrun) as [_ Hp].
  destruct (Hp _ Hin) as [H0|[(k & H0 & _)|[H0|(req & c & Hreq & Hv & Hns)]]].
  - assert (c_store (T := Pod) (gw_world []) = ∅) as Hno by reflexivity.
    rewrite Hno, dom_empty in H0. exfalso. exact (not_elem_of_empty _ H0).
  - assert (c_store (T := CloudTask) (gw_world []) = ∅) as Hno by reflexivity.
    rewrite Hno, dom_empty in H0. exfalso. exact (not_elem_of_empty _ H0).
  - exfalso. exact (not_elem_of_nil _ H0).
  - apply list_elem_of_singleton in Hreq as ->. exists c. exact (conj Hv Hns).
Defined.
End Witnesses.
